(* ===== verification/_CoqProject ===== *)
-Q . S2P
Prelude.v
Text.v
Json.v
JsonLoads.v
JsonRoundTrip.v
Dates.v
Base64.v
Schema.v
Config.v
TokenBucket.v
Doubles.v
Session.v
Metrics.v
Pagination.v
Scripts.v
Permissions.v
Security.v
Access.v
AuditTrail.v
Idempotency.v
Events.v
CeleryApp.v
Projects.v
Tasks.v
Organizations.v
Auth.v
Signing.v
Email.v
Webhooks.v
Billing.v
Files.v
Worker.v
Migration.v
MigrationSchema.v
Interpolation.v
MigrationEnv.v
Tracing.v
Lifecycle.v
Refinement.v
RefineServices.v
RefineWorker.v
Main.v
Api.v
Routing.v
Http.v
Logging.v
RefineApi.v
Logs.v
Keyset.v
Transactions.v
Serial.v
Races.v
KeyRaces.v
Locked.v
Sample.v
Tenancy.v
Listing.v
Consistency.v
Replay.v
Credentials.v
Delivery.v
DeliveryTask.v
Payments.v
Signatures.v
RateLimit.v
Login.v
Targets.v
Monitoring.v
Boundaries.v
Responses.v
Concurrency.v
DeliveryRaces.v
