(* ===== verification/Prelude.v ===== *)
(** * TenantFlow API: a verification of the multi-tenant backend

    The program (src/app) is a FastAPI service with a PostgreSQL database, a Redis server and a
    Celery worker.  A request passes the middlewares of main.py, gets one database transaction
    (db/session.py: [get_session]), is authenticated and authorized by the dependencies of
    core/dependencies.py, and runs a use case that writes rows, an audit entry, an idempotency
    record and the deliveries of a domain event, and publishes Celery jobs.  The worker sends
    e-mails, delivers webhooks and cleans up, in transactions of its own.

    A coroutine is a function in the monad [M] of Session.v: state [World] (database, Redis
    buckets, log of the calls that leave the process, tick), exceptions as results.  What the code
    reads from outside (clock, random values, cryptography, Stripe, DNS, ...) is a field of the class
    [Env], a function of the tick, which every such read advances.  Every definition is executable;
    Sample.v instantiates [Env], and the witnesses run on it.

    ** The files

    Python and its libraries, as far as the source uses them:
    - Prelude.v: exceptions (core/exceptions.py), [result], lemmas and tactics shared by all files.
    - Text.v, Json.v, JsonLoads.v, JsonRoundTrip.v, Dates.v, Base64.v: [str] methods, [uuid.UUID],
      [json.dumps] and [json.loads], ISO 8601 datetimes, URL-safe base64.

    State:
    - Schema.v: db/models.py and db/base.py, a record per mapped class; column types ([fits]), CHECK,
      UNIQUE and FOREIGN KEY constraints ([row_ok]), cascades.  Migration.v and MigrationSchema.v: the
      DDL of alembic/versions, executed on a catalog.
    - Config.v: core/config.py.  TokenBucket.v: the Lua script of infra/rate_limit.py.  Doubles.v:
      rounding to IEEE doubles, in which Redis runs it.
    - Session.v: [World], [Env], the statements of an AsyncSession ([select], [scalar], [get],
      [add_flush], [flush_update], [insert_on_conflict_do_nothing]) and [get_session].

    Services and routers, one file per package under modules/, infra/ or core/:
    - Permissions.v, Security.v, Access.v: core/permissions.py, security.py and dependencies.py.
    - AuditTrail.v, Idempotency.v, Events.v (modules/webhooks/events.py), Projects.v, Tasks.v,
      Organizations.v, Auth.v, Signing.v, Webhooks.v, Billing.v, Files.v, Email.v, Pagination.v.
    - Worker.v: workers/tasks.py; the transaction that settles an attempt works with the object of the
      claim, of which it writes the changed columns ([flush_held]).  Metrics.v: observability/metrics.py, the declared metrics and the
      outcome counters.  Logging.v: core/logging.py.  Tracing.v: observability/tracing.py.
      CeleryApp.v: workers/celery_app.py.  Scripts.v: scripts/init_minio.py.
    - Interpolation.v, MigrationEnv.v: alembic/env.py and the option parser it goes through.
    - Api.v: every endpoint as a constructor of [request]; [handle] dispatches to the router
      functions, [serve] wraps [get_session]; [step] is one request, one task run or one clean-up,
      [reachable] the worlds these lead to from the empty database.
    - Routing.v: the routers, the table of paths that main.py builds and the route of every request.
    - Main.v, Http.v: main.py, core/middleware.py and observability/middleware.py: the application
      and its start-up check, the middleware stack and the exception handlers as a function from
      requests to responses, the request log and metrics, the health checks and the scrape.

    Specification and refinement:
    - Lifecycle.v: the abstract specification, how rows of each table may be born, evolve and
      disappear, what every row satisfies beyond the constraints ([lawful]), and the invariants that
      follow by induction on writes.  Refinement.v,
      RefineServices.v, RefineWorker.v, RefineApi.v: every service, endpoint and task is a sequence of
      such writes, to the tables and the tenants its lemma names.

    Concurrency:
    - Transactions.v: a session is a program of statements ([prog]); sessions of a [system] interleave
      under READ COMMITTED, with row locks and waiting INSERTs.  The class [Reified] turns a handler
      into its program, with the proof that the program run alone is the handler.  Serial.v: a system
      of that one session ends as [get_session] does.
    - Races.v: one row of single use under any schedule ([single_use]).  KeyRaces.v: one idempotency
      key under any schedule ([one_answer]).  Locked.v: one row that every session locks before it
      writes it ([serialized]).  Concurrency.v, DeliveryRaces.v: the endpoints and the tasks.

    ** The theorems

    - Tenancy.v: isolation of tenants, authorization, what strangers and members without the
      permission get, refinement of Lifecycle by the API.
    - Consistency.v: the column types and constraints of the schema, the rules of [lawful], the
      single owner and the append-only tables in every reachable world.  MigrationSchema.v: the migration creates the schema of the models.
    - Replay.v: idempotent endpoints repeated later; Concurrency.v: repeated while the first attempt
      is still running.
    - Credentials.v: invitations and refresh tokens are single-use, one request after the other;
      Concurrency.v: with overlapping requests.  DeliveryRaces.v: overlapping runs of one delivery.
    - Routing.v: every request reaches its own endpoint.
    - Delivery.v, DeliveryTask.v, Signatures.v, Targets.v: the fan-out of events, what an attempt
      sends and where to, when retries end, the signature header.
    - Payments.v: Stripe events; whether a signature verifies depends on the time, as Stripe's
      tolerance does.  Login.v, RateLimit.v: the login and its token bucket, whose retry hint is
      sufficient up to the rounding of doubles.
    - Keyset.v, Listing.v: cursors, and what a client reads that follows them while others write.
    - Boundaries.v, Responses.v, Monitoring.v: canonical payloads, log lines, responses and the
      scraped metrics.  MigrationEnv.v: which database URLs reach the migrations.

    ** Assumptions

    The laws of [Env] are hypotheses of the theorems that need them: identifiers below 2^128
    (uuid4), an e-mail validator that accepts its own output, rounding that is monotone, exact on
    small integers and of relative error at most 2^-53 (the doubles of Lua, proved of [double] in
    Doubles.v; the quota alone assumes exact arithmetic), an access token that names one account ([identifies]), a
    broker or Redis that is up.  Sample.v shows that they can hold.  Cursors carry UUIDs and datetimes
    that fit their types ([typed_keys]): Schema.v keeps identifiers as N and datetimes as Z
    (microseconds), without the bounds.

    ** Bounds and fuel

    [json.loads] scans with fuel twice the length of the text plus one, and [scan_fuel] shows that
    more fuel changes nothing; literals of more than 4300 digits fail, as CPython's do.  Every other
    function is structurally recursive.  A [str] is a sequence of code points up to U+00FF: text that
    [json.loads] reads above that range becomes "?".  VARCHAR widths and the ranges of INTEGER and
    BIGINT columns are part of [fits]; Python integers are unbounded.

    ** What the model leaves out

    - Overlapping runs are modelled for the sessions of Concurrency.v and DeliveryRaces.v; the other
      theorems, those about [reachable] worlds among them, are about requests and task runs one after
      the other.  In Transactions.v a
      waiting statement starts when its lock is free, an update writes the whole row where the ORM
      writes the changed columns (the settlements of a delivery excepted), sessions delete nothing, deadlocks end by losing a session, and the
      FOR UPDATE of [retry_delivery], over a join, locks the delivery but not the endpoint's row.
    - Parameters, with laws where a theorem needs them: how Starlette matches path templates and
      answers an unmatched path, the headers CORSMiddleware adds to an answer (its own answers to
      preflight requests are left out), the generated OpenAPI routes, the effect of the pending
      migrations on the catalog.
    - Libraries: FastAPI's parsing of bodies and paths, SQLAlchemy's engine and pool, Celery's
      messages and scheduler, boto3, the SMTP and Stripe servers, the text of prometheus_client's
      exposition format.  OpenTelemetry's calls are taken to succeed.
    - The recursion limit of the interpreter, memory, and time other than the clock. *)
From stdpp Require Export base gmap strings list sets sorting.
From Stdlib Require Export ZArith NArith Lia Ascii String.
#[export] Set Default Goal Selector "!".

(** ** Exceptions

    The Python exceptions the code raises or catches.  [AppError] carries the fields of the
    dataclass of core/exceptions.py; the other constructors are the library exceptions that
    reach a handler. *)
Inductive exn :=
  | AppError (code message : string) (status_code : Z)
  | HTTPException (status_code : Z) (detail : string) (headers : list (string * string))
  | RequestValidationError
  | ValidationError
  | ValueError (message : string)
  | KeyError (key : string)
  | IndexError
  | AttributeError
  | TypeError
  | RuntimeError (message : string)
  | PyJWTError
  | IntegrityError
  | DataError
  | StaleDataError
  | OperationalError
  | RedisError
  | HTTPError (message : string)
  | SMTPException
  | OSError
  | InvalidToken
  | StripeError
  | StripeWebhookVerificationError
  | Retry.

#[export] Instance exn_eq_dec : EqDecision exn.
Proof. solve_decision. Defined.

Definition NotFoundError (code message : string) : exn := AppError code message 404.
Definition ForbiddenError (code message : string) : exn := AppError code message 403.
Definition ConflictError (code message : string) : exn := AppError code message 409.
Definition AuthenticationError (message : string) : exn :=
  AppError "AUTHENTICATION_FAILED" message 401.

(** The outcome of a Python call: a value or an exception. *)
Inductive result (A : Type) :=
  | Ok (a : A)
  | Err (e : exn).
Arguments Ok {A} a.
Arguments Err {A} e.

(** A list comprehension whose body may raise. *)
Fixpoint traverse {A B} (f : A -> result B) (l : list A) : result (list B) :=
  match l with
  | [] => Ok []
  | a :: l' =>
      match f a with
      | Err e => Err e
      | Ok b => match traverse f l' with Ok bs => Ok (b :: bs) | Err e => Err e end
      end
  end.

Definition is_ok {A} (r : result A) : bool := match r with Ok _ => true | Err _ => false end.

(** ** Identifiers and time

    A [uuid] is its 128-bit integer value; a [datetime] is an instant, in microseconds since the
    Unix epoch; a timedelta is a number of microseconds. *)
Abbreviation uuid := N (only parsing).
Abbreviation datetime := Z (only parsing).

Definition seconds (n : Z) : Z := n * 1000000.
Definition minutes (n : Z) : Z := seconds (60 * n).
Definition hours (n : Z) : Z := minutes (60 * n).
Definition days (n : Z) : Z := hours (24 * n).

(** ** Tactics *)

(** Case analysis on every [match] and [if] of the goal or of [H]. *)
Ltac split_match_in H :=
  repeat match type of H with
  | context [match ?x with _ => _ end] => let E := fresh "E" in destruct x eqn:E; simplify_eq
  end.

(** Turns boolean connectives and reflected tests of the context into propositions. *)
Ltac bool_to_prop :=
  repeat match goal with
  | H : (_ && _)%bool = true |- _ => apply andb_true_iff in H; destruct H
  | H : (_ || _)%bool = false |- _ => apply orb_false_iff in H; destruct H
  | H : negb _ = true |- _ => apply negb_true_iff in H
  | H : negb _ = false |- _ => apply negb_false_iff in H
  | H : bool_decide _ = true |- _ => apply bool_decide_eq_true_1 in H
  | H : bool_decide _ = false |- _ => apply bool_decide_eq_false_1 in H
  | H : (_ =? _)%Z = true |- _ => apply Z.eqb_eq in H
  | H : (_ =? _)%Z = false |- _ => apply Z.eqb_neq in H
  | H : (_ <? _)%Z = true |- _ => apply Z.ltb_lt in H
  | H : (_ <? _)%Z = false |- _ => apply Z.ltb_ge in H
  | H : (_ <=? _)%Z = true |- _ => apply Z.leb_le in H
  | H : (_ <=? _)%Z = false |- _ => apply Z.leb_gt in H
  end.

(** ** Generic lemmas *)
Lemma existsb_false_iff {A} (f : A -> bool) (l : list A) :
  existsb f l = false <-> forall x, x ∈ l -> f x = false.
Proof.
  induction l as [|a l IH]; cbn; [set_solver|].
  rewrite orb_false_iff, IH. set_solver.
Qed.

Lemma head_elem_of {A} (l : list A) (x : A) : head l = Some x -> x ∈ l.
Proof. destruct l; cbn; [done|]. intros [= ->]. set_solver. Qed.

Lemma head_None_nil {A} (l : list A) : head l = None <-> l = [].
Proof. by destruct l. Qed.

Lemma NoDup_fst_unique {K V} (l : list (K * V)) k x y :
  NoDup l.*1 -> (k, x) ∈ l -> (k, y) ∈ l -> x = y.
Proof.
  induction l as [|[k' z] l IH]; [set_solver|]. cbn. intros [Hk Hl]%NoDup_cons.
  rewrite !elem_of_cons. intros [[= <- <-]|Hx] [[= -> ]|Hy]; try done.
  - destruct Hk. apply list_elem_of_fmap. by exists (k, y).
  - destruct Hk. apply list_elem_of_fmap. by exists (k', x).
  - by apply IH.
Qed.
