(* ===== verification/Text.v ===== *)
(** * Text: the Python [str] operations the program uses

    A [str] is the sequence of its code points, restricted to U+0000..U+00FF: one [ascii] per
    code point.  On that range [str.lower], [str.strip] and [str.isalnum] are given by the
    Unicode tables, and [uuid.UUID] and [int(_, 16)] by CPython's Lib/uuid.py and
    longobject.c. *)
From S2P Require Import Prelude.
From stdpp Require Import pretty.
#[local] Open Scope string_scope.

Definition code (c : ascii) : N := N_of_ascii c.

(** ** [str.lower] and [str.strip] *)
Definition lower_char (c : ascii) : ascii :=
  let n := code c in
  if ((65 <=? n) && (n <=? 90))%N || ((192 <=? n) && (n <=? 222) && negb (n =? 215))%N
  then ascii_of_N (n + 32) else c.

Fixpoint lower (s : string) : string :=
  match s with EmptyString => EmptyString | String c s' => String (lower_char c) (lower s') end.

Definition is_space (c : ascii) : bool :=
  let n := code c in
  ((9 <=? n) && (n <=? 13))%N || ((28 <=? n) && (n <=? 32))%N || (n =? 133)%N || (n =? 160)%N.

Fixpoint lstrip_by (p : ascii -> bool) (s : string) : string :=
  match s with
  | EmptyString => EmptyString
  | String c s' => if p c then lstrip_by p s' else s
  end.

Fixpoint rstrip_by (p : ascii -> bool) (s : string) : string :=
  match s with
  | EmptyString => EmptyString
  | String c s' =>
      match rstrip_by p s' with
      | EmptyString => if p c then EmptyString else String c EmptyString
      | r => String c r
      end
  end.

Definition strip_by (p : ascii -> bool) (s : string) : string := rstrip_by p (lstrip_by p s).
Definition strip (s : string) : string := strip_by is_space s.

(** ** Hexadecimal *)
Definition hex_char (d : N) : ascii :=
  if (d <? 10)%N then ascii_of_N (48 + d) else ascii_of_N (87 + d).

Definition hex_val (c : ascii) : option N :=
  let n := code c in
  if ((48 <=? n) && (n <=? 57))%N then Some (n - 48)%N
  else if ((97 <=? n) && (n <=? 102))%N then Some (n - 87)%N
  else if ((65 <=? n) && (n <=? 70))%N then Some (n - 55)%N
  else None.

(** The bytes that a string of hexadecimal digits denotes: [digest()] from [hexdigest()]. *)
Fixpoint fromhex (s : string) : list N :=
  match s with
  | String a (String b s') => (default 0 (hex_val a) * 16 + default 0 (hex_val b))%N :: fromhex s'
  | _ => []
  end.

(** [x] in exactly [k] lower-case digits. *)
Fixpoint hex_fixed (k : nat) (x : N) : string :=
  match k with
  | O => EmptyString
  | S k' => hex_fixed k' (x / 16) +:+ String (hex_char (x mod 16)) EmptyString
  end.

(** The digits of an integer literal: single underscores are allowed between digits.  [ok] says
    that the literal may end, or an underscore follow, here. *)
Fixpoint hex_digits (ok : bool) (acc : N) (s : string) : option N :=
  match s with
  | EmptyString => if ok then Some acc else None
  | String c s' =>
      if (c =? "_")%char then if ok then hex_digits false acc s' else None
      else match hex_val c with
           | Some d => hex_digits true (16 * acc + d) s'
           | None => None
           end
  end.

Definition hex_literal (s : string) : option N :=
  match s with
  | String a (String b s') =>
      if (a =? "0")%char && ((b =? "x")%char || (b =? "X")%char) then
        match s' with EmptyString => None | _ => hex_digits true 0 s' end
      else hex_digits false 0 s
  | _ => hex_digits false 0 s
  end.

(** [int(s, 16)]. *)
Definition int16 (s : string) : option Z :=
  match strip s with
  | String c s' =>
      if (c =? "-")%char then (fun n => (- Z.of_N n)%Z) <$> hex_literal s'
      else if (c =? "+")%char then Z.of_N <$> hex_literal s'
      else Z.of_N <$> hex_literal (String c s')
  | EmptyString => None
  end.

(** ** [uuid.UUID] *)

(** [str(u)]. *)
Definition uuid_str (u : uuid) : string :=
  hex_fixed 8 (u / 16 ^ 24) +:+ "-" +:+ hex_fixed 4 (u / 16 ^ 20) +:+ "-" +:+
  hex_fixed 4 (u / 16 ^ 16) +:+ "-" +:+ hex_fixed 4 (u / 16 ^ 12) +:+ "-" +:+ hex_fixed 12 u.

Fixpoint drop_prefix (p s : string) : option string :=
  match p, s with
  | EmptyString, _ => Some s
  | String a p', String b s' => if (a =? b)%char then drop_prefix p' s' else None
  | _, EmptyString => None
  end.

(** [s.replace(p, "")] for a non-empty [p]; every step consumes a character, so [length s] is
    enough fuel. *)
Fixpoint erase_fuel (fuel : nat) (p s : string) : string :=
  match fuel, s with
  | O, _ | _, EmptyString => s
  | S fuel', String c s' =>
      match drop_prefix p s with
      | Some rest => erase_fuel fuel' p rest
      | None => String c (erase_fuel fuel' p s')
      end
  end.
Definition erase (p s : string) : string := erase_fuel (String.length s) p s.

Definition is_brace (c : ascii) : bool := (c =? "{")%char || (c =? "}")%char.

(** [UUID(s)]; [None] is the ValueError. *)
Definition uuid_parse (s : string) : option uuid :=
  let hex := erase "-" (strip_by is_brace (erase "uuid:" (erase "urn:" s))) in
  if negb (String.length hex =? 32)%nat then None
  else match int16 hex with
       | Some n => if (0 <=? n)%Z && (n <? 2 ^ 128)%Z then Some (Z.to_N n) else None
       | None => None
       end.

(** ** [sorted(set(l))] of strings, by code points *)
Definition sorted_set (l : list string) : list string := merge_sort String.le (remove_dups l).

Example uuid_str_example :
  uuid_str 0x00112233445566778899aabbccddeeff = "00112233-4455-6677-8899-aabbccddeeff".
Proof. vm_compute. reflexivity. Qed.

Example uuid_parse_urn :
  uuid_parse "urn:uuid:{00112233-4455-6677-8899-AABBCCDDEEFF}" =
    Some 0x00112233445566778899aabbccddeeff%N /\
  uuid_parse "00112233-4455-6677-8899-aabbccddeef" = None.
Proof. vm_compute. done. Qed.

(** ** Lemmas *)

(** Every character of [s] satisfies [P]. *)
Fixpoint all_chars (P : ascii -> Prop) (s : string) : Prop :=
  match s with EmptyString => True | String c s' => P c /\ all_chars P s' end.

Lemma str_app_cons c (a b : string) : String c a +:+ b = String c (a +:+ b).
Proof. reflexivity. Qed.

Lemma str_app_nil_l (a : string) : (EmptyString +:+ a) = a.
Proof. reflexivity. Qed.

Lemma all_chars_app P s1 s2 : all_chars P (s1 +:+ s2)%string <-> all_chars P s1 /\ all_chars P s2.
Proof. induction s1 as [|c s1 IH]; rewrite ?str_app_cons, ?str_app_nil_l; cbn; [tauto|].
  rewrite IH. tauto. Qed.

Lemma all_chars_impl (P Q : ascii -> Prop) s :
  (forall c, P c -> Q c) -> all_chars P s -> all_chars Q s.
Proof. intros HPQ. induction s; cbn; naive_solver. Qed.

Lemma str_app_assoc (a b c : string) : (a +:+ b) +:+ c = a +:+ (b +:+ c).
Proof. induction a as [|x a IH]; [done|]. rewrite !str_app_cons. by rewrite IH. Qed.

Lemma str_app_nil_r (a : string) : a +:+ "" = a.
Proof. induction a as [|x a IH]; [done|]. rewrite !str_app_cons. by rewrite IH. Qed.

Lemma str_app_length (a b : string) :
  String.length (a +:+ b) = (String.length a + String.length b)%nat.
Proof. induction a as [|c a IH]; [done|]. rewrite str_app_cons. cbn. by rewrite IH. Qed.

Lemma lower_char_idem c : lower_char (lower_char c) = lower_char c.
Proof. destruct c as [[] [] [] [] [] [] [] []]; reflexivity. Qed.

Lemma lower_idem s : lower (lower s) = lower s.
Proof. induction s; cbn; [done|]. by rewrite lower_char_idem, IHs. Qed.

(** *** Hexadecimal *)
Definition is_hex_char (c : ascii) : Prop := exists d, (d < 16)%N /\ c = hex_char d.

Lemma hex_val_char d : (d < 16)%N -> hex_val (hex_char d) = Some d.
Proof.
  intros Hd.
  assert (forallb (fun d => bool_decide (hex_val (hex_char d) = Some d))
            (N.of_nat <$> seq 0 16) = true) as H by (vm_compute; done).
  rewrite forallb_forall in H. specialize (H d). rewrite bool_decide_eq_true in H.
  apply H, list_elem_of_In, list_elem_of_fmap. exists (N.to_nat d).
  split; [lia|]. apply elem_of_seq. lia.
Qed.

Lemma hex_char_ne c (l : list ascii) :
  is_hex_char c ->
  l = ["-"; "+"; "_"; "x"; "X"; "u"; "{"; "}"]%char -> (c ∉ l) /\ is_space c = false.
Proof.
  intros (d & Hd & ->) ->.
  assert (forallb (fun d => negb (bool_decide
            (hex_char d ∈ ["-"; "+"; "_"; "x"; "X"; "u"; "{"; "}"]%char))
            && negb (is_space (hex_char d))) (N.of_nat <$> seq 0 16) = true) as H
    by (vm_compute; done).
  rewrite forallb_forall in H. specialize (H d).
  rewrite andb_true_iff, !negb_true_iff, bool_decide_eq_false in H.
  apply H, list_elem_of_In, list_elem_of_fmap. exists (N.to_nat d).
  split; [lia|]. apply elem_of_seq. lia.
Qed.

Lemma hex_fixed_hex k x : all_chars is_hex_char (hex_fixed k x).
Proof.
  revert x. induction k as [|k IH]; intros x; cbn; [done|].
  apply all_chars_app. split; [done|]. cbn. split; [|done].
  exists (x mod 16)%N. split; [|done]. apply N.mod_lt. lia.
Qed.

Lemma hex_fixed_length k x : String.length (hex_fixed k x) = k.
Proof. revert x. induction k as [|k IH]; intros x; cbn; [done|]. rewrite str_app_length, IH. cbn. lia. Qed.

Lemma hex_fixed_app a b x : hex_fixed a (x / 16 ^ N.of_nat b) +:+ hex_fixed b x = hex_fixed (a + b) x.
Proof.
  revert x. induction b as [|b IH]; intros x.
  - cbn [hex_fixed]. rewrite N.pow_0_r, N.div_1_r, str_app_nil_r. by rewrite Nat.add_0_r.
  - rewrite Nat.add_succ_r. cbn [hex_fixed]. rewrite <- str_app_assoc, <- IH. do 3 f_equal.
    rewrite N.Div0.div_div. f_equal. rewrite Nat2N.inj_succ, N.pow_succ_r'. lia.
Qed.

Lemma hex_digits_fixed k x ok acc s :
  hex_digits ok acc (hex_fixed k x +:+ s) =
  hex_digits (match k with O => ok | _ => true end)
    (16 ^ N.of_nat k * acc + x mod 16 ^ N.of_nat k) s.
Proof.
  revert x ok acc s. induction k as [|k IH]; intros x ok acc s.
  - cbn [hex_fixed]. rewrite N.pow_0_r, N.mod_1_r. cbn. f_equal. destruct acc; lia.
  - cbn [hex_fixed]. rewrite str_app_assoc, IH.
    assert (Hm : (x mod 16 < 16)%N) by (apply N.mod_lt; lia).
    destruct (hex_char_ne (hex_char (x mod 16)) _ ltac:(exists (x mod 16)%N; done) eq_refl)
      as [Hne _].
    rewrite str_app_cons, str_app_nil_l.
    cbn [hex_digits]. rewrite hex_val_char by done.
    destruct (Ascii.eqb_spec (hex_char (x mod 16)) "_") as [He|_]; [rewrite He in Hne; set_solver|].
    f_equal. rewrite Nat2N.inj_succ, N.pow_succ_r'.
    rewrite N.Div0.mod_mul_r. lia.
Qed.

(** *** [uuid.UUID] *)
Definition not_char (a c : ascii) : Prop := c <> a.

Lemma drop_prefix_absent a p s :
  all_chars (not_char a) s -> drop_prefix (String a p) s = None.
Proof.
  destruct s as [|c s]; [done|]. intros [Hc _]. cbn.
  destruct (Ascii.eqb_spec a c) as [->|]; [by destruct Hc|done].
Qed.

Lemma erase_absent a p s : all_chars (not_char a) s -> erase (String a p) s = s.
Proof.
  unfold erase. generalize (String.length s) as n. intros n; revert s.
  induction n as [|n IH]; intros [|c s]; try done. intros H.
  cbn [erase_fuel]. rewrite drop_prefix_absent by done. f_equal. apply IH, H.
Qed.

Lemma erase_char_app a s1 s2 :
  all_chars (not_char a) s1 ->
  erase (String a "") (s1 +:+ String a s2) = s1 +:+ erase (String a "") s2.
Proof.
  unfold erase. induction s1 as [|c s1 IH].
  - intros _. rewrite !str_app_nil_l. cbn. by rewrite Ascii.eqb_refl.
  - intros [Hc Hs1]. rewrite !str_app_cons. cbn [String.length erase_fuel drop_prefix].
    destruct (Ascii.eqb_spec a c) as [->|]; [by destruct Hc|]. f_equal. by apply IH.
Qed.

Lemma hex_not_char a s :
  a ∈ ["-"; "+"; "_"; "x"; "X"; "u"; "{"; "}"]%char ->
  all_chars is_hex_char s -> all_chars (not_char a) s.
Proof.
  intros Ha. apply all_chars_impl. intros c Hc ->.
  by destruct (hex_char_ne _ _ Hc eq_refl).
Qed.

Lemma strip_by_absent p s : all_chars (fun c => p c = false) s -> strip_by p s = s.
Proof.
  intros H. unfold strip_by.
  assert (lstrip_by p s = s) as -> by (destruct s as [|c s]; [done|]; cbn; by rewrite (proj1 H)).
  induction s as [|c s IH]; [done|]. destruct H as [Hc Hs]. cbn. rewrite IH by done.
  destruct s; [by rewrite Hc|done].
Qed.

Lemma uuid_hex u : erase "-" (uuid_str u) = hex_fixed 32 u.
Proof.
  unfold uuid_str. rewrite !str_app_cons, !str_app_nil_l.
  rewrite !erase_char_app by (apply hex_not_char; [set_solver|apply hex_fixed_hex]).
  rewrite erase_absent by (apply hex_not_char; [set_solver|apply hex_fixed_hex]).
  rewrite (hex_fixed_app 4 12), (hex_fixed_app 4 16), (hex_fixed_app 4 20), (hex_fixed_app 8 24).
  done.
Qed.

(** A property of the sixteen digits, checked one by one. *)
Lemma hex_char_forall (p : ascii -> bool) :
  forallb p (hex_char ∘ N.of_nat <$> seq 0 16) = true -> forall c, is_hex_char c -> p c = true.
Proof.
  intros H c (d & Hd & ->). rewrite forallb_forall in H.
  apply H, list_elem_of_In, list_elem_of_fmap. exists (N.to_nat d). unfold compose.
  rewrite N2Nat.id. split; [done|]. apply elem_of_seq. lia.
Qed.

Lemma all_chars_forallb (p : ascii -> bool) s :
  all_chars (fun c => p c = true) s <-> forallb p (list_ascii_of_string s) = true.
Proof. induction s as [|c s IH]; cbn; [done|]. by rewrite IH, andb_true_iff. Qed.

Lemma uuid_str_chars (P : ascii -> Prop) u :
  P "-"%char -> (forall c, is_hex_char c -> P c) -> all_chars P (uuid_str u).
Proof.
  intros Hd Hh. unfold uuid_str.
  rewrite !all_chars_app. cbn [all_chars].
  split_and!; try done; (eapply all_chars_impl; [exact Hh|apply hex_fixed_hex]).
Qed.

Lemma uuid_str_length u : String.length (uuid_str u) = 36%nat.
Proof. unfold uuid_str. rewrite !str_app_length, !hex_fixed_length. done. Qed.

Lemma hex_literal_fixed k x :
  k <> O -> hex_literal (hex_fixed k x) = Some (x mod 16 ^ N.of_nat k)%N.
Proof.
  intros Hk. pose proof (hex_fixed_hex k x) as Hh.
  assert (hex_digits false 0 (hex_fixed k x) = Some (x mod 16 ^ N.of_nat k)%N) as Hd.
  { rewrite <- (str_app_nil_r (hex_fixed k x)), hex_digits_fixed. destruct k; [done|].
    cbn [hex_digits]. f_equal; lia. }
  destruct (hex_fixed k x) as [|a [|b s]]; [done..|]. cbn [hex_literal].
  destruct Hh as (_ & Hb & _). destruct (hex_char_ne b _ Hb eq_refl) as [Hne _].
  destruct (Ascii.eqb_spec b "x"), (Ascii.eqb_spec b "X"); [set_solver..|].
  by rewrite andb_false_r.
Qed.

Lemma int16_fixed k x :
  k <> O -> int16 (hex_fixed k x) = Some (Z.of_N (x mod 16 ^ N.of_nat k)).
Proof.
  intros Hk. unfold int16, strip.
  rewrite strip_by_absent.
  2: { eapply all_chars_impl; [|apply hex_fixed_hex]. intros c Hc. by eapply hex_char_ne. }
  pose proof (hex_fixed_hex k x) as Hh. pose proof (hex_literal_fixed k x Hk) as Hl.
  destruct (hex_fixed k x) as [|c s]; [done|]. rewrite Hl.
  destruct (hex_char_ne c _ (proj1 Hh) eq_refl) as [Hne _].
  destruct (Ascii.eqb_spec c "-"), (Ascii.eqb_spec c "+"); set_solver.
Qed.

(** [UUID(str(u)) = u] for every 128-bit [u]. *)
Lemma uuid_parse_str u : (u < 2 ^ 128)%N -> uuid_parse (uuid_str u) = Some u.
Proof.
  intros Hu. unfold uuid_parse.
  assert (all_chars (not_char "u") (uuid_str u)) as Hnu.
  { apply uuid_str_chars; [done|]. intros c Hc ->.
    destruct (hex_char_ne _ _ Hc eq_refl) as [Hne _]. set_solver. }
  rewrite (erase_absent "u" _ (uuid_str u)), (erase_absent "u") by done.
  rewrite strip_by_absent.
  2: { apply uuid_str_chars; [done|]. intros c Hc. unfold is_brace.
       destruct (hex_char_ne _ _ Hc eq_refl) as [Hne _].
       destruct (Ascii.eqb_spec c "{"), (Ascii.eqb_spec c "}"); set_solver. }
  rewrite uuid_hex, hex_fixed_length. cbn [negb Nat.eqb].
  rewrite int16_fixed by done. change (16 ^ N.of_nat 32)%N with (2 ^ 128)%N.
  rewrite N.mod_small by done.
  destruct (Z.leb_spec 0 (Z.of_N u)), (Z.ltb_spec (Z.of_N u) (2 ^ 128)); try lia.
  cbn. by rewrite N2Z.id.
Qed.

Lemma uuid_str_inj u v : (u < 2 ^ 128)%N -> (v < 2 ^ 128)%N -> uuid_str u = uuid_str v -> u = v.
Proof.
  intros Hu Hv H. apply (f_equal uuid_parse) in H.
  rewrite !uuid_parse_str in H by done. congruence.
Qed.

(** *** Sorting *)
Lemma sorted_set_elem l x : x ∈ sorted_set l <-> x ∈ l.
Proof. unfold sorted_set. by rewrite merge_sort_Permutation, elem_of_remove_dups. Qed.

Lemma sorted_set_sorted l : Sorted String.le (sorted_set l).
Proof. apply Sorted_merge_sort, _. Qed.

Lemma sorted_set_NoDup l : NoDup (sorted_set l).
Proof. unfold sorted_set. rewrite merge_sort_Permutation. apply NoDup_remove_dups. Qed.

(** *** Decimal numerals *)
Definition is_digit (c : ascii) : Prop := exists d, (d < 10)%N /\ c = pretty_N_char d.

(** A property of the ten digits, checked one by one. *)
Lemma digit_forall (p : ascii -> bool) :
  forallb p (pretty_N_char ∘ N.of_nat <$> seq 0 10) = true -> forall c, is_digit c -> p c = true.
Proof.
  intros H c (d & Hd & ->). rewrite forallb_forall in H.
  apply H, list_elem_of_In, list_elem_of_fmap. exists (N.to_nat d). unfold compose.
  rewrite N2Nat.id. split; [done|]. apply elem_of_seq. lia.
Qed.

Lemma div10_lt x : (0 < x)%N -> (x / 10 < x)%N.
Proof. intros. by apply N.div_lt. Qed.

Lemma pretty_go_chars x s :
  all_chars is_digit s -> all_chars is_digit (pretty_N_go x s).
Proof.
  revert s. induction (N.lt_wf_0 x) as [x _ IH]; intros s Hs.
  destruct (decide (0 < x)%N) as [Hx|Hx].
  - rewrite pretty_N_go_step by done. apply IH; [by apply div10_lt|]. split; [|done].
    exists (x mod 10)%N. split; [by apply N.mod_lt|done].
  - assert (x = 0)%N as -> by lia. done.
Qed.

Lemma pretty_go_length x s k :
  (x < 10 ^ N.of_nat k)%N -> (String.length (pretty_N_go x s) <= k + String.length s)%nat.
Proof.
  revert x s. induction k as [|k IH]; intros x s Hx.
  - assert (x = 0)%N as -> by (cbn in Hx; lia). rewrite pretty_N_go_0. lia.
  - destruct (decide (0 < x)%N) as [H0|H0].
    + rewrite pretty_N_go_step by done. etrans; [apply IH|cbn; lia].
      rewrite Nat2N.inj_succ, N.pow_succ_r' in Hx. by apply N.Div0.div_lt_upper_bound.
    + assert (x = 0)%N as -> by lia. rewrite pretty_N_go_0. lia.
Qed.

Lemma pretty_N_chars (x : N) : all_chars is_digit (pretty x).
Proof.
  unfold pretty, pretty_N. case_decide; [split; [by exists 0%N|done]|]. by apply pretty_go_chars.
Qed.

Lemma pretty_N_length (x : N) k :
  (x < 10 ^ N.of_nat k)%N -> (1 <= k)%nat -> (String.length (pretty x) <= k)%nat.
Proof.
  intros Hx Hk. unfold pretty, pretty_N. case_decide; [done|].
  etrans; [by apply (pretty_go_length _ _ k)|]. cbn. lia.
Qed.

Lemma pretty_Z_of_N (x : N) : pretty (Z.of_N x) = pretty x.
Proof. by destruct x. Qed.
