(* ===== verification/Json.v ===== *)
(** * JSON values, [json.dumps] and the canonical request hash

    The JSON documents that reach the database (jsonb columns) and the hashes.  Numbers are
    integers: no payload of the program carries a fractional one.  An object is the list of its
    items in insertion order, as a Python dict. *)
From S2P Require Import Prelude Text.
From stdpp Require Import pretty.
#[local] Open Scope string_scope.

#[warnings="-register-all"]
Inductive json :=
  | JNull
  | JBool (b : bool)
  | JInt (n : Z)
  | JStr (s : string)
  | JArr (l : list json)
  | JObj (kvs : list (string * json)).

Fixpoint json_eqb (a b : json) : bool :=
  match a, b with
  | JNull, JNull => true
  | JBool x, JBool y => Bool.eqb x y
  | JInt x, JInt y => Z.eqb x y
  | JStr x, JStr y => String.eqb x y
  | JArr l, JArr l' =>
      (fix go l l' := match l, l' with
        | [], [] => true
        | x :: l, y :: l' => json_eqb x y && go l l'
        | _, _ => false
        end) l l'
  | JObj l, JObj l' =>
      (fix go l l' := match l, l' with
        | [], [] => true
        | (k, x) :: l, (k', y) :: l' => String.eqb k k' && json_eqb x y && go l l'
        | _, _ => false
        end) l l'
  | _, _ => false
  end.

(** Induction that reaches the members of arrays and objects. *)
Fixpoint json_rect' (P : json -> Prop)
    (Hnull : P JNull) (Hbool : forall b, P (JBool b)) (Hint : forall n, P (JInt n))
    (Hstr : forall s, P (JStr s)) (Harr : forall l, Forall P l -> P (JArr l))
    (Hobj : forall kvs, Forall (fun kv => P (snd kv)) kvs -> P (JObj kvs)) (j : json) : P j :=
  match j with
  | JNull => Hnull
  | JBool b => Hbool b
  | JInt n => Hint n
  | JStr s => Hstr s
  | JArr l => Harr l ((fix go l : Forall P l :=
      match l with
      | [] => Forall_nil_2 P
      | x :: l => Forall_cons_2 P x l
          (json_rect' P Hnull Hbool Hint Hstr Harr Hobj x) (go l)
      end) l)
  | JObj kvs => Hobj kvs ((fix go l : Forall (fun kv => P (snd kv)) l :=
      match l with
      | [] => Forall_nil_2 (fun kv => P (snd kv))
      | x :: l => Forall_cons_2 (fun kv => P (snd kv)) x l
          (json_rect' P Hnull Hbool Hint Hstr Harr Hobj (snd x)) (go l)
      end) kvs)
  end.

Lemma json_eqb_eq a b : json_eqb a b = true <-> a = b.
Proof.
  revert b. induction a as [| | | |l IH|kvs IH] using json_rect'; intros [| b'|n'|s'|l'|kvs'];
    cbn; try (split; congruence).
  - rewrite Bool.eqb_true_iff. split; congruence.
  - rewrite Z.eqb_eq. split; congruence.
  - rewrite String.eqb_eq. split; congruence.
  - revert l'. induction IH as [|x l Hx _ IHl]; intros [|y l']; cbn; try (split; congruence).
    rewrite andb_true_iff, Hx, IHl. split; [intros [-> [= ->]]|intros [= -> ->]]; done.
  - revert kvs'. induction IH as [|[k x] l Hx _ IHl]; intros [|[k' y] l']; cbn;
      try (split; congruence).
    cbn in Hx. rewrite !andb_true_iff, String.eqb_eq, Hx, IHl.
    split; [intros [[-> ->] [= ->]]|intros [= -> -> ->]]; done.
Qed.

#[export] Instance json_eq_dec : EqDecision json.
Proof.
  intros a b. destruct (json_eqb a b) eqn:E; [left|right].
  - by apply json_eqb_eq.
  - intros ->. by rewrite (proj2 (json_eqb_eq b b) eq_refl) in E.
Defined.

(** ** Access, as on Python values *)

(** [d.get(k)] of a dict: [JNull] is Python's [None]; [None] here is the AttributeError that
    [.get] raises on anything else. *)
Fixpoint assoc (k : string) (kvs : list (string * json)) : option json :=
  match kvs with
  | [] => None
  | (k', v) :: kvs' => if String.eqb k k' then Some v else assoc k kvs'
  end.

Definition json_get (k : string) (j : json) : option json :=
  match j with JObj kvs => Some (default JNull (assoc k kvs)) | _ => None end.

(** [bool(j)]. *)
Definition truthy (j : json) : bool :=
  match j with
  | JNull => false
  | JBool b => b
  | JInt n => negb (n =? 0)%Z
  | JStr s => negb (String.eqb s "")
  | JArr l => match l with [] => false | _ => true end
  | JObj kvs => match kvs with [] => false | _ => true end
  end.

(** [d.get(k, default)] of a dict. *)
Definition get_default (k : string) (default_ : json) (j : json) : json :=
  match j with JObj kvs => default default_ (assoc k kvs) | _ => default_ end.

(** [repr] and [str]. *)
Definition squote : ascii := "'"%char.
Definition double_quote : ascii := ascii_of_nat 34.

Definition repr_char (q c : ascii) : string :=
  let n := code c in
  if (c =? q)%char || (n =? 92)%N then String "\" (String c EmptyString)
  else if (n =? 10)%N then "\n"
  else if (n =? 13)%N then "\r"
  else if (n =? 9)%N then "\t"
  else if (n <? 32)%N || ((127 <=? n)%N && (n <=? 160)%N) || (n =? 173)%N then
    "\x" +:+ hex_fixed 2 n
  else String c EmptyString.

Fixpoint repr_chars (q : ascii) (s : string) : string :=
  match s with EmptyString => EmptyString | String c s' => repr_char q c +:+ repr_chars q s' end.

Definition repr_str (s : string) : string :=
  let chars := list_ascii_of_string s in
  let q := if existsb (Ascii.eqb squote) chars && negb (existsb (Ascii.eqb double_quote) chars)
           then double_quote else squote in
  String q (repr_chars q s) +:+ String q EmptyString.

Fixpoint py_repr (j : json) : string :=
  match j with
  | JNull => "None"
  | JBool b => if b then "True" else "False"
  | JInt n => pretty n
  | JStr s => repr_str s
  | JArr l => "[" +:+ String.concat ", " (map py_repr l) +:+ "]"
  | JObj kvs =>
      "{" +:+ String.concat ", " (map (fun kv => repr_str (fst kv) +:+ ": " +:+ py_repr (snd kv)) kvs)
      +:+ "}"
  end.

Definition py_str (j : json) : string := match j with JStr s => s | _ => py_repr j end.

(** ** [json.dumps] *)
Definition escape_u (c : ascii) : string := "\u" +:+ hex_fixed 4 (code c).

Definition escape_char (ensure_ascii : bool) (c : ascii) : string :=
  let n := code c in
  if (n =? 34)%N then String "\" (String c EmptyString)
  else if (n =? 92)%N then "\\"
  else if (n =? 10)%N then "\n"
  else if (n =? 13)%N then "\r"
  else if (n =? 9)%N then "\t"
  else if (n =? 12)%N then "\f"
  else if (n =? 8)%N then "\b"
  else if (n <? 32)%N || (ensure_ascii && (126 <? n)%N) then escape_u c
  else String c EmptyString.

Fixpoint escape (ea : bool) (s : string) : string :=
  match s with EmptyString => EmptyString | String c s' => escape_char ea c +:+ escape ea s' end.

Definition dquote : string := String (ascii_of_nat 34) EmptyString.
Definition quote (ea : bool) (s : string) : string := dquote +:+ escape ea s +:+ dquote.

(** [json.dumps(j, separators=(",", ":"), ensure_ascii=ea)]. *)
Fixpoint dumps (ea : bool) (j : json) : string :=
  match j with
  | JNull => "null"
  | JBool b => if b then "true" else "false"
  | JInt n => pretty n
  | JStr s => quote ea s
  | JArr l => "[" +:+ String.concat "," (map (dumps ea) l) +:+ "]"
  | JObj kvs =>
      "{" +:+ String.concat "," (map (fun kv => quote ea (fst kv) +:+ ":" +:+ dumps ea (snd kv)) kvs)
      +:+ "}"
  end.

(** [sort_keys=True]: the items of every object in the order of their keys. *)
Definition key_le (p q : string * json) : Prop := String.le (fst p) (fst q).
#[export] Instance key_le_dec : RelDecision key_le.
Proof. intros p q. unfold key_le. apply _. Defined.

Fixpoint sort_keys (j : json) : json :=
  match j with
  | JArr l => JArr (map sort_keys l)
  | JObj kvs => JObj (merge_sort key_le (map (fun kv => (fst kv, sort_keys (snd kv))) kvs))
  | j => j
  end.

(** [str.encode()]: UTF-8. *)
Fixpoint utf8 (s : string) : string :=
  match s with
  | EmptyString => EmptyString
  | String c s' =>
      let n := code c in
      if (n <? 128)%N then String c (utf8 s')
      else String (ascii_of_N (192 + n / 64)) (String (ascii_of_N (128 + n mod 64)) (utf8 s'))
  end.

(** infra/idempotency.py: the bytes that are hashed. *)
Definition canonical_bytes (payload : json) : string := utf8 (dumps false (sort_keys payload)).

(** modules/webhooks/signing.py *)
Definition canonical_payload (payload : json) : string := utf8 (dumps true (sort_keys payload)).

Example dumps_example :
  canonical_payload (JObj [("b", JInt (-3)); ("a", JArr [JNull; JStr "x y"; JBool true])]) =
  "{" +:+ quote true "a" +:+ ":[null," +:+ quote true "x y" +:+ ",true]," +:+
  quote true "b" +:+ ":-3}".
Proof. vm_compute. reflexivity. Qed.

(** ** Lemmas *)
#[export] Instance key_le_trans : Transitive key_le.
Proof. intros p q r Hpq Hqr. unfold key_le in *. by etrans. Qed.

#[export] Instance key_le_total : Total key_le.
Proof. intros p q. apply (total String.le). Qed.

(** Two orders of the items of one dict: distinct keys, same items. *)
Lemma merge_sort_keys_perm (l1 l2 : list (string * json)) :
  NoDup (fst <$> l1) -> l1 ≡ₚ l2 -> merge_sort key_le l1 = merge_sort key_le l2.
Proof.
  intros Hnd Hp. apply (Sorted_unique_strong key_le); [|apply Sorted_merge_sort, _..|].
  - intros [k x] [k' y] Hx Hy Hle Hge. unfold key_le in *. cbn in *.
    assert (k = k') as <- by by apply (anti_symm String.le).
    rewrite merge_sort_Permutation in Hx. rewrite merge_sort_Permutation, <- Hp in Hy.
    f_equal. by apply (NoDup_fst_unique l1 k).
  - by rewrite !merge_sort_Permutation.
Qed.
