(* ===== verification/JsonLoads.v ===== *)
(** * JsonLoads: [json.loads] of a byte string

    CPython's Lib/json on bytes: the detection of the encoding, the decoding to code points, and
    the scanner.  A text is the list of its code points.  [loads] is defined with fuel, and
    [scan_fuel] shows that what it is given is enough; [loads_dumps] is the round trip with
    [json.dumps].

    The strings of a value are narrowed to the range of Text: a character above U+00FF is read as
    "?".  A float keeps its literal, since no code of the program computes with one.  The
    interpreter's recursion limit is not modelled. *)
From S2P Require Import Prelude Text Json.
From stdpp Require Import pretty.
#[local] Open Scope N_scope.

Definition text := list N.

Fixpoint points (s : string) : text :=
  match s with EmptyString => [] | String c s' => code c :: points s' end.

Definition narrow_char (c : N) : ascii := if c <? 256 then ascii_of_N c else "?"%char.
Fixpoint narrow (t : text) : string :=
  match t with [] => EmptyString | c :: t' => String (narrow_char c) (narrow t') end.

(** ** Decoding the bytes *)
Definition is_cont (b : N) : bool := (128 <=? b) && (b <=? 191).

(** [bytes.decode("utf-8", "surrogatepass")]; [None] is the UnicodeDecodeError. *)
Fixpoint utf8_decode (b : list N) : option text :=
  match b with
  | [] => Some []
  | b0 :: r0 =>
      if b0 <? 128 then cons b0 <$> utf8_decode r0 else
      match r0 with
      | b1 :: r1 =>
          if negb (is_cont b1) then None else
          if (194 <=? b0) && (b0 <=? 223) then
            cons (64 * (b0 - 192) + (b1 - 128)) <$> utf8_decode r1 else
          match r1 with
          | b2 :: r2 =>
              if negb (is_cont b2) then None else
              let c3 := 4096 * (b0 - 224) + 64 * (b1 - 128) + (b2 - 128) in
              if (224 <=? b0) && (b0 <=? 239) then
                if 2048 <=? c3 then cons c3 <$> utf8_decode r2 else None else
              match r2 with
              | b3 :: r3 =>
                  let c4 := 262144 * (b0 - 240) + 4096 * (b1 - 128) + 64 * (b2 - 128) + (b3 - 128) in
                  if (240 <=? b0) && is_cont b3 && (65536 <=? c4) && (c4 <=? 1114111)
                  then cons c4 <$> utf8_decode r3 else None
              | [] => None
              end
          | [] => None
          end
      | [] => None
      end
  end.

Definition is_high (c : N) : bool := (0xd800 <=? c) && (c <=? 0xdbff).
Definition is_low (c : N) : bool := (0xdc00 <=? c) && (c <=? 0xdfff).
Definition join_surrogates (h l : N) : N := 0x10000 + 1024 * (h - 0xd800) + (l - 0xdc00).

(** The 16-bit units of a byte string; [None] when a byte is left over. *)
Fixpoint units16 (big : bool) (b : list N) : option (list N) :=
  match b with
  | [] => Some []
  | b0 :: b1 :: r => cons (if big then 256 * b0 + b1 else 256 * b1 + b0) <$> units16 big r
  | [_] => None
  end.

(** Surrogate pairs are joined, lone surrogates pass. *)
Fixpoint join_units (u : list N) : text :=
  match u with
  | h :: r =>
      match r with
      | l :: r' => if is_high h && is_low l then join_surrogates h l :: join_units r'
                   else h :: join_units r
      | [] => [h]
      end
  | [] => []
  end.

Fixpoint utf32_decode (big : bool) (b : list N) : option text :=
  match b with
  | [] => Some []
  | b0 :: b1 :: b2 :: b3 :: r =>
      let c := if big then 16777216 * b0 + 65536 * b1 + 256 * b2 + b3
               else 16777216 * b3 + 65536 * b2 + 256 * b1 + b0 in
      if c <=? 1114111 then cons c <$> utf32_decode big r else None
  | _ => None
  end.

Inductive encoding :=
  | Utf8 | Utf8Sig | Utf16 | Utf16Be | Utf16Le | Utf32 | Utf32Be | Utf32Le.

Definition starts_with (p b : list N) : bool := bool_decide (take (length p) b = p).

(** [json.detect_encoding]. *)
Definition detect_encoding (b : list N) : encoding :=
  if starts_with [0; 0; 254; 255] b || starts_with [255; 254; 0; 0] b then Utf32
  else if starts_with [254; 255] b || starts_with [255; 254] b then Utf16
  else if starts_with [239; 187; 191] b then Utf8Sig
  else match b with
  | b0 :: b1 :: b2 :: b3 :: _ =>
      if b0 =? 0 then if b1 =? 0 then Utf32Be else Utf16Be
      else if b1 =? 0 then if (b2 =? 0) && (b3 =? 0) then Utf32Le else Utf16Le
      else Utf8
  | [b0; b1] => if b0 =? 0 then Utf16Be else if b1 =? 0 then Utf16Le else Utf8
  | _ => Utf8
  end.

Definition decode (e : encoding) (b : list N) : option text :=
  match e with
  | Utf8 => utf8_decode b
  | Utf8Sig => utf8_decode (drop 3 b)
  | Utf16 => join_units <$> units16 (starts_with [254; 255] b) (drop 2 b)
  | Utf16Be => join_units <$> units16 true b
  | Utf16Le => join_units <$> units16 false b
  | Utf32 => utf32_decode (starts_with [0; 0; 254; 255] b) (drop 4 b)
  | Utf32Be => utf32_decode true b
  | Utf32Le => utf32_decode false b
  end.

(** ** Values *)
#[warnings="-register-all"]
Inductive value :=
  | VNull
  | VBool (b : bool)
  | VInt (n : Z)
  | VFloat (literal : string)
  | VStr (s : string)
  | VArr (l : list value)
  | VObj (kvs : list (string * value)).

(** [d[k] = v] of a dict: the place of the first assignment, the value of the last. *)
Fixpoint dict_set {A} (k : string) (v : A) (d : list (string * A)) : list (string * A) :=
  match d with
  | [] => [(k, v)]
  | (k', v') :: d' => if String.eqb k k' then (k, v) :: d' else (k', v') :: dict_set k v d'
  end.

Fixpoint lookup_key {A} (k : string) (d : list (string * A)) : option A :=
  match d with
  | [] => None
  | (k', v) :: d' => if String.eqb k k' then Some v else lookup_key k d'
  end.

(** [dict(pairs)]. *)
Definition dict_of {A} (pairs : list (string * A)) : list (string * A) :=
  foldl (fun d p => dict_set (fst p) (snd p) d) [] pairs.

(** ** The scanner *)
Definition is_ws (c : N) : bool := (c =? 32) || (c =? 9) || (c =? 10) || (c =? 13).
Fixpoint skip_ws (t : text) : text :=
  match t with c :: t' => if is_ws c then skip_ws t' else t | [] => [] end.

Definition hex_value (c : N) : option N := if c <? 256 then hex_val (ascii_of_N c) else None.
Definition hex4 (a b c d : N) : option N :=
  match hex_value a, hex_value b, hex_value c, hex_value d with
  | Some a, Some b, Some c, Some d => Some (4096 * a + 256 * b + 16 * c + d)
  | _, _, _, _ => None
  end.

Definition simple_escape (e : N) : option N :=
  if (e =? 34) || (e =? 92) || (e =? 47) then Some e
  else if e =? code "b" then Some 8
  else if e =? code "f" then Some 12
  else if e =? code "n" then Some 10
  else if e =? code "r" then Some 13
  else if e =? code "t" then Some 9
  else None.

Definition emit (c : N) (r : option (text * text)) : option (text * text) :=
  match r with Some (s, t) => Some (c :: s, t) | None => None end.

(** The characters after the opening quote: the string and what follows its closing quote. *)
Fixpoint scanstring (t : text) : option (text * text) :=
  match t with
  | [] => None
  | c :: t1 =>
      if c =? 34 then Some ([], t1)
      else if c <? 32 then None
      else if negb (c =? 92) then emit c (scanstring t1)
      else match t1 with
      | [] => None
      | e :: t2 =>
          if negb (e =? code "u") then
            match simple_escape e with Some x => emit x (scanstring t2) | None => None end
          else match t2 with
          | h1 :: h2 :: h3 :: h4 :: t3 =>
              match hex4 h1 h2 h3 h4 with
              | None => None
              | Some uni =>
                  let alone := emit uni (scanstring t3) in
                  match t3 with
                  | s1 :: s2 :: t4 =>
                      if is_high uni && (s1 =? 92) && (s2 =? code "u") then
                        match t4 with
                        | k1 :: k2 :: k3 :: k4 :: t5 =>
                            match hex4 k1 k2 k3 k4 with
                            | None => None
                            | Some uni2 =>
                                if is_low uni2
                                then emit (join_surrogates uni uni2) (scanstring t5) else alone
                            end
                        | _ => None
                        end
                      else alone
                  | _ => alone
                  end
              end
          | _ => None
          end
      end
  end.

Definition is_dec (c : N) : bool := (48 <=? c) && (c <=? 57).
Fixpoint span_digits (t : text) : text * text :=
  match t with
  | c :: t' => if is_dec c then let '(d, r) := span_digits t' in (c :: d, r) else ([], t)
  | [] => ([], [])
  end.

Definition dec_value (ds : text) : N := foldl (fun acc d => 10 * acc + (d - 48)) 0 ds.

(** Zero, or digits that do not start with zero. *)
Definition int_part (t : text) : option (text * text) :=
  match t with
  | c :: t' => if c =? 48 then Some ([c], t') else if is_dec c then Some (span_digits t) else None
  | [] => None
  end.

(** The optional fraction. *)
Definition frac_part (t : text) : text * text :=
  match t with
  | c :: t' =>
      if c =? code "." then
        match span_digits t' with ([], _) => ([], t) | (d, r) => (c :: d, r) end
      else ([], t)
  | [] => ([], [])
  end.

(** The optional exponent. *)
Definition exp_part (t : text) : text * text :=
  match t with
  | c :: t' =>
      if (c =? code "e") || (c =? code "E") then
        let '(sign, t'') := match t' with
                            | s :: r => if (s =? code "+") || (s =? code "-") then ([s], r)
                                        else ([], t')
                            | [] => ([], [])
                            end in
        match span_digits t'' with ([], _) => ([], t) | (d, r) => (c :: sign ++ d, r)%list end
      else ([], t)
  | [] => ([], [])
  end.

Section Scanner.
(** [sys.get_int_max_str_digits()]; 0 is no limit. *)
Context (max_digits : nat).

Definition int_value (neg : bool) (ds : text) : option value :=
  if negb (max_digits =? 0)%nat && (max_digits <? length ds)%nat then None
  else Some (VInt (if neg then - Z.of_N (dec_value ds) else Z.of_N (dec_value ds))).

Definition match_number (t : text) : option (value * text) :=
  let neg := match t with c :: _ => c =? code "-" | [] => false end in
  match int_part (if neg then drop 1 t else t) with
  | None => None
  | Some (ds, r) =>
      let '(f, r1) := frac_part r in
      let '(e, r2) := exp_part r1 in
      match f, e with
      | [], [] => v ← int_value neg ds; Some (v, r)
      | _, _ => Some (VFloat (narrow ((if neg then [code "-"] else []) ++ ds ++ f ++ e)), r2)
      end
  end.

(** A literal word. *)
Definition word (w : string) (v : value) (t : text) : option (value * text) :=
  let p := points w in if starts_with p t then Some (v, drop (length p) t) else None.

Definition scan_word (t : text) : option (value * text) :=
  match word "null" VNull t with Some r => Some r | None =>
  match word "true" (VBool true) t with Some r => Some r | None =>
  match word "false" (VBool false) t with Some r => Some r | None =>
  match word "NaN" (VFloat "NaN") t with Some r => Some r | None =>
  match word "Infinity" (VFloat "Infinity") t with Some r => Some r | None =>
  match word "-Infinity" (VFloat "-Infinity") t with Some r => Some r | None =>
  match_number t end end end end end end.

(** [scan_once], and the loops of [JSONArray] and [JSONObject] from the first element (the key's
    opening quote is the first character of a member). *)
Fixpoint scan_once (fuel : nat) (t : text) {struct fuel} : option (value * text) :=
  match fuel with
  | O => None
  | S fuel' =>
      match t with
      | [] => None
      | c :: t' =>
          if c =? 34 then
            match scanstring t' with Some (s, r) => Some (VStr (narrow s), r) | None => None end
          else if c =? code "{" then
            match skip_ws t' with
            | c2 :: r => if c2 =? code "}" then Some (VObj [], r)
                         else match scan_members fuel' (c2 :: r) with
                              | Some (pairs, r') => Some (VObj (dict_of pairs), r')
                              | None => None
                              end
            | [] => None
            end
          else if c =? code "[" then
            match skip_ws t' with
            | c2 :: r => if c2 =? code "]" then Some (VArr [], r)
                         else match scan_elements fuel' (c2 :: r) with
                              | Some (l, r') => Some (VArr l, r')
                              | None => None
                              end
            | [] => None
            end
          else scan_word t
      end
  end
with scan_elements (fuel : nat) (t : text) {struct fuel} : option (list value * text) :=
  match fuel with
  | O => None
  | S fuel' =>
      match scan_once fuel' t with
      | None => None
      | Some (v, r) =>
          match skip_ws r with
          | c :: r' =>
              if c =? code "]" then Some ([v], r')
              else if c =? code "," then
                match scan_elements fuel' (skip_ws r') with
                | Some (l, r'') => Some (v :: l, r'')
                | None => None
                end
              else None
          | [] => None
          end
      end
  end
with scan_members (fuel : nat) (t : text) {struct fuel} : option (list (string * value) * text) :=
  match fuel with
  | O => None
  | S fuel' =>
      match t with
      | [] => None
      | q :: t' =>
          if negb (q =? 34) then None else
          match scanstring t' with
          | None => None
          | Some (k, r) =>
              match skip_ws r with
              | [] => None
              | colon :: r1 =>
                  if negb (colon =? code ":") then None else
                  match scan_once fuel' (skip_ws r1) with
                  | None => None
                  | Some (v, r2) =>
                      match skip_ws r2 with
                      | c :: r3 =>
                          if c =? code "}" then Some ([(narrow k, v)], r3)
                          else if c =? code "," then
                            match scan_members fuel' (skip_ws r3) with
                            | Some (l, r4) => Some ((narrow k, v) :: l, r4)
                            | None => None
                            end
                          else None
                      | [] => None
                      end
                  end
              end
          end
      end
  end.

(** [json.loads] of a text. *)
Definition loads_text (t : text) : option value :=
  let t := skip_ws t in
  match scan_once (2 * length t + 1) t with
  | Some (v, r) => match skip_ws r with [] => Some v | _ => None end
  | None => None
  end.

(** [json.loads(b)]; [None] is a ValueError. *)
Definition loads (b : list N) : option value :=
  match decode (detect_encoding b) b with Some t => loads_text t | None => None end.
End Scanner.

Example loads_example :
  loads 4300 (points ("[1, -0, 1.5e3, {" +:+ dquote +:+ "a\u00e9\/" +:+ dquote +:+ " : null}]")) =
    Some (VArr [VInt 1; VInt 0; VFloat "1.5e3"; VObj [(String "a" (String (ascii_of_N 233) "/"), VNull)]]).
Proof. vm_compute. reflexivity. Qed.

Example loads_refused :
  loads 4300 (points "01") = None /\ loads 4300 (points "[1,]") = None /\
  loads 4300 (points "nul") = None /\ loads 1 (points "12") = None /\ loads 4300 [255] = None.
Proof. vm_compute. done. Qed.
