(* ===== verification/JsonRoundTrip.v ===== *)
(** * JsonRoundTrip: [json.loads] reads back what [json.dumps] wrote

    The fuel of the scanner is enough ([scan_fuel]), and a document that [dumps] wrote is read back
    as the value it came from ([loads_dumps]); so [dumps] is injective, which the canonical hashes
    rely on. *)
From S2P Require Import Prelude Text Json JsonLoads.
From stdpp Require Import pretty.
#[local] Open Scope N_scope.

(** ** What the scanner consumes *)
Lemma skip_ws_le t : (length (skip_ws t) <= length t)%nat.
Proof. induction t as [|c t IH]; cbn; [lia|]. case_match; cbn; lia. Qed.

Lemma emit_Some c r s t : emit c r = Some (s, t) -> exists s', r = Some (s', t) /\ s = c :: s'.
Proof. destruct r as [[]|]; cbn; naive_solver. Qed.

Lemma scanstring_lt n t s r :
  (length t <= n)%nat -> scanstring t = Some (s, r) -> (length r < length t)%nat.
Proof.
  revert t s r. induction n as [|n IH]; intros [|c t] s r Hn; cbn [length] in Hn; try done; [lia|].
  cbn [scanstring]. repeat case_match; intros Hs; simplify_eq; cbn [length] in *; try lia;
    apply emit_Some in Hs as (s' & Hs & _); apply IH in Hs; cbn [length] in *; lia.
Qed.

Lemma span_digits_le t : (length (span_digits t).2 <= length t)%nat.
Proof.
  induction t as [|c t IH]; cbn; [lia|]. case_match; [|done].
  destruct (span_digits t). cbn in *. lia.
Qed.

Lemma int_part_lt t d r : int_part t = Some (d, r) -> (length r < length t)%nat.
Proof.
  destruct t as [|c t]; cbn; [done|]. repeat case_match; intros [= <- <-]; try lia.
  pose proof (span_digits_le t) as Hl. destruct (span_digits t). simplify_eq. cbn in *. lia.
Qed.

Lemma frac_part_le t : (length (frac_part t).2 <= length t)%nat.
Proof.
  destruct t as [|c t]; cbn; [lia|]. case_match; [|done].
  pose proof (span_digits_le t) as Hl. destruct (span_digits t) as [[] r]; cbn in *; lia.
Qed.

Lemma exp_part_le t : (length (exp_part t).2 <= length t)%nat.
Proof.
  destruct t as [|c t]; cbn; [lia|]. case_match; [|done].
  set (sg := match t with [] => _ | _ => _ end).
  assert (Hs : (length sg.2 <= length t)%nat) by (subst sg; destruct t; cbn; [lia|case_match; cbn; lia]).
  destruct sg as [sign t'']. pose proof (span_digits_le t'') as Hl.
  destruct (span_digits t'') as [[] r]; cbn in *; lia.
Qed.

Section Scanner.
Context (max_digits : nat).
#[local] Abbreviation once := (scan_once max_digits).
#[local] Abbreviation elements := (scan_elements max_digits).
#[local] Abbreviation members := (scan_members max_digits).

Lemma match_number_lt t v r :
  match_number max_digits t = Some (v, r) -> (length r < length t)%nat.
Proof.
  unfold match_number. cbv zeta. set (neg := match t with c :: _ => _ | [] => _ end).
  assert (Ht : (length (if neg return text then drop 1 t else t) <= length t)%nat)
    by (destruct neg; rewrite ?length_drop; lia).
  destruct (int_part (if neg then drop 1 t else t)) as [[ds r0]|] eqn:Hi; [|done].
  apply int_part_lt in Hi.
  pose proof (frac_part_le r0) as Hf. destruct (frac_part r0) as [f r1].
  pose proof (exp_part_le r1) as He. destruct (exp_part r1) as [e r2].
  clearbody neg. cbn [snd] in *.
  destruct f, e; [|intros [= <- <-]; lia..].
  destruct (int_value _ _ _); [|done]. intros [= <- <-]. lia.
Qed.

Lemma word_lt w v t v' r :
  w <> EmptyString -> word w v t = Some (v', r) -> (length r < length t)%nat.
Proof.
  unfold word, starts_with. intros Hw H. case_bool_decide as Ht; [|done].
  injection H as <- <-. rewrite length_drop.
  destruct w as [|c w]; [done|]. destruct t as [|c' t]; [done|]. cbn. lia.
Qed.

Lemma scan_word_lt t v r : scan_word max_digits t = Some (v, r) -> (length r < length t)%nat.
Proof.
  unfold scan_word. repeat match goal with |- match ?x with Some _ => _ | None => _ end = _ -> _ =>
    destruct x as [[]|] eqn:Hw; [intros [= -> ->]; by eapply word_lt in Hw|clear Hw] end.
  apply match_number_lt.
Qed.

Lemma scan_once_S f c t :
  once (S f) (c :: t) =
    if c =? 34 then
      match scanstring t with Some (s, r) => Some (VStr (narrow s), r) | None => None end
    else if c =? code "{" then
      match skip_ws t with
      | c2 :: r => if c2 =? code "}" then Some (VObj [], r)
                   else match members f (c2 :: r) with
                        | Some (pairs, r') => Some (VObj (dict_of pairs), r')
                        | None => None
                        end
      | [] => None
      end
    else if c =? code "[" then
      match skip_ws t with
      | c2 :: r => if c2 =? code "]" then Some (VArr [], r)
                   else match elements f (c2 :: r) with
                        | Some (l, r') => Some (VArr l, r')
                        | None => None
                        end
      | [] => None
      end
    else scan_word max_digits (c :: t).
Proof. reflexivity. Qed.

Lemma scan_elements_S f t :
  elements (S f) t =
    match once f t with
    | None => None
    | Some (v, r) =>
        match skip_ws r with
        | c :: r' =>
            if c =? code "]" then Some ([v], r')
            else if c =? code "," then
              match elements f (skip_ws r') with
              | Some (l, r'') => Some (v :: l, r'')
              | None => None
              end
            else None
        | [] => None
        end
    end.
Proof. reflexivity. Qed.

(** A member: its key and the text of its value. *)
Definition member_key (t : text) : option (text * text) :=
  match t with
  | [] => None
  | q :: t' =>
      if negb (q =? 34) then None else
      match scanstring t' with
      | None => None
      | Some (k, r) =>
          match skip_ws r with
          | [] => None
          | colon :: r1 => if negb (colon =? code ":") then None else Some (k, skip_ws r1)
          end
      end
  end.

Lemma scan_members_S f t :
  members (S f) t =
    match member_key t with
    | None => None
    | Some (k, r1) =>
        match once f r1 with
        | None => None
        | Some (v, r2) =>
            match skip_ws r2 with
            | c :: r3 =>
                if c =? code "}" then Some ([(narrow k, v)], r3)
                else if c =? code "," then
                  match members f (skip_ws r3) with
                  | Some (l, r4) => Some ((narrow k, v) :: l, r4)
                  | None => None
                  end
                else None
            | [] => None
            end
        end
    end.
Proof.
  destruct t as [|q t]; [done|]. cbn [scan_members member_key].
  destruct (negb (q =? 34)); [done|]. destruct (scanstring t) as [[k r]|]; [|done].
  destruct (skip_ws r) as [|c r1]; [done|]. by destruct (negb (c =? code ":")).
Qed.

Lemma member_key_lt t k r : member_key t = Some (k, r) -> (length r < length t)%nat.
Proof.
  destruct t as [|q t]; [done|]. cbn [member_key]. case_match; [done|].
  destruct (scanstring t) as [[k' r']|] eqn:Hs; [|done].
  apply (scanstring_lt (length t)) in Hs; [|done].
  pose proof (skip_ws_le r') as H1. destruct (skip_ws r') as [|c r1]; [done|].
  case_match; [done|]. intros [= -> <-]. pose proof (skip_ws_le r1). cbn [length] in *. lia.
Qed.

(** *** Every value, element and member is at least one character. *)
Lemma scan_lt f :
  (forall t v r, once f t = Some (v, r) -> (length r < length t)%nat) /\
  (forall t l r, elements f t = Some (l, r) -> (length r < length t)%nat) /\
  (forall t l r, members f t = Some (l, r) -> (length r < length t)%nat).
Proof.
  induction f as [|f (IH1 & IH2 & IH3)]; [done|]. split_and!.
  - intros [|c t] v r; [done|]. rewrite scan_once_S. pose proof (skip_ws_le t) as Hw.
    case_match; [destruct (scanstring t) as [[s r']|] eqn:Hs; [|done];
      apply (scanstring_lt (length t)) in Hs; [|done]; intros [= _ <-]; cbn [length]; lia|].
    case_match; [|case_match; [|apply scan_word_lt]].
    + destruct (skip_ws t) as [|c2 r1]; [done|]. case_match; [intros [= _ <-]; cbn [length] in *; lia|].
      destruct (members f _) as [[l r']|] eqn:Hm; [|done]. apply IH3 in Hm.
      intros [= _ <-]. cbn [length] in *. lia.
    + destruct (skip_ws t) as [|c2 r1]; [done|]. case_match; [intros [= _ <-]; cbn [length] in *; lia|].
      destruct (elements f _) as [[l r']|] eqn:Hm; [|done]. apply IH2 in Hm.
      intros [= _ <-]. cbn [length] in *. lia.
  - intros t l r. rewrite scan_elements_S. destruct (once f t) as [[v r1]|] eqn:Ho; [|done].
    apply IH1 in Ho. pose proof (skip_ws_le r1) as Hw. destruct (skip_ws r1) as [|c r2]; [done|].
    case_match; [intros [= _ <-]; cbn [length] in *; lia|]. case_match; [|done].
    destruct (elements f _) as [[l' r3]|] eqn:Hl; [|done]. apply IH2 in Hl.
    pose proof (skip_ws_le r2). intros [= _ <-]. cbn [length] in *. lia.
  - intros t l r. rewrite scan_members_S. destruct (member_key t) as [[k r0]|] eqn:Hk; [|done].
    apply member_key_lt in Hk. destruct (once f r0) as [[v r1]|] eqn:Ho; [|done].
    apply IH1 in Ho. pose proof (skip_ws_le r1) as Hw. destruct (skip_ws r1) as [|c r2]; [done|].
    case_match; [intros [= _ <-]; cbn [length] in *; lia|]. case_match; [|done].
    destruct (members f _) as [[l' r3]|] eqn:Hl; [|done]. apply IH3 in Hl.
    pose proof (skip_ws_le r2). intros [= _ <-]. cbn [length] in *. lia.
Qed.

(** *** The fuel: twice the length is enough, more changes nothing. *)
Lemma scan_fuel f :
  (forall t f', (2 * length t < f)%nat -> (2 * length t < f')%nat -> once f t = once f' t) /\
  (forall t f', (2 * length t + 1 < f)%nat -> (2 * length t + 1 < f')%nat ->
     elements f t = elements f' t) /\
  (forall t f', (2 * length t < f)%nat -> (2 * length t < f')%nat -> members f t = members f' t).
Proof.
  induction f as [|f (IH1 & IH2 & IH3)]; [split_and!; intros; lia|].
  split_and!; intros t [|f'] Hf Hf'; try lia.
  - destruct t as [|c t]; [done|]. rewrite !scan_once_S. cbn [length] in *.
    pose proof (skip_ws_le t) as Hw. case_match; [done|].
    case_match; [|case_match; [|done]]; (destruct (skip_ws t) as [|c2 r1]; [done|]); case_match; try done;
      cbn [length] in *.
    + by rewrite (IH3 _ f') by (cbn [length]; lia).
    + by rewrite (IH2 _ f') by (cbn [length]; lia).
  - rewrite !scan_elements_S, (IH1 _ f') by lia. destruct (once f' t) as [[v r1]|] eqn:Ho; [|done].
    apply (proj1 (scan_lt f')) in Ho. pose proof (skip_ws_le r1) as Hw.
    destruct (skip_ws r1) as [|c r2]; [done|]. cbn [length] in *. pose proof (skip_ws_le r2).
    case_match; [done|]. case_match; [|done].
    by rewrite (IH2 _ f') by lia.
  - rewrite !scan_members_S. destruct (member_key t) as [[k r0]|] eqn:Hk; [|done].
    apply member_key_lt in Hk. rewrite (IH1 _ f') by lia.
    destruct (once f' r0) as [[v r1]|] eqn:Ho; [|done].
    apply (proj1 (scan_lt f')) in Ho. pose proof (skip_ws_le r1) as Hw.
    destruct (skip_ws r1) as [|c r2]; [done|]. cbn [length] in *. pose proof (skip_ws_le r2).
    case_match; [done|]. case_match; [|done]. by rewrite (IH3 _ f') by lia.
Qed.
End Scanner.

(** ** Characters *)
Lemma points_app s1 s2 : points (s1 +:+ s2) = points s1 ++ points s2.
Proof. induction s1 as [|c s1 IH]; [done|]. rewrite str_app_cons. cbn [points]. by rewrite IH. Qed.

Lemma narrow_points s : narrow (points s) = s.
Proof.
  induction s as [|c s IH]; [done|]. cbn [points narrow]. rewrite IH. f_equal.
  unfold narrow_char, code. pose proof (N_ascii_bounded c) as Hc. apply N.ltb_lt in Hc.
  rewrite Hc. apply ascii_N_embedding.
Qed.

Lemma points_inj s1 s2 : points s1 = points s2 -> s1 = s2.
Proof. intros H. by rewrite <- (narrow_points s1), H, narrow_points. Qed.

Lemma points_length s : length (points s) = String.length s.
Proof. induction s; cbn; congruence. Qed.

(** A property of all characters, checked one by one. *)
Lemma ascii_forall (p : ascii -> bool) :
  forallb p (ascii_of_nat <$> seq 0 256) = true -> forall c, p c = true.
Proof.
  intros H c. rewrite forallb_forall in H. apply H, list_elem_of_In, list_elem_of_fmap.
  exists (nat_of_ascii c). split; [by rewrite ascii_nat_embedding|].
  apply elem_of_seq. pose proof (nat_ascii_bounded c). lia.
Qed.

Lemma utf8_decode_utf8 s : utf8_decode (points (utf8 s)) = Some (points s).
Proof.
  induction s as [|c s IH]; [done|]. cbn [utf8 points]. destruct (code c <? 128) eqn:Hc.
  - cbn [points utf8_decode]. by rewrite Hc, IH.
  - cbn [points utf8_decode].
    pose proof (N_ascii_bounded c) as Hb. change (N_of_ascii c) with (code c) in Hb.
    apply N.ltb_ge in Hc. assert (Hd : code c / 64 < 4) by (apply N.Div0.div_lt_upper_bound; lia).
    assert (Hd2 : 2 <= code c / 64) by (apply N.div_le_lower_bound; lia).
    assert (Hm : code c mod 64 < 64) by (by apply N.mod_lt).
    assert (H1 : code (ascii_of_N (192 + code c / 64)) = 192 + code c / 64)
      by (apply N_ascii_embedding; lia).
    assert (H2 : code (ascii_of_N (128 + code c mod 64)) = 128 + code c mod 64)
      by (apply N_ascii_embedding; lia).
    rewrite H1, H2, IH. pose proof (N.Div0.div_mod (code c) 64) as Hdm. unfold is_cont.
    set (q := code c / 64) in *. set (r := code c mod 64) in *. clearbody q r.
    destruct (N.ltb_spec (192 + q) 128); [lia|].
    destruct (N.leb_spec 128 (128 + r)), (N.leb_spec (128 + r) 191); try lia.
    destruct (N.leb_spec 194 (192 + q)), (N.leb_spec (192 + q) 223); try lia.
    cbn [andb negb]. unfold fmap, option_fmap, option_map. do 2 f_equal. lia.
Qed.

(** ** Strings *)
Lemma scanstring_escape_char ea c t :
  scanstring (points (escape_char ea c) ++ t) = emit (code c) (scanstring t).
Proof.
  destruct ea; destruct c as [[] [] [] [] [] [] [] []]; try reflexivity;
    destruct t as [|? [|? ?]]; reflexivity.
Qed.

Lemma scanstring_quoted ea s t :
  scanstring (points (escape ea s) ++ 34 :: t) = Some (points s, t).
Proof.
  induction s as [|c s IH]; [done|]. cbn [escape points].
  by rewrite points_app, <- app_assoc, scanstring_escape_char, IH.
Qed.

(** ** Numbers *)
Definition dec_text (t : text) : Prop := Forall (fun c => is_dec c = true) t.

(** What follows a value does not continue a number. *)
Definition stops (t : text) : bool :=
  match t with
  | c :: _ => negb (is_dec c || (c =? code ".") || (c =? code "e") || (c =? code "E"))
  | [] => true
  end.

Lemma stops_digit c t : stops (c :: t) = true -> is_dec c = false.
Proof. unfold stops. by destruct (is_dec c). Qed.

Lemma span_digits_app d t : dec_text d -> stops t = true -> span_digits (d ++ t) = (d, t).
Proof.
  intros Hd Ht. induction Hd as [|c d Hc _ IH]; cbn [app span_digits].
  - destruct t as [|c t]; [done|]. cbn [span_digits]. by rewrite (stops_digit _ _ Ht).
  - by rewrite Hc, IH.
Qed.

Lemma stops_frac t : stops t = true -> frac_part t = ([], t).
Proof.
  destruct t as [|c t]; [done|]. unfold stops, frac_part.
  destruct (c =? code "."); [|done]. by rewrite orb_true_r.
Qed.

Lemma stops_exp t : stops t = true -> exp_part t = ([], t).
Proof.
  destruct t as [|c t]; [done|]. unfold stops, exp_part.
  destruct (c =? code "e"), (c =? code "E"); rewrite ?orb_true_r; cbn [orb negb]; done.
Qed.

Lemma points_digits s : all_chars is_digit s -> dec_text (points s).
Proof.
  induction s as [|c s IH]; [constructor|]. intros [Hc Hs]. constructor; [|by apply IH].
  revert c Hc. apply (digit_forall (fun c => is_dec (code c))). reflexivity.
Qed.


Lemma dec_value_go x s :
  foldl (fun acc d => 10 * acc + (d - 48)) 0 (points (pretty_N_go x s)) =
  foldl (fun acc d => 10 * acc + (d - 48)) x (points s).
Proof.
  revert s. induction (N.lt_wf_0 x) as [x _ IH]; intros s.
  destruct (N.eq_0_gt_0_cases x) as [->|Hx]; [by rewrite pretty_N_go_0|].
  rewrite pretty_N_go_step by done. rewrite IH by by apply div10_lt. cbn [points foldl]. f_equal.
  assert (Hm : x mod 10 < 10) by by apply N.mod_lt.
  assert (Hc : code (pretty_N_char (x mod 10)) = 48 + x mod 10).
  { set (d := x mod 10) in *. clearbody d.
    assert (H : (d = 0 \/ d = 1 \/ d = 2 \/ d = 3 \/ d = 4 \/ d = 5 \/ d = 6 \/
      d = 7 \/ d = 8 \/ d = 9)%N) by lia.
    repeat destruct H as [->|H]; subst; reflexivity. }
  rewrite Hc. pose proof (N.Div0.div_mod x 10) as Hdm.
  rewrite Hdm at 3. rewrite (N.add_comm 48), N.add_sub. done.
Qed.

Lemma dec_value_pretty (x : N) : dec_value (points (pretty x)) = x.
Proof.
  unfold dec_value, pretty, pretty_N. case_decide as H; [by rewrite H|]. by rewrite dec_value_go.
Qed.

(** A positive numeral does not start with a zero. *)
Lemma pretty_go_head x s :
  0 < x -> exists c s', pretty_N_go x s = String c s' /\ (code c =? 48) = false.
Proof.
  revert s. induction (N.lt_wf_0 x) as [x _ IH]; intros s Hx. rewrite pretty_N_go_step by done.
  destruct (N.eq_0_gt_0_cases (x / 10)) as [Hz|Hq]; [|by apply IH; [apply div10_lt|]].
  rewrite Hz, pretty_N_go_0. do 2 eexists. split; [done|].
  assert (Hlt : x < 10) by (apply N.div_small_iff in Hz; lia). rewrite N.mod_small by done.
  assert (H : (x = 1 \/ x = 2 \/ x = 3 \/ x = 4 \/ x = 5 \/ x = 6 \/ x = 7 \/ x = 8 \/ x = 9)%N)
    by lia.
  repeat destruct H as [->|H]; subst; reflexivity.
Qed.

Lemma pretty_head (x : N) :
  x <> 0 -> exists c s, pretty x = String c s /\ (code c =? 48) = false.
Proof.
  intros Hx. unfold pretty, pretty_N. case_decide; [done|]. apply pretty_go_head. lia.
Qed.

Lemma int_part_pretty (x : N) t :
  stops t = true -> int_part (points (pretty x) ++ t) = Some (points (pretty x), t).
Proof.
  intros Ht. pose proof (points_digits _ (pretty_N_chars x)) as Hd.
  destruct (decide (x = 0)) as [->|Hx]; [done|].
  destruct (pretty_head x Hx) as (c & s & Hp & Hc). rewrite Hp in *. cbn [points] in *.
  pose proof (span_digits_app _ _ Hd Ht) as Hs. cbn [app] in *. unfold int_part.
  apply Forall_cons in Hd as [Hdc _]. by rewrite Hc, Hdc, Hs.
Qed.

Lemma pretty_cons (x : N) : exists c s, pretty x = String c s.
Proof.
  destruct (decide (x = 0)) as [->|Hx]; [by exists "0"%char, ""%string|].
  destruct (pretty_head x Hx) as (c & s & Hp & _). eauto.
Qed.

(** A number within the interpreter's limit of digits. *)
Definition int_fits (max_digits : nat) (n : Z) : bool :=
  (max_digits =? 0)%nat || (String.length (pretty (Z.abs_N n)) <=? max_digits)%nat.

Lemma pretty_Z_nonneg (n : Z) : (0 <= n)%Z -> pretty n = pretty (Z.abs_N n).
Proof. intros H. destruct n; done. Qed.

Lemma pretty_Z_neg (n : Z) : (n < 0)%Z -> pretty n = String "-" (pretty (Z.abs_N n)).
Proof. intros H. destruct n; done. Qed.

Lemma match_number_pretty m n t :
  int_fits m n = true -> stops t = true ->
  match_number m (points (pretty n) ++ t) = Some (VInt n, t).
Proof.
  intros Hn Ht.
  assert (Hv : forall neg, int_value m neg (points (pretty (Z.abs_N n))) =
                 Some (VInt (if neg : bool then - Z.of_N (Z.abs_N n) else Z.of_N (Z.abs_N n)))).
  { intros neg. unfold int_value. rewrite points_length, dec_value_pretty.
    unfold int_fits in Hn. destruct (m =? 0)%nat; [done|]. cbn [orb negb andb] in *.
    apply Nat.leb_le in Hn. by destruct (Nat.ltb_spec m (String.length (pretty (Z.abs_N n)))); [lia|]. }
  pose proof (points_digits _ (pretty_N_chars (Z.abs_N n))) as Hd.
  pose proof (int_part_pretty (Z.abs_N n) t Ht) as Hi.
  destruct (Z.neg_nonneg_cases n) as [Hneg|Hpos]; unfold match_number.
  - rewrite pretty_Z_neg by done. cbn [points app]. rewrite N.eqb_refl. cbn [drop]. rewrite ?drop_0.
    rewrite Hi, stops_frac, stops_exp, Hv by done. cbn [option_bind mbind]. do 3 f_equal. lia.
  - rewrite pretty_Z_nonneg by done.
    assert (Hm : match points (pretty (Z.abs_N n)) ++ t with c :: _ => c =? code "-" | [] => false end
                 = false).
    { destruct (pretty_cons (Z.abs_N n)) as (c & s & Hc0). rewrite Hc0 in *. cbn [points app] in *.
      apply Forall_cons in Hd as [Hc _]. destruct (N.eqb_spec (code c) (code "-")) as [He|]; [by rewrite He in Hc|done]. }
    rewrite Hm. cbv beta iota zeta.
    rewrite Hi, stops_frac, stops_exp, Hv by done. cbn [option_bind mbind]. do 3 f_equal. lia.
Qed.

(** ** Values *)

(** The Python value that a document of Json stands for. *)
Fixpoint value_of (j : json) : value :=
  match j with
  | JNull => VNull
  | JBool b => VBool b
  | JInt n => VInt n
  | JStr s => VStr s
  | JArr l => VArr (map value_of l)
  | JObj kvs => VObj (map (fun kv => (fst kv, value_of (snd kv))) kvs)
  end.

(** Every object is a dict (distinct keys), every integer within the limit. *)
Fixpoint readable (m : nat) (j : json) : bool :=
  match j with
  | JInt n => int_fits m n
  | JArr l => forallb (readable m) l
  | JObj kvs => bool_decide (NoDup kvs.*1) && forallb (fun kv => readable m (snd kv)) kvs
  | _ => true
  end.

Lemma value_of_inj a b : value_of a = value_of b -> a = b.
Proof.
  revert b. induction a as [| | | |l IH|kvs IH] using json_rect'; intros [| | | |l'|kvs'] H;
    cbn in H; try congruence.
  - injection H as H. f_equal. revert l' H.
    induction IH as [|x l Hx _ IHl]; intros [|y l'] H; try done.
    injection H as H1 H2. f_equal; auto.
  - injection H as H. f_equal. revert kvs' H.
    induction IH as [|[k x] l Hx _ IHl]; intros [|[k' y] l'] H; try done.
    injection H as -> H1 H2. cbn in Hx. f_equal; [f_equal|]; auto.
Qed.

Lemma dict_set_fresh {A} k (v : A) d : k ∉ d.*1 -> dict_set k v d = d ++ [(k, v)].
Proof.
  induction d as [|[k' v'] d IH]; [done|]. cbn. intros [Hk Hd]%not_elem_of_cons.
  destruct (String.eqb_spec k k') as [->|_]; [done|]. by rewrite IH.
Qed.

Lemma dict_of_distinct {A} (pairs : list (string * A)) : NoDup pairs.*1 -> dict_of pairs = pairs.
Proof.
  intros Hp. unfold dict_of. change pairs with ([] ++ pairs) in Hp at 1.
  rewrite <- (app_nil_l pairs) at 2. revert Hp. generalize (@nil (string * A)) as d.
  induction pairs as [|[k v] pairs IH]; intros d Hp; cbn [foldl fst snd]; [by rewrite app_nil_r|].
  rewrite dict_set_fresh, IH, <- ?app_assoc; [done| |].
  - by rewrite <- app_assoc.
  - rewrite fmap_app in Hp. cbn in Hp. rewrite NoDup_app in Hp. destruct Hp as (_ & Hp & _).
    intros Hk. apply (Hp k Hk). left.
Qed.

(** A value's text starts with none of the characters that close a container. *)
Definition opens (t : text) : bool :=
  match t with
  | c :: _ => negb (is_ws c || (c =? code "]") || (c =? code "}"))
  | [] => false
  end.

Lemma opens_skip t : opens t = true -> skip_ws t = t.
Proof. destruct t as [|c t]; [done|]. unfold opens. cbn [skip_ws]. by destruct (is_ws c). Qed.

Lemma is_dec_opens c t : is_dec c = true -> opens (c :: t) = true.
Proof.
  unfold is_dec, opens, is_ws. intros [H1%N.leb_le H2%N.leb_le]%andb_true_iff.
  apply negb_true_iff. rewrite !orb_false_iff, !N.eqb_neq. change (code "]") with 93.
  change (code "}") with 125. lia.
Qed.

Lemma dumps_opens ea j t : opens (points (dumps ea j) ++ t) = true.
Proof.
  destruct j as [|b|n|s|l|kvs]; try reflexivity; [by destruct b|].
  cbn [dumps]. destruct (Z.neg_nonneg_cases n) as [Hn|Hn].
  - by rewrite pretty_Z_neg.
  - rewrite pretty_Z_nonneg by done. destruct (pretty_cons (Z.abs_N n)) as (c & s & Hc).
    pose proof (pretty_N_chars (Z.abs_N n)) as Hd%points_digits. rewrite Hc in *.
    cbn [points app] in *. apply is_dec_opens. by apply Forall_cons in Hd as [? _].
Qed.

Section Values.
Context (ea : bool) (m : nat).
#[local] Abbreviation once := (scan_once m).
#[local] Abbreviation elements := (scan_elements m).
#[local] Abbreviation members := (scan_members m).

(** With enough fuel the text of [j] is read as [value_of j]. *)
Definition reads (j : json) : Prop :=
  exists n, forall f t, (n <= f)%nat -> stops t = true ->
    once f (points (dumps ea j) ++ t) = Some (value_of j, t).

Lemma scan_word_number c t :
  is_dec c = true \/ c = code "-" /\ starts_with (points "-Infinity") (c :: t) = false ->
  scan_word m (c :: t) = match_number m (c :: t).
Proof.
  intros Hc. unfold scan_word.
  assert (Hw : forall a w v, (code a =? c) = false -> word (String a w) v (c :: t) = None).
  { intros a w v Ha. unfold word, starts_with. cbn [points length take]. case_bool_decide as H; [|done].
    injection H as H _. by rewrite H, N.eqb_refl in Ha. }
  assert (Ho : forall a, a ∈ ["n"; "t"; "f"; "N"; "I"]%char -> (code a =? c) = false).
  { intros a Ha. apply N.eqb_neq. intros <-. destruct Hc as [Hc|[Hc _]];
      repeat (apply elem_of_cons in Ha as [->|Ha]; [done|]); by apply elem_of_nil in Ha. }
  rewrite (Hw "n"%char), (Hw "t"%char), (Hw "f"%char), (Hw "N"%char), (Hw "I"%char)
    by (apply Ho; repeat constructor).
  destruct Hc as [Hc|[-> Hi]].
  - rewrite Hw; [done|]. apply N.eqb_neq. intros <-. done.
  - unfold word. by rewrite Hi.
Qed.

Lemma reads_int n : int_fits m n = true -> reads (JInt n).
Proof.
  intros Hn. exists 1%nat. intros [|f] t Hf Ht; [lia|]. cbn [dumps value_of].
  rewrite <- (match_number_pretty m n t) by done.
  destruct (pretty_cons (Z.abs_N n)) as (c & s & Hc).
  pose proof (pretty_N_chars (Z.abs_N n)) as Hd%points_digits. rewrite Hc in Hd.
  cbn [points] in Hd. apply Forall_cons in Hd as [Hd _].
  destruct (Z.neg_nonneg_cases n) as [Hneg|Hpos].
  - rewrite pretty_Z_neg, Hc by done. cbn [points app]. rewrite scan_once_S.
    change (code "-" =? 34) with false. cbv iota. apply scan_word_number. right. split; [done|].
    unfold starts_with. apply bool_decide_eq_false. cbn [points length take]. intros [= H _].
    by rewrite H in Hd.
  - rewrite pretty_Z_nonneg, Hc by done. cbn [points app]. rewrite scan_once_S.
    assert (Hne : forall a, a ∈ [34; code "{"; code "["] -> (code c =? a) = false).
    { intros a Ha. apply N.eqb_neq. intros He. rewrite He in Hd.
      repeat (apply elem_of_cons in Ha as [->|Ha]; [done|]). by apply elem_of_nil in Ha. }
    rewrite (Hne 34), (Hne (code "{")), (Hne (code "[")) by repeat constructor. apply scan_word_number. by left.
Qed.

Lemma opens_dumps_app j t : skip_ws (points (dumps ea j) ++ t) = points (dumps ea j) ++ t.
Proof. apply opens_skip, dumps_opens. Qed.

Lemma concat_cons (x y : string) l :
  String.concat "," (x :: y :: l) = x +:+ "," +:+ String.concat "," (y :: l).
Proof. reflexivity. Qed.

Lemma elements_read x l :
  reads x -> Forall reads l ->
  exists n, forall f t, (n <= f)%nat ->
    elements f (points (String.concat "," (map (dumps ea) (x :: l))) ++ code "]" :: t) =
    Some (map value_of (x :: l), t).
Proof.
  intros Hx Hl. revert x Hx. induction Hl as [|y l Hy Hl IH]; intros x [nx Hx].
  - exists (S nx). intros [|f] t Hf; [lia|]. cbn [map String.concat].
    rewrite scan_elements_S, Hx by (lia || done). reflexivity.
  - destruct (IH y Hy) as [n Hn]. exists (S (nx + n)). intros [|f] t Hf; [lia|].
    cbn [map] in *. rewrite concat_cons, !points_app, <- !app_assoc.
    rewrite scan_elements_S, Hx by (lia || done). cbn [points app skip_ws].
    change (is_ws (code ",")) with false. cbv iota. change (code "," =? code "]") with false.
    rewrite N.eqb_refl. cbv iota.
    assert (Hs : skip_ws (points (String.concat "," (dumps ea y :: map (dumps ea) l)) ++ code "]" :: t)
                 = points (String.concat "," (dumps ea y :: map (dumps ea) l)) ++ code "]" :: t).
    { apply opens_skip. destruct l as [|z l]; cbn [map]; [apply dumps_opens|].
      rewrite concat_cons, points_app, <- app_assoc. apply dumps_opens. }
    by rewrite Hs, Hn by lia.
Qed.

Lemma reads_arr l : Forall reads l -> reads (JArr l).
Proof.
  intros Hl. destruct Hl as [|x l Hx Hl].
  - exists 1%nat. intros [|f] t Hf _; [lia|]. reflexivity.
  - destruct (elements_read x l Hx Hl) as [n Hn]. exists (S n). intros [|f] t Hf Ht; [lia|].
    change (points (dumps ea (JArr (x :: l)))) with
      (code "[" :: points (String.concat "," (map (dumps ea) (x :: l)) +:+ "]")).
    cbn [app]. rewrite scan_once_S. change (code "[" =? 34) with false.
    change (code "[" =? code "{") with false. rewrite N.eqb_refl. cbv iota.
    rewrite points_app, <- app_assoc. cbn [points app].
    specialize (Hn f t ltac:(lia)).
    assert (Ho : opens (points (String.concat "," (map (dumps ea) (x :: l))) ++ code "]" :: t) = true).
    { destruct l as [|z l]; cbn [map]; [apply dumps_opens|].
      rewrite concat_cons, points_app, <- app_assoc. apply dumps_opens. }
    rewrite opens_skip by done. set (body := points _ ++ _) in *.
    destruct body as [|c b]; [done|]. unfold opens in Ho.
    destruct (c =? code "]"); [by rewrite orb_true_r in Ho|]. by rewrite Hn.
Qed.

Definition item (kv : string * json) : string := quote ea (fst kv) +:+ ":" +:+ dumps ea (snd kv).

Lemma item_key kv t :
  member_key (points (item kv) ++ t) = Some (points (fst kv), points (dumps ea (snd kv)) ++ t).
Proof.
  unfold item, quote. rewrite !points_app, <- !app_assoc. unfold dquote at 1.
  cbn [points app member_key]. change (code (ascii_of_nat 34)) with 34.
  rewrite N.eqb_refl. cbn [negb]. unfold dquote. cbn [points app].
  change (code (ascii_of_nat 34)) with 34. rewrite scanstring_quoted. cbn [skip_ws].
  change (is_ws (code ":")) with false. cbv iota. rewrite N.eqb_refl. cbn [negb].
  by rewrite opens_dumps_app.
Qed.

Lemma item_opens kv t : opens (points (item kv) ++ t) = true.
Proof. reflexivity. Qed.

Lemma members_read x l :
  reads (snd x) -> Forall (fun kv => reads (snd kv)) l ->
  exists n, forall f t, (n <= f)%nat ->
    members f (points (String.concat "," (map item (x :: l))) ++ code "}" :: t) =
    Some (map (fun kv => (fst kv, value_of (snd kv))) (x :: l), t).
Proof.
  intros Hx Hl. revert x Hx. induction Hl as [|y l Hy Hl IH]; intros x [nx Hx].
  - exists (S nx). intros [|f] t Hf; [lia|]. cbn [map String.concat].
    rewrite scan_members_S, item_key, Hx, narrow_points by (lia || done). reflexivity.
  - destruct (IH y Hy) as [n Hn]. exists (S (nx + n)). intros [|f] t Hf; [lia|].
    cbn [map] in *. rewrite concat_cons, !points_app, <- !app_assoc.
    rewrite scan_members_S, item_key, Hx, narrow_points by (lia || done). cbn [points app skip_ws].
    change (is_ws (code ",")) with false. cbv iota. change (code "," =? code "}") with false.
    rewrite N.eqb_refl. cbv iota.
    assert (Hs : skip_ws (points (String.concat "," (item y :: map item l)) ++ code "}" :: t)
                 = points (String.concat "," (item y :: map item l)) ++ code "}" :: t)
      by (apply opens_skip; by destruct l).
    by rewrite Hs, Hn by lia.
Qed.

Lemma reads_obj kvs :
  NoDup kvs.*1 -> Forall (fun kv => reads (snd kv)) kvs -> reads (JObj kvs).
Proof.
  intros Hd Hl. destruct Hl as [|x l Hx Hl].
  - exists 1%nat. intros [|f] t Hf _; [lia|]. reflexivity.
  - destruct (members_read x l Hx Hl) as [n Hn]. exists (S n). intros [|f] t Hf Ht; [lia|].
    change (points (dumps ea (JObj (x :: l)))) with
      (code "{" :: points (String.concat "," (map item (x :: l)) +:+ "}")).
    cbn [app]. rewrite scan_once_S. change (code "{" =? 34) with false.
    rewrite N.eqb_refl. cbv iota.
    rewrite points_app, <- app_assoc. cbn [points app].
    specialize (Hn f t ltac:(lia)).
    assert (Ho : opens (points (String.concat "," (map item (x :: l))) ++ code "}" :: t) = true)
      by by destruct l.
    rewrite opens_skip by done. set (body := points _ ++ _) in *.
    destruct body as [|c b]; [done|]. unfold opens in Ho.
    destruct (c =? code "}"); [by rewrite orb_true_r in Ho|]. rewrite Hn.
    rewrite dict_of_distinct; [done|].
    rewrite <- list_fmap_compose. done.
Qed.

Lemma dumps_reads j : readable m j = true -> reads j.
Proof.
  induction j as [|b|n|s|l IH|kvs IH] using json_rect'; cbn [readable]; intros Hj.
  - exists 1%nat. intros [|f] t Hf _; [lia|]. reflexivity.
  - exists 1%nat. intros [|f] t Hf _; [lia|]. by destruct b.
  - by apply reads_int.
  - exists 1%nat. intros [|f] t Hf _; [lia|]. cbn [dumps value_of]. unfold quote.
    rewrite !points_app, <- !app_assoc. unfold dquote. cbn [points app]. rewrite scan_once_S.
    change (code (ascii_of_nat 34)) with 34. rewrite N.eqb_refl, scanstring_quoted.
    by rewrite narrow_points.
  - apply reads_arr. rewrite forallb_forall in Hj. apply Forall_forall. intros x Hx.
    rewrite Forall_forall in IH. apply IH; [done|]. apply Hj. by apply list_elem_of_In.
  - apply andb_true_iff in Hj as [Hd%bool_decide_eq_true Hj].
    apply reads_obj; [done|]. rewrite forallb_forall in Hj. apply Forall_forall. intros x Hx.
    rewrite Forall_forall in IH. apply IH; [done|]. apply Hj. by apply list_elem_of_In.
Qed.

Lemma loads_text_dumps j :
  readable m j = true -> loads_text m (points (dumps ea j)) = Some (value_of j).
Proof.
  intros Hj. destruct (dumps_reads j Hj) as [n Hn]. unfold loads_text.
  pose proof (opens_dumps_app j []) as Hs. rewrite app_nil_r in Hs. rewrite Hs.
  set (t := points (dumps ea j)) in *. rewrite (proj1 (scan_fuel m _) t (n + (2 * length t + 1))%nat) by lia.
  specialize (Hn (n + (2 * length t + 1))%nat [] ltac:(lia) eq_refl).
  fold t in Hn. rewrite app_nil_r in Hn. by rewrite Hn.
Qed.

End Values.

(** ** Bytes *)
Definition printable (c : ascii) : Prop := (32 <=? code c) = true.

Lemma escape_printable ea s : all_chars printable (escape ea s).
Proof.
  induction s as [|c s IH]; [done|]. cbn [escape]. apply all_chars_app. split; [|done].
  assert (H : forallb (fun ea => forallb (fun c => (32 <=? code c)) (list_ascii_of_string (escape_char ea c)))
            [true; false] = true).
  { revert c. apply (ascii_forall (fun c => forallb (fun ea => forallb (fun c => (32 <=? code c))
      (list_ascii_of_string (escape_char ea c))) [true; false])). vm_compute. done. }
  apply all_chars_forallb. cbn [forallb] in H. rewrite !andb_true_iff in H.
  destruct ea; tauto.
Qed.

Lemma quote_printable ea s : all_chars printable (quote ea s).
Proof. unfold quote. rewrite !all_chars_app. split_and!; [done|apply escape_printable|done]. Qed.

Lemma concat_printable l :
  Forall (all_chars printable) l -> all_chars printable (String.concat "," l).
Proof.
  induction 1 as [|x l Hx Hl IH]; [done|]. destruct l as [|y l]; [done|].
  rewrite concat_cons, !all_chars_app. done.
Qed.

Lemma pretty_printable (x : N) : all_chars printable (pretty x).
Proof.
  eapply all_chars_impl; [|apply pretty_N_chars]. intros c Hc. revert c Hc.
  apply (digit_forall (fun c => 32 <=? code c)). reflexivity.
Qed.

Lemma dumps_printable ea j : all_chars printable (dumps ea j).
Proof.
  induction j as [|b|n|s|l IH|kvs IH] using json_rect'; cbn [dumps]; try done.
  - by destruct b.
  - destruct (Z.neg_nonneg_cases n); [rewrite pretty_Z_neg|rewrite pretty_Z_nonneg]; try done;
      [split; [done|]|]; apply pretty_printable.
  - apply quote_printable.
  - rewrite !all_chars_app. split_and!; [done| |done]. apply concat_printable.
    by apply Forall_map.
  - rewrite !all_chars_app. split_and!; [done| |done]. apply concat_printable, Forall_map.
    eapply Forall_impl; [exact IH|]. intros kv Hkv. rewrite !all_chars_app.
    split_and!; [apply quote_printable|done|done].
Qed.

Lemma utf8_printable s : all_chars printable s -> all_chars printable (utf8 s).
Proof.
  induction s as [|c s IH]; [done|]. intros [Hc Hs]. cbn [utf8]. destruct (code c <? 128) eqn:H;
    cbn [all_chars]; [by auto|].
  pose proof (N_ascii_bounded c) as Hb. change (N_of_ascii c) with (code c) in Hb.
  assert (Hd : code c / 64 < 4) by (apply N.Div0.div_lt_upper_bound; lia).
  assert (Hm : code c mod 64 < 64) by (by apply N.mod_lt).
  assert (Hcode : forall n, n < 256 -> code (ascii_of_N n) = n) by (intros; by apply N_ascii_embedding).
  unfold printable. rewrite !Hcode by lia.
  split_and!; [apply N.leb_le; etrans; [|apply N.le_add_r]; done..|auto].
Qed.

Definition ascii_head (s : string) : Prop :=
  match s with String c _ => code c < 128 | EmptyString => True end.

Lemma dumps_head ea j : ascii_head (dumps ea j).
Proof.
  destruct j as [|b|n|s|l|kvs]; cbn [dumps]; try done; [by destruct b|].
  destruct (Z.neg_nonneg_cases n); [by rewrite pretty_Z_neg|rewrite pretty_Z_nonneg by done].
  pose proof (pretty_N_chars (Z.abs_N n)) as Hd. destruct (pretty (Z.abs_N n)) as [|c s]; [done|].
  apply N.ltb_lt. destruct Hd as [Hc _]. revert c Hc.
  apply (digit_forall (fun c => code c <? 128)). reflexivity.
Qed.

Lemma detect_utf8 s :
  all_chars printable s -> ascii_head s -> detect_encoding (points (utf8 s)) = Utf8.
Proof.
  intros Hs Hh. pose proof (utf8_printable s Hs) as Hu.
  destruct s as [|c s]; [done|]. cbn [utf8 ascii_head] in *. rewrite (proj2 (N.ltb_lt _ _) Hh) in *.
  destruct Hu as [Hc Hu]. unfold printable in Hc. apply N.leb_le in Hc.
  assert (Hp : forall p b, p <> code c -> starts_with (p :: b) (points (String c (utf8 s))) = false).
  { intros p b Hne. unfold starts_with. apply bool_decide_eq_false. cbn. congruence. }
  unfold detect_encoding. rewrite !Hp by lia. cbn [orb points].
  destruct (utf8 s) as [|c1 [|c2 [|c3 r]]]; cbn [points]; try done; destruct Hu as [Hc1 _];
    unfold printable in Hc1; apply N.leb_le in Hc1; rewrite !(proj2 (N.eqb_neq _ _)) by lia; done.
Qed.

(** [json.loads(json.dumps(j).encode())] is the value of [j]. *)
Lemma loads_dumps ea m j :
  readable m j = true -> loads m (points (utf8 (dumps ea j))) = Some (value_of j).
Proof.
  intros Hj. unfold loads.
  rewrite detect_utf8 by (apply dumps_printable || apply dumps_head).
  cbn [decode]. rewrite utf8_decode_utf8. by apply loads_text_dumps.
Qed.

Lemma utf8_dumps_inj ea a b :
  readable 0 a = true -> readable 0 b = true -> utf8 (dumps ea a) = utf8 (dumps ea b) -> a = b.
Proof.
  intros Ha Hb H. apply value_of_inj. pose proof (loads_dumps ea 0 a Ha) as H1.
  rewrite H, (loads_dumps ea 0 b Hb) in H1. congruence.
Qed.
