(* ===== verification/Dates.v ===== *)
(** * Dates: [datetime.isoformat] and [datetime.fromisoformat]

    The proleptic Gregorian calendar of CPython's Lib/datetime.py, the rendering of an aware UTC
    datetime, and the reading of what [isoformat] renders, with any separator character and any
    offset.  The other spellings of ISO 8601 that [fromisoformat] takes (basic and week dates,
    reduced precision, "Z") differ between the versions of its C parser: they are the parameter
    [iso8601]. *)
From S2P Require Import Prelude Text.
#[local] Open Scope Z_scope.

(** ** The calendar *)
Definition is_leap (year : Z) : bool :=
  (year mod 4 =? 0) && (negb (year mod 100 =? 0) || (year mod 400 =? 0)).

Definition days_before_year (year : Z) : Z :=
  let y := year - 1 in y * 365 + y / 4 - y / 100 + y / 400.

Definition days_in_month_table : list Z := [0; 31; 28; 31; 30; 31; 30; 31; 31; 30; 31; 30; 31].
Definition days_before_month_table : list Z :=
  [0; 0; 31; 59; 90; 120; 151; 181; 212; 243; 273; 304; 334].
Definition at_month (l : list Z) (month : Z) : Z := nth (Z.to_nat month) l 0.

Definition days_in_month (leap : bool) (month : Z) : Z :=
  at_month days_in_month_table month + (if (month =? 2) && leap then 1 else 0).
Definition days_before_month (leap : bool) (month : Z) : Z :=
  at_month days_before_month_table month + (if (2 <? month) && leap then 1 else 0).

(** [_ymd2ord]: 1 January of the year 1 is day 1. *)
Definition ymd2ord (year month day : Z) : Z :=
  days_before_year year + days_before_month (is_leap year) month + day.

(** The month and the day of the month of day [n] of a year, counted from 0. *)
Definition month_day (leap : bool) (n : Z) : Z * Z :=
  let month := Z.shiftr (n + 50) 5 in
  let preceding := days_before_month leap month in
  if n <? preceding then
    let month := month - 1 in
    (month, n - (preceding - days_in_month leap month) + 1)
  else (month, n - preceding + 1).

(** [_ord2ymd]. *)
Definition ord2ymd (n : Z) : Z * Z * Z :=
  let n := n - 1 in
  let '(n400, n) := Z.div_eucl n 146097 in
  let '(n100, n) := Z.div_eucl n 36524 in
  let '(n4, n) := Z.div_eucl n 1461 in
  let '(n1, n) := Z.div_eucl n 365 in
  let year := n400 * 400 + 1 + n100 * 100 + n4 * 4 + n1 in
  if (n1 =? 4) || (n100 =? 4) then (year - 1, 12, 31)
  else
    let leapyear := (n1 =? 3) && (negb (n4 =? 24) || (n100 =? 3)) in
    let '(month, day) := month_day leapyear n in
    (year, month, day).

(** What the constructor of [date] checks. *)
Definition valid_date (year month day : Z) : bool :=
  (1 <=? year) && (year <=? 9999) && (1 <=? month) && (month <=? 12) &&
  (1 <=? day) && (day <=? days_in_month (is_leap year) month).

(** ** Instants *)
Definition us_per_day : Z := 86400000000.
Definition epoch_ordinal : Z := 719163.

(** The instants of [datetime.min] and [datetime.max] in UTC, in microseconds since the epoch. *)
Definition min_instant : Z := -62135596800000000.
Definition max_instant : Z := 253402300799999999.
Definition datetime_ok (dt : datetime) : bool := (min_instant <=? dt) && (dt <=? max_instant).

(** [x] in exactly [k] decimal digits: "%0kd" of a non-negative [x] below 10^k. *)
Fixpoint dec_fixed (k : nat) (x : Z) : string :=
  match k with
  | O => EmptyString
  | S k' => dec_fixed k' (x / 10) +:+ String (ascii_of_N (48 + Z.to_N (x mod 10))) EmptyString
  end.

(** [dt.isoformat()] of an aware datetime in UTC, as the database returns it. *)
Definition isoformat (dt : datetime) : string :=
  let '(year, month, day) := ord2ymd (dt / us_per_day + epoch_ordinal) in
  let us := dt mod us_per_day in
  let sec := us / 1000000 in
  dec_fixed 4 year +:+ "-" +:+ dec_fixed 2 month +:+ "-" +:+ dec_fixed 2 day +:+ "T" +:+
  dec_fixed 2 (sec / 3600) +:+ ":" +:+ dec_fixed 2 (sec / 60 mod 60) +:+ ":" +:+
  dec_fixed 2 (sec mod 60) +:+
  (if us mod 1000000 =? 0 then "" else "." +:+ dec_fixed 6 (us mod 1000000)) +:+ "+00:00".

(** ** Reading *)

(** A datetime: its wall clock in microseconds since the epoch, and its offset from UTC. *)
Record stamp := mkStamp {
  wall : Z;
  utcoffset : option Z }.

Definition dec_digit (c : ascii) : option Z :=
  if ((48 <=? code c) && (code c <=? 57))%N then Some (Z.of_N (code c) - 48) else None.

(** Exactly [k] digits. *)
Fixpoint read_digits (k : nat) (acc : Z) (s : string) : option (Z * string) :=
  match k, s with
  | O, _ => Some (acc, s)
  | S k', String c s' => d ← dec_digit c; read_digits k' (10 * acc + d) s'
  | S _, EmptyString => None
  end.

Definition read_char (c : ascii) (s : string) : option string :=
  match s with String a s' => if (a =? c)%char then Some s' else None | EmptyString => None end.

Definition any_char (s : string) : option string :=
  match s with String _ s' => Some s' | EmptyString => None end.

(** The optional fraction of six digits. *)
Definition read_fraction (s : string) : option (Z * string) :=
  match read_char "." s with
  | Some s' => read_digits 6 0 s'
  | None => Some (0, s)
  end.

(** The offset "HH:MM[:SS[.ffffff]]" after its sign, to the end of the text. *)
Definition read_offset (s : string) : option Z :=
  '(hh, s) ← read_digits 2 0 s; s ← read_char ":" s; '(mm, s) ← read_digits 2 0 s;
  '(rest, s) ← match read_char ":" s with
               | Some s => '(ss, s) ← read_digits 2 0 s; '(us, s) ← read_fraction s;
                           Some (seconds ss + us, s)
               | None => Some (0, s)
               end;
  match s with EmptyString => Some (hours hh + minutes mm + rest) | _ => None end.

(** The zone to the end of the text: none, or a signed offset. *)
Definition read_zone (s : string) : option (option Z) :=
  match s with
  | EmptyString => Some None
  | String c s' =>
      if (c =? "+")%char then Some <$> read_offset s'
      else if (c =? "-")%char then Some ∘ Z.opp <$> read_offset s'
      else None
  end.

(** The fields of a text in the format of [isoformat]. *)
Record fields := mkFields {
  f_year : Z; f_month : Z; f_day : Z; f_hour : Z; f_minute : Z; f_second : Z; f_us : Z;
  f_zone : option Z }.

Definition read_fields (s : string) : option fields :=
  '(year, s) ← read_digits 4 0 s; s ← read_char "-" s;
  '(month, s) ← read_digits 2 0 s; s ← read_char "-" s; '(day, s) ← read_digits 2 0 s;
  s ← any_char s;
  '(hour, s) ← read_digits 2 0 s; s ← read_char ":" s;
  '(minute, s) ← read_digits 2 0 s; s ← read_char ":" s;
  '(second, s) ← read_digits 2 0 s; '(us, s) ← read_fraction s;
  zone ← read_zone s;
  Some (mkFields year month day hour minute second us zone).

(** The constructors of [datetime] and [timezone]; [None] is the ValueError. *)
Definition make_datetime (f : fields) : option stamp :=
  if valid_date f.(f_year) f.(f_month) f.(f_day) &&
     (f.(f_hour) <=? 23) && (f.(f_minute) <=? 59) && (f.(f_second) <=? 59) &&
     (default 0 (Z.abs <$> f.(f_zone)) <? us_per_day)
  then Some (mkStamp
    (days (ymd2ord f.(f_year) f.(f_month) f.(f_day) - epoch_ordinal) +
     hours f.(f_hour) + minutes f.(f_minute) + seconds f.(f_second) + f.(f_us)) f.(f_zone))
  else None.

(** [datetime.fromisoformat(s)]; [None] is the ValueError. *)
Definition fromisoformat (iso8601 : string -> option stamp) (s : string) : option stamp :=
  match read_fields s with
  | Some f => make_datetime f
  | None => iso8601 s
  end.

Example isoformat_examples :
  isoformat 0 = "1970-01-01T00:00:00+00:00"%string /\
  isoformat 951826153000250 = "2000-02-29T12:09:13.000250+00:00"%string /\
  isoformat min_instant = "0001-01-01T00:00:00+00:00"%string /\
  isoformat max_instant = "9999-12-31T23:59:59.999999+00:00"%string.
Proof. vm_compute. done. Qed.

Example fromisoformat_examples :
  fromisoformat (fun _ => None) "2000-02-29 12:09:13-05:30" =
    Some (mkStamp 951826153000000 (Some (-19800000000))) /\
  fromisoformat (fun _ => None) "1900-02-29T12:09:13+00:00" = None /\
  fromisoformat (fun _ => None) "1999-12-31T24:00:00" = None /\
  fromisoformat (fun _ => None) "1999-12-31T00:00:00+24:00" = None /\
  fromisoformat (fun _ => None) "1999-12-31T00:00:00" = Some (mkStamp 946598400000000 None).
Proof. vm_compute. done. Qed.

(** ** Lemmas: the calendar *)

(** Every day of a common and of a leap year, checked one by one. *)
Lemma month_day_ok leap n :
  0 <= n < (if leap : bool then 366 else 365) ->
  1 <= (month_day leap n).1 <= 12 /\
  1 <= (month_day leap n).2 <= days_in_month leap (month_day leap n).1 /\
  days_before_month leap (month_day leap n).1 + (month_day leap n).2 = n + 1.
Proof.
  intros Hn.
  set (p := fun n => let md := month_day leap n in
    (1 <=? md.1) && (md.1 <=? 12) && (1 <=? md.2) && (md.2 <=? days_in_month leap md.1) &&
    (days_before_month leap md.1 + md.2 =? n + 1)).
  assert (H : forallb p (Z.of_nat <$> seq 0 (if leap then 366 else 365)) = true)
    by (subst p; destruct leap; vm_compute; reflexivity).
  rewrite forallb_forall in H. specialize (H n). unfold p in H. cbv zeta in H.
  rewrite !andb_true_iff, !Z.leb_le, Z.eqb_eq in H.
  assert (Hin : In n (Z.of_nat <$> seq 0 (if leap then 366 else 365))); [|specialize (H Hin); lia].
  apply list_elem_of_In, list_elem_of_fmap. exists (Z.to_nat n).
  split; [lia|]. apply elem_of_seq. destruct leap; lia.
Qed.

(** The year that starts [a] cycles of 400, [b] of 100, [c] of 4 and [d] years after the first. *)
Lemma days_before_cycles a b c d :
  0 <= b <= 3 -> 0 <= c <= 24 -> 0 <= d <= 3 ->
  days_before_year (a * 400 + 1 + b * 100 + c * 4 + d) =
    a * 146097 + b * 36524 + c * 1461 + d * 365 /\
  is_leap (a * 400 + 1 + b * 100 + c * 4 + d) = (d =? 3) && (negb (c =? 24) || (b =? 3)).
Proof.
  intros Hb Hc Hd. unfold days_before_year, is_leap. cbv zeta. split.
  - set (y := _ - 1). assert (Hy : y = a * 400 + b * 100 + c * 4 + d) by lia. clearbody y.
    assert (y / 4 = a * 100 + b * 25 + c) as -> by (symmetry; apply (Z.div_unique _ _ _ d); lia).
    assert (y / 100 = a * 4 + b) as ->
      by (symmetry; apply (Z.div_unique _ _ _ (c * 4 + d)); lia).
    assert (y / 400 = a) as ->
      by (symmetry; apply (Z.div_unique _ _ _ (b * 100 + c * 4 + d)); lia).
    lia.
  - set (y := _ + _ + d).
    assert (H4 : (y mod 4 =? 0) = (d =? 3)).
    { destruct (Z.eqb_spec d 3), (Z.eqb_spec (y mod 4) 0) as [H|H]; try done; exfalso;
        subst y; [|]; revert H; Z.to_euclidean_division_equations; lia. }
    rewrite H4. destruct (Z.eqb_spec d 3) as [->|]; [|done]. cbn [andb].
    assert (H100 : (y mod 100 =? 0) = (c =? 24)).
    { destruct (Z.eqb_spec c 24), (Z.eqb_spec (y mod 100) 0) as [H|H]; try done; exfalso;
        subst y; revert H; Z.to_euclidean_division_equations; lia. }
    rewrite H100. destruct (Z.eqb_spec c 24) as [->|]; [|done]. cbn [negb orb].
    destruct (Z.eqb_spec b 3), (Z.eqb_spec (y mod 400) 0) as [H|H]; try done; exfalso;
      subst y; revert H; Z.to_euclidean_division_equations; lia.
Qed.

Lemma div_eucl_eq a b : Z.div_eucl a b = (a / b, a mod b).
Proof. unfold Z.div, Z.modulo. by destruct (Z.div_eucl a b). Qed.

(** The mixed-radix digits of a day number. *)
Lemma cycles n :
  let a := n / 146097 in let r1 := n mod 146097 in
  let b := r1 / 36524 in let r2 := r1 mod 36524 in
  let c := r2 / 1461 in let r3 := r2 mod 1461 in
  let d := r3 / 365 in let r4 := r3 mod 365 in
  n = a * 146097 + b * 36524 + c * 1461 + d * 365 + r4 /\
  0 <= b <= 4 /\ 0 <= c <= 24 /\ 0 <= d <= 4 /\ 0 <= r4 < 365 /\
  (b = 4 -> c = 0 /\ d = 0 /\ r4 = 0) /\ (d = 4 -> r4 = 0) /\
  (c = 24 -> b < 3 -> d < 4).
Proof.
  cbv zeta.
  pose proof (Z.div_mod n 146097 ltac:(lia)) as E1.
  pose proof (Z.mod_pos_bound n 146097 ltac:(lia)) as B1.
  set (a := n / 146097) in *. set (r1 := n mod 146097) in *. clearbody a r1.
  pose proof (Z.div_mod r1 36524 ltac:(lia)) as E2.
  pose proof (Z.mod_pos_bound r1 36524 ltac:(lia)) as B2.
  set (b := r1 / 36524) in *. set (r2 := r1 mod 36524) in *. clearbody b r2.
  pose proof (Z.div_mod r2 1461 ltac:(lia)) as E3.
  pose proof (Z.mod_pos_bound r2 1461 ltac:(lia)) as B3.
  set (c := r2 / 1461) in *. set (r3 := r2 mod 1461) in *. clearbody c r3.
  pose proof (Z.div_mod r3 365 ltac:(lia)) as E4.
  pose proof (Z.mod_pos_bound r3 365 ltac:(lia)) as B4.
  set (d := r3 / 365) in *. set (r4 := r3 mod 365) in *. clearbody d r4.
  lia.
Qed.

Lemma valid_date_true y m d :
  valid_date y m d = true <->
  1 <= y <= 9999 /\ 1 <= m <= 12 /\ 1 <= d <= days_in_month (is_leap y) m.
Proof. unfold valid_date. rewrite !andb_true_iff, !Z.leb_le. tauto. Qed.

(** [_ymd2ord] inverts [_ord2ymd], whose result is a date. *)
Lemma ord2ymd_ok n :
  1 <= n <= 3652059 ->
  let '(year, month, day) := ord2ymd n in
  valid_date year month day = true /\ ymd2ord year month day = n.
Proof.
  intros Hn. unfold ord2ymd. rewrite !div_eucl_eq.
  pose proof (cycles (n - 1)) as H. cbv zeta in H.
  set (a := (n - 1) / 146097) in *. set (r1 := (n - 1) mod 146097) in *.
  set (b := r1 / 36524) in *. set (r2 := r1 mod 36524) in *.
  set (c := r2 / 1461) in *. set (r3 := r2 mod 1461) in *.
  set (d := r3 / 365) in *. set (r4 := r3 mod 365) in *. clearbody a b c d r4. clear r1 r2 r3.
  destruct H as (Hs & Hb & Hc & Hd & Hr & Hb4 & Hd4 & Hc24).
  unfold ymd2ord. cbv zeta.
  destruct (Z.eqb_spec d 4) as [->|Hd']; [|destruct (Z.eqb_spec b 4) as [->|Hb']]; cbn [orb].
  - (* 31 December of a leap year *)
    assert (Hy : a * 400 + 1 + b * 100 + c * 4 + 4 - 1 = a * 400 + 1 + b * 100 + c * 4 + 3) by lia.
    rewrite Hy, valid_date_true. destruct (days_before_cycles a b c 3) as [-> ->]; [lia..|].
    assert (Hl : (3 =? 3) && (negb (c =? 24) || (b =? 3)) = true).
    { destruct (Z.eqb_spec c 24), (Z.eqb_spec b 3); try done. lia. }
    rewrite Hl. change (days_in_month true 12) with 31. change (days_before_month true 12) with 335. lia.
  - assert (Hy : a * 400 + 1 + 4 * 100 + c * 4 + d - 1 = a * 400 + 1 + 3 * 100 + 24 * 4 + 3) by lia.
    rewrite Hy, valid_date_true. destruct (days_before_cycles a 3 24 3) as [-> ->]; [lia..|].
    change ((3 =? 3) && _) with true. change (days_in_month true 12) with 31. change (days_before_month true 12) with 335. lia.
  - pose proof (days_before_cycles a b c d ltac:(lia) ltac:(lia) ltac:(lia)) as [Hby Hleap].
    rewrite <- Hleap. set (y := _ + d) in *.
    pose proof (month_day_ok (is_leap y) r4) as Hmd.
    destruct (month_day (is_leap y) r4) as [mo da]. cbn [fst snd] in Hmd.
    destruct Hmd as (Hmo & Hda & Hsum); [destruct (is_leap y); lia|].
    rewrite Hby, valid_date_true. lia.
Qed.

(** ** Lemmas: the text *)
Lemma read_digits_add a b acc s :
  read_digits (a + b) acc s = '(v, s') ← read_digits a acc s; read_digits b v s'.
Proof.
  revert acc s. induction a as [|a IH]; intros acc s; [done|]. destruct s as [|c s]; [done|].
  cbn [Nat.add read_digits]. destruct (dec_digit c) as [d|]; [|done]. cbn. apply IH.
Qed.

Lemma dec_digit_char x : dec_digit (ascii_of_N (48 + Z.to_N (x mod 10))) = Some (x mod 10).
Proof.
  assert (Hx : 0 <= x mod 10 < 10) by (apply Z.mod_pos_bound; lia).
  set (d := x mod 10) in *. clearbody d.
  assert (H : d = 0 \/ d = 1 \/ d = 2 \/ d = 3 \/ d = 4 \/ d = 5 \/ d = 6 \/
    d = 7 \/ d = 8 \/ d = 9) by lia.
  repeat destruct H as [->|H]; subst; reflexivity.
Qed.

Lemma read_digits_fixed k acc x s :
  read_digits k acc (dec_fixed k x +:+ s) = Some (10 ^ Z.of_nat k * acc + x mod 10 ^ Z.of_nat k, s).
Proof.
  revert acc x s. induction k as [|k IH]; intros acc x s.
  - cbn [dec_fixed read_digits]. rewrite Z.pow_0_r, Z.mod_1_r, Z.mul_1_l, Z.add_0_r. done.
  - rewrite <- Nat.add_1_r at 1. rewrite read_digits_add. cbn [dec_fixed].
    rewrite str_app_assoc, IH. cbn [mbind option_bind]. rewrite str_app_cons.
    cbn [read_digits]. rewrite dec_digit_char. cbn [mbind option_bind]. do 2 f_equal.
    rewrite Nat2Z.inj_succ, Z.pow_succ_r by lia.
    rewrite Z.rem_mul_r by lia. lia.
Qed.

(** A field that fits its digits is read back. *)
Lemma read_field k x s :
  0 <= x < 10 ^ Z.of_nat k -> read_digits k 0 (dec_fixed k x +:+ s) = Some (x, s).
Proof. intros Hx. rewrite read_digits_fixed, Z.mod_small by done. do 2 f_equal. lia. Qed.

Lemma read_char_cons c s : read_char c (String c s) = Some s.
Proof. cbn. by rewrite Ascii.eqb_refl. Qed.

(** The fraction, as [isoformat] leaves it out or writes it. *)
Lemma read_fraction_us us zone :
  0 <= us < 1000000 ->
  read_fraction ((if us =? 0 then ""%string else "." +:+ dec_fixed 6 us) +:+ String "+" zone) =
  Some (us, String "+" zone).
Proof.
  intros Hus. destruct (Z.eqb_spec us 0) as [->|Hne]; [done|].
  unfold read_fraction. rewrite !str_app_cons, read_char_cons, str_app_nil_l.
  by rewrite read_field.
Qed.

Lemma read_zone_utc : read_zone "+00:00" = Some (Some 0).
Proof. reflexivity. Qed.

(** The fields that [isoformat] writes are read back. *)
Lemma read_fields_written year month day h m s us :
  0 <= year < 10000 -> 0 <= month < 100 -> 0 <= day < 100 -> 0 <= h < 100 -> 0 <= m < 100 ->
  0 <= s < 100 -> 0 <= us < 1000000 ->
  read_fields (dec_fixed 4 year +:+ "-" +:+ dec_fixed 2 month +:+ "-" +:+ dec_fixed 2 day +:+ "T"
    +:+ dec_fixed 2 h +:+ ":" +:+ dec_fixed 2 m +:+ ":" +:+ dec_fixed 2 s +:+
    (if (us =? 0)%Z then "" else "." +:+ dec_fixed 6 us) +:+ "+00:00")%string =
  Some (mkFields year month day h m s us (Some 0)).
Proof.
  intros. pose proof (read_fraction_us us "00:00" ltac:(done)) as Hf.
  set (rest := _ +:+ String "+" "00:00") in *. clearbody rest. unfold read_fields.
  rewrite ?str_app_cons, ?str_app_nil_l.
  repeat (rewrite read_field by done; cbn [mbind option_bind any_char];
          rewrite ?read_char_cons; cbn [mbind option_bind any_char]).
idtac.
  rewrite Hf. cbn [mbind option_bind]. by rewrite read_zone_utc.
Qed.

Lemma days_in_month_le leap month : days_in_month leap month <= 32.
Proof.
  unfold days_in_month, at_month. generalize (Z.to_nat month) as n. intros n.
  do 13 (destruct n as [|n]; [cbn; case_match; lia|]). rewrite nth_overflow by (cbn; lia).
  case_match; lia.
Qed.

(** [datetime.fromisoformat(dt.isoformat())] is [dt], for every instant that is a datetime. *)
Lemma fromisoformat_isoformat iso8601 dt :
  datetime_ok dt = true -> fromisoformat iso8601 (isoformat dt) = Some (mkStamp dt (Some 0)).
Proof.
  unfold datetime_ok, min_instant, max_instant. rewrite andb_true_iff, !Z.leb_le. intros Hdt.
  unfold isoformat, fromisoformat.
  pose proof (Z.div_mod dt us_per_day ltac:(done)) as E.
  pose proof (Z.mod_pos_bound dt us_per_day ltac:(done)) as B.
  set (q := dt / us_per_day) in *. set (us := dt mod us_per_day) in *. clearbody q us.
  unfold us_per_day in E, B. pose proof (ord2ymd_ok (q + epoch_ordinal)) as Hord.
  destruct (ord2ymd _) as [[year month] day].
  destruct Hord as [Hv Hord]; [unfold epoch_ordinal; lia|].
  pose proof (proj1 (valid_date_true _ _ _) Hv) as (Hy & Hmo & Hda).
  pose proof (days_in_month_le (is_leap year) month) as Hd31.
  pose proof (Z.div_mod us 1000000 ltac:(done)) as E1.
  pose proof (Z.mod_pos_bound us 1000000 ltac:(done)) as B1.
  cbv zeta. set (sec := us / 1000000) in *. set (f := us mod 1000000) in *. clearbody sec f.
  pose proof (Z.div_mod sec 60 ltac:(done)) as E2.
  pose proof (Z.mod_pos_bound sec 60 ltac:(done)) as B2.
  assert (Eh : sec / 3600 = sec / 60 / 60) by (by rewrite Z.div_div).
  rewrite Eh. set (mi := sec / 60) in *. set (s := sec mod 60) in *. clearbody mi s. clear Eh.
  pose proof (Z.div_mod mi 60 ltac:(done)) as E3.
  pose proof (Z.mod_pos_bound mi 60 ltac:(done)) as B3.
  set (h := mi / 60) in *. set (m := mi mod 60) in *. clearbody h m.
  rewrite read_fields_written by lia. unfold make_datetime. cbn [f_year f_month f_day f_hour
    f_minute f_second f_us f_zone]. rewrite Hv.
  rewrite !(proj2 (Z.leb_le _ _)) by lia. cbn -[hours minutes seconds days].
  do 2 f_equal. rewrite Hord. unfold hours, minutes, seconds, days, hours, minutes, seconds. lia.
Qed.
