(* ===== verification/Base64.v ===== *)
(** * Base64: the URL-safe base64 of the pagination cursors

    [base64.urlsafe_b64encode], and [base64.urlsafe_b64decode] with the non-strict reading of
    [binascii.a2b_base64]: characters outside the alphabet are skipped, and the text ends at a
    padding that completes a group. *)
From S2P Require Import Prelude Text Json JsonLoads JsonRoundTrip.
#[local] Open Scope N_scope.

(** ** Encoding *)
Definition b64_char (n : N) : ascii :=
  ascii_of_N (if n <? 26 then 65 + n else if n <? 52 then 71 + n
              else if n <? 62 then n - 4 else if n =? 62 then code "-" else code "_").

Fixpoint urlsafe_b64encode (b : list N) : string :=
  match b with
  | b0 :: b1 :: b2 :: r =>
      String (b64_char (b0 / 4)) (String (b64_char (b0 mod 4 * 16 + b1 / 16))
        (String (b64_char (b1 mod 16 * 4 + b2 / 64)) (String (b64_char (b2 mod 64))
          (urlsafe_b64encode r))))
  | [b0; b1] =>
      String (b64_char (b0 / 4)) (String (b64_char (b0 mod 4 * 16 + b1 / 16))
        (String (b64_char (b1 mod 16 * 4)) "="))
  | [b0] => String (b64_char (b0 / 4)) (String (b64_char (b0 mod 4 * 16)) "==")
  | [] => ""
  end.

(** ** Decoding *)

(** The value of a byte of the text, after the translation of "-_" to "+/". *)
Definition b64_value (c : N) : option N :=
  if (65 <=? c) && (c <=? 90) then Some (c - 65)
  else if (97 <=? c) && (c <=? 122) then Some (c - 71)
  else if (48 <=? c) && (c <=? 57) then Some (c + 4)
  else if (c =? code "+") || (c =? code "-") then Some 62
  else if (c =? code "/") || (c =? code "_") then Some 63
  else None.

(** [quad_pos] is the place in the group of four, [leftchar] the bits kept from the last
    character, [pads] the padding seen since; [None] is the binascii.Error. *)
Fixpoint a2b_base64 (quad_pos : nat) (leftchar pads : N) (t : list N) : option (list N) :=
  match t with
  | [] => if (quad_pos =? 0)%nat then Some [] else None
  | c :: t' =>
      if c =? code "=" then
        if (quad_pos <? 2)%nat then a2b_base64 quad_pos leftchar pads t'
        else if 4 <=? N.of_nat quad_pos + (pads + 1) then Some []
        else a2b_base64 quad_pos leftchar (pads + 1) t'
      else match b64_value c with
      | None => a2b_base64 quad_pos leftchar pads t'
      | Some v =>
          match quad_pos with
          | 0%nat => a2b_base64 1 v 0 t'
          | 1%nat => cons (leftchar * 4 + v / 16) <$> a2b_base64 2 (v mod 16) 0 t'
          | 2%nat => cons (leftchar * 16 + v / 4) <$> a2b_base64 3 (v mod 4) 0 t'
          | _ => cons (leftchar * 64 + v) <$> a2b_base64 0 0 0 t'
          end
      end
  end.

Definition urlsafe_b64decode (t : list N) : option (list N) := a2b_base64 0 0 0 t.

Example b64_examples :
  urlsafe_b64encode (points "any carnal pleas") = "YW55IGNhcm5hbCBwbGVhcw=="%string /\
  urlsafe_b64decode (points "YW55!IGNhcm5hbCBwbGVhcw==junk") = Some (points "any carnal pleas") /\
  urlsafe_b64decode (points "YW5=5") = Some (points "an") /\
  urlsafe_b64decode (points "YW5") = None.
Proof. vm_compute. done. Qed.

(** ** Lemmas *)

(** A property of the sixty-four digits, checked one by one. *)
Lemma b64_forall (p : N -> bool) :
  forallb p (N.of_nat <$> seq 0 64) = true -> forall n, n < 64 -> p n = true.
Proof.
  intros H n Hn. rewrite forallb_forall in H. apply H, list_elem_of_In, list_elem_of_fmap.
  exists (N.to_nat n). rewrite N2Nat.id. split; [done|]. apply elem_of_seq. lia.
Qed.

Lemma b64_char_ok n :
  n < 64 ->
  b64_value (code (b64_char n)) = Some n /\ code (b64_char n) < 128 /\
  (code (b64_char n) =? code "=") = false.
Proof.
  intros Hn.
  assert (H : bool_decide (b64_value (code (b64_char n)) = Some n) && (code (b64_char n) <? 128) &&
    negb (code (b64_char n) =? code "=") = true).
  { revert n Hn. apply (b64_forall (fun n => bool_decide (b64_value (code (b64_char n)) = Some n)
      && (code (b64_char n) <? 128) && negb (code (b64_char n) =? code "="))). vm_compute. done. }
  rewrite !andb_true_iff, bool_decide_eq_true, N.ltb_lt, negb_true_iff in H. tauto.
Qed.

Lemma a2b_char q l p n t :
  n < 64 ->
  a2b_base64 q l p (code (b64_char n) :: t) =
    match q with
    | 0%nat => a2b_base64 1 n 0 t
    | 1%nat => cons (l * 4 + n / 16) <$> a2b_base64 2 (n mod 16) 0 t
    | 2%nat => cons (l * 16 + n / 4) <$> a2b_base64 3 (n mod 4) 0 t
    | _ => cons (l * 64 + n) <$> a2b_base64 0 0 0 t
    end.
Proof.
  intros Hn. destruct (b64_char_ok n Hn) as (Hv & _ & Hne). cbn [a2b_base64]. by rewrite Hne, Hv.
Qed.

Definition is_pad (c : ascii) : bool := (c =? "=")%char.

(** What [rstrip("=")] leaves of an encoding. *)
Fixpoint unpadded (b : list N) : string :=
  match b with
  | b0 :: b1 :: b2 :: r =>
      String (b64_char (b0 / 4)) (String (b64_char (b0 mod 4 * 16 + b1 / 16))
        (String (b64_char (b1 mod 16 * 4 + b2 / 64)) (String (b64_char (b2 mod 64)) (unpadded r))))
  | [b0; b1] =>
      String (b64_char (b0 / 4)) (String (b64_char (b0 mod 4 * 16 + b1 / 16))
        (String (b64_char (b1 mod 16 * 4)) ""))
  | [b0] => String (b64_char (b0 / 4)) (String (b64_char (b0 mod 4 * 16)) "")
  | [] => ""
  end.

Definition bytes (b : list N) : Prop := Forall (fun x => x < 256) b.

(** Induction by groups of three bytes. *)
Lemma triple_ind (P : list N -> Prop) :
  P [] -> (forall a, P [a]) -> (forall a b, P [a; b]) ->
  (forall a b c r, P r -> P (a :: b :: c :: r)) -> forall l, P l.
Proof.
  intros H0 H1 H2 H3. fix IH 1. intros [|a [|b [|c r]]]; [done..|]. apply H3, IH.
Qed.

Lemma six_bits a b c :
  a < 256 -> b < 256 -> c < 256 ->
  a / 4 < 64 /\ a mod 4 * 16 + b / 16 < 64 /\ b mod 16 * 4 + c / 64 < 64 /\ c mod 64 < 64 /\
  a mod 4 * 16 < 64 /\ b mod 16 * 4 < 64.
Proof.
  intros Ha Hb Hc. pose proof (N.mod_lt a 4). pose proof (N.mod_lt b 16). pose proof (N.mod_lt c 64).
  assert (a / 4 < 64) by (apply N.Div0.div_lt_upper_bound; lia).
  assert (b / 16 < 16) by (apply N.Div0.div_lt_upper_bound; lia).
  assert (c / 64 < 4) by (apply N.Div0.div_lt_upper_bound; lia).
  set (a mod 4) in *. set (b / 16) in *. set (b mod 16) in *. set (c / 64) in *.
  split_and!; try done; lia.
Qed.

Lemma rstrip_keep c s :
  is_pad c = false -> rstrip_by is_pad (String c s) = String c (rstrip_by is_pad s).
Proof. intros Hc. cbn [rstrip_by]. rewrite Hc. by destruct (rstrip_by is_pad s). Qed.

Lemma b64_char_kept n : n < 64 -> is_pad (b64_char n) = false.
Proof.
  intros Hn. destruct (b64_char_ok n Hn) as (_ & _ & Hne). unfold is_pad.
  destruct (Ascii.eqb_spec (b64_char n) "=") as [He|]; [|done]. by rewrite He in Hne.
Qed.

Lemma rstrip_encode b : bytes b -> rstrip_by is_pad (urlsafe_b64encode b) = unpadded b.
Proof.
  induction b as [|a|a b|a b c r IH] using triple_ind; intros Hb; [done|..];
    repeat (apply Forall_cons in Hb as [? Hb]); cbn [urlsafe_b64encode unpadded].
  - pose proof (six_bits a 0 0 ltac:(lia) ltac:(lia) ltac:(lia)).
    rewrite !rstrip_keep by (apply b64_char_kept; tauto). done.
  - pose proof (six_bits a b 0 ltac:(lia) ltac:(lia) ltac:(lia)).
    rewrite !rstrip_keep by (apply b64_char_kept; tauto). done.
  - pose proof (six_bits a b c ltac:(lia) ltac:(lia) ltac:(lia)).
    rewrite !rstrip_keep by (apply b64_char_kept; tauto). by rewrite IH.
Qed.

(** [s + "=" * (-len(s) % 4)] *)
Definition pad4 (s : string) : string :=
  s +:+ string_of_list_ascii
    (repeat "="%char (Z.to_nat ((- Z.of_nat (String.length s)) mod 4)%Z)).

Lemma pad4_group c0 c1 c2 c3 s :
  pad4 (String c0 (String c1 (String c2 (String c3 s)))) =
  String c0 (String c1 (String c2 (String c3 (pad4 s)))).
Proof.
  unfold pad4. rewrite !str_app_cons. do 5 f_equal. cbn [String.length].
  do 2 f_equal. rewrite !Nat2Z.inj_succ.
  rewrite <- (Z.mod_add _ 1 4) by done. apply (f_equal (fun z => Z.to_nat (z mod 4))). lia.
Qed.

(** The bytes of a group of four digits. *)
Lemma group_bytes a b c :
  a < 256 -> b < 256 -> c < 256 ->
  a / 4 * 4 + (a mod 4 * 16 + b / 16) / 16 = a /\
  (a mod 4 * 16 + b / 16) mod 16 * 16 + (b mod 16 * 4 + c / 64) / 4 = b /\
  (b mod 16 * 4 + c / 64) mod 4 * 64 + c mod 64 = c.
Proof.
  intros Ha Hb Hc. pose proof (N.mod_lt a 4 ltac:(done)). pose proof (N.mod_lt b 16 ltac:(done)).
  assert (Hb16 : b / 16 < 16) by (apply N.Div0.div_lt_upper_bound; lia).
  assert (Hc64 : c / 64 < 4) by (apply N.Div0.div_lt_upper_bound; lia).
  rewrite (N.add_comm (a mod 4 * 16)), N.div_add, N.Div0.mod_add by done.
  rewrite (N.add_comm (b mod 16 * 4)), N.div_add, N.Div0.mod_add by done.
  rewrite (N.div_small (b / 16)), (N.mod_small (b / 16)) by done.
  rewrite (N.div_small (c / 64)), (N.mod_small (c / 64)) by done.
  pose proof (N.Div0.div_mod a 4). pose proof (N.Div0.div_mod b 16). pose proof (N.Div0.div_mod c 64).
  rewrite !N.add_0_l. split_and!; rewrite N.mul_comm; by symmetry.
Qed.

Lemma points_cons c s : points (String c s) = code c :: points s.
Proof. reflexivity. Qed.

(** Decoding the padded encoding gives the bytes back. *)
Lemma decode_unpadded b : bytes b -> urlsafe_b64decode (points (pad4 (unpadded b))) = Some b.
Proof.
  unfold urlsafe_b64decode.
  induction b as [|a|a b|a b c r IH] using triple_ind; intros Hb; [done|..];
    repeat (apply Forall_cons in Hb as [? Hb]); cbn [unpadded].
  - pose proof (six_bits a 0 0 ltac:(lia) ltac:(lia) ltac:(lia)) as H6.
    pose proof (group_bytes a 0 0 ltac:(lia) ltac:(lia) ltac:(lia)) as H3.
    change (0 / 16) with 0 in H3. rewrite !N.add_0_r in H3.
    unfold pad4. rewrite !str_app_cons, !points_cons, !a2b_char by tauto. cbn -[N.div N.modulo N.mul].
    by destruct H3 as (-> & _).
  - pose proof (six_bits a b 0 ltac:(lia) ltac:(lia) ltac:(lia)) as H6.
    pose proof (group_bytes a b 0 ltac:(lia) ltac:(lia) ltac:(lia)) as H3.
    change (0 / 64) with 0 in H3. rewrite !N.add_0_r in H3.
    unfold pad4. rewrite !str_app_cons, !points_cons, !a2b_char by tauto. cbn -[N.div N.modulo N.mul].
    by destruct H3 as (-> & -> & _).
  - pose proof (six_bits a b c ltac:(lia) ltac:(lia) ltac:(lia)) as H6.
    pose proof (group_bytes a b c ltac:(lia) ltac:(lia) ltac:(lia)) as H3.
    rewrite pad4_group, !points_cons, !a2b_char, IH by (done || tauto).
    cbn [fmap option_fmap option_map]. by destruct H3 as (-> & -> & ->).
Qed.
