(* ===== verification/Schema.v ===== *)
(** * Schema: the tables of db/models.py

    One record per mapped class, with the columns in the order of the class (the mixins of
    db/base.py contribute [id], [created_at] and [updated_at]); a database is a finite map from
    primary keys to rows for every table.  [fits] holds the VARCHAR and integer ranges of the
    columns, [row_ok] adds the unique, foreign-key and check constraints. *)
From S2P Require Import Prelude Text Json.

(** ** Rows *)

Record User := mkUser {
  user_id : uuid;
  user_email : string;
  user_password_hash : string;
  user_full_name : string;
  user_is_active : bool;
  user_created_at : datetime;
  user_updated_at : datetime }.

Record Organization := mkOrganization {
  org_id : uuid;
  org_name : string;
  org_slug : string;
  org_created_by : uuid;
  org_created_at : datetime;
  org_updated_at : datetime }.

Record OrganizationMembership := mkOrganizationMembership {
  mem_id : uuid;
  mem_organization_id : uuid;
  mem_user_id : uuid;
  mem_role : string;
  mem_created_at : datetime;
  mem_updated_at : datetime }.

Record Invitation := mkInvitation {
  inv_id : uuid;
  inv_organization_id : uuid;
  inv_email : string;
  inv_role : string;
  inv_token_hash : string;
  inv_status : string;
  inv_invited_by : uuid;
  inv_expires_at : datetime;
  inv_created_at : datetime;
  inv_updated_at : datetime }.

Record Project := mkProject {
  prj_id : uuid;
  prj_organization_id : uuid;
  prj_name : string;
  prj_description : option string;
  prj_status : string;
  prj_created_by : uuid;
  prj_created_at : datetime;
  prj_updated_at : datetime }.

Record Task := mkTask {
  task_id : uuid;
  task_organization_id : uuid;
  task_project_id : uuid;
  task_title : string;
  task_description : option string;
  task_status : string;
  task_priority : string;
  task_assignee_id : option uuid;
  task_created_by : uuid;
  task_due_at : option datetime;
  task_created_at : datetime;
  task_updated_at : datetime }.

Record Attachment := mkAttachment {
  att_id : uuid;
  att_organization_id : uuid;
  att_project_id : option uuid;
  att_task_id : option uuid;
  att_object_key : string;
  att_original_filename : string;
  att_content_type : string;
  att_size_bytes : Z;
  att_created_by : uuid;
  att_created_at : datetime;
  att_updated_at : datetime }.

Record RefreshToken := mkRefreshToken {
  rt_id : uuid;
  rt_user_id : uuid;
  rt_token_hash : string;
  rt_family_id : uuid;
  rt_expires_at : datetime;
  rt_revoked_at : option datetime;
  rt_replaced_by_hash : option string;
  rt_created_at : datetime }.

Record IdempotencyRecord := mkIdempotencyRecord {
  idem_id : uuid;
  idem_organization_id : option uuid;
  idem_user_id : uuid;
  idem_scope : string;
  idem_key : string;
  idem_request_hash : string;
  idem_status : string;
  idem_response_status : option Z;
  idem_response_body : option json;
  idem_created_at : datetime;
  idem_expires_at : datetime }.

Record WebhookEndpoint := mkWebhookEndpoint {
  ep_id : uuid;
  ep_organization_id : uuid;
  ep_url : string;
  ep_signing_secret_hash : string;
  ep_signing_secret_encrypted : string;
  ep_events : list string;
  ep_is_active : bool;
  ep_created_by : uuid;
  ep_created_at : datetime;
  ep_updated_at : datetime }.

Record WebhookDelivery := mkWebhookDelivery {
  dlv_id : uuid;
  dlv_event_id : uuid;
  dlv_endpoint_id : uuid;
  dlv_event_type : string;
  dlv_payload : json;
  dlv_state : string;
  dlv_attempt_count : Z;
  dlv_response_status : option Z;
  dlv_last_error : option string;
  dlv_next_retry_at : option datetime;
  dlv_created_at : datetime;
  dlv_updated_at : datetime }.

Record Subscription := mkSubscription {
  sub_id : uuid;
  sub_organization_id : uuid;
  sub_plan : string;
  sub_status : string;
  sub_stripe_customer_id : option string;
  sub_stripe_subscription_id : option string;
  sub_current_period_end : option datetime;
  sub_created_at : datetime;
  sub_updated_at : datetime }.

Record StripeEvent := mkStripeEvent {
  sev_id : uuid;
  sev_stripe_event_id : string;
  sev_event_type : string;
  sev_processed_at : datetime }.

Record AuditLog := mkAuditLog {
  aud_id : uuid;
  aud_organization_id : uuid;
  aud_actor_id : option uuid;
  aud_action : string;
  aud_entity_type : string;
  aud_entity_id : option uuid;
  aud_metadata : json;
  aud_created_at : datetime }.

#[export] Instance User_eq_dec : EqDecision User.
Proof. solve_decision. Defined.
#[export] Instance Organization_eq_dec : EqDecision Organization.
Proof. solve_decision. Defined.
#[export] Instance OrganizationMembership_eq_dec : EqDecision OrganizationMembership.
Proof. solve_decision. Defined.
#[export] Instance Invitation_eq_dec : EqDecision Invitation.
Proof. solve_decision. Defined.
#[export] Instance Project_eq_dec : EqDecision Project.
Proof. solve_decision. Defined.
#[export] Instance Task_eq_dec : EqDecision Task.
Proof. solve_decision. Defined.
#[export] Instance Attachment_eq_dec : EqDecision Attachment.
Proof. solve_decision. Defined.
#[export] Instance RefreshToken_eq_dec : EqDecision RefreshToken.
Proof. solve_decision. Defined.
#[export] Instance IdempotencyRecord_eq_dec : EqDecision IdempotencyRecord.
Proof. solve_decision. Defined.
#[export] Instance WebhookEndpoint_eq_dec : EqDecision WebhookEndpoint.
Proof. solve_decision. Defined.
#[export] Instance WebhookDelivery_eq_dec : EqDecision WebhookDelivery.
Proof. solve_decision. Defined.
#[export] Instance Subscription_eq_dec : EqDecision Subscription.
Proof. solve_decision. Defined.
#[export] Instance StripeEvent_eq_dec : EqDecision StripeEvent.
Proof. solve_decision. Defined.
#[export] Instance AuditLog_eq_dec : EqDecision AuditLog.
Proof. solve_decision. Defined.

(** ** Tables *)
Inductive table :=
  | TUser
  | TOrganization
  | TMembership
  | TInvitation
  | TProject
  | TTask
  | TAttachment
  | TRefreshToken
  | TIdempotency
  | TEndpoint
  | TDelivery
  | TSubscription
  | TStripeEvent
  | TAuditLog.

#[export] Instance table_eq_dec : EqDecision table.
Proof. solve_decision. Defined.

Definition row (t : table) : Type :=
  match t with
  | TUser => User
  | TOrganization => Organization
  | TMembership => OrganizationMembership
  | TInvitation => Invitation
  | TProject => Project
  | TTask => Task
  | TAttachment => Attachment
  | TRefreshToken => RefreshToken
  | TIdempotency => IdempotencyRecord
  | TEndpoint => WebhookEndpoint
  | TDelivery => WebhookDelivery
  | TSubscription => Subscription
  | TStripeEvent => StripeEvent
  | TAuditLog => AuditLog
  end.

#[global] Arguments row : simpl never.

#[export] Instance row_eq_dec (t : table) : EqDecision (row t).
Proof. destruct t; unfold row; apply _. Defined.

(** The primary key. *)
Definition row_id (t : table) : row t -> uuid :=
  match t with
  | TUser => user_id
  | TOrganization => org_id
  | TMembership => mem_id
  | TInvitation => inv_id
  | TProject => prj_id
  | TTask => task_id
  | TAttachment => att_id
  | TRefreshToken => rt_id
  | TIdempotency => idem_id
  | TEndpoint => ep_id
  | TDelivery => dlv_id
  | TSubscription => sub_id
  | TStripeEvent => sev_id
  | TAuditLog => aud_id
  end.

(** [onupdate] of TimestampMixin: an UPDATE sets [updated_at]. *)
Definition touch (t : table) (now : datetime) : row t -> row t :=
  match t with
  | TUser => fun r => {| r with user_updated_at := now |}
  | TOrganization => fun r => {| r with org_updated_at := now |}
  | TMembership => fun r => {| r with mem_updated_at := now |}
  | TInvitation => fun r => {| r with inv_updated_at := now |}
  | TProject => fun r => {| r with prj_updated_at := now |}
  | TTask => fun r => {| r with task_updated_at := now |}
  | TAttachment => fun r => {| r with att_updated_at := now |}
  | TRefreshToken => fun r => r
  | TIdempotency => fun r => r
  | TEndpoint => fun r => {| r with ep_updated_at := now |}
  | TDelivery => fun r => {| r with dlv_updated_at := now |}
  | TSubscription => fun r => {| r with sub_updated_at := now |}
  | TStripeEvent => fun r => r
  | TAuditLog => fun r => r
  end.
(** The database state.  A table is a map from primary keys to rows. *)
Definition Db : Type := forall t : table, gmap uuid (row t).

(** The row of [t] with primary key [id]. *)
Abbreviation find t db id := (@lookup uuid (row t) (gmap uuid (row t)) _ id (db t)).

Definition empty_db : Db := fun _ => ∅.

(** Replaces the contents of table [t]. *)
Definition set_table (t : table) (m : gmap uuid (row t)) (db : Db) : Db :=
  fun t' => match decide (t = t') with
            | left e => eq_rect t (fun t' => gmap uuid (row t')) m t' e
            | right _ => db t'
            end.

Definition put (t : table) (r : row t) (db : Db) : Db :=
  set_table t (<[row_id t r := r]> (db t)) db.
Definition del (t : table) (id : uuid) (db : Db) : Db := set_table t (delete id (db t)) db.
(** Keeps the rows of [t] that satisfy [p]. *)
Definition keep (t : table) (p : row t -> bool) (db : Db) : Db :=
  set_table t (filter (fun kv => p kv.2 = true) (db t)) db.

(** Some row of [t] other than the one with primary key [id] satisfies [p]. *)
Definition other_row (t : table) (db : Db) (id : uuid) (p : row t -> bool) : bool :=
  existsb (fun kv => negb (bool_decide (kv.1 = id)) && p kv.2) (map_to_list (db t)).

(** ** Column types *)
Definition varchar (n : nat) (s : string) : bool := (String.length s <=? n)%nat.
Definition varchar_opt (n : nat) (s : option string) : bool := default true (varchar n <$> s).
Definition int4 (n : Z) : bool := (-2 ^ 31 <=? n)%Z && (n <? 2 ^ 31)%Z.
Definition int8 (n : Z) : bool := (-2 ^ 63 <=? n)%Z && (n <? 2 ^ 63)%Z.

(** Every value fits its column; otherwise the driver raises DataError. *)
Definition fits (t : table) : row t -> bool :=
  match t with
  | TUser => fun r => varchar 320 r.(user_email) && varchar 255 r.(user_password_hash)
      && varchar 160 r.(user_full_name)
  | TOrganization => fun r => varchar 160 r.(org_name) && varchar 80 r.(org_slug)
  | TMembership => fun r => varchar 20 r.(mem_role)
  | TInvitation => fun r => varchar 320 r.(inv_email) && varchar 20 r.(inv_role)
      && varchar 64 r.(inv_token_hash) && varchar 20 r.(inv_status)
  | TProject => fun r => varchar 160 r.(prj_name) && varchar 20 r.(prj_status)
  | TTask => fun r => varchar 200 r.(task_title) && varchar 20 r.(task_status)
      && varchar 20 r.(task_priority)
  | TAttachment => fun r => varchar 512 r.(att_object_key)
      && varchar 255 r.(att_original_filename) && varchar 160 r.(att_content_type)
      && int8 r.(att_size_bytes)
  | TRefreshToken => fun r => varchar 64 r.(rt_token_hash)
      && varchar_opt 64 r.(rt_replaced_by_hash)
  | TIdempotency => fun r => varchar 120 r.(idem_scope) && varchar 160 r.(idem_key)
      && varchar 64 r.(idem_request_hash) && varchar 20 r.(idem_status)
      && default true (int4 <$> r.(idem_response_status))
  | TEndpoint => fun r => varchar 2048 r.(ep_url) && varchar 64 r.(ep_signing_secret_hash)
  | TDelivery => fun r => varchar 120 r.(dlv_event_type) && varchar 20 r.(dlv_state)
      && int4 r.(dlv_attempt_count) && default true (int4 <$> r.(dlv_response_status))
  | TSubscription => fun r => varchar 20 r.(sub_plan) && varchar 20 r.(sub_status)
      && varchar_opt 255 r.(sub_stripe_customer_id)
      && varchar_opt 255 r.(sub_stripe_subscription_id)
  | TStripeEvent => fun r => varchar 255 r.(sev_stripe_event_id) && varchar 160 r.(sev_event_type)
  | TAuditLog => fun r => varchar 160 r.(aud_action) && varchar 120 r.(aud_entity_type)
  end.

(** ** Constraints *)
Definition one_of (l : list string) (s : string) : bool := existsb (String.eqb s) l.

(** CheckConstraint. *)
Definition check_ok (t : table) : row t -> bool :=
  match t with
  | TMembership => fun r => one_of ["owner"; "admin"; "member"; "viewer"] r.(mem_role)
  | TInvitation => fun r => one_of ["admin"; "member"; "viewer"] r.(inv_role)
      && one_of ["pending"; "accepted"; "revoked"; "expired"] r.(inv_status)
  | TProject => fun r => one_of ["active"; "archived"] r.(prj_status)
  | TTask => fun r => one_of ["todo"; "in_progress"; "done"; "cancelled"] r.(task_status)
      && one_of ["low"; "medium"; "high"; "urgent"] r.(task_priority)
  | TAttachment => fun r =>
      negb (Bool.eqb (bool_decide (is_Some r.(att_project_id)))
                     (bool_decide (is_Some r.(att_task_id))))
      && (0 <? r.(att_size_bytes))%Z
  | TIdempotency => fun r => one_of ["processing"; "completed"; "failed"] r.(idem_status)
  | TDelivery => fun r => one_of ["pending"; "delivered"; "retrying"; "dead"] r.(dlv_state)
  | TSubscription => fun r => one_of ["free"; "pro"; "business"] r.(sub_plan)
      && one_of ["inactive"; "trialing"; "active"; "past_due"; "cancelled"] r.(sub_status)
  | _ => fun _ => true
  end.

(** Equal and not NULL. *)
Definition same_opt (a b : option string) : bool :=
  match a, b with Some x, Some y => String.eqb x y | _, _ => false end.

(** [conflict t r r']: the rows agree on a UniqueConstraint, a unique column or a unique index. *)
Definition conflict (t : table) : row t -> row t -> bool :=
  match t with
  | TUser => fun r r' => String.eqb r.(user_email) r'.(user_email)
  | TOrganization => fun r r' => String.eqb r.(org_slug) r'.(org_slug)
  | TMembership => fun r r' => N.eqb r.(mem_organization_id) r'.(mem_organization_id)
      && N.eqb r.(mem_user_id) r'.(mem_user_id)
  | TInvitation => fun r r' => String.eqb r.(inv_token_hash) r'.(inv_token_hash)
      || (N.eqb r.(inv_organization_id) r'.(inv_organization_id)
          && String.eqb r.(inv_email) r'.(inv_email)
          && String.eqb r.(inv_status) "pending" && String.eqb r'.(inv_status) "pending")
  | TProject => fun r r' => N.eqb r.(prj_organization_id) r'.(prj_organization_id)
      && String.eqb r.(prj_name) r'.(prj_name)
  | TAttachment => fun r r' => String.eqb r.(att_object_key) r'.(att_object_key)
  | TRefreshToken => fun r r' => String.eqb r.(rt_token_hash) r'.(rt_token_hash)
  | TIdempotency => fun r r' => String.eqb r.(idem_scope) r'.(idem_scope)
      && String.eqb r.(idem_key) r'.(idem_key)
  | TDelivery => fun r r' => N.eqb r.(dlv_event_id) r'.(dlv_event_id)
      && N.eqb r.(dlv_endpoint_id) r'.(dlv_endpoint_id)
  | TSubscription => fun r r' => N.eqb r.(sub_organization_id) r'.(sub_organization_id)
      || same_opt r.(sub_stripe_customer_id) r'.(sub_stripe_customer_id)
      || same_opt r.(sub_stripe_subscription_id) r'.(sub_stripe_subscription_id)
  | TStripeEvent => fun r r' => String.eqb r.(sev_stripe_event_id) r'.(sev_stripe_event_id)
  | TTask | TEndpoint | TAuditLog => fun _ _ => false
  end.

Definition has (t : table) (db : Db) (id : uuid) : bool := bool_decide (is_Some (db t !! id)).
Definition has_opt (t : table) (db : Db) (id : option uuid) : bool :=
  default true (has t db <$> id).

(** The composite keys of ForeignKeyConstraint: a project or a task of the same organization. *)
Definition project_of (db : Db) (org prj : uuid) : bool :=
  match find TProject db prj with
  | Some p => N.eqb p.(prj_organization_id) org
  | None => false
  end.
Definition task_of (db : Db) (org tk : uuid) : bool :=
  match find TTask db tk with
  | Some k => N.eqb k.(task_organization_id) org
  | None => false
  end.

(** ForeignKey and ForeignKeyConstraint. *)
Definition refs_ok (t : table) (db : Db) : row t -> bool :=
  match t with
  | TUser | TStripeEvent => fun _ => true
  | TOrganization => fun r => has TUser db r.(org_created_by)
  | TMembership => fun r => has TOrganization db r.(mem_organization_id)
      && has TUser db r.(mem_user_id)
  | TInvitation => fun r => has TOrganization db r.(inv_organization_id)
      && has TUser db r.(inv_invited_by)
  | TProject => fun r => has TOrganization db r.(prj_organization_id)
      && has TUser db r.(prj_created_by)
  | TTask => fun r => has TOrganization db r.(task_organization_id)
      && project_of db r.(task_organization_id) r.(task_project_id)
      && has_opt TUser db r.(task_assignee_id) && has TUser db r.(task_created_by)
  | TAttachment => fun r => has TOrganization db r.(att_organization_id)
      && default true (project_of db r.(att_organization_id) <$> r.(att_project_id))
      && default true (task_of db r.(att_organization_id) <$> r.(att_task_id))
      && has TUser db r.(att_created_by)
  | TRefreshToken => fun r => has TUser db r.(rt_user_id)
  | TIdempotency => fun r => has_opt TOrganization db r.(idem_organization_id)
      && has TUser db r.(idem_user_id)
  | TEndpoint => fun r => has TOrganization db r.(ep_organization_id)
      && has TUser db r.(ep_created_by)
  | TDelivery => fun r => has TEndpoint db r.(dlv_endpoint_id)
  | TSubscription => fun r => has TOrganization db r.(sub_organization_id)
  | TAuditLog => fun r => has TOrganization db r.(aud_organization_id)
      && has_opt TUser db r.(aud_actor_id)
  end.

(** What PostgreSQL enforces on the row [r] of [t]: the column types and the constraints. *)
Definition row_ok (t : table) (db : Db) (r : row t) : bool :=
  fits t r && check_ok t r && refs_ok t db r && negb (other_row t db (row_id t r) (conflict t r)).

(** ON DELETE CASCADE from a task and from a project (the rows the program deletes that other
    rows reference). *)
Definition delete_task_row (tk : uuid) (db : Db) : Db :=
  keep TAttachment (fun a => negb (bool_decide (a.(att_task_id) = Some tk))) (del TTask tk db).

Definition delete_project_row (prj : uuid) (db : Db) : Db :=
  let gone := fun k => match find TTask db k with
                       | Some k => N.eqb k.(task_project_id) prj
                       | None => false
                       end in
  keep TAttachment (fun a => negb (bool_decide (a.(att_project_id) = Some prj))
                             && negb (default false (gone <$> a.(att_task_id))))
    (keep TTask (fun k => negb (N.eqb k.(task_project_id) prj)) (del TProject prj db)).

(** ** Well-formed databases *)

(** Every row sits under its primary key, fits its columns and satisfies its constraints. *)
Definition db_ok (db : Db) : Prop :=
  forall t id r, db t !! id = Some r -> row_id t r = id /\ row_ok t db r = true.

(** ** Lemmas: tables *)
Lemma set_table_eq t m db : set_table t m db t = m.
Proof. unfold set_table. destruct t; reflexivity. Qed.

Lemma set_table_ne t t' m db : t <> t' -> set_table t m db t' = db t'.
Proof. intros H. unfold set_table. by destruct (decide (t = t')). Qed.

Lemma put_eq t r db : put t r db t = <[row_id t r := r]> (db t).
Proof. apply set_table_eq. Qed.
Lemma put_ne t t' r db : t <> t' -> put t r db t' = db t'.
Proof. apply set_table_ne. Qed.
Lemma del_eq t id db : del t id db t = delete id (db t).
Proof. apply set_table_eq. Qed.
Lemma del_ne t t' id db : t <> t' -> del t id db t' = db t'.
Proof. apply set_table_ne. Qed.
Lemma keep_eq t p db : keep t p db t = filter (fun kv => p kv.2 = true) (db t).
Proof. apply set_table_eq. Qed.
Lemma keep_ne t t' p db : t <> t' -> keep t p db t' = db t'.
Proof. apply set_table_ne. Qed.

Lemma lookup_put_self t r db : put t r db t !! row_id t r = Some r.
Proof. rewrite put_eq. apply lookup_insert_eq. Qed.

Lemma find_put t r db id : row_id t r = id -> find t (put t r db) id = Some r.
Proof. intros <-. apply lookup_put_self. Qed.

Lemma lookup_put_ne t r db id : row_id t r <> id -> put t r db t !! id = db t !! id.
Proof. intros H. rewrite put_eq. by apply lookup_insert_ne. Qed.

(** A row of [put t r db] is [r] or a row of [db]. *)
Lemma lookup_put_Some t r db t' id r' :
  put t r db t' !! id = Some r' ->
  (exists e : t = t', id = row_id t r /\ r' = eq_rect t row r t' e) \/
  (db t' !! id = Some r' /\ (t <> t' \/ id <> row_id t r)).
Proof.
  destruct (decide (t = t')) as [<-|Hne].
  - rewrite put_eq, lookup_insert_Some. intros [[<- <-]|[Hid Hr]]; [left|right].
    + by exists eq_refl.
    + split; [done|]. right. congruence.
  - rewrite put_ne by done. auto.
Qed.

Lemma lookup_keep_Some t p db id r :
  keep t p db t !! id = Some r <-> db t !! id = Some r /\ p r = true.
Proof. rewrite keep_eq, map_lookup_filter_Some. done. Qed.

Lemma lookup_del_Some t db id id' r :
  del t id db t !! id' = Some r <-> id <> id' /\ db t !! id' = Some r.
Proof. rewrite del_eq. apply lookup_delete_Some. Qed.

Lemma other_row_false t db id p :
  other_row t db id p = false <->
  forall id' r, db t !! id' = Some r -> id' <> id -> p r = false.
Proof.
  unfold other_row. rewrite existsb_false_iff. split.
  - intros H id' r Hr Hne. specialize (H (id', r)). rewrite elem_of_map_to_list in H.
    specialize (H Hr). cbn in H. by rewrite bool_decide_eq_false_2 in H by done.
  - intros H [id' r] Hr%elem_of_map_to_list. cbn. case_bool_decide; [done|]. by eapply H.
Qed.

Lemma has_true t db id : has t db id = true <-> is_Some (db t !! id).
Proof. unfold has. apply bool_decide_eq_true. Qed.

Lemma string_eqb_sym (a b : string) : String.eqb a b = String.eqb b a.
Proof. destruct (String.eqb_spec a b), (String.eqb_spec b a); congruence. Qed.

Lemma same_opt_sym a b : same_opt a b = same_opt b a.
Proof. destruct a, b; cbn; try done. apply string_eqb_sym. Qed.

Lemma conflict_sym t r r' : conflict t r r' = conflict t r' r.
Proof.
  destruct t; cbn; try reflexivity;
    repeat first [apply string_eqb_sym | apply N.eqb_sym | apply same_opt_sym
      | rewrite <- !andb_assoc, (andb_comm (String.eqb (inv_status r) _)) | f_equal].
Qed.

Lemma one_of_elem l s : one_of l s = true <-> s ∈ l.
Proof.
  unfold one_of. rewrite existsb_exists. setoid_rewrite <- list_elem_of_In.
  setoid_rewrite String.eqb_eq. split; [intros (x & ? & ->); done|eauto].
Qed.

Create Rewrite HintDb tables.
#[export] Hint Rewrite put_eq del_eq keep_eq : tables.
#[export] Hint Rewrite put_ne del_ne keep_ne using discriminate : tables.
(** Reads of a named table through writes to named tables. *)
Ltac tables := autorewrite with tables in *.

(** One goal per member of an explicit list of tables. *)
Ltac table_cases H := set_unfold in H; destruct_or?; subst.

(** ** Lemmas: referential integrity *)

(** [db'] has at least the anchors other rows refer to: the primary keys of [db], with projects
    and tasks in the same organizations. *)
Record anchors_le (db db' : Db) : Prop := {
  anchors_has t id : t ∈ [TUser; TOrganization; TEndpoint] ->
    has t db id = true -> has t db' id = true;
  anchors_project org prj : project_of db org prj = true -> project_of db' org prj = true;
  anchors_task org tk : task_of db org tk = true -> task_of db' org tk = true }.

Lemma default_fmap_mono {A} (f g : A -> bool) (o : option A) :
  (forall a, f a = true -> g a = true) -> default true (f <$> o) = true ->
  default true (g <$> o) = true.
Proof. intros H. destruct o; cbn; auto. Qed.

Create HintDb anchors.
#[local] Hint Extern 1 (_ ∈ [_; _; _]) => set_solver : anchors.

Lemma refs_ok_mono t db db' r : anchors_le db db' -> refs_ok t db r = true -> refs_ok t db' r = true.
Proof.
  intros [Hh Hp Ht]. destruct t; cbn; unfold has_opt; rewrite ?andb_true_iff;
    intros; destruct_and?; split_and?; eauto using default_fmap_mono with anchors.
Qed.

(** What other rows may rely on when a row is overwritten. *)
Definition same_anchor (t : table) : row t -> row t -> Prop :=
  match t with
  | TProject => fun r r' => r.(prj_organization_id) = r'.(prj_organization_id)
  | TTask => fun r r' => r.(task_organization_id) = r'.(task_organization_id)
  | _ => fun _ _ => True
  end.

Lemma anchors_le_put t r db :
  (forall old, db t !! row_id t r = Some old -> same_anchor t old r) -> anchors_le db (put t r db).
Proof.
  intros Hold. split.
  - intros t' id _. rewrite !has_true. destruct (decide (t = t')) as [<-|Hne].
    + rewrite put_eq. intros ?. destruct (decide (row_id t r = id)) as [->|];
        [rewrite lookup_insert_eq|rewrite lookup_insert_ne by done]; eauto.
    + by rewrite put_ne.
  - intros org prj. unfold project_of. destruct t; tables; try done.
    intros H. destruct (decide (prj_id r = prj)) as [<-|];
      [|cbn; rewrite lookup_insert_ne by done; exact H].
    cbn. rewrite lookup_insert_eq. destruct (db TProject !! prj_id r) eqn:E; [|done].
    cbn in Hold. by rewrite <- (Hold _ E).
  - intros org tk. unfold task_of. destruct t; tables; try done.
    intros H. destruct (decide (task_id r = tk)) as [<-|];
      [|cbn; rewrite lookup_insert_ne by done; exact H].
    cbn. rewrite lookup_insert_eq. destruct (db TTask !! task_id r) eqn:E; [|done].
    cbn in Hold. by rewrite <- (Hold _ E).
Qed.

Lemma row_ok_true t db r :
  row_ok t db r = true <->
  (fits t r = true /\ check_ok t r = true) /\ refs_ok t db r = true /\
  forall id' r', db t !! id' = Some r' -> id' <> row_id t r -> conflict t r r' = false.
Proof. unfold row_ok. rewrite !andb_true_iff, negb_true_iff, other_row_false. tauto. Qed.

(** Writing an admissible row keeps the database well formed. *)
Lemma db_ok_put t r db :
  db_ok db -> row_ok t db r = true ->
  (forall old, db t !! row_id t r = Some old -> same_anchor t old r) ->
  db_ok (put t r db).
Proof.
  intros Hok Hr Hold t' id r' Hlook.
  pose proof (anchors_le_put t r db Hold) as Hle.
  apply row_ok_true in Hr as (Hc & Href & Huniq).
  apply lookup_put_Some in Hlook as [(e & -> & ->)|[Hlook Hne]].
  - subst t'. cbn. split; [done|]. apply row_ok_true. split; [done|]. split; [by eapply refs_ok_mono|].
    intros id' r' Hr' Hid. rewrite lookup_put_ne in Hr' by done. eauto.
  - destruct (Hok _ _ _ Hlook) as [Hid (Hc' & Href' & Huniq')%row_ok_true].
    split; [done|]. apply row_ok_true. split; [done|]. split; [by eapply refs_ok_mono|].
    intros id2 r2 Hr2 Hid2.
    apply lookup_put_Some in Hr2 as [(e & -> & ->)|[Hr2 _]]; [|by eapply Huniq'].
    subst t'. cbn in *. rewrite conflict_sym. eapply Huniq; [exact Hlook|].
    destruct Hne; congruence.
Qed.

(** Removing rows keeps the database well formed when no reference is left dangling. *)
Lemma db_ok_sub db db' :
  (forall t id r, db' t !! id = Some r -> db t !! id = Some r) ->
  (forall t id r, db' t !! id = Some r -> refs_ok t db r = true -> refs_ok t db' r = true) ->
  db_ok db -> db_ok db'.
Proof.
  intros Hsub Href Hok t id r Hr.
  destruct (Hok _ _ _ (Hsub _ _ _ Hr)) as [Hid (Hc & Hrefs & Huniq)%row_ok_true].
  split; [done|]. apply row_ok_true. eauto 6.
Qed.

Lemma keep_sub t p db t' id r : keep t p db t' !! id = Some r -> db t' !! id = Some r.
Proof.
  destruct (decide (t = t')) as [<-|Hne]; [|by rewrite keep_ne].
  rewrite lookup_keep_Some. tauto.
Qed.

Lemma del_sub t k db t' id r : del t k db t' !! id = Some r -> db t' !! id = Some r.
Proof.
  destruct (decide (t = t')) as [<-|Hne]; [|by rewrite del_ne].
  rewrite lookup_del_Some. tauto.
Qed.

(** Tables no constraint refers to. *)
Definition unreferenced (t : table) : bool :=
  match t with
  | TUser | TOrganization | TEndpoint | TProject | TTask => false
  | _ => true
  end.

Lemma anchors_le_eq db db' :
  (forall t, unreferenced t = false -> db' t = db t) -> anchors_le db db'.
Proof.
  intros H. split.
  - intros t id Ht. unfold has. rewrite H; [done|]. by table_cases Ht.
  - intros org prj. unfold project_of. by rewrite H.
  - intros org tk. unfold task_of. by rewrite H.
Qed.

Lemma anchors_le_set_table t m db : unreferenced t = true -> anchors_le db (set_table t m db).
Proof. intros Ht. apply anchors_le_eq. intros t' Ht'. apply set_table_ne. congruence. Qed.

Lemma db_ok_keep t p db : unreferenced t = true -> db_ok db -> db_ok (keep t p db).
Proof.
  intros Ht. apply db_ok_sub; [intros *; apply keep_sub|].
  intros t' id r _. by apply refs_ok_mono, anchors_le_set_table.
Qed.

Lemma db_ok_del t k db : unreferenced t = true -> db_ok db -> db_ok (del t k db).
Proof.
  intros Ht. apply db_ok_sub; [intros *; apply del_sub|].
  intros t' id r _. by apply refs_ok_mono, anchors_le_set_table.
Qed.

Lemma has_eq t db db' id : db' t = db t -> has t db' id = has t db id.
Proof. unfold has. by intros ->. Qed.

(** References survive when the users, organizations and endpoints do and the project and task
    that [r] itself names are untouched. *)
Lemma refs_ok_local t db db' (r : row t) :
  (forall t', t' ∈ [TUser; TOrganization; TEndpoint] -> db' t' = db t') ->
  match t as t return row t -> Prop with
  | TTask => fun r => db' TProject !! r.(task_project_id) = db TProject !! r.(task_project_id)
  | TAttachment => fun r =>
      (forall p, r.(att_project_id) = Some p -> db' TProject !! p = db TProject !! p) /\
      (forall k, r.(att_task_id) = Some k -> db' TTask !! k = db TTask !! k)
  | _ => fun _ => True
  end r ->
  refs_ok t db' r = refs_ok t db r.
Proof.
  intros Heq. assert (forall id, has TUser db' id = has TUser db id) as Hu
    by (intros; apply has_eq, Heq; set_solver).
  assert (forall id, has TOrganization db' id = has TOrganization db id) as Ho
    by (intros; apply has_eq, Heq; set_solver).
  assert (forall id, has TEndpoint db' id = has TEndpoint db id) as He
    by (intros; apply has_eq, Heq; set_solver).
  assert (forall id, has_opt TUser db' id = has_opt TUser db id) as Huo
    by (intros [id|]; cbn; [apply Hu|done]).
  assert (forall id, has_opt TOrganization db' id = has_opt TOrganization db id) as Hoo
    by (intros [id|]; cbn; [apply Ho|done]).
  destruct t; cbn; rewrite ?Hu, ?Ho, ?He, ?Huo, ?Hoo; try done.
  - intros Hp. unfold project_of. by rewrite Hp.
  - intros [Hp Hk]. destruct (att_project_id r), (att_task_id r); cbn; unfold project_of, task_of;
      rewrite ?(Hp _ eq_refl), ?(Hk _ eq_refl); done.
Qed.

Lemma delete_task_row_ne tk db t : t <> TTask -> t <> TAttachment -> delete_task_row tk db t = db t.
Proof. intros. unfold delete_task_row. by rewrite keep_ne, del_ne. Qed.

Lemma delete_task_row_sub tk db t id r :
  delete_task_row tk db t !! id = Some r -> db t !! id = Some r.
Proof. intros H%keep_sub. by eapply del_sub. Qed.

Lemma db_ok_delete_task_row tk db : db_ok db -> db_ok (delete_task_row tk db).
Proof.
  apply db_ok_sub; [intros *; apply delete_task_row_sub|].
  intros t id r Hr Href. rewrite (refs_ok_local _ db); [done|..].
  - intros t' Ht'. table_cases Ht'; by apply delete_task_row_ne.
  - destruct t; try done.
    unfold delete_task_row in *. split; intros k Hk; rewrite keep_ne by done.
    + by rewrite del_ne.
    + rewrite del_eq, lookup_delete_ne; [done|]. intros ->.
      apply lookup_keep_Some in Hr as [_ Hr]. by rewrite bool_decide_eq_true_2 in Hr by done.
Qed.

Lemma delete_project_row_ne prj db t :
  t <> TProject -> t <> TTask -> t <> TAttachment -> delete_project_row prj db t = db t.
Proof. intros. unfold delete_project_row. by rewrite !keep_ne, del_ne. Qed.

Lemma delete_project_row_sub prj db t id r :
  delete_project_row prj db t !! id = Some r -> db t !! id = Some r.
Proof. intros H%keep_sub%keep_sub. by eapply del_sub. Qed.

Lemma db_ok_delete_project_row prj db : db_ok db -> db_ok (delete_project_row prj db).
Proof.
  intros Hok. revert Hok. apply db_ok_sub; [intros *; apply delete_project_row_sub|].
  intros t id r Hr Href. rewrite (refs_ok_local _ db); [done|..].
  - intros t' Ht'. table_cases Ht'; by apply delete_project_row_ne.
  - destruct t; try done; unfold delete_project_row in *.
    + rewrite !keep_ne, del_eq by done. rewrite lookup_delete_ne; [done|]. intros Heq.
      rewrite keep_ne in Hr by done. apply lookup_keep_Some in Hr as [_ Hr].
      by rewrite Heq, N.eqb_refl in Hr.
    + apply lookup_keep_Some in Hr as [_ [Hp Hk]%andb_true_iff].
      split; intros x Hx; rewrite Hx in *.
      * rewrite !keep_ne, del_eq by done. rewrite lookup_delete_ne; [done|]. intros ->.
        by rewrite bool_decide_eq_true_2 in Hp by done.
      * rewrite keep_ne by done. apply option_eq. intros k.
        rewrite lookup_keep_Some, del_ne by done. cbn in Hk.
        destruct (db TTask !! x) as [k'|] eqn:E; [|naive_solver].
        split; [tauto|]. intros [= ->]. split; [done|]. by destruct (N.eqb _ _).
Qed.
