(* ===== verification/TokenBucket.v ===== *)
(** * TokenBucket: the Lua script of infra/rate_limit.py

    [RATE_LIMIT_LUA] as a function of the hash it reads and the Redis clock.  Lua numbers are
    IEEE doubles: every arithmetic result goes through a rounding function [rnd] on the
    rationals, a parameter.  HSET stores a double with 17 significant digits, from which
    [tonumber] reads the same double back. *)
From S2P Require Import Prelude.
From Stdlib Require Import QArith Qround Qminmax.
#[local] Open Scope Q_scope.

(** The hash at the key and the time at which PEXPIRE removes it. *)
Record Bucket := mkBucket {
  tokens : Q;
  updated_at_ms : Z;
  expires_at_ms : Z }.

(** What the script returns: {allowed, floor(tokens), retry_after}. *)
Record LuaReply := mkLuaReply {
  reply_allowed : Z;
  reply_tokens : Z;
  reply_retry_after : Z }.

Section Script.
Context (rnd : Q -> Q).

(** redis.call('HMGET', ...): an expired key reads as absent. *)
Definition hmget (now_ms : Z) (state : option Bucket) : option Bucket :=
  match state with
  | Some b => if (now_ms <? b.(expires_at_ms))%Z then Some b else None
  | None => None
  end.

Definition refill_per_ms (capacity window_ms : Z) : Q :=
  rnd (inject_Z capacity / inject_Z window_ms).

(** tokens after the refill, before the request takes one *)
Definition refilled (capacity window_ms now_ms : Z) (state : option Bucket) : Q :=
  let '(tokens0, updated) :=
    match hmget now_ms state with
    | Some b => (b.(tokens), b.(updated_at_ms))
    | None => (inject_Z capacity, now_ms)
    end in
  let elapsed_ms := Z.max 0 (now_ms - updated) in
  Qmin (inject_Z capacity)
    (rnd (tokens0 + rnd (inject_Z elapsed_ms * refill_per_ms capacity window_ms))).

Definition rate_limit_lua (capacity window : Z) (now_ms : Z) (state : option Bucket)
  : Bucket * LuaReply :=
  let window_ms := (window * 1000)%Z in
  let t := refilled capacity window_ms now_ms state in
  let allowed := Qle_bool 1 t in
  let t' := if allowed then rnd (t - 1) else t in
  let retry_after :=
    if allowed then 0%Z
    else Qceiling (rnd (rnd (rnd (1 - t) / refill_per_ms capacity window_ms) / 1000)) in
  ({| tokens := t'; updated_at_ms := now_ms;
      expires_at_ms := (now_ms + Z.max (window_ms * 2) 1000)%Z |},
   {| reply_allowed := if allowed then 1%Z else 0%Z;
      reply_tokens := Qfloor t';
      reply_retry_after := retry_after |}).
End Script.
