(* ===== verification/Doubles.v ===== *)
(** * Doubles: rounding to IEEE binary64

    The numbers of Lua are doubles.  [double] rounds a rational to the nearest number with 53
    significant bits, ties to even; the exponent is not bounded: the token bucket stays far from
    overflow and underflow.  It is monotone, exact on the integers up to 2^53, and its relative
    error is at most 2^-53. *)
From Stdlib Require Import QArith Qround Qabs Qpower Lqa.
From S2P Require Import Prelude.
#[local] Open Scope Q_scope.

(** To the nearest integer, ties to even. *)
Definition rint (q : Q) : Z :=
  let f := Qfloor q in
  match Qcompare (q - inject_Z f) (1 # 2) with
  | Lt => f
  | Gt => (f + 1)%Z
  | Eq => if Z.even f then f else (f + 1)%Z
  end.

(** The largest [e] with 2^e <= x, for 0 < x. *)
Definition binade (x : Q) : Z :=
  let e := (Z.log2 (Qnum x) - Z.log2 (Zpos (Qden x)))%Z in
  if Qle_bool (2 ^ e) x then e else (e - 1)%Z.

Definition double_pos (x : Q) : Q :=
  let ulp := 2 ^ (binade x - 52) in Qred (inject_Z (rint (x / ulp)) * ulp).

Definition double (x : Q) : Q :=
  match Qcompare x 0 with Lt => - double_pos (- x) | Eq => 0 | Gt => double_pos x end.

(** ** Integers *)
Lemma floor_bounds q : inject_Z (Qfloor q) <= q < inject_Z (Qfloor q) + 1.
Proof.
  split; [apply Qfloor_le|]. pose proof (Qlt_floor q) as H. rewrite inject_Z_plus in H. exact H.
Qed.

Lemma rint_bounds q : - (1 # 2) <= inject_Z (rint q) - q <= 1 # 2.
Proof.
  pose proof (floor_bounds q). unfold rint.
  destruct (Qcompare_spec (q - inject_Z (Qfloor q)) (1 # 2)); [destruct (Z.even _)|..];
    rewrite ?inject_Z_plus; change (inject_Z 1) with 1; lra.
Qed.

Lemma rint_between q : (Qfloor q <= rint q <= Qfloor q + 1)%Z.
Proof. unfold rint. destruct (Qcompare _ _); [destruct (Z.even _)|..]; lia. Qed.

Lemma rint_int n : rint (inject_Z n) = n.
Proof.
  pose proof (rint_bounds (inject_Z n)) as [H1 H2].
  assert (H3 : inject_Z (rint (inject_Z n)) < inject_Z (n + 1)) by (rewrite inject_Z_plus; change (inject_Z 1) with 1; lra).
  assert (H4 : inject_Z n < inject_Z (rint (inject_Z n) + 1)) by (rewrite inject_Z_plus; change (inject_Z 1) with 1; lra).
  rewrite <- Zlt_Qlt in H3, H4. lia.
Qed.

Lemma rint_mono x y : x <= y -> (rint x <= rint y)%Z.
Proof.
  intros Hxy. pose proof (Qfloor_resp_le _ _ Hxy) as Hf. pose proof (rint_between x). pose proof (rint_between y).
  destruct (decide (Qfloor x = Qfloor y)) as [He|]; [|lia]. unfold rint. rewrite He.
  destruct (Qcompare_spec (x - inject_Z (Qfloor y)) (1 # 2)) as [Hx|Hx|Hx],
    (Qcompare_spec (y - inject_Z (Qfloor y)) (1 # 2)) as [Hy|Hy|Hy]; try lra;
    repeat match goal with |- context [Z.even ?z] => destruct (Z.even z) end; lia.
Qed.

#[export] Instance rint_proper : Proper (Qeq ==> eq) rint.
Proof. intros x y H. apply Z.le_antisymm; apply rint_mono; rewrite H; apply Qle_refl. Qed.

(** ** Powers of two *)
Lemma pow2_pos e : 0 < 2 ^ e.
Proof. by apply Qpower_0_lt. Qed.

Lemma pow2_plus a b : 2 ^ (a + b) == 2 ^ a * 2 ^ b.
Proof. by apply Qpower_plus. Qed.

Lemma pow2_mono a b : (a <= b)%Z -> 2 ^ a <= 2 ^ b.
Proof. intros H. by apply Qpower_le_compat_l. Qed.

Lemma pow2_lt_inv a b : 2 ^ a < 2 ^ b -> (a < b)%Z.
Proof. intros H. apply Z.nle_gt. intros Hab%pow2_mono. lra. Qed.

Lemma pow2_inject n : (0 <= n)%Z -> 2 ^ n == inject_Z (2 ^ n).
Proof. intros H. by rewrite Zpower_Qpower. Qed.

Lemma log2_bounds n : (0 < n)%Z -> 2 ^ Z.log2 n <= inject_Z n < 2 ^ (Z.log2 n + 1).
Proof.
  intros Hn. pose proof (Z.log2_nonneg n). rewrite !pow2_inject by lia.
  rewrite <- Zle_Qle, <- Zlt_Qlt. rewrite Z.add_1_r. by apply Z.log2_spec.
Qed.

Lemma binade_spec x : 0 < x -> 2 ^ binade x <= x < 2 ^ (binade x + 1).
Proof.
  intros Hx. assert (Hn : (0 < Qnum x)%Z) by (unfold Qlt in Hx; cbn in Hx; lia).
  pose proof (log2_bounds _ Hn) as [Hn1 Hn2]. pose proof (log2_bounds (Zpos (Qden x)) eq_refl) as [Hd1 Hd2].
  assert (Hd : 0 < inject_Z (Zpos (Qden x))) by done.
  assert (Hdiv : x == inject_Z (Qnum x) / inject_Z (Zpos (Qden x))) by (destruct x; apply Qmake_Qdiv).
  set (ln := Z.log2 (Qnum x)) in *. set (ld := Z.log2 (Zpos (Qden x))) in *.
  assert (Hup : x < 2 ^ (ln - ld + 1)).
  { rewrite Hdiv. apply Qlt_shift_div_r; [done|]. eapply Qlt_le_trans; [exact Hn2|].
    replace (ln + 1)%Z with (ln - ld + 1 + ld)%Z by lia. rewrite pow2_plus.
    apply Qmult_le_l; [apply pow2_pos|exact Hd1]. }
  assert (Hlow : 2 ^ (ln - ld - 1) <= x).
  { rewrite Hdiv. apply Qle_shift_div_l; [done|]. eapply Qle_trans; [|exact Hn1].
    replace ln with (ln - ld - 1 + (ld + 1))%Z at 2 by lia. rewrite pow2_plus.
    apply Qmult_le_l; [apply pow2_pos|by apply Qlt_le_weak]. }
  unfold binade. fold ln ld. destruct (Qle_bool (2 ^ (ln - ld)) x) eqn:Hle.
  - apply Qle_bool_iff in Hle. by split.
  - split; [exact Hlow|]. replace (ln - ld - 1 + 1)%Z with (ln - ld)%Z by lia.
    apply Qnot_le_lt. intros H%Qle_bool_iff. congruence.
Qed.

Lemma binade_mono x y : 0 < x -> x <= y -> (binade x <= binade y)%Z.
Proof.
  intros Hx Hxy. pose proof (binade_spec x Hx). pose proof (binade_spec y ltac:(lra)).
  assert (Hlt : 2 ^ binade x < 2 ^ (binade y + 1)) by lra. apply pow2_lt_inv in Hlt. lia.
Qed.

(** ** Positive doubles *)

(** The significand has 53 bits. *)
Lemma significand x : 0 < x ->
  let ulp := 2 ^ (binade x - 52) in
  0 < ulp /\ inject_Z (2 ^ 52) <= x / ulp < inject_Z (2 ^ 53) /\ double_pos x == inject_Z (rint (x / ulp)) * ulp.
Proof.
  intros Hx ulp. pose proof (binade_spec x Hx) as [H1 H2]. pose proof (pow2_pos (binade x - 52)) as Hu.
  fold ulp in Hu. split; [done|]. split; [|apply Qred_correct].
  rewrite <- !pow2_inject by lia. split.
  - apply Qle_shift_div_l; [done|]. unfold ulp. rewrite <- pow2_plus.
    by replace (52 + (binade x - 52))%Z with (binade x) by lia.
  - apply Qlt_shift_div_r; [done|]. unfold ulp. rewrite <- pow2_plus.
    by replace (53 + (binade x - 52))%Z with (binade x + 1)%Z by lia.
Qed.

(** ... so that the result stays in the binade or is the next power of two. *)
Lemma double_pos_binade x : 0 < x -> 2 ^ binade x <= double_pos x <= 2 ^ (binade x + 1).
Proof.
  intros Hx. pose proof (significand x Hx) as (Hu & [H1 H2] & ->). set (ulp := 2 ^ (binade x - 52)) in *.
  apply rint_mono in H1. apply Qlt_le_weak, rint_mono in H2. rewrite rint_int in H1, H2.
  rewrite Zle_Qle, <- pow2_inject in H1, H2 by done.
  replace (binade x) with (52 + (binade x - 52))%Z at 1 by lia.
  replace (binade x + 1)%Z with (53 + (binade x - 52))%Z by lia.
  rewrite !pow2_plus. fold ulp. split; by apply Qmult_le_compat_r; [|apply Qlt_le_weak].
Qed.

Lemma double_pos_mono x y : 0 < x -> x <= y -> double_pos x <= double_pos y.
Proof.
  intros Hx Hxy. pose proof (binade_mono x y Hx Hxy) as Hb. destruct (decide (binade x = binade y)) as [He|Hne].
  - pose proof (significand x Hx) as (Hu & _ & ->). pose proof (significand y ltac:(lra)) as (_ & _ & ->).
    rewrite He in *. apply Qmult_le_compat_r; [|by apply Qlt_le_weak]. rewrite <- Zle_Qle. apply rint_mono.
    apply Qmult_le_compat_r; [done|]. by apply Qlt_le_weak, Qinv_lt_0_compat.
  - destruct (double_pos_binade x Hx) as [_ H1]. destruct (double_pos_binade y ltac:(lra)) as [H2 _].
    pose proof (pow2_mono (binade x + 1) (binade y) ltac:(lia)). lra.
Qed.

Lemma double_pos_error x : 0 < x -> - (x * 2 ^ (-53)) <= double_pos x - x <= x * 2 ^ (-53).
Proof.
  intros Hx. pose proof (significand x Hx) as (Hu & _ & ->). destruct (binade_spec x Hx) as [Hb _].
  pose proof (rint_bounds (x / 2 ^ (binade x - 52))) as Hr. set (ulp := 2 ^ (binade x - 52)) in *.
  assert (Hx' : x == x / ulp * ulp) by (field; lra). set (z := x / ulp) in *.
  assert (Hh : ulp * (1 # 2) <= x * 2 ^ (-53)).
  { change (1 # 2) with (2 ^ (-1)). unfold ulp. rewrite <- pow2_plus.
    replace (binade x - 52 + -1)%Z with (binade x + -53)%Z by lia. rewrite pow2_plus.
    apply Qmult_le_compat_r; [done|]. apply Qlt_le_weak, pow2_pos. }
  assert (He : inject_Z (rint z) * ulp - x == (inject_Z (rint z) - z) * ulp) by (rewrite Hx' at 1; ring).
  rewrite He. clearbody z. set (g := inject_Z (rint z) - z) in *. clearbody g. split; nra.
Qed.

Lemma double_pos_int n : (0 < n <= 2 ^ 53)%Z -> double_pos (inject_Z n) == inject_Z n.
Proof.
  intros Hn. assert (Hx : 0 < inject_Z n) by (change 0 with (inject_Z 0); rewrite <- Zlt_Qlt; lia).
  pose proof (significand _ Hx) as (Hu & _ & ->). destruct (binade_spec _ Hx) as [Hb _].
  set (e := binade (inject_Z n)) in *.
  assert (Hint : exists m, inject_Z n / 2 ^ (e - 52) == inject_Z m).
  { destruct (Z.le_gt_cases e 52) as [He|He].
    - exists (n * 2 ^ (52 - e))%Z. rewrite inject_Z_mult, <- pow2_inject by lia.
      unfold Qdiv. rewrite <- Qpower_opp. by replace (- (e - 52))%Z with (52 - e)%Z by lia.
    - assert (He' : 2 ^ e <= inject_Z (2 ^ 53)) by (eapply Qle_trans; [exact Hb|rewrite <- Zle_Qle; lia]).
      rewrite <- pow2_inject in He' by done.
      assert (e = 53)%Z as He3.
      { apply Z.le_antisymm; [|lia]. apply Z.nlt_ge. intros Hlt.
        pose proof (pow2_mono 54 e ltac:(lia)) as Hp. assert (2 ^ 53 < 2 ^ 54) by done. lra. }
      rewrite He3 in *. rewrite pow2_inject, <- Zle_Qle in Hb by done. exists (2 ^ 52)%Z.
      by replace n with (2 ^ 53)%Z by lia. }
  destruct Hint as [m Hm]. rewrite Hm, rint_int, <- Hm. field. lra.
Qed.

(** ** The rounding *)
Lemma double_0 : double 0 = 0.
Proof. reflexivity. Qed.

Lemma double_pos_nonneg x : 0 < x -> 0 < double_pos x.
Proof. intros Hx. pose proof (double_pos_binade x Hx). pose proof (pow2_pos (binade x)). lra. Qed.

Lemma double_mono x y : x <= y -> double x <= double y.
Proof.
  intros Hxy. unfold double.
  destruct (Qcompare_spec x 0) as [Hx|Hx|Hx], (Qcompare_spec y 0) as [Hy|Hy|Hy]; try lra.
  - by apply Qlt_le_weak, double_pos_nonneg.
  - pose proof (double_pos_nonneg (- x) ltac:(lra)). lra.
  - pose proof (double_pos_mono (- y) (- x) ltac:(lra) ltac:(lra)). lra.
  - pose proof (double_pos_nonneg (- x) ltac:(lra)). pose proof (double_pos_nonneg y Hy). lra.
  - by apply double_pos_mono.
Qed.

Lemma double_exact n : (0 <= n <= 2 ^ 53)%Z -> double (inject_Z n) == inject_Z n.
Proof.
  intros Hn. unfold double. destruct (Qcompare_spec (inject_Z n) 0) as [Hx|Hx|Hx].
  - by symmetry.
  - change 0 with (inject_Z 0) in Hx. rewrite <- Zlt_Qlt in Hx. lia.
  - change 0 with (inject_Z 0) in Hx. rewrite <- Zlt_Qlt in Hx. apply double_pos_int. lia.
Qed.

Lemma double_error x : 0 <= x -> - (x * 2 ^ (-53)) <= double x - x <= x * 2 ^ (-53).
Proof.
  intros Hx. unfold double. destruct (Qcompare_spec x 0) as [Hx'|Hx'|Hx']; [|lra|by apply double_pos_error].
  rewrite Hx'. split; by vm_compute.
Qed.

(** 0.1 + 0.2 = 0.30000000000000004 *)
Lemma double_example :
  double (double (1 # 10) + double (2 # 10)) = (1351079888211149 # 4503599627370496).
Proof. vm_compute. reflexivity. Qed.
