(* ===== verification/Session.v ===== *)
(** * Session: the environment, the world and the request transaction

    A Python coroutine that returns an [A] is a function of type [M A] on the world: the database
    as the transaction sees it, the Redis keys, and the log of the calls that leave the process
    (Celery messages, HTTP requests, e-mails, metric increments).  Exceptions are results and
    keep the world of the raise point, so that [get_session] (db/session.py) decides what
    survives.  What the code reads from outside (clock, random numbers, cryptography, the
    broker, Stripe, ...) is a field of [Env], indexed by a tick that every such read advances. *)
From S2P Require Import Prelude Text Json Dates Schema Config TokenBucket.
#[local] Open Scope string_scope.

(** ** The environment *)

(** The payload of an access token; [None] is a missing claim. *)
Record Claims := mkClaims {
  claim_sub : option string;
  claim_type : option string;
  claim_iat : datetime;
  claim_exp : datetime;
  claim_jti : string;
  claim_iss : string;
  claim_aud : string }.

(** The answer to an outbound HTTP request: a response that [raise_for_status] accepts, or the
    text of the [httpx.HTTPError]. *)
Inductive http_outcome := HttpOk (status : Z) | HttpError (message : string).

(** [email.message.EmailMessage]: the headers and the text that the code sets. *)
Record EmailMessage := mkEmailMessage {
  em_Subject : string;
  em_From : string;
  em_To : string;
  em_content : string }.

(** Parameters of [checkout.sessions.create_async]. *)
Record CheckoutParams := mkCheckoutParams {
  cp_price : string;
  cp_success_url : string;
  cp_cancel_url : string;
  cp_client_reference_id : string;
  cp_organization_id : string;
  cp_customer : option string;
  cp_idempotency_key : string }.

Class Env := {
  settings : Settings;
  clock : nat -> datetime;
  perf_counter : nat -> QArith_base.Q;
  uuid4_at : nat -> uuid;
  token_urlsafe_at : nat -> nat -> string;
  sha256_hexdigest : string -> string;
  argon2_hash : nat -> string -> string;
  argon2_verify : string -> string -> bool;
  jwt_encode : Claims -> string -> string;
  jwt_decode : datetime -> string -> string -> string -> string -> option Claims;
  fernet_encrypt : string -> nat -> string -> string;
  fernet_decrypt : string -> string -> option string;
  hmac_sha256_hexdigest : string -> string -> string;
  validate_email : string -> option string;
  float_round : QArith_base.Q -> QArith_base.Q;
  broker_accepts : nat -> bool;
  redis_up : nat -> bool;
  smtp_send : nat -> string -> Z -> EmailMessage -> result unit;
  database_up : nat -> bool;
  http_post : nat -> string -> string -> list (string * string) -> http_outcome;
  stripe_checkout : nat -> CheckoutParams -> result (string * option string);
  stripe_portal : nat -> string -> string -> result (string * string);
  stripe_construct_event : datetime -> string -> string -> string -> option json;
  generate_presigned_url : string -> string -> list (string * string) -> Z -> string;
  url_hostname : string -> option string;
  url_scheme : string -> string;
  url_port : string -> result (option Z);
  any_http_url : string -> option string;
  http_url : string -> option string;
  ip_is_global : string -> option bool;
  getaddrinfo : nat -> string -> Z -> option (list string);
  collate_le : string -> string -> bool;
  iso8601 : string -> option stamp }.

(** ** The world *)

(** A value of the [extra] of a log record. *)
Inductive extra := LogStr (s : string) | LogInt (n : Z) | LogFloat (q : QArith_base.Q).

Inductive effect :=
  | Delay (task : string) (args : list string)       (** [task.delay] *)
  | RetryTask (task : string) (args : list string) (countdown : Z)  (** [self.retry] *)
  | Inc (metric : string) (labels : list string)     (** a Prometheus counter *)
  | Observe (metric : string) (labels : list string) (value : QArith_base.Q)  (** a histogram *)
  | Logged (level logger message : string) (fields : list (string * extra))  (** a log record *)
  | Hincrby (key field : string)                     (** a Redis counter *)
  | HttpPost (url body : string) (headers : list (string * string))
  | SendEmail (message : EmailMessage)
  | StripeCheckout (p : CheckoutParams)
  | StripePortal (customer return_url : string).

Record World := mkWorld {
  w_db : Db;
  w_redis : gmap string Bucket;
  w_log : list effect;
  w_tick : nat }.

Definition M (A : Type) : Type := World -> result A * World.

Definition ret {A} (a : A) : M A := fun w => (Ok a, w).
Definition raise {A} (e : exn) : M A := fun w => (Err e, w).
Definition bind {A B} (m : M A) (f : A -> M B) : M B :=
  fun w => match m w with
           | (Ok a, w') => f a w'
           | (Err e, w') => (Err e, w')
           end.

Declare Scope session_scope.
Delimit Scope session_scope with session.
Open Scope session_scope.
Notation "'let!' x := m 'in' k" := (bind m (fun x => k))
  (at level 10, x name, m at level 200, k at level 200,
   format "'[v' 'let!'  x  :=  m  'in' '/' k ']'") : session_scope.
Notation "'do!' m 'in' k" := (bind m (fun _ => k))
  (at level 10, m at level 200, k at level 200,
   format "'[v' 'do!'  m  'in' '/' k ']'") : session_scope.

(** [try: m except ...: handler]: [h e = None] for the exceptions the clause does not name. *)
Definition try_except {A} (m : M A) (h : exn -> option (M A)) : M A :=
  fun w => match m w with
           | (Err e, w') => match h e with Some m' => m' w' | None => (Err e, w') end
           | r => r
           end.

Definition lift {A} (r : result A) : M A := fun w => (r, w).

Fixpoint for_each {A} (l : list A) (body : A -> M unit) : M unit :=
  match l with
  | [] => ret tt
  | a :: l' => do! body a in for_each l' body
  end.

Section Primitives.
Context {E : Env}.

(** ** Reads of the environment *)
Definition read {A} (f : nat -> A) : M A :=
  fun w => (Ok (f w.(w_tick)), {| w with w_tick := S w.(w_tick) |}).

Definition now : M datetime := read clock.
Definition uuid4 : M uuid := read uuid4_at.
Definition token_urlsafe (nbytes : nat) : M string := read (fun t => token_urlsafe_at t nbytes).

Definition add_log (e : effect) (w : World) : World :=
  {| w with w_log := w.(w_log) ++ [e] |}.
Definition log (e : effect) : M unit := fun w => (Ok tt, add_log e w).

(** [task.delay(args)]: publishes a message, or raises when the broker does not accept it. *)
Definition delay (task : string) (args : list string) : M unit :=
  let! up := read broker_accepts in
  if up : bool then log (Delay task args) else raise OperationalError.

(** [int(time.time())]. *)
Definition time_time : M Z := let! ts := now in ret (ts / 1000000)%Z.

(** A Redis command; an unreachable server is a RedisError. *)
Definition redis {A} (command : M A) : M A :=
  let! up := read redis_up in
  if up : bool then command else raise RedisError.

(** ** Queries *)
Definition rows (t : table) (db : Db) : list (row t) := (map_to_list (db t)).*2.

(** [session.scalars(select(T).where(p))], in no particular order. *)
Definition select (t : table) (p : row t -> bool) : M (list (row t)) :=
  fun w => (Ok (filter (fun r => p r = true) (rows t w.(w_db))), w).

(** [session.scalar(select(T).where(p))]. *)
Definition scalar (t : table) (p : row t -> bool) : M (option (row t)) :=
  let! l := select t p in ret (head l).

(** [... .with_for_update()]: the row is locked as well, which shows when transactions overlap
    (Transactions). *)
Definition scalar_for_update (t : table) (p : row t -> bool) : M (option (row t)) := scalar t p.

(** [session.get(T, id)]. *)
Definition get (t : table) (id : uuid) : M (option (row t)) :=
  fun w => (Ok (find t w.(w_db) id), w).
(** [session.get(T, id, with_for_update=True)] reads and locks the row.  The object that the call
    returns has the row's values only when the session loads it here for the first time: a session that
    already holds the object keeps its values (Worker, [flush_held]). *)
Definition get_for_update (t : table) (id : uuid) : M (option (row t)) := get t id.

(** ** Writes *)
Definition set_db (db : Db) (w : World) : World := {| w with w_db := db |}.

(** [session.add(r)] and the INSERT of the next flush. *)
Definition add_flush (t : table) (r : row t) : M unit :=
  fun w =>
    if negb (fits t r) then (Err DataError, w)
    else if has t w.(w_db) (row_id t r) || negb (row_ok t w.(w_db) r) then (Err IntegrityError, w)
    else (Ok tt, set_db (put t r w.(w_db)) w).

(** The UPDATE of the next flush, after assignments turned the loaded row [old] into [new]; no
    statement is emitted when nothing changed. *)
Definition flush_update (t : table) (old new : row t) : M (row t) :=
  if decide (old = new) then ret old
  else
    let! ts := now in
    fun w =>
      let r := touch t ts new in
      if negb (has t w.(w_db) (row_id t r)) then (Err StaleDataError, w)
      else if negb (fits t r) then (Err DataError, w)
      else if negb (row_ok t w.(w_db) r) then (Err IntegrityError, w)
      else (Ok r, set_db (put t r w.(w_db)) w).

(** [insert(T).values(r).on_conflict_do_nothing(index).returning(T.id)]: [None] when a row agrees
    with [r] on the index. *)
Definition insert_on_conflict_do_nothing (t : table) (index : row t -> row t -> bool) (r : row t)
  : M (option uuid) :=
  fun w =>
    if existsb (index r) (rows t w.(w_db)) then (Ok None, w)
    else bind (add_flush t r) (fun _ => ret (Some (row_id t r))) w.

(** [session.delete(r)] and [session.execute(delete(T).where(p))]: [f] is the effect of the
    statement with its cascades. *)
Definition delete_rows (f : Db -> Db) : M unit :=
  fun w => (Ok tt, set_db (f w.(w_db)) w).

(** ** db/session.py: one transaction per request *)
Definition get_session {A} (body : M A) : M A :=
  fun w => match body w with
           | (Ok a, w') => (Ok a, w')
           | (Err e, w') => (Err e, set_db w.(w_db) w')
           end.
End Primitives.

(** ** Inversion of successful runs *)
Section Inversion.
Context {E : Env}.
Implicit Types (w : World).

Lemma bind_Ok {A B} (m : M A) (f : A -> M B) w b w' :
  bind m f w = (Ok b, w') <-> exists a w1, m w = (Ok a, w1) /\ f a w1 = (Ok b, w').
Proof.
  unfold bind. destruct (m w) as [[a|e] w1]; [naive_solver|].
  split; [done|]. by intros (? & ? & ? & ?).
Qed.

Lemma ret_Ok {A} (a b : A) w w' : ret a w = (Ok b, w') <-> b = a /\ w' = w.
Proof. unfold ret. naive_solver. Qed.

Lemma raise_Ok {A} e (b : A) w w' : raise e w = (Ok b, w') <-> False.
Proof. unfold raise. naive_solver. Qed.

Lemma lift_Ok {A} (r : result A) b w w' : lift r w = (Ok b, w') <-> r = Ok b /\ w' = w.
Proof. unfold lift. naive_solver. Qed.

Lemma try_except_Ok {A} (m : M A) h w a w' :
  try_except m h w = (Ok a, w') ->
  m w = (Ok a, w') \/
  exists e w1 m', m w = (Err e, w1) /\ h e = Some m' /\ m' w1 = (Ok a, w').
Proof.
  unfold try_except. destruct (m w) as [[b|e] w1]; [by left|].
  destruct (h e) as [m'|] eqn:Hh; [|done]. intros H. right. by exists e, w1, m'.
Qed.

Definition ticked w : World := {| w with w_tick := S w.(w_tick) |}.

Lemma read_Ok {A} (f : nat -> A) a w w' :
  read f w = (Ok a, w') <-> a = f w.(w_tick) /\ w' = ticked w.
Proof. unfold read, ticked. naive_solver. Qed.

Lemma delay_Ok task args u w w' :
  delay task args w = (Ok u, w') ->
  broker_accepts w.(w_tick) = true /\
  w' = add_log (Delay task args) (ticked w).
Proof. unfold delay. rewrite bind_Ok. intros (up & w1 & [-> ->]%read_Ok & H).
  destruct (broker_accepts _); [|done]. unfold log in H. by injection H as <- <-.
Qed.

Lemma select_Ok t p l w w' :
  select t p w = (Ok l, w') ->
  w' = w /\ forall r, r ∈ l <-> p r = true /\ exists id, find t w.(w_db) id = Some r.
Proof.
  unfold select. intros [= <- <-]. split; [done|]. intros r.
  rewrite list_elem_of_filter. unfold rows. rewrite list_elem_of_fmap.
  split; intros [Hp H]; (split; [done|]).
  - destruct H as ([id r'] & -> & H%elem_of_map_to_list). eauto.
  - destruct H as [id H]. exists (id, r). by rewrite elem_of_map_to_list.
Qed.

Lemma scalar_Ok t p o w w' :
  scalar t p w = (Ok o, w') ->
  w' = w /\
  match o with
  | Some r => p r = true /\ exists id, find t w.(w_db) id = Some r
  | None => forall id r, find t w.(w_db) id = Some r -> p r = false
  end.
Proof.
  unfold scalar. rewrite bind_Ok. intros (l & w1 & [-> Hl]%select_Ok & [-> ->]%ret_Ok).
  split; [done|]. destruct (head l) as [r|] eqn:Hh.
  - by apply Hl, head_elem_of.
  - apply head_None_nil in Hh as ->. intros id r Hr.
    destruct (p r) eqn:Hp; [|done]. assert (r ∈ []) as []%not_elem_of_nil by (apply Hl; eauto).
Qed.

Lemma get_Ok t id o w w' : get t id w = (Ok o, w') <-> o = find t w.(w_db) id /\ w' = w.
Proof. unfold get. naive_solver. Qed.

Lemma add_flush_Ok t r u w w' :
  add_flush t r w = (Ok u, w') ->
  fits t r = true /\ find t w.(w_db) (row_id t r) = None /\ row_ok t w.(w_db) r = true /\
  w' = set_db (put t r w.(w_db)) w.
Proof.
  unfold add_flush. destruct (fits t r); cbn; [|done].
  destruct (has t _ _) eqn:Hh; cbn; [done|]. destruct (row_ok t _ r); cbn; [|done].
  intros [= <- <-]. split_and!; try done.
  unfold has in Hh. apply bool_decide_eq_false in Hh. by apply eq_None_not_Some.
Qed.

Lemma flush_update_Ok t old new r w w' :
  flush_update t old new w = (Ok r, w') ->
  (old = new /\ r = new /\ w' = w) \/
  (old <> new /\ r = touch t (clock w.(w_tick)) new /\ is_Some (find t w.(w_db) (row_id t r)) /\
   fits t r = true /\ row_ok t w.(w_db) r = true /\
   w' = set_db (put t r w.(w_db)) (ticked w)).
Proof.
  unfold flush_update. destruct (decide (old = new)) as [->|Hne].
  { rewrite ret_Ok. naive_solver. }
  unfold now. rewrite bind_Ok. intros (ts & w1 & [-> ->]%read_Ok & H). cbn in H. right.
  destruct (has t _ _) eqn:Hh; cbn in H; [|done]. destruct (fits t _) eqn:Hf; cbn in H; [|done].
  destruct (row_ok t _ _) eqn:Hr; cbn in H; [|done]. injection H as <- <-.
  split_and!; try done. by apply has_true.
Qed.

Lemma insert_on_conflict_Ok t index r o w w' :
  insert_on_conflict_do_nothing t index r w = (Ok o, w') ->
  (o = None /\ w' = w /\ exists id r', find t w.(w_db) id = Some r' /\ index r r' = true) \/
  (o = Some (row_id t r) /\ fits t r = true /\ find t w.(w_db) (row_id t r) = None /\
   row_ok t w.(w_db) r = true /\ w' = set_db (put t r w.(w_db)) w /\
   forall id r', find t w.(w_db) id = Some r' -> index r r' = false).
Proof.
  unfold insert_on_conflict_do_nothing. destruct (existsb _ _) eqn:Hx.
  - intros [= <- <-]. left. split_and!; try done.
    apply existsb_exists in Hx as (r' & Hr' & Hi). apply list_elem_of_In in Hr'.
    unfold rows in Hr'. apply list_elem_of_fmap in Hr' as ([id r''] & -> & H%elem_of_map_to_list).
    eauto.
  - rewrite bind_Ok. intros (u & w1 & (Hf & Hn & Hr & ->)%add_flush_Ok & [-> ->]%ret_Ok). right.
    split_and!; try done. intros id r' Hr'. apply existsb_false_iff with (x := r') in Hx; [done|].
    unfold rows. apply list_elem_of_fmap. exists (id, r'). by rewrite elem_of_map_to_list.
Qed.

Lemma delete_rows_Ok f u w w' : delete_rows f w = (Ok u, w') <-> u = tt /\ w' = set_db (f w.(w_db)) w.
Proof. unfold delete_rows. destruct u. naive_solver. Qed.

Lemma get_session_Ok {A} (m : M A) a w w' : get_session m w = (Ok a, w') <-> m w = (Ok a, w').
Proof. unfold get_session. destruct (m w) as [[b|e] w1]; naive_solver. Qed.

(** A request that raises leaves the database as it found it. *)
Lemma get_session_Err {A} (m : M A) e w w' :
  get_session m w = (Err e, w') -> w'.(w_db) = w.(w_db).
Proof. unfold get_session. destruct (m w) as [[b|e'] w1]; intros [= <- <-]. done. Qed.
End Inversion.

(** ** Forward execution *)
Section Execution.
Context {E : Env}.

Lemma bind_run {A B} (m : M A) (f : A -> M B) w a w1 : m w = (Ok a, w1) -> bind m f w = f a w1.
Proof. unfold bind. by intros ->. Qed.

Lemma bind_fail {A B} (m : M A) (f : A -> M B) w e w1 :
  m w = (Err e, w1) -> bind m f w = (Err e, w1).
Proof. unfold bind. by intros ->. Qed.

Lemma rows_elem t db id r : find t db id = Some r -> r ∈ rows t db.
Proof. intros H. unfold rows. apply list_elem_of_fmap. exists (id, r). by rewrite elem_of_map_to_list. Qed.

(** A property of all rows, evaluated. *)
Lemma rows_forallb t db (p : row t -> bool) id r :
  forallb p (rows t db) = true -> find t db id = Some r -> p r = true.
Proof. intros H Hr. rewrite forallb_forall in H. by eapply H, list_elem_of_In, rows_elem. Qed.

Lemma insert_on_conflict_exists t index r id r' w :
  find t w.(w_db) id = Some r' -> index r r' = true ->
  insert_on_conflict_do_nothing t index r w = (Ok None, w).
Proof.
  intros Hr Hi. unfold insert_on_conflict_do_nothing.
  destruct (existsb _ _) eqn:Hx; [done|].
  apply existsb_false_iff with (x := r') in Hx; [congruence|]. by eapply rows_elem.
Qed.

Lemma scalar_unique t p id r w :
  find t w.(w_db) id = Some r -> p r = true ->
  (forall id' r', find t w.(w_db) id' = Some r' -> p r' = true -> r' = r) ->
  scalar t p w = (Ok (Some r), w).
Proof.
  intros Hr Hp Hu. destruct (scalar t p w) as [o w1] eqn:Hs.
  destruct o as [o|e]; [|by unfold scalar, bind in Hs; cbn in Hs].
  apply scalar_Ok in Hs as [-> Ho]. destruct o as [r'|].
  - destruct Ho as (Hp' & id' & Hr'). by rewrite (Hu _ _ Hr' Hp').
  - specialize (Ho _ _ Hr). congruence.
Qed.

Lemma flush_update_run t old new w :
  old <> new -> let r := touch t (clock w.(w_tick)) new in
  has t w.(w_db) (row_id t r) = true -> fits t r = true -> row_ok t w.(w_db) r = true ->
  flush_update t old new w = (Ok r, set_db (put t r w.(w_db)) (ticked w)).
Proof.
  intros Hne r Hh Hf Hr. unfold flush_update. destruct (decide (old = new)); [done|].
  rewrite (bind_run _ _ _ (clock (w_tick w)) (ticked w)) by reflexivity. cbv zeta.
  change (w_db (ticked w)) with (w_db w). subst r. by rewrite Hh, Hf, Hr.
Qed.

Lemma scalar_none t p w :
  (forall id r, find t w.(w_db) id = Some r -> p r = false) -> scalar t p w = (Ok None, w).
Proof.
  intros Hn. destruct (scalar t p w) as [o w1] eqn:Hs.
  destruct o as [o|e]; [|by unfold scalar, bind in Hs; cbn in Hs].
  apply scalar_Ok in Hs as [-> Ho]. destruct o as [r'|]; [|done].
  destruct Ho as (Hp' & id' & Hr'). by rewrite (Hn _ _ Hr') in Hp'.
Qed.
End Execution.

(** One step of the inversion of [H : m w = (Ok a, w')]: a [bind], a primitive or a branch. *)
Ltac inv_ok_step :=
  match goal with
  | H : bind _ _ _ = (Ok _, _) |- _ =>
      let a := fresh "a" in let w := fresh "w" in let H1 := fresh "H" in
      apply bind_Ok in H as (a & w & H1 & H)
  | H : ret _ _ = (Ok _, _) |- _ => apply ret_Ok in H as [-> ->]
  | H : raise _ _ = (Ok _, _) |- _ => apply raise_Ok in H as []
  | H : lift _ _ = (Ok _, _) |- _ => apply lift_Ok in H as [H ->]
  | H : read _ _ = (Ok _, _) |- _ => apply read_Ok in H as [-> ->]
  | H : now _ = (Ok _, _) |- _ => apply read_Ok in H as [-> ->]
  | H : uuid4 _ = (Ok _, _) |- _ => apply read_Ok in H as [-> ->]
  | H : token_urlsafe _ _ = (Ok _, _) |- _ => apply read_Ok in H as [-> ->]
  | H : get _ _ _ = (Ok _, _) |- _ => apply get_Ok in H as [-> ->]
  | H : get_for_update _ _ _ = (Ok _, _) |- _ => apply get_Ok in H as [-> ->]
  | H : log _ _ = (Ok _, _) |- _ => injection H as <- <-
  | H : scalar _ _ _ = (Ok _, _) |- _ => apply scalar_Ok in H as [-> H]
  | H : scalar_for_update _ _ _ = (Ok _, _) |- _ => apply scalar_Ok in H as [-> H]
  | H : select _ _ _ = (Ok _, _) |- _ => apply select_Ok in H as [-> H]
  | H : add_flush _ _ _ = (Ok _, _) |- _ => apply add_flush_Ok in H as (? & ? & ? & ->)
  | H : delay _ _ _ = (Ok _, _) |- _ => apply delay_Ok in H as [? ->]
  | H : delete_rows _ _ = (Ok _, _) |- _ => apply delete_rows_Ok in H as [-> ->]
  | H : (if ?b then _ else _) _ = (Ok _, _) |- _ => destruct b eqn:?
  | H : match ?x with _ => _ end _ = (Ok _, _) |- _ => first [is_var x; destruct x | destruct x eqn:?]
  end; cbn beta in *.
Ltac inv_ok := repeat inv_ok_step.
