(* ===== verification/Metrics.v ===== *)
(** * Metrics: observability/metrics.py

    The declared metrics, and the worker outcomes, counted in two Redis hashes and projected into
    gauges when /metrics is scraped.  The hashes are what the increments in the log add up to. *)
From S2P Require Import Prelude Text Json Schema Config TokenBucket Session.
#[local] Open Scope string_scope.

(** ** Declarations *)
Inductive metric_type := Counter | Gauge | Histogram.
Record Metric := mkMetric {
  m_type : metric_type;
  m_name : string;
  m_help : string;
  m_labels : list string }.

Definition HTTP_REQUESTS : Metric := mkMetric Counter
  "tenantflow_http_requests_total" "Total HTTP requests" ["method"; "route"; "status"].
Definition HTTP_DURATION : Metric := mkMetric Histogram
  "tenantflow_http_request_duration_seconds" "HTTP request duration" ["method"; "route"].
Definition RATE_LIMIT_REJECTIONS : Metric := mkMetric Counter
  "tenantflow_rate_limit_rejections_total" "Rate-limit rejections" ["scope"].
Definition STRIPE_WEBHOOK_EVENTS : Metric := mkMetric Counter
  "tenantflow_stripe_webhook_events_total" "Stripe webhook event outcomes" ["outcome"].
Definition background_job_outcomes : Metric := mkMetric Gauge
  "tenantflow_background_job_outcomes" "Cumulative background job outcomes recorded in Redis"
  ["job"; "outcome"].
Definition webhook_delivery_outcomes : Metric := mkMetric Gauge
  "tenantflow_webhook_delivery_outcomes"
  "Cumulative outbound webhook outcomes recorded in Redis" ["outcome"].

Definition declared_metrics : list Metric :=
  [HTTP_REQUESTS; HTTP_DURATION; RATE_LIMIT_REJECTIONS; STRIPE_WEBHOOK_EVENTS;
   background_job_outcomes; webhook_delivery_outcomes].

(** A metric of this type and name takes this many label values: [labels] raises otherwise. *)
Definition accepts (ty : metric_type) (name : string) (labels : list string) : Prop :=
  exists m, m ∈ declared_metrics /\ m.(m_type) = ty /\ m.(m_name) = name /\
    List.length labels = List.length m.(m_labels).

(** ** Worker outcomes *)
Definition _BACKGROUND_HASH : string := "tenantflow:metrics:background_jobs".
Definition _WEBHOOK_HASH : string := "tenantflow:metrics:webhook_deliveries".

Definition _BACKGROUND_LABELS : list (string * string) := [
  ("invitation_email", "success"); ("invitation_email", "skipped"); ("invitation_email", "retry");
  ("cleanup", "success"); ("cleanup", "retry");
  ("webhook_delivery", "success"); ("webhook_delivery", "retry"); ("webhook_delivery", "dead");
  ("webhook_delivery", "skipped")].
Definition _WEBHOOK_LABELS : list string := ["delivered"; "retry"; "dead"; "skipped"].

(** ** Redis hashes *)

(** HINCRBY key field 1 on the hash of [key]. *)
Definition increment (key : string) (hash : gmap string Z) (e : effect) : gmap string Z :=
  match e with
  | Hincrby k field =>
      if String.eqb k key then <[field := (default 0 (hash !! field) + 1)%Z]> hash else hash
  | _ => hash
  end.

(** The values of BACKGROUND_JOB_OUTCOMES and WEBHOOK_DELIVERY_OUTCOMES in the API process. *)
Record Gauges := mkGauges {
  BACKGROUND_JOB_OUTCOMES : gmap (string * string) Z;
  WEBHOOK_DELIVERY_OUTCOMES : gmap string Z }.

Section Metrics.
Context {E : Env}.

(** A failure to record is only logged. *)
Definition hincrby (key field : string) : M unit :=
  let! up := read redis_up in
  if up : bool then log (Hincrby key field) else ret tt.

Definition record_background_job (job outcome : string) : M unit :=
  hincrby _BACKGROUND_HASH (job +:+ ":" +:+ outcome).
Definition record_webhook_delivery (outcome : string) : M unit :=
  hincrby _WEBHOOK_HASH outcome.

Definition hgetall (key : string) : M (gmap string Z) :=
  redis (fun w => (Ok (foldl (increment key) ∅ w.(w_log)), w)).

(** [labels(job, outcome).set(...)] and [labels(outcome).set(...)] for every label. *)
Definition set_background (background : gmap string Z) (gauge : gmap (string * string) Z)
  : gmap (string * string) Z :=
  foldl (fun g '(job, outcome) =>
    <[(job, outcome) := default 0%Z (background !! (job +:+ ":" +:+ outcome))]> g)
    gauge _BACKGROUND_LABELS.
Definition set_webhook (webhook : gmap string Z) (gauge : gmap string Z) : gmap string Z :=
  foldl (fun g outcome => <[outcome := default 0%Z (webhook !! outcome)]> g) gauge _WEBHOOK_LABELS.

Definition refresh_distributed_metrics (gauges : Gauges) : M Gauges :=
  try_except
    (let! background := hgetall _BACKGROUND_HASH in
     let! webhook := hgetall _WEBHOOK_HASH in
     ret (mkGauges (set_background background gauges.(BACKGROUND_JOB_OUTCOMES))
                   (set_webhook webhook gauges.(WEBHOOK_DELIVERY_OUTCOMES))))
    (fun e => match e with RedisError | OSError => Some (ret gauges) | _ => None end).
End Metrics.
