(* ===== verification/Pagination.v ===== *)
(** * Pagination: core/pagination.py and the keyset pages of the listings

    The opaque cursor: the creation time and the identifier of the last row of a page, as JSON in
    URL-safe base64 without padding.  [keyset_page] is the query that [list_projects] and
    [list_tasks] build around it. *)
From S2P Require Import Prelude Text Json JsonLoads JsonRoundTrip Dates Base64 Schema Config.
From S2P Require Import TokenBucket Session.
#[local] Open Scope string_scope.

(** [created_at] is the instant: an aware datetime up to its offset. *)
Record Cursor := mkCursor {
  cur_created_at : datetime;
  cur_entity_id : uuid }.

#[export] Instance cursor_eq_dec : EqDecision Cursor.
Proof. solve_decision. Defined.

Definition encode_cursor (created_at : datetime) (entity_id : uuid) : string :=
  let payload := utf8 (dumps true (JObj [("created_at", JStr (isoformat created_at));
                                         ("id", JStr (uuid_str entity_id))])) in
  rstrip_by is_pad (urlsafe_b64encode (points payload)).

(** [data[k]] of a value that [json.loads] returned. *)
Definition getitem (k : string) (data : value) : result value :=
  match data with
  | VObj kvs => match lookup_key k kvs with Some v => Ok v | None => Err (KeyError k) end
  | _ => Err TypeError
  end.

(** sys.get_int_max_str_digits(), at its default. *)
Definition int_max_str_digits : nat := 4300.

Section Pagination.
Context {E : Env}.

(** [UUID(v)]: without arguments that count it is a TypeError, and a value without [replace] is an
    AttributeError. *)
Definition UUID (v : value) : result uuid :=
  match v with
  | VStr s => match uuid_parse s with
              | Some u => Ok u
              | None => Err (ValueError "badly formed hexadecimal UUID string")
              end
  | VNull => Err TypeError
  | _ => Err AttributeError
  end.

Definition datetime_fromisoformat (v : value) : result stamp :=
  match v with
  | VStr s => match fromisoformat iso8601 s with
              | Some d => Ok d
              | None => Err (ValueError "Invalid isoformat string")
              end
  | _ => Err TypeError
  end.

(** The body of the [try]. *)
Definition read_cursor (text : string) : result (stamp * uuid) :=
  match urlsafe_b64decode (points (utf8 (pad4 text))) with
  | None => Err (ValueError "Incorrect padding")
  | Some raw =>
      match loads int_max_str_digits raw with
      | None => Err (ValueError "JSONDecodeError")
      | Some data =>
          match getitem "created_at" data with
          | Err e => Err e
          | Ok c =>
              match datetime_fromisoformat c with
              | Err e => Err e
              | Ok created_at =>
                  match getitem "id" data with
                  | Err e => Err e
                  | Ok i =>
                      match UUID i with
                      | Err e => Err e
                      | Ok entity_id => Ok (created_at, entity_id)
                      end
                  end
              end
          end
      end
  end.

Definition decode_cursor (text : string) : result Cursor :=
  match read_cursor text with
  | Err (ValueError _) | Err TypeError | Err (KeyError _) =>
      Err (ValueError "Invalid pagination cursor")
  | Err e => Err e
  | Ok (created_at, entity_id) =>
      match created_at.(utcoffset) with
      | None => Err (ValueError "Pagination cursor timestamp must be timezone-aware")
      | Some offset => Ok (mkCursor (created_at.(wall) - offset) entity_id)
      end
  end.

(** ** Keyset pages of a table with a creation time *)
Section Keyset.
Context (t : table) (created_at : row t -> datetime).

(** or_(created_at < c, and_(created_at = c, id < i)); Postgres orders uuids as numbers. *)
Definition before (position : Cursor) (r : row t) : bool :=
  (created_at r <? position.(cur_created_at))%Z ||
  ((created_at r =? position.(cur_created_at))%Z && (row_id t r <? position.(cur_entity_id))%N).

(** order_by(created_at.desc(), id.desc()) *)
Definition newest_first (a b : row t) : Prop :=
  (created_at b < created_at a)%Z \/
  created_at a = created_at b /\ (row_id t b <= row_id t a)%N.
#[export] Instance newest_first_dec : RelDecision newest_first.
Proof. intros a b. unfold newest_first. apply _. Defined.

(** [if cursor:] and the decoding; a position outside the range of datetime cannot be bound to the
    statement. *)
Definition start_position (cursor : option string) : M (option Cursor) :=
  match cursor with
  | None | Some EmptyString => ret None
  | Some text =>
      match decode_cursor text with
      | Ok position => if datetime_ok position.(cur_created_at) then ret (Some position)
                       else raise DataError
      | Err (ValueError message) => raise (HTTPException 422 message [])
      | Err e => raise e
      end
  end.

(** The rows of the page and the cursor of the next one. *)
Definition keyset_page (p : row t -> bool) (cursor : option string) (limit : Z)
  : M (list (row t) * option string) :=
  let! position := start_position cursor in
  let! found := select t (fun r => p r && default true ((fun c => before c r) <$> position)) in
  let rows := take (Z.to_nat (limit + 1)) (merge_sort newest_first found) in
  let has_more := (limit <? Z.of_nat (List.length rows))%Z in
  let page_rows := take (Z.to_nat limit) rows in
  let next_cursor :=
    match last page_rows with
    | Some r => if has_more then Some (encode_cursor (created_at r) (row_id t r)) else None
    | None => None
    end in
  ret (page_rows, next_cursor).
End Keyset.
End Pagination.
