(* ===== verification/Scripts.v ===== *)
(** * Scripts: scripts/init_minio.py

    The job that makes sure the bucket exists before the API starts.  The answers of the S3 server
    are given per attempt; [create_bucket] is taken to succeed (its exception would propagate). *)
From S2P Require Import Prelude.
#[local] Open Scope string_scope.

(** [client.head_bucket]: an answer, no connection, or the ["Code"] of an error response. *)
Inductive head_outcome := HeadFound | EndpointConnectionError | ClientError (code : string).

Inductive s3_call := HeadBucket | CreateBucket | Sleep (seconds : Z).

(** How [main] ends: it returns, or the exception of an attempt propagates. *)
Inductive main_result := Returned | Raised (e : head_outcome).

Section Main.
Context (head_bucket : nat -> head_outcome).

Definition missing_codes : list string := ["404"; "NoSuchBucket"; "NotFound"].

Fixpoint main_from (attempts : list nat) : list s3_call * main_result :=
  match attempts with
  | [] => ([], Returned)
  | attempt :: rest =>
      match head_bucket attempt with
      | HeadFound => ([HeadBucket], Returned)
      | EndpointConnectionError =>
          if (attempt =? 30)%nat then ([HeadBucket], Raised EndpointConnectionError)
          else let r := main_from rest in (HeadBucket :: Sleep 1 :: r.1, r.2)
      | ClientError code =>
          if bool_decide (code ∈ missing_codes) then ([HeadBucket; CreateBucket], Returned)
          else ([HeadBucket], Raised (ClientError code))
      end
  end.

(** [for attempt in range(1, 31)]. *)
Definition main : list s3_call * main_result := main_from (seq 1 30).

(** The first attempt that reached the server. *)
Definition reached (n : nat) : Prop :=
  head_bucket n <> EndpointConnectionError /\
  forall k, (1 <= k < n)%nat -> head_bucket k = EndpointConnectionError.

Lemma main_from_spec len start :
  (start + len = 31)%nat -> (0 < len)%nat ->
  (exists n, (start <= n <= 30)%nat /\ head_bucket n <> EndpointConnectionError /\
     (forall k, (start <= k < n)%nat -> head_bucket k = EndpointConnectionError) /\
     match head_bucket n with
     | HeadFound => (main_from (seq start len)).2 = Returned /\ CreateBucket ∉ (main_from (seq start len)).1
     | ClientError code =>
         if bool_decide (code ∈ missing_codes)
         then (main_from (seq start len)).2 = Returned /\ CreateBucket ∈ (main_from (seq start len)).1
         else (main_from (seq start len)).2 = Raised (ClientError code)
     | EndpointConnectionError => True
     end) \/
  ((forall k, (start <= k <= 30)%nat -> head_bucket k = EndpointConnectionError) /\
   (main_from (seq start len)).2 = Raised EndpointConnectionError).
Proof.
  revert start. induction len as [|len IH]; intros start Hs Hl; [lia|]. cbn [seq main_from].
  destruct (head_bucket start) as [| |code] eqn:Hh.
  - left. exists start. rewrite Hh. split_and!; [lia..|done|intros k Hk; lia|done|]. cbn. set_solver.
  - destruct (Nat.eqb_spec start 30) as [->|Hne].
    + right. split; [|done]. intros k Hk. by replace k with 30%nat by lia.
    + assert (Hstep : forall k, (start <= k)%nat -> k = start \/ (S start <= k)%nat) by lia.
      destruct (IH (S start) ltac:(lia) ltac:(lia)) as [(n & Hn & Hne' & Hk & Hm)|[Hall Hm]].
      * left. exists n. split_and!; [lia..|done| |].
        -- intros k Hk'. destruct (Hstep k ltac:(lia)) as [->|]; [done|]. apply Hk. lia.
        -- destruct (head_bucket n); [|done|]; cbn [fst snd]; [set_solver|].
           destruct (bool_decide _); [|done]. destruct Hm as [H1 H2]. split; [done|].
           by do 2 right.
      * right. split; [|done]. intros k Hk. destruct (Hstep k ltac:(lia)) as [->|]; [done|].
        apply Hall. lia.
  - left. exists start. rewrite Hh. split_and!; [lia..|done|intros k Hk; lia|].
    destruct (bool_decide _); [|done]. cbn. split; [done|]. right. left.
Qed.

(** [main] returns exactly when the bucket was there or was missing and has been created, and
    gives up after thirty attempts that do not reach the server. *)
Lemma main_spec :
  match main.2 with
  | Returned => exists n, (1 <= n <= 30)%nat /\ reached n /\
      (head_bucket n = HeadFound /\ CreateBucket ∉ main.1 \/
       exists code, head_bucket n = ClientError code /\ code ∈ missing_codes /\ CreateBucket ∈ main.1)
  | Raised EndpointConnectionError =>
      forall k, (1 <= k <= 30)%nat -> head_bucket k = EndpointConnectionError
  | Raised e => exists n, (1 <= n <= 30)%nat /\ reached n /\ head_bucket n = e
  end.
Proof.
  unfold main. destruct (main_from_spec 30 1 eq_refl ltac:(lia)) as [(n & Hn & Hne & Hk & Hm)|[Hall ->]];
    [|exact Hall].
  assert (Hr : reached n) by by split.
  destruct (head_bucket n) as [| |code] eqn:Hh; [|done|].
  - destruct Hm as [-> Hc]. exists n. split_and!; [lia..|done|]. left. done.
  - destruct (bool_decide_reflect (code ∈ missing_codes)) as [Hin|Hin].
    + destruct Hm as [-> Hc]. exists n. split_and!; [lia..|done|]. right. by exists code.
    + rewrite Hm. exists n. split_and!; [lia..|done|done].
Qed.
End Main.
