(* ===== verification/Permissions.v ===== *)
(** * Permissions: core/permissions.py

    Roles, permissions and the permission matrix. *)
From S2P Require Import Prelude.
#[local] Open Scope string_scope.

Inductive Role := OWNER | ADMIN | MEMBER | VIEWER.
#[export] Instance Role_eq_dec : EqDecision Role.
Proof. solve_decision. Defined.

Inductive Permission :=
  | ORG_MANAGE | MEMBERS_MANAGE | BILLING_MANAGE | PROJECT_READ | PROJECT_WRITE | PROJECT_DELETE
  | WEBHOOK_MANAGE | AUDIT_READ.
#[export] Instance Permission_eq_dec : EqDecision Permission.
Proof. solve_decision. Defined.

(** The values of the string enumerations. *)
Definition role_value (r : Role) : string :=
  match r with OWNER => "owner" | ADMIN => "admin" | MEMBER => "member" | VIEWER => "viewer" end.

Definition permission_value (p : Permission) : string :=
  match p with
  | ORG_MANAGE => "org:manage"
  | MEMBERS_MANAGE => "members:manage"
  | BILLING_MANAGE => "billing:manage"
  | PROJECT_READ => "project:read"
  | PROJECT_WRITE => "project:write"
  | PROJECT_DELETE => "project:delete"
  | WEBHOOK_MANAGE => "webhook:manage"
  | AUDIT_READ => "audit:read"
  end.

(** [Role(s)]; [None] is the ValueError. *)
Definition role_of_value (s : string) : option Role :=
  list_find (fun r => role_value r = s) [OWNER; ADMIN; MEMBER; VIEWER] ≫= fun p => Some p.2.

Definition all_permissions : list Permission :=
  [ORG_MANAGE; MEMBERS_MANAGE; BILLING_MANAGE; PROJECT_READ; PROJECT_WRITE; PROJECT_DELETE;
   WEBHOOK_MANAGE; AUDIT_READ].

Definition ROLE_PERMISSIONS (r : Role) : list Permission :=
  match r with
  | OWNER => all_permissions
  | ADMIN => [MEMBERS_MANAGE; PROJECT_READ; PROJECT_WRITE; PROJECT_DELETE; WEBHOOK_MANAGE; AUDIT_READ]
  | MEMBER => [PROJECT_READ; PROJECT_WRITE]
  | VIEWER => [PROJECT_READ]
  end.

Definition has_permission (role : Role) (permission : Permission) : bool :=
  bool_decide (permission ∈ ROLE_PERMISSIONS role).

Definition assert_permission (role : Role) (permission : Permission) : result unit :=
  if negb (has_permission role permission) then
    Err (ForbiddenError "FORBIDDEN"
      ("Role '" +:+ role_value role +:+ "' lacks permission '" +:+ permission_value permission +:+ "'"))
  else Ok tt.

(** ** Lemmas *)
Lemma role_of_value_Some s r : role_of_value s = Some r <-> s = role_value r.
Proof.
  unfold role_of_value. split.
  - intros H. destruct (list_find _ _) as [[i r']|] eqn:Hf; [|done]. injection H as ->.
    by apply list_find_Some in Hf as (_ & -> & _).
  - intros ->. by destruct r.
Qed.

Lemma assert_permission_Ok role permission u :
  assert_permission role permission = Ok u <-> has_permission role permission = true.
Proof. unfold assert_permission. destruct (has_permission _ _), u; naive_solver. Qed.
