(* ===== verification/Security.v ===== *)
(** * Security: core/security.py

    Password verification, access tokens and refresh-token fingerprints over the cryptographic
    primitives of the environment. *)
From S2P Require Import Prelude Text Json Schema Config TokenBucket Session.
#[local] Open Scope string_scope.

Section Security.
Context {E : Env}.

Definition hash_password (password : string) : M string :=
  read (fun t => argon2_hash t password).

Definition verify_password (password password_hash : string) : bool :=
  argon2_verify password_hash password.

Definition create_access_token (user_id : uuid) : M string :=
  let! ts := now in
  let! jti := token_urlsafe 16 in
  ret (jwt_encode {|
    claim_sub := Some (uuid_str user_id);
    claim_type := Some "access";
    claim_iat := ts;
    claim_exp := (ts + minutes settings.(access_token_minutes))%Z;
    claim_jti := jti;
    claim_iss := settings.(jwt_issuer);
    claim_aud := settings.(jwt_audience) |} settings.(jwt_secret)).

(** The body of the [try]: [jwt.decode] checks signature, expiry, issuer and audience. *)
Definition decode_claims (ts : datetime) (token : string) : result uuid :=
  match jwt_decode ts token settings.(jwt_secret) settings.(jwt_issuer) settings.(jwt_audience) with
  | None => Err PyJWTError
  | Some payload =>
      if negb (bool_decide (payload.(claim_type) = Some "access")) then
        Err (AuthenticationError "Invalid token type")
      else match payload.(claim_sub) with
           | None => Err (KeyError "sub")
           | Some sub => match uuid_parse sub with
                         | Some u => Ok u
                         | None => Err (ValueError "badly formed hexadecimal UUID string")
                         end
           end
  end.

Definition decode_access_token (token : string) : M uuid :=
  let! ts := now in
  try_except (lift (decode_claims ts token)) (fun e =>
    match e with
    | PyJWTError | KeyError _ | ValueError _ =>
        Some (raise (AuthenticationError "Invalid or expired access token"))
    | _ => None
    end).

Definition new_refresh_token : M string := token_urlsafe 48.

Definition token_fingerprint (token : string) : string := sha256_hexdigest (utf8 token).
End Security.
