(* ===== verification/Access.v ===== *)
(** * Access: core/dependencies.py

    The FastAPI dependencies that authenticate a request and resolve its organization: the
    gatekeepers every organization-scoped endpoint runs first. *)
From S2P Require Import Prelude Text Json Schema Config TokenBucket Session Permissions Security.
#[local] Open Scope string_scope.

Record OrganizationContext := mkOrganizationContext {
  ctx_user : User;
  ctx_membership : OrganizationMembership }.

Section Access.
Context {E : Env}.

Definition get_current_user (token : string) : M User :=
  let! user_id := decode_access_token token in
  let! user := get TUser user_id in
  match user with
  | Some u => if u.(user_is_active) then ret u
              else raise (AuthenticationError "User account is unavailable")
  | None => raise (AuthenticationError "User account is unavailable")
  end.

(** [OrganizationContext.role]. *)
Definition context_role (c : OrganizationContext) : result Role :=
  match role_of_value c.(ctx_membership).(mem_role) with
  | Some r => Ok r
  | None => Err (ValueError "not a valid Role")
  end.

Definition get_organization_context (organization_id : uuid) (user : User)
  : M OrganizationContext :=
  let! membership := scalar TMembership (fun m =>
    N.eqb m.(mem_organization_id) organization_id && N.eqb m.(mem_user_id) user.(user_id)) in
  match membership with
  | None => raise (NotFoundError "ORGANIZATION_NOT_FOUND" "Organization was not found")
  | Some m => ret {| ctx_user := user; ctx_membership := m |}
  end.

(** [require_permission(permission)] with the dependencies it pulls in. *)
Definition require_permission (permission : Permission) (token : string) (organization_id : uuid)
  : M OrganizationContext :=
  let! user := get_current_user token in
  let! context := get_organization_context organization_id user in
  let! role := lift (context_role context) in
  do! lift (assert_permission role permission) in
  ret context.
End Access.

(** ** Lemmas *)
Section Facts.
Context {E : Env}.

Lemma get_current_user_Ok token u w w' :
  get_current_user token w = (Ok u, w') ->
  u.(user_is_active) = true /\ w' = ticked w /\
  exists id, decode_claims (clock w.(w_tick)) token = Ok id /\ find TUser w.(w_db) id = Some u.
Proof.
  unfold get_current_user, decode_access_token. intros H. inv_ok_step.
  rewrite bind_Ok in H0. destruct H0 as (ts & w1 & [-> ->]%read_Ok & H0).
  unfold try_except, lift in H0.
  destruct (decode_claims _ _) as [id|e] eqn:Hd; [|by destruct e].
  injection H0 as <- <-. inv_ok. naive_solver.
Qed.

(** What a passed gate means. *)
Lemma require_permission_Ok p token org c w w' :
  require_permission p token org w = (Ok c, w') ->
  w' = ticked w /\
  c.(ctx_user).(user_is_active) = true /\
  (exists id, decode_claims (clock w.(w_tick)) token = Ok id /\
              find TUser w.(w_db) id = Some c.(ctx_user)) /\
  (exists id, find TMembership w.(w_db) id = Some c.(ctx_membership)) /\
  c.(ctx_membership).(mem_organization_id) = org /\
  c.(ctx_membership).(mem_user_id) = c.(ctx_user).(user_id) /\
  exists role, c.(ctx_membership).(mem_role) = role_value role /\ has_permission role p = true.
Proof.
  unfold require_permission, get_organization_context, context_role. intros H. inv_ok.
  destruct_and!. match goal with
  | Hu : get_current_user _ _ = _, Hp : assert_permission _ _ = _, Hr : _ = Ok ?role |- _ =>
      apply get_current_user_Ok in Hu as (Hact & -> & Hid);
      apply assert_permission_Ok in Hp; destruct (role_of_value _) eqn:Hv in Hr; [|done];
      apply role_of_value_Some in Hv; simplify_eq
  end.
  cbn in *. bool_to_prop. split_and!; eauto; by apply N.eqb_eq.
Qed.
End Facts.
