(* ===== verification/AuditTrail.v ===== *)
(** * Audit: modules/audit

    The audit log: [record_audit], which every state-changing use case calls in its own
    transaction, and the endpoint that lists an organization's entries. *)
From S2P Require Import Prelude Text Json Schema Config TokenBucket Session Permissions Security.
From S2P Require Import Access.
#[local] Open Scope string_scope.

(** [ORDER BY k DESC]: rows with equal keys come in no particular order. *)
Definition desc_by {A} (key : A -> Z) (a b : A) : Prop := (key b <= key a)%Z.
#[export] Instance desc_by_dec {A} (key : A -> Z) : RelDecision (desc_by key).
Proof. intros a b. unfold desc_by. apply _. Defined.
#[export] Instance desc_by_trans {A} (key : A -> Z) : Transitive (desc_by key).
Proof. intros a b c. unfold desc_by. lia. Qed.
#[export] Instance desc_by_total {A} (key : A -> Z) : Total (desc_by key).
Proof. intros a b. unfold desc_by. lia. Qed.

Record AuditResponse := mkAuditResponse {
  ar_id : uuid;
  ar_action : string;
  ar_entity_type : string;
  ar_entity_id : option uuid;
  ar_actor_id : option uuid;
  ar_metadata : json;
  ar_created_at : datetime }.

Section Audit.
Context {E : Env}.

Definition record_audit (organization_id : uuid) (actor_id : option uuid)
    (action entity_type : string) (entity_id : option uuid) (metadata : option json)
  : M AuditLog :=
  let! ts := now in
  let! id := uuid4 in
  let log := {|
    aud_id := id;
    aud_organization_id := organization_id;
    aud_actor_id := actor_id;
    aud_action := action;
    aud_entity_type := entity_type;
    aud_entity_id := entity_id;
    aud_metadata := match metadata with
                    | Some m => if truthy m then m else JObj []
                    | None => JObj []
                    end;
    aud_created_at := ts |} in
  do! add_flush TAuditLog log in
  ret log.

Definition audit_response (r : AuditLog) : AuditResponse :=
  mkAuditResponse r.(aud_id) r.(aud_action) r.(aud_entity_type) r.(aud_entity_id)
    r.(aud_actor_id) r.(aud_metadata) r.(aud_created_at).

(** Query(50, ge=1, le=200); the dependencies run before a validation error is reported. *)
Definition list_audit (token : string) (organization_id : uuid) (limit : Z)
  : M (list AuditResponse) :=
  let! _ctx := require_permission AUDIT_READ token organization_id in
  if negb ((1 <=? limit)%Z && (limit <=? 200)%Z) then raise RequestValidationError else
  let! rows := select TAuditLog (fun r => N.eqb r.(aud_organization_id) organization_id) in
  ret (audit_response <$> take (Z.to_nat limit) (merge_sort (desc_by aud_created_at) rows)).
End Audit.

(** ** Lemmas *)
Section Facts.
Context {E : Env}.

Lemma record_audit_Ok org actor action etype eid meta r w w' :
  record_audit org actor action etype eid meta w = (Ok r, w') ->
  r.(aud_organization_id) = org /\ r.(aud_actor_id) = actor /\ r.(aud_action) = action /\
  r.(aud_entity_type) = etype /\ r.(aud_entity_id) = eid /\
  find TAuditLog w.(w_db) r.(aud_id) = None /\ row_ok TAuditLog w.(w_db) r = true /\
  w_db w' = put TAuditLog r w.(w_db) /\ w_log w' = w_log w /\ w_redis w' = w_redis w.
Proof. unfold record_audit. intros H. inv_ok. done. Qed.
End Facts.
