(* ===== verification/Idempotency.v ===== *)
(** * Idempotency: infra/idempotency.py and infra/idempotency_db.py

    [acquire_idempotency] and [complete_idempotency], and the protocol the three idempotent
    endpoints run around their use case: acquire the key, replay a completed response, or do the
    work and complete the record in the same transaction. *)
From S2P Require Import Prelude Text Json Schema Config TokenBucket Session.
#[local] Open Scope string_scope.

Record IdempotencyState := mkIdempotencyState {
  st_record : IdempotencyRecord;
  replay_status : option Z;
  replay_body : option json }.

Definition is_replay (s : IdempotencyState) : bool := bool_decide (is_Some s.(replay_status)).

(** index_elements=["scope", "key"] *)
Definition same_scope_key (r r' : IdempotencyRecord) : bool :=
  String.eqb r.(idem_scope) r'.(idem_scope) && String.eqb r.(idem_key) r'.(idem_key).

Section Idempotency.
Context {E : Env}.

Definition canonical_request_hash (payload : json) : string :=
  sha256_hexdigest (canonical_bytes payload).

Definition acquire_idempotency (user_id : uuid) (organization_id : option uuid)
    (scope key request_hash : string) (ttl_hours : Z) : M IdempotencyState :=
  let! ts := now in
  let! id := uuid4 in
  let! created_id := insert_on_conflict_do_nothing TIdempotency same_scope_key {|
    idem_id := id;
    idem_organization_id := organization_id;
    idem_user_id := user_id;
    idem_scope := scope;
    idem_key := key;
    idem_request_hash := request_hash;
    idem_status := "processing";
    idem_response_status := None;
    idem_response_body := None;
    idem_created_at := ts;
    idem_expires_at := (ts + hours ttl_hours)%Z |} in
  match created_id with
  | Some cid =>
      let! record := get TIdempotency cid in
      match record with
      | None => raise (RuntimeError "Newly created idempotency record could not be loaded")
      | Some r => ret {| st_record := r; replay_status := None; replay_body := None |}
      end
  | None =>
      let! record := scalar_for_update TIdempotency (fun r =>
        String.eqb r.(idem_scope) scope && String.eqb r.(idem_key) key) in
      match record with
      | None => raise (RuntimeError "Idempotency record disappeared after unique-key conflict")
      | Some r =>
          if negb (String.eqb r.(idem_request_hash) request_hash) then
            raise (ConflictError "IDEMPOTENCY_KEY_REUSED"
              "Idempotency-Key was already used with a different request payload")
          else if String.eqb r.(idem_status) "completed"
                  && bool_decide (is_Some r.(idem_response_status))
                  && bool_decide (is_Some r.(idem_response_body)) then
            ret {| st_record := r; replay_status := r.(idem_response_status);
                   replay_body := r.(idem_response_body) |}
          else raise (ConflictError "IDEMPOTENCY_IN_PROGRESS"
                 "A request with this Idempotency-Key is in progress")
      end
  end.

Definition complete_idempotency (record : IdempotencyRecord) (status_code : Z)
    (response_body : json) : M unit :=
  do! flush_update TIdempotency record
    {| record with idem_status := "completed"; idem_response_status := Some status_code;
                   idem_response_body := Some response_body |} in
  ret tt.

(** The body of an idempotent endpoint: [work] is the use case, [dump] is
    [response.model_dump(mode="json")], [validate] is [Response.model_validate]. *)
Definition idempotent {R} (user_id : uuid) (organization_id : option uuid)
    (scope key request_hash missing_body : string)
    (work : M R) (dump : R -> json) (validate : json -> result R) : M R :=
  let! state := acquire_idempotency user_id organization_id scope key request_hash 24 in
  if is_replay state then
    match state.(replay_body) with
    | None => raise (RuntimeError missing_body)
    | Some body => lift (validate body)
    end
  else
    let! response := work in
    do! complete_idempotency state.(st_record) 201 (dump response) in
    ret response.
End Idempotency.

(** Header(alias="Idempotency-Key", min_length=8, max_length=160) *)
Definition idempotency_key_ok (key : string) : bool :=
  (8 <=? String.length key)%nat && (String.length key <=? 160)%nat.

(** The record under [scope] and [key] stores the response [status], [body] of a request whose
    payload hashes to [hash]. *)
Definition completed (scope key hash : string) (status : Z) (body : json) (db : Db) : Prop :=
  exists id r, find TIdempotency db id = Some r /\
    r.(idem_scope) = scope /\ r.(idem_key) = key /\ r.(idem_request_hash) = hash /\
    r.(idem_status) = "completed" /\
    r.(idem_response_status) = Some status /\ r.(idem_response_body) = Some body.

(** ** Lemmas *)
Lemma idempotency_unique db id id' r r' :
  db_ok db -> find TIdempotency db id = Some r -> find TIdempotency db id' = Some r' ->
  r.(idem_scope) = r'.(idem_scope) -> r.(idem_key) = r'.(idem_key) -> r = r'.
Proof.
  intros Hok Hr Hr' Hs Hk. destruct (Hok _ _ _ Hr) as [Hid (_ & _ & Hu)%row_ok_true].
  destruct (decide (id' = id)) as [->|Hne]; [congruence|]. cbn in Hid.
  specialize (Hu _ _ Hr'). cbn in Hu.
  rewrite Hs, Hk, !String.eqb_refl in Hu. rewrite Hid in Hu. by specialize (Hu Hne).
Qed.

Section Facts.
Context {E : Env}.

(** The conflict branch: what [acquire_idempotency] does when a record with the same scope and
    key exists. *)
Lemma acquire_existing user org scope key hash ttl w id r :
  db_ok (w_db w) -> find TIdempotency (w_db w) id = Some r ->
  r.(idem_scope) = scope -> r.(idem_key) = key ->
  acquire_idempotency user org scope key hash ttl w =
  (if negb (String.eqb r.(idem_request_hash) hash) then
     (Err (ConflictError "IDEMPOTENCY_KEY_REUSED"
        "Idempotency-Key was already used with a different request payload"), ticked (ticked w))
   else if String.eqb r.(idem_status) "completed"
           && bool_decide (is_Some r.(idem_response_status))
           && bool_decide (is_Some r.(idem_response_body)) then
     (Ok {| st_record := r; replay_status := r.(idem_response_status);
            replay_body := r.(idem_response_body) |}, ticked (ticked w))
   else (Err (ConflictError "IDEMPOTENCY_IN_PROGRESS"
           "A request with this Idempotency-Key is in progress"), ticked (ticked w))).
Proof.
  intros Hok Hr Hs Hk. unfold acquire_idempotency.
  do 2 (erewrite bind_run; [|reflexivity]). cbn beta.
  rewrite (bind_run _ _ _ None (ticked (ticked w))).
  2: { apply (insert_on_conflict_exists _ _ _ id r); [done|]. unfold same_scope_key. cbn.
       by rewrite Hs, Hk, !String.eqb_refl. }
  rewrite (bind_run _ _ _ (Some r) (ticked (ticked w))).
  2: { apply (scalar_unique _ _ id); [done|by rewrite Hs, Hk, !String.eqb_refl|].
       intros id' r' Hr' [Hs' Hk']%andb_true_iff. apply String.eqb_eq in Hs', Hk'.
       eapply idempotency_unique; [done|exact Hr'|exact Hr|congruence..]. }
  by repeat case_match.
Qed.

(** A successful [acquire_idempotency] replays a completed record or creates a new one. *)
Lemma acquire_Ok user org scope key hash ttl st w w' :
  acquire_idempotency user org scope key hash ttl w = (Ok st, w') ->
  w_log w' = w_log w /\ w_redis w' = w_redis w /\
  ((w_db w' = w_db w /\ exists status body, st.(replay_status) = Some status /\
      st.(replay_body) = Some body /\ completed scope key hash status body (w_db w)) \/
   (is_replay st = false /\
    exists id, st.(st_record) = {|
      idem_id := id; idem_organization_id := org; idem_user_id := user;
      idem_scope := scope; idem_key := key; idem_request_hash := hash;
      idem_status := "processing"; idem_response_status := None; idem_response_body := None;
      idem_created_at := clock w.(w_tick);
      idem_expires_at := (clock w.(w_tick) + hours ttl)%Z |} /\
    find TIdempotency w.(w_db) id = None /\
    row_ok TIdempotency w.(w_db) st.(st_record) = true /\
    w_db w' = put TIdempotency st.(st_record) w.(w_db))).
Proof.
  unfold acquire_idempotency. intros H. inv_ok.
  - (* inserted *)
    match goal with H : insert_on_conflict_do_nothing _ _ _ _ = _ |- _ =>
      apply insert_on_conflict_Ok in H as [(? & _)|(Hid & _ & Hn & Hr & -> & _)] end; [done|].
    injection Hid as ->. cbn [w_db set_db ticked] in *.
    rewrite find_put in * |- by done. simplify_eq. cbn. split_and!; try done.
    right. split; [done|]. eexists. split_and!; done.
  - (* replayed *)
    match goal with H : insert_on_conflict_do_nothing _ _ _ _ = _ |- _ =>
      apply insert_on_conflict_Ok in H as [(_ & -> & _)|(? & _)] end; [|done].
    cbn in *. split_and!; try done. left. split; [done|]. destruct_and!. bool_to_prop.
    repeat match goal with H : String.eqb _ _ = true |- _ => apply String.eqb_eq in H end.
    match goal with H1 : is_Some _, H2 : is_Some _ |- _ =>
      destruct H1 as [status Hs], H2 as [body Hb] end.
    exists status, body. split_and!; [done..|].
    match goal with H : exists _, _ = Some _ |- _ => destruct H as [id Hid] end.
    exists id. eexists. split_and!; done.
Qed.
End Facts.

Section Protocol.
Context {E : Env} {R : Type} (user : uuid) (org : option uuid) (scope key hash missing : string)
  (work : M R) (dump : R -> json) (validate : json -> result R).

Abbreviation endpoint := (idempotent user org scope key hash missing work dump validate).

(** A completed record answers every further request with the same payload; the use case does
    not run and nothing changes. *)
Lemma idempotent_replays w status body :
  db_ok (w_db w) -> completed scope key hash status body (w_db w) ->
  endpoint w = (validate body, ticked (ticked w)).
Proof.
  intros Hok (id & r & Hr & Hs & Hk & Hh & Hst & Hrs & Hrb). unfold idempotent.
  erewrite bind_run.
  2: { rewrite (acquire_existing _ _ _ _ _ _ _ id r) by done.
       rewrite Hh, Hst, Hrs, Hrb, !String.eqb_refl. cbn [negb andb]. reflexivity. }
  cbn. done.
Qed.

(** A record under the key with another payload refuses the request. *)
Lemma idempotent_refuses w id r :
  db_ok (w_db w) -> find TIdempotency (w_db w) id = Some r ->
  r.(idem_scope) = scope -> r.(idem_key) = key -> r.(idem_request_hash) <> hash ->
  endpoint w = (Err (ConflictError "IDEMPOTENCY_KEY_REUSED"
    "Idempotency-Key was already used with a different request payload"), ticked (ticked w)).
Proof.
  intros Hok Hr Hs Hk Hh. unfold idempotent. apply bind_fail.
  rewrite (acquire_existing _ _ _ _ _ _ _ id r) by done.
  destruct (String.eqb_spec (idem_request_hash r) hash); [done|]. done.
Qed.

(** What a successful run did: replay, or the use case between the creation of the record and
    its completion. *)
Lemma idempotent_Ok w a w' :
  endpoint w = (Ok a, w') ->
  (w_db w' = w_db w /\ w_log w' = w_log w /\ w_redis w' = w_redis w /\
   exists status body, completed scope key hash status body (w_db w) /\ validate body = Ok a) \/
  (exists rec w1 w2,
     rec.(idem_scope) = scope /\ rec.(idem_key) = key /\ rec.(idem_request_hash) = hash /\
     rec.(idem_organization_id) = org /\ rec.(idem_status) = "processing" /\
     rec.(idem_response_status) = None /\ rec.(idem_response_body) = None /\
     find TIdempotency (w_db w) rec.(idem_id) = None /\
     row_ok TIdempotency (w_db w) rec = true /\
     w_db w1 = put TIdempotency rec (w_db w) /\ w_log w1 = w_log w /\ w_redis w1 = w_redis w /\
     work w1 = (Ok a, w2) /\ w_log w' = w_log w2 /\ w_redis w' = w_redis w2 /\
     let rec' := {| rec with idem_status := "completed"; idem_response_status := Some 201%Z;
                             idem_response_body := Some (dump a) |} in
     row_ok TIdempotency (w_db w2) rec' = true /\
     w_db w' = put TIdempotency rec' (w_db w2)).
Proof.
  unfold idempotent. intros H. inv_ok.
  - (* replay *)
    left. match goal with H : acquire_idempotency _ _ _ _ _ _ _ = _ |- _ =>
      apply acquire_Ok in H as (Hl & Hre & [(Hdb & status & body & Hs & Hb & Hc)|(Hr & _)]) end;
      [|congruence].
    split_and!; try done. exists status, body. split; [done|]. congruence.
  - (* work *)
    right. match goal with H : acquire_idempotency _ _ _ _ _ _ _ = _ |- _ =>
      apply acquire_Ok in H as (Hl & Hre & [(Hdb & status & body & Hs & Hb & Hc)|(Hr & Hnew)]) end.
    { match goal with H : is_replay _ = false |- _ => unfold is_replay in H; rewrite Hs in H; by cbn in H end. }
    destruct Hnew as (id & Hrec & Hn & Hrow & Hdb).
    match goal with H : complete_idempotency _ _ _ _ = _ |- _ =>
      unfold complete_idempotency in H; inv_ok end.
    match goal with H : flush_update _ _ _ _ = _ |- _ =>
      apply flush_update_Ok in H as [(Heq & _)|(_ & -> & _ & _ & Hrow' & ->)] end.
    { rewrite Hrec in Heq. discriminate. }
    exists (st_record a0), w0, w1. cbn in *. rewrite Hrec in *. cbn in *. split_and!; done.
Qed.
End Protocol.
