(* ===== verification/Events.v ===== *)
(** * Events: modules/webhooks/events.py

    [emit_event] turns a domain event of an organization into one pending delivery for every
    active endpoint that subscribes to it, and publishes one Celery job per delivery. *)
From S2P Require Import Prelude Text Json Schema Config TokenBucket Session.
#[local] Open Scope string_scope.

(** The Celery task names of workers/tasks.py. *)
Definition deliver_webhook_task : string := "tenantflow.webhooks.deliver".
Definition send_invitation_task : string := "tenantflow.email.send_invitation".

Section Events.
Context {E : Env}.

Definition delivery_payload (event_id : uuid) (event_type : string) (payload : json) : json :=
  JObj [("id", JStr (uuid_str event_id)); ("type", JStr event_type); ("data", payload)].

(** The loop over the endpoints; returns [delivery_ids]. *)
Fixpoint create_deliveries (event_id : uuid) (event_type : string) (payload : json)
    (endpoints : list WebhookEndpoint) : M (list uuid) :=
  match endpoints with
  | [] => ret []
  | endpoint :: rest =>
      if negb (existsb (String.eqb event_type) endpoint.(ep_events)) then
        create_deliveries event_id event_type payload rest
      else
        let! id := uuid4 in
        let! created := now in
        let! updated := now in
        do! add_flush TDelivery {|
          dlv_id := id;
          dlv_event_id := event_id;
          dlv_endpoint_id := endpoint.(ep_id);
          dlv_event_type := event_type;
          dlv_payload := delivery_payload event_id event_type payload;
          dlv_state := "pending";
          dlv_attempt_count := 0;
          dlv_response_status := None;
          dlv_last_error := None;
          dlv_next_retry_at := None;
          dlv_created_at := created;
          dlv_updated_at := updated |} in
        let! ids := create_deliveries event_id event_type payload rest in
        ret (id :: ids)
  end.

Definition publish_deliveries (ids : list uuid) : M unit :=
  for_each ids (fun id => delay deliver_webhook_task [uuid_str id]).

Definition emit_event (organization_id : uuid) (event_type : string) (payload : json) : M uuid :=
  let! event_id := uuid4 in
  let! endpoints := select TEndpoint (fun e =>
    N.eqb e.(ep_organization_id) organization_id && e.(ep_is_active)) in
  let! delivery_ids := create_deliveries event_id event_type payload endpoints in
  do! publish_deliveries delivery_ids in
  ret event_id.
End Events.

(** ** Specification *)

(** The endpoint receives events of this type of the organization. *)
Definition subscribed (organization_id : uuid) (event_type : string) (e : WebhookEndpoint) : Prop :=
  e.(ep_organization_id) = organization_id /\ e.(ep_is_active) = true /\ event_type ∈ e.(ep_events).

(** A delivery as [emit_event] creates it. *)
Definition fresh_delivery (event_id : uuid) (event_type : string) (payload : json)
    (d : WebhookDelivery) : Prop :=
  d.(dlv_event_id) = event_id /\ d.(dlv_event_type) = event_type /\
  d.(dlv_payload) = delivery_payload event_id event_type payload /\
  d.(dlv_state) = "pending" /\ d.(dlv_attempt_count) = 0%Z /\
  d.(dlv_response_status) = None /\ d.(dlv_last_error) = None /\ d.(dlv_next_retry_at) = None.

(** The rows of [ds] were inserted, one by one. *)
Fixpoint put_deliveries (ds : list WebhookDelivery) (db : Db) : Db :=
  match ds with [] => db | d :: ds' => put_deliveries ds' (put TDelivery d db) end.

Fixpoint insertable (ds : list WebhookDelivery) (db : Db) : Prop :=
  match ds with
  | [] => True
  | d :: ds' => find TDelivery db d.(dlv_id) = None /\ row_ok TDelivery db d = true /\
                insertable ds' (put TDelivery d db)
  end.

(** ** Lemmas *)
Lemma put_deliveries_ne ds db t : t <> TDelivery -> put_deliveries ds db t = db t.
Proof.
  intros Ht. revert db. induction ds as [|d ds IH]; intros db; cbn; [done|].
  rewrite IH. by apply put_ne.
Qed.

(** A row after the insertions is one of the new rows or an old one, and the old ones stay. *)
Lemma find_put_deliveries ds db :
  insertable ds db ->
  forall id d, find TDelivery (put_deliveries ds db) id = Some d <->
    (d ∈ ds /\ d.(dlv_id) = id) \/ find TDelivery db id = Some d.
Proof.
  revert db. induction ds as [|d0 ds IH]; intros db; cbn; [set_solver|].
  intros (Hn & _ & Hins) id d. rewrite (IH _ Hins), elem_of_cons.
  destruct (decide (dlv_id d0 = id)) as [<-|Hne].
  - rewrite find_put by done. split; [|naive_solver congruence].
    intros [?|[= <-]]; [naive_solver|]. auto.
  - rewrite lookup_put_ne by done. naive_solver.
Qed.

Section Facts.
Context {E : Env}.

Lemma create_deliveries_Ok event_id event_type payload endpoints ids w w' :
  create_deliveries event_id event_type payload endpoints w = (Ok ids, w') ->
  exists ds,
    ids = dlv_id <$> ds /\
    dlv_endpoint_id <$> ds = ep_id <$> filter (fun e => event_type ∈ e.(ep_events)) endpoints /\
    Forall (fresh_delivery event_id event_type payload) ds /\
    insertable ds (w_db w) /\ w_db w' = put_deliveries ds (w_db w) /\
    w_log w' = w_log w /\ w_redis w' = w_redis w.
Proof.
  revert ids w w'. induction endpoints as [|e rest IH]; intros ids w w' H; cbn in H.
  { inv_ok. by exists []. }
  destruct (existsb _ _) eqn:Hx; cbn in H.
  - apply existsb_exists in Hx as (s & Hs & ->%String.eqb_eq). apply list_elem_of_In in Hs.
    inv_ok. match goal with H : create_deliveries _ _ _ _ _ = _ |- _ =>
      apply IH in H as (ds & -> & Hep & Hfr & Hins & Hdb & Hlog & Hredis) end.
    cbn in * |-. match goal with H : insertable ds (put _ ?d _) |- _ => exists (d :: ds) end.
    rewrite filter_cons_True, !fmap_cons, Hep by done. split_and!; try done.
    by constructor.
  - apply IH in H as (ds & -> & Hep & ?). exists ds.
    rewrite filter_cons_False; [done|]. intros Hin.
    rewrite existsb_false_iff in Hx. specialize (Hx _ Hin). by rewrite String.eqb_refl in Hx.
Qed.

Lemma publish_deliveries_Ok ids u w w' :
  publish_deliveries ids w = (Ok u, w') ->
  w_db w' = w_db w /\ w_redis w' = w_redis w /\
  w_log w' = (w_log w ++ ((fun id => Delay deliver_webhook_task [uuid_str id]) <$> ids))%list.
Proof.
  unfold publish_deliveries. revert w. induction ids as [|id ids IH]; intros w H; cbn in H; inv_ok.
  - by rewrite app_nil_r.
  - apply IH in H as (-> & -> & ->). cbn. by rewrite <- app_assoc.
Qed.

(** The deliveries [ds] are the effect of a successful [emit_event]. *)
Lemma emit_event_Ok org event_type payload event_id w w' :
  emit_event org event_type payload w = (Ok event_id, w') ->
  exists ds endpoints,
    (forall e, e ∈ endpoints <-> subscribed org event_type e /\
               exists id, find TEndpoint (w_db w) id = Some e) /\
    dlv_endpoint_id <$> ds = ep_id <$> endpoints /\
    Forall (fresh_delivery event_id event_type payload) ds /\
    insertable ds (w_db w) /\ w_db w' = put_deliveries ds (w_db w) /\
    w_log w' = (w_log w ++ ((fun d => Delay deliver_webhook_task [uuid_str d.(dlv_id)]) <$> ds))%list /\
    w_redis w' = w_redis w.
Proof.
  unfold emit_event. intros H. inv_ok.
  match goal with H : create_deliveries _ _ _ _ _ = _ |- _ =>
    apply create_deliveries_Ok in H as (ds & -> & Hep & Hfr & Hins & Hdb & Hlog & Hredis) end.
  match goal with H : publish_deliveries _ _ = _ |- _ =>
    apply publish_deliveries_Ok in H as (Hdb' & Hredis' & Hlog') end.
  match goal with H : forall r, r ∈ ?l <-> _ |- _ =>
    exists ds, (filter (fun e : WebhookEndpoint => event_type ∈ e.(ep_events)) l); rename H into Hl end.
  rewrite Hdb', Hredis', Hlog', Hlog, Hredis, <- list_fmap_compose.
  split; [|by split_and!]. intros e. rewrite list_elem_of_filter, Hl.
  unfold subscribed. rewrite andb_true_iff, N.eqb_eq. naive_solver.
Qed.
End Facts.
