(* ===== verification/CeleryApp.v ===== *)
(** * CeleryApp: workers/celery_app.py

    The configuration of the Celery application as data: acknowledgement, routes, schedule.  How a
    pattern of [task_routes] matches a task name is Celery's, a parameter with its documented law. *)
From S2P Require Import Prelude Text Json Schema Config TokenBucket Session Events.
#[local] Open Scope string_scope.

Record Conf := mkConf {
  task_acks_late : bool;
  worker_prefetch_multiplier : Z;
  task_reject_on_worker_lost : bool;
  timezone : string;
  enable_utc : bool;
  task_routes : list (string * string);               (** pattern, queue *)
  beat_schedule : list (string * (string * Z)) }.     (** entry, task and minute of every hour *)

Definition cleanup_expired_task : string := "tenantflow.maintenance.cleanup_expired".

Definition celery_conf : Conf := {|
  task_acks_late := true;
  worker_prefetch_multiplier := 1;
  task_reject_on_worker_lost := true;
  timezone := "UTC";
  enable_utc := true;
  task_routes := [("tenantflow.webhooks.*", "webhooks"); ("tenantflow.maintenance.*", "maintenance")];
  beat_schedule := [("cleanup-expired-state-hourly", (cleanup_expired_task, 17%Z))] |}.

(** [task_default_queue], which the configuration leaves alone. *)
Definition task_default_queue : string := "celery".

Section Routing.
Context (matches : string -> string -> bool).

(** "*" stands for any characters. *)
Hypothesis matches_star : forall prefix name,
  matches (prefix +:+ "*") name = true <-> exists rest, rest <> "" /\ name = prefix +:+ rest.

(** The queue a task of this name is sent to: that of the first route that matches. *)
Definition queue_of (conf : Conf) (name : string) : string :=
  match List.find (fun route => matches route.1 name) conf.(task_routes) with
  | Some route => route.2
  | None => task_default_queue
  end.

Lemma matches_webhooks name :
  matches "tenantflow.webhooks.*" name = true <->
  exists rest, rest <> "" /\ name = "tenantflow.webhooks." +:+ rest.
Proof. exact (matches_star "tenantflow.webhooks." name). Qed.

Lemma matches_maintenance name :
  matches "tenantflow.maintenance.*" name = true <->
  exists rest, rest <> "" /\ name = "tenantflow.maintenance." +:+ rest.
Proof. exact (matches_star "tenantflow.maintenance." name). Qed.

(** Deliveries and the clean-up leave the default queue, invitations stay. *)
Lemma task_queues :
  queue_of celery_conf deliver_webhook_task = "webhooks" /\
  queue_of celery_conf cleanup_expired_task = "maintenance" /\
  queue_of celery_conf send_invitation_task = task_default_queue.
Proof.
  assert (Hw : forall name, (forall rest, name <> "tenantflow.webhooks." +:+ rest) ->
            matches "tenantflow.webhooks.*" name = false).
  { intros name Hn. apply not_true_iff_false. rewrite matches_webhooks. intros (rest & _ & Hr).
    by destruct (Hn rest). }
  assert (Hm : forall name, (forall rest, name <> "tenantflow.maintenance." +:+ rest) ->
            matches "tenantflow.maintenance.*" name = false).
  { intros name Hn. apply not_true_iff_false. rewrite matches_maintenance. intros (rest & _ & Hr).
    by destruct (Hn rest). }
  unfold queue_of. cbn [celery_conf task_routes List.find fst snd]. split_and!.
  - rewrite (proj2 (matches_webhooks deliver_webhook_task)); [done|]. by exists "deliver".
  - rewrite Hw by done. rewrite (proj2 (matches_maintenance cleanup_expired_task)); [done|].
    by exists "cleanup_expired".
  - rewrite Hw, Hm by done. done.
Qed.
End Routing.
