(* ===== verification/Projects.v ===== *)
(** * Projects: modules/projects

    The project service and the endpoints that create, list, read, update and delete projects. *)
From S2P Require Import Prelude Text Json Schema Config TokenBucket Session Permissions Security.
From S2P Require Import Pagination Access AuditTrail Idempotency Events.
#[local] Open Scope string_scope.

(** Field(min_length=lo, max_length=hi). *)
Definition length_between (lo hi : nat) (s : string) : bool :=
  (lo <=? String.length s)%nat && (String.length s <=? hi)%nat.

(** ** schemas.py *)
Record ProjectCreate := mkProjectCreate {
  pc_name : string;
  pc_description : option string }.

Definition ProjectCreate_ok (p : ProjectCreate) : bool :=
  length_between 2 160 p.(pc_name) && default true (length_between 0 5000 <$> p.(pc_description)).

(** A field of an update payload: absent from the body ([None]), an explicit null ([Some None])
    or a value. *)
Definition patch (A : Type) : Type := option (option A).

Definition patch_ok {A} (ok : A -> bool) (f : patch A) : bool :=
  match f with Some (Some a) => ok a | _ => true end.
(** The value of a nullable column after the assignment. *)
Definition patched_opt {A} (f : patch A) (old : option A) : option A := default old f.
(** The value of a NOT NULL column: [None] is the violation the flush will report. *)
Definition patched {A} (f : patch A) (old : A) : option A :=
  match f with None => Some old | Some v => v end.

Record ProjectUpdate := mkProjectUpdate {
  pu_name : patch string;
  pu_description : patch string;
  pu_status : patch string }.

Definition ProjectUpdate_ok (p : ProjectUpdate) : bool :=
  patch_ok (length_between 2 160) p.(pu_name) && patch_ok (length_between 0 5000) p.(pu_description)
  && patch_ok (one_of ["active"; "archived"]) p.(pu_status).

(** The fields of [ProjectResponse] are the columns of [Project]: validation from the attributes
    copies them. *)
Definition ProjectResponse : Type := Project.
Definition project_response (project : Project) : ProjectResponse := project.

Record ProjectPage := mkProjectPage {
  pp_items : list ProjectResponse;
  pp_next_cursor : option string }.

Section Projects.
Context {E : Env}.

(** ** service.py *)
Definition get_project (organization_id project_id : uuid) : M Project :=
  let! project := scalar TProject (fun p =>
    N.eqb p.(prj_id) project_id && N.eqb p.(prj_organization_id) organization_id) in
  match project with
  | None => raise (NotFoundError "PROJECT_NOT_FOUND" "Project was not found")
  | Some p => ret p
  end.

Definition create_project (organization_id : uuid) (user : User) (payload : ProjectCreate)
  : M Project :=
  let! id := uuid4 in
  let! created := now in
  let! updated := now in
  let project := {|
    prj_id := id;
    prj_organization_id := organization_id;
    prj_name := strip payload.(pc_name);
    prj_description := payload.(pc_description);
    prj_status := "active";
    prj_created_by := user.(user_id);
    prj_created_at := created;
    prj_updated_at := updated |} in
  do! add_flush TProject project in
  do! record_audit organization_id (Some user.(user_id)) "project.created" "project"
        (Some project.(prj_id)) None in
  do! emit_event organization_id "project.created"
        (JObj [("project_id", JStr (uuid_str project.(prj_id))); ("name", JStr project.(prj_name))]) in
  ret project.

(** The loop of [setattr]. *)
Definition assign_project (payload : ProjectUpdate) (p : Project) : option Project :=
  match patched payload.(pu_name) p.(prj_name), patched payload.(pu_status) p.(prj_status) with
  | Some name, Some status =>
      Some {| p with prj_name := name; prj_status := status;
                     prj_description := patched_opt payload.(pu_description) p.(prj_description) |}
  | _, _ => None
  end.

Definition update_project (organization_id project_id : uuid) (user : User)
    (payload : ProjectUpdate) : M Project :=
  let! old := get_project organization_id project_id in
  match assign_project payload old with
  | None => raise IntegrityError
  | Some new =>
      let! project := flush_update TProject old new in
      do! record_audit organization_id (Some user.(user_id)) "project.updated" "project"
            (Some project.(prj_id)) None in
      do! emit_event organization_id "project.updated"
            (JObj [("project_id", JStr (uuid_str project.(prj_id)));
                   ("status", JStr project.(prj_status))]) in
      ret project
  end.

Definition delete_project (organization_id project_id : uuid) (user : User) : M unit :=
  let! project := get_project organization_id project_id in
  do! record_audit organization_id (Some user.(user_id)) "project.deleted" "project"
        (Some project.(prj_id)) (Some (JObj [("name", JStr project.(prj_name))])) in
  do! emit_event organization_id "project.deleted"
        (JObj [("project_id", JStr (uuid_str project.(prj_id))); ("name", JStr project.(prj_name))]) in
  delete_rows (delete_project_row project.(prj_id)).

(** ** router.py *)
Definition projects_create (token : string) (organization_id : uuid) (payload : ProjectCreate)
  : M ProjectResponse :=
  let! context := require_permission PROJECT_WRITE token organization_id in
  if negb (ProjectCreate_ok payload) then raise RequestValidationError else
  let! project := create_project organization_id context.(ctx_user) payload in
  ret (project_response project).

Definition list_projects (token : string) (organization_id : uuid) (cursor : option string)
    (limit : Z) : M ProjectPage :=
  let! _ctx := require_permission PROJECT_READ token organization_id in
  if negb ((1 <=? limit)%Z && (limit <=? 100)%Z) then raise RequestValidationError else
  let! page := keyset_page TProject prj_created_at
    (fun p => N.eqb p.(prj_organization_id) organization_id) cursor limit in
  ret (mkProjectPage (project_response <$> page.1) page.2).

Definition projects_retrieve (token : string) (organization_id project_id : uuid)
  : M ProjectResponse :=
  let! _ctx := require_permission PROJECT_READ token organization_id in
  let! project := get_project organization_id project_id in
  ret (project_response project).

Definition projects_update (token : string) (organization_id project_id : uuid)
    (payload : ProjectUpdate) : M ProjectResponse :=
  let! context := require_permission PROJECT_WRITE token organization_id in
  if negb (ProjectUpdate_ok payload) then raise RequestValidationError else
  let! project := update_project organization_id project_id context.(ctx_user) payload in
  ret (project_response project).

Definition projects_delete (token : string) (organization_id project_id : uuid) : M unit :=
  let! context := require_permission PROJECT_DELETE token organization_id in
  delete_project organization_id project_id context.(ctx_user).
End Projects.
