(* ===== verification/Tasks.v ===== *)
(** * Tasks: modules/tasks

    The task service, with the checks that a task's project and assignee belong to the
    organization, and the endpoints over it. *)
From S2P Require Import Prelude Text Json Schema Config TokenBucket Session Permissions Security.
From S2P Require Import Pagination Access AuditTrail Idempotency Events Projects.
#[local] Open Scope string_scope.

(** ** schemas.py *)
Definition task_priorities : list string := ["low"; "medium"; "high"; "urgent"].
Definition task_statuses : list string := ["todo"; "in_progress"; "done"; "cancelled"].

Record TaskCreate := mkTaskCreate {
  tc_project_id : uuid;
  tc_title : string;
  tc_description : option string;
  tc_priority : string;
  tc_assignee_id : option uuid;
  tc_due_at : option datetime }.

Definition TaskCreate_ok (p : TaskCreate) : bool :=
  length_between 1 200 p.(tc_title) && default true (length_between 0 5000 <$> p.(tc_description))
  && one_of task_priorities p.(tc_priority).

Record TaskUpdate := mkTaskUpdate {
  tu_title : patch string;
  tu_description : patch string;
  tu_status : patch string;
  tu_priority : patch string;
  tu_assignee_id : patch uuid;
  tu_due_at : patch datetime }.

Definition TaskUpdate_ok (p : TaskUpdate) : bool :=
  patch_ok (length_between 1 200) p.(tu_title) && patch_ok (length_between 0 5000) p.(tu_description)
  && patch_ok (one_of task_statuses) p.(tu_status) && patch_ok (one_of task_priorities) p.(tu_priority).

(** The query parameters of the listing. *)
Record TaskFilter := mkTaskFilter {
  tf_project_id : option uuid;
  tf_status : option string;
  tf_assignee_id : option uuid;
  tf_priority : option string }.

Definition TaskFilter_ok (f : TaskFilter) : bool :=
  default true (one_of task_statuses <$> f.(tf_status)) &&
  default true (one_of task_priorities <$> f.(tf_priority)).

(** The conditions the filters add to the statement. *)
Definition task_selected (f : TaskFilter) (r : Task) : bool :=
  default true (N.eqb r.(task_project_id) <$> f.(tf_project_id)) &&
  default true (String.eqb r.(task_status) <$> f.(tf_status)) &&
  default true ((fun u => bool_decide (r.(task_assignee_id) = Some u)) <$> f.(tf_assignee_id)) &&
  default true (String.eqb r.(task_priority) <$> f.(tf_priority)).

(** The fields of [TaskResponse] are the columns of [Task]. *)
Definition TaskResponse : Type := Task.
Definition task_response (task : Task) : TaskResponse := task.

Record TaskPage := mkTaskPage {
  tp_items : list TaskResponse;
  tp_next_cursor : option string }.

Section Tasks.
Context {E : Env}.

(** ** service.py *)
Definition _validate_project (organization_id project_id : uuid) : M unit :=
  let! exists_ := scalar TProject (fun p =>
    N.eqb p.(prj_id) project_id && N.eqb p.(prj_organization_id) organization_id) in
  match exists_ with
  | None => raise (NotFoundError "PROJECT_NOT_FOUND" "Project was not found")
  | Some _ => ret tt
  end.

Definition _validate_assignee (organization_id : uuid) (user_id : option uuid) : M unit :=
  match user_id with
  | None => ret tt
  | Some uid =>
      let! exists_ := scalar TMembership (fun m =>
        N.eqb m.(mem_organization_id) organization_id && N.eqb m.(mem_user_id) uid) in
      match exists_ with
      | None => raise (ConflictError "INVALID_ASSIGNEE" "Assignee must belong to this organization")
      | Some _ => ret tt
      end
  end.

Definition get_task (organization_id tid : uuid) : M Task :=
  let! task := scalar TTask (fun k =>
    N.eqb k.(task_id) tid && N.eqb k.(task_organization_id) organization_id) in
  match task with
  | None => raise (NotFoundError "TASK_NOT_FOUND" "Task was not found")
  | Some k => ret k
  end.

Definition create_task (organization_id : uuid) (user : User) (payload : TaskCreate) : M Task :=
  do! _validate_project organization_id payload.(tc_project_id) in
  do! _validate_assignee organization_id payload.(tc_assignee_id) in
  let! id := uuid4 in
  let! created := now in
  let! updated := now in
  let task := {|
    task_id := id;
    task_organization_id := organization_id;
    task_project_id := payload.(tc_project_id);
    task_title := strip payload.(tc_title);
    task_description := payload.(tc_description);
    task_status := "todo";
    task_priority := payload.(tc_priority);
    task_assignee_id := payload.(tc_assignee_id);
    task_created_by := user.(user_id);
    task_due_at := payload.(tc_due_at);
    task_created_at := created;
    task_updated_at := updated |} in
  do! add_flush TTask task in
  do! record_audit organization_id (Some user.(user_id)) "task.created" "task"
        (Some task.(task_id)) None in
  do! emit_event organization_id "task.created"
        (JObj [("task_id", JStr (uuid_str task.(task_id)));
               ("project_id", JStr (uuid_str task.(task_project_id)));
               ("title", JStr task.(task_title))]) in
  ret task.

(** The loop of [setattr]. *)
Definition assign_task (payload : TaskUpdate) (k : Task) : option Task :=
  match patched payload.(tu_title) k.(task_title), patched payload.(tu_status) k.(task_status),
        patched payload.(tu_priority) k.(task_priority) with
  | Some title, Some status, Some priority =>
      Some {| k with task_title := title; task_status := status; task_priority := priority;
                     task_description := patched_opt payload.(tu_description) k.(task_description);
                     task_assignee_id := patched_opt payload.(tu_assignee_id) k.(task_assignee_id);
                     task_due_at := patched_opt payload.(tu_due_at) k.(task_due_at) |}
  | _, _, _ => None
  end.

Definition update_task (organization_id tid : uuid) (user : User) (payload : TaskUpdate)
  : M Task :=
  let! old := get_task organization_id tid in
  do! match payload.(tu_assignee_id) with
      | Some assignee => _validate_assignee organization_id assignee
      | None => ret tt
      end in
  match assign_task payload old with
  | None => raise IntegrityError
  | Some new =>
      let! task := flush_update TTask old new in
      do! record_audit organization_id (Some user.(user_id)) "task.updated" "task"
            (Some task.(task_id)) None in
      let event_type :=
        if String.eqb task.(task_status) "done" then "task.completed" else "task.updated" in
      do! emit_event organization_id event_type
            (JObj [("task_id", JStr (uuid_str task.(task_id)));
                   ("project_id", JStr (uuid_str task.(task_project_id)));
                   ("status", JStr task.(task_status))]) in
      ret task
  end.

Definition delete_task (organization_id tid : uuid) (user : User) : M unit :=
  let! task := get_task organization_id tid in
  do! record_audit organization_id (Some user.(user_id)) "task.deleted" "task"
        (Some task.(task_id))
        (Some (JObj [("title", JStr task.(task_title));
                     ("project_id", JStr (uuid_str task.(task_project_id)))])) in
  do! emit_event organization_id "task.deleted"
        (JObj [("task_id", JStr (uuid_str task.(task_id)));
               ("project_id", JStr (uuid_str task.(task_project_id)))]) in
  delete_rows (delete_task_row task.(task_id)).

(** ** router.py *)
Definition tasks_create (token : string) (organization_id : uuid) (payload : TaskCreate)
  : M TaskResponse :=
  let! context := require_permission PROJECT_WRITE token organization_id in
  if negb (TaskCreate_ok payload) then raise RequestValidationError else
  let! task := create_task organization_id context.(ctx_user) payload in
  ret (task_response task).

Definition list_tasks (token : string) (organization_id : uuid) (filters : TaskFilter)
    (cursor : option string) (limit : Z) : M TaskPage :=
  let! _ctx := require_permission PROJECT_READ token organization_id in
  if negb (TaskFilter_ok filters && (1 <=? limit)%Z && (limit <=? 100)%Z)
  then raise RequestValidationError else
  let! page := keyset_page TTask task_created_at
    (fun r => N.eqb r.(task_organization_id) organization_id && task_selected filters r)
    cursor limit in
  ret (mkTaskPage (task_response <$> page.1) page.2).

Definition tasks_retrieve (token : string) (organization_id tid : uuid) : M TaskResponse :=
  let! _ctx := require_permission PROJECT_READ token organization_id in
  let! task := get_task organization_id tid in
  ret (task_response task).

Definition tasks_update (token : string) (organization_id tid : uuid) (payload : TaskUpdate)
  : M TaskResponse :=
  let! context := require_permission PROJECT_WRITE token organization_id in
  if negb (TaskUpdate_ok payload) then raise RequestValidationError else
  let! task := update_task organization_id tid context.(ctx_user) payload in
  ret (task_response task).

Definition tasks_delete (token : string) (organization_id tid : uuid) : M unit :=
  let! context := require_permission PROJECT_WRITE token organization_id in
  delete_task organization_id tid context.(ctx_user).
End Tasks.
