(* ===== verification/Organizations.v ===== *)
(** * Organizations: modules/organizations

    Organizations, memberships and invitations: the service that creates an organization with its
    owner, invites, accepts, changes roles and removes members, and the endpoints over it. *)
From S2P Require Import Prelude Text Json Schema Config TokenBucket Session Permissions Security.
From S2P Require Import Access AuditTrail Idempotency Events Projects.
#[local] Open Scope string_scope.

(** ** schemas.py *)

(** ^[a-z0-9][a-z0-9-]{1,78}[a-z0-9]$ *)
Definition slug_alnum (c : ascii) : bool :=
  ((97 <=? code c)%N && (code c <=? 122)%N) || ((48 <=? code c)%N && (code c <=? 57)%N).
Definition slug_char (c : ascii) : bool := slug_alnum c || (c =? "-")%char.

Definition slug_ok (s : string) : bool :=
  match list_ascii_of_string s with
  | c :: rest =>
      slug_alnum c && (2 <=? List.length rest)%nat && (List.length rest <=? 79)%nat &&
      forallb slug_char (removelast rest) &&
      default false (slug_alnum <$> last rest)
  | [] => false
  end.

(** ^(admin|member|viewer)$ *)
Definition invitable_role (s : string) : bool := one_of ["admin"; "member"; "viewer"] s.

Record OrganizationCreate := mkOrganizationCreate { oc_name : string; oc_slug : string }.
Definition OrganizationCreate_ok (p : OrganizationCreate) : bool :=
  length_between 2 160 p.(oc_name) && slug_ok p.(oc_slug).
Definition OrganizationCreate_dump (p : OrganizationCreate) : json :=
  JObj [("name", JStr p.(oc_name)); ("slug", JStr p.(oc_slug))].

Record OrganizationResponse := mkOrganizationResponse {
  or_id : uuid;
  or_name : string;
  or_slug : string;
  or_role : string }.

(** [model_dump(mode="json")] and [model_validate]; [None] of [str_field] is a ValidationError. *)
Definition OrganizationResponse_dump (r : OrganizationResponse) : json :=
  JObj [("id", JStr (uuid_str r.(or_id))); ("name", JStr r.(or_name)); ("slug", JStr r.(or_slug));
        ("role", JStr r.(or_role))].

Definition str_field (k : string) (j : json) : option string :=
  match json_get k j with Some (JStr s) => Some s | _ => None end.

Definition validated {A} (o : option A) : result A :=
  match o with Some a => Ok a | None => Err ValidationError end.

Definition OrganizationResponse_validate (j : json) : result OrganizationResponse :=
  validated (
    id ← str_field "id" j ≫= uuid_parse;
    name ← str_field "name" j;
    slug ← str_field "slug" j;
    role ← str_field "role" j;
    Some (mkOrganizationResponse id name slug role)).

(** The request body before [EmailStr] normalises the address. *)
Record InviteMemberRequest := mkInviteMemberRequest { im_email : string; im_role : string }.
Definition InviteMemberRequest_dump (p : InviteMemberRequest) : json :=
  JObj [("email", JStr p.(im_email)); ("role", JStr p.(im_role))].

Record InvitationResponse := mkInvitationResponse {
  ir_id : uuid;
  ir_email : string;
  ir_role : string;
  ir_status : string }.
Definition InvitationResponse_dump (r : InvitationResponse) : json :=
  JObj [("id", JStr (uuid_str r.(ir_id))); ("email", JStr r.(ir_email)); ("role", JStr r.(ir_role));
        ("status", JStr r.(ir_status))].

Record MembershipResponse := mkMembershipResponse {
  mr_id : uuid;
  mr_user_id : uuid;
  mr_email : string;
  mr_full_name : string;
  mr_role : string }.

(** Field(min_length=32, max_length=256) *)
Definition invitation_token_ok (token : string) : bool := length_between 32 256 token.

Section Schemas.
Context {E : Env}.

Definition InviteMemberRequest_validate (p : InviteMemberRequest) : option InviteMemberRequest :=
  email ← validate_email p.(im_email);
  if invitable_role p.(im_role) then Some (mkInviteMemberRequest email p.(im_role)) else None.

(** [InvitationResponse(...)] validates the address again. *)
Definition InvitationResponse_make (id : uuid) (email role status : string)
  : result InvitationResponse :=
  validated (email ← validate_email email; Some (mkInvitationResponse id email role status)).

Definition InvitationResponse_validate (j : json) : result InvitationResponse :=
  validated (
    id ← str_field "id" j ≫= uuid_parse;
    email ← str_field "email" j ≫= validate_email;
    role ← str_field "role" j;
    status ← str_field "status" j;
    Some (mkInvitationResponse id email role status)).

Definition membership_response (membership : OrganizationMembership) (user : User)
  : result MembershipResponse :=
  validated (email ← validate_email user.(user_email);
             Some (mkMembershipResponse membership.(mem_id) user.(user_id) email
                     user.(user_full_name) membership.(mem_role))).
End Schemas.

Section Organizations.
Context {E : Env}.

(** ** service.py *)

(** [select(OrganizationMembership).where(organization_id == ..., user_id == ...)] *)
Definition membership_of (organization_id uid : uuid) (m : OrganizationMembership) : bool :=
  N.eqb m.(mem_organization_id) organization_id && N.eqb m.(mem_user_id) uid.

Definition new_membership (organization_id uid : uuid) (role : string)
  : M OrganizationMembership :=
  let! id := uuid4 in
  let! created := now in
  let! updated := now in
  let membership := {|
    mem_id := id;
    mem_organization_id := organization_id;
    mem_user_id := uid;
    mem_role := role;
    mem_created_at := created;
    mem_updated_at := updated |} in
  do! add_flush TMembership membership in
  ret membership.

Definition create_organization (user : User) (payload : OrganizationCreate) : M Organization :=
  let! existing := scalar TOrganization (fun o => String.eqb o.(org_slug) payload.(oc_slug)) in
  match existing with
  | Some _ =>
      raise (ConflictError "ORGANIZATION_SLUG_EXISTS" "Organization slug is already in use")
  | None =>
      let! id := uuid4 in
      let! created := now in
      let! updated := now in
      let organization := {|
        org_id := id;
        org_name := strip payload.(oc_name);
        org_slug := payload.(oc_slug);
        org_created_by := user.(user_id);
        org_created_at := created;
        org_updated_at := updated |} in
      do! add_flush TOrganization organization in
      do! new_membership organization.(org_id) user.(user_id) "owner" in
      do! record_audit organization.(org_id) (Some user.(user_id)) "organization.created"
            "organization" (Some organization.(org_id)) None in
      ret organization
  end.

(** The first half of [invite_member]: the address has no membership and no live invitation; a
    pending invitation that ran out is marked. *)
Definition clear_invitation (organization_id : uuid) (normalized_email : string) : M unit :=
  let! existing_user := scalar TUser (fun u => String.eqb u.(user_email) normalized_email) in
  do! match existing_user with
      | Some u =>
          let! existing_membership :=
            scalar TMembership (membership_of organization_id u.(user_id)) in
          match existing_membership with
          | Some _ => raise (ConflictError "ALREADY_A_MEMBER"
                        "This user already belongs to the organization")
          | None => ret tt
          end
      | None => ret tt
      end in
  let! pending := scalar TInvitation (fun i =>
    N.eqb i.(inv_organization_id) organization_id && String.eqb i.(inv_email) normalized_email
    && String.eqb i.(inv_status) "pending") in
  match pending with
  | Some p =>
      let! ts := now in
      if (ts <? p.(inv_expires_at))%Z then
        raise (ConflictError "INVITATION_ALREADY_PENDING"
          "A pending invitation already exists for this email")
      else
        do! flush_update TInvitation p {| p with inv_status := "expired" |} in
        ret tt
  | None => ret tt
  end.

Definition invite_member (organization_id : uuid) (invited_by : User)
    (payload : InviteMemberRequest) : M Invitation :=
  let normalized_email := lower payload.(im_email) in
  do! clear_invitation organization_id normalized_email in
  let! raw_token := token_urlsafe 32 in
  let! ts := now in
  let! id := uuid4 in
  let! created := now in
  let! updated := now in
  let invitation := {|
    inv_id := id;
    inv_organization_id := organization_id;
    inv_email := normalized_email;
    inv_role := payload.(im_role);
    inv_token_hash := token_fingerprint raw_token;
    inv_status := "pending";
    inv_invited_by := invited_by.(user_id);
    inv_expires_at := (ts + days 7)%Z;
    inv_created_at := created;
    inv_updated_at := updated |} in
  do! add_flush TInvitation invitation in
  do! record_audit organization_id (Some invited_by.(user_id)) "member.invited" "invitation"
        (Some invitation.(inv_id))
        (Some (JObj [("email", JStr normalized_email); ("role", JStr payload.(im_role))])) in
  do! delay send_invitation_task [uuid_str invitation.(inv_id); raw_token] in
  ret invitation.

Definition accept_invitation (user : User) (raw_token : string) : M OrganizationMembership :=
  let fingerprint := token_fingerprint raw_token in
  let! found := scalar_for_update TInvitation (fun i => String.eqb i.(inv_token_hash) fingerprint) in
  match found with
  | None => raise (NotFoundError "INVITATION_NOT_FOUND" "Invitation was not found")
  | Some invitation =>
      if negb (String.eqb invitation.(inv_status) "pending") then
        raise (ConflictError "INVITATION_NOT_ACTIVE" "Invitation is no longer active")
      else
      let! ts := now in
      if (invitation.(inv_expires_at) <=? ts)%Z then
        do! flush_update TInvitation invitation {| invitation with inv_status := "expired" |} in
        raise (ConflictError "INVITATION_EXPIRED" "Invitation has expired")
      else if negb (String.eqb invitation.(inv_email) (lower user.(user_email))) then
        raise (ForbiddenError "INVITATION_EMAIL_MISMATCH"
          "Invitation belongs to a different account")
      else
      let! existing := scalar TMembership
        (membership_of invitation.(inv_organization_id) user.(user_id)) in
      let! membership :=
        match existing with
        | Some m => ret m
        | None => new_membership invitation.(inv_organization_id) user.(user_id)
                    invitation.(inv_role)
        end in
      do! flush_update TInvitation invitation {| invitation with inv_status := "accepted" |} in
      do! record_audit invitation.(inv_organization_id) (Some user.(user_id)) "member.joined"
            "organization_membership" (Some membership.(mem_id))
            (Some (JObj [("role", JStr membership.(mem_role))])) in
      ret membership
  end.

(** The membership an administrator addresses; the owner's is out of reach ([message]). *)
Definition managed_membership (organization_id membership_id : uuid) (message : string)
  : M OrganizationMembership :=
  let! found := scalar TMembership (fun m =>
    N.eqb m.(mem_id) membership_id && N.eqb m.(mem_organization_id) organization_id) in
  match found with
  | None => raise (NotFoundError "MEMBERSHIP_NOT_FOUND" "Membership was not found")
  | Some membership =>
      if String.eqb membership.(mem_role) "owner" then raise (ForbiddenError "FORBIDDEN" message)
      else ret membership
  end.

Definition update_membership_role (organization_id membership_id : uuid) (actor : User)
    (role : string) : M OrganizationMembership :=
  let! old := managed_membership organization_id membership_id
    "The organization owner role cannot be changed through this endpoint" in
  let! membership := flush_update TMembership old {| old with mem_role := role |} in
  do! record_audit organization_id (Some actor.(user_id)) "member.role_changed"
        "organization_membership" (Some membership.(mem_id))
        (Some (JObj [("from", JStr old.(mem_role)); ("to", JStr role)])) in
  ret membership.

Definition remove_membership (organization_id membership_id : uuid) (actor : User) : M unit :=
  let! membership := managed_membership organization_id membership_id
    "The organization owner cannot be removed" in
  do! record_audit organization_id (Some actor.(user_id)) "member.removed"
        "organization_membership" (Some membership.(mem_id))
        (Some (JObj [("user_id", JStr (uuid_str membership.(mem_user_id)));
                     ("role", JStr membership.(mem_role))])) in
  delete_rows (del TMembership membership.(mem_id)).

(** ** router.py *)
Definition organization_create_scope (uid : uuid) : string :=
  "organization:create:" +:+ uuid_str uid.
Definition invitation_create_scope (organization_id uid : uuid) : string :=
  "invitation:create:" +:+ uuid_str organization_id +:+ ":" +:+ uuid_str uid.

(** A missing header fails the same length check as an empty one. *)
Definition create (token : string) (idempotency_key : string) (payload : OrganizationCreate)
  : M OrganizationResponse :=
  let! user := get_current_user token in
  if negb (idempotency_key_ok idempotency_key && OrganizationCreate_ok payload) then
    raise RequestValidationError
  else
  idempotent user.(user_id) None (organization_create_scope user.(user_id)) idempotency_key
    (canonical_request_hash (OrganizationCreate_dump payload))
    "Completed idempotency record is missing its response body"
    (let! o := create_organization user payload in
     ret (mkOrganizationResponse o.(org_id) o.(org_name) o.(org_slug) "owner"))
    OrganizationResponse_dump OrganizationResponse_validate.

(** [ORDER BY name] under the collation of the database. *)
Definition by_name (a b : OrganizationResponse) : Prop :=
  collate_le a.(or_name) b.(or_name) = true.
#[local] Instance by_name_dec : RelDecision by_name.
Proof. intros a b. unfold by_name. apply _. Defined.

Definition list_organizations (token : string) : M (list OrganizationResponse) :=
  let! user := get_current_user token in
  let! memberships := select TMembership (fun m => N.eqb m.(mem_user_id) user.(user_id)) in
  let! organizations := select TOrganization (fun _ => true) in
  ret (merge_sort by_name (
    m ← memberships;
    o ← filter (fun o : Organization => o.(org_id) = m.(mem_organization_id)) organizations;
    [mkOrganizationResponse o.(org_id) o.(org_name) o.(org_slug) m.(mem_role)])).

Definition create_invitation (token : string) (organization_id : uuid)
    (idempotency_key : string) (body : InviteMemberRequest) : M InvitationResponse :=
  let! context := require_permission MEMBERS_MANAGE token organization_id in
  match InviteMemberRequest_validate body, idempotency_key_ok idempotency_key with
  | Some payload, true =>
      let user := context.(ctx_user) in
      idempotent user.(user_id) (Some organization_id)
        (invitation_create_scope organization_id user.(user_id)) idempotency_key
        (canonical_request_hash (InviteMemberRequest_dump payload))
        "Completed invitation idempotency record is missing its response body"
        (let! i := invite_member organization_id user payload in
         lift (InvitationResponse_make i.(inv_id) i.(inv_email) i.(inv_role) i.(inv_status)))
        InvitationResponse_dump InvitationResponse_validate
  | _, _ => raise RequestValidationError
  end.

Definition accept_member_invitation (token : string) (raw_token : string)
  : M MembershipResponse :=
  let! user := get_current_user token in
  if negb (invitation_token_ok raw_token) then raise RequestValidationError else
  let! membership := accept_invitation user raw_token in
  lift (membership_response membership user).

(** [ORDER BY created_at, email]. *)
Definition member_order (a b : OrganizationMembership * User) : Prop :=
  (a.1.(mem_created_at) < b.1.(mem_created_at))%Z \/
  (a.1.(mem_created_at) = b.1.(mem_created_at) /\
   collate_le a.2.(user_email) b.2.(user_email) = true).
#[local] Instance member_order_dec : RelDecision member_order.
Proof. intros a b. unfold member_order. apply _. Defined.

Definition list_members (token : string) (organization_id : uuid)
  : M (list MembershipResponse) :=
  let! _ctx := require_permission MEMBERS_MANAGE token organization_id in
  let! memberships := select TMembership (fun m =>
    N.eqb m.(mem_organization_id) organization_id) in
  let! users := select TUser (fun _ => true) in
  let rows := merge_sort member_order (
    m ← memberships;
    u ← filter (fun u : User => u.(user_id) = m.(mem_user_id)) users;
    [(m, u)]) in
  lift (traverse (fun '(m, u) => membership_response m u) rows).

Definition change_member_role (token : string) (organization_id membership_id : uuid)
    (role : string) : M MembershipResponse :=
  let! context := require_permission MEMBERS_MANAGE token organization_id in
  if negb (invitable_role role) then raise RequestValidationError else
  let! membership :=
    update_membership_role organization_id membership_id context.(ctx_user) role in
  let! member := get TUser membership.(mem_user_id) in
  match member with
  | None => raise (RuntimeError "Membership references a missing user")
  | Some u => lift (membership_response membership u)
  end.

Definition delete_member (token : string) (organization_id membership_id : uuid) : M unit :=
  let! context := require_permission MEMBERS_MANAGE token organization_id in
  remove_membership organization_id membership_id context.(ctx_user).
End Organizations.
