(* ===== verification/Auth.v ===== *)
(** * Auth: modules/auth and infra/rate_limit.py

    Registration, the rate-limited password login, refresh-token rotation and logout. *)
From S2P Require Import Prelude Text Json Schema Config TokenBucket Session Metrics Permissions Security.
From S2P Require Import Access Projects.
#[local] Open Scope string_scope.

(** ** infra/rate_limit.py *)
Record RateLimitResult := mkRateLimitResult {
  allowed : bool;
  remaining : Z;
  retry_after : Z }.

Section RateLimit.
Context {E : Env}.

(** [redis.eval(RATE_LIMIT_LUA, 1, key, limit, window_seconds)]: the script runs atomically on
    the Redis clock, which has a resolution of one microsecond. *)
Definition redis_eval (key : string) (limit window_seconds : Z) : M LuaReply :=
  redis (
    let! ts := now in
    fun w =>
      let '(bucket, reply) :=
        rate_limit_lua float_round limit window_seconds (ts / 1000)%Z (w.(w_redis) !! key) in
      (Ok reply, {| w with w_redis := <[key := bucket]> w.(w_redis) |})).

Definition check_rate_limit (key : string) (limit window_seconds : Z) : M RateLimitResult :=
  if (limit <=? 0)%Z || (window_seconds <=? 0)%Z then
    raise (ValueError "Rate-limit capacity and window must be positive")
  else
  let! reply := redis_eval key limit window_seconds in
  ret {| allowed := negb (reply.(reply_allowed) =? 0)%Z;
         remaining := Z.max 0 reply.(reply_tokens);
         retry_after := Z.max 0 reply.(reply_retry_after) |}.
End RateLimit.

(** ** schemas.py *)

(** The body before [EmailStr] normalises the address. *)
Record RegisterRequest := mkRegisterRequest {
  rr_email : string;
  rr_password : string;
  rr_full_name : string }.

Record TokenPair := mkTokenPair {
  tp_access_token : string;
  tp_refresh_token : string;
  tp_token_type : string }.

Record UserResponse := mkUserResponse {
  ur_id : string;
  ur_email : string;
  ur_full_name : string }.

Section Auth.
Context {E : Env}.

Definition RegisterRequest_validate (p : RegisterRequest) : option RegisterRequest :=
  email ← validate_email p.(rr_email);
  if length_between 10 256 p.(rr_password) && length_between 2 160 p.(rr_full_name)
  then Some (mkRegisterRequest email p.(rr_password) p.(rr_full_name)) else None.

Definition user_response (u : User) : result UserResponse :=
  match validate_email u.(user_email) with
  | Some email => Ok (mkUserResponse (uuid_str u.(user_id)) email u.(user_full_name))
  | None => Err ValidationError
  end.

(** ** service.py *)
Definition register_user (payload : RegisterRequest) : M User :=
  let! existing := scalar TUser (fun u =>
    String.eqb u.(user_email) (lower payload.(rr_email))) in
  match existing with
  | Some _ =>
      raise (ConflictError "EMAIL_ALREADY_REGISTERED" "An account already uses this email")
  | None =>
      let! hash := hash_password payload.(rr_password) in
      let! id := uuid4 in
      let! created := now in
      let! updated := now in
      let user := {|
        user_id := id;
        user_email := lower payload.(rr_email);
        user_password_hash := hash;
        user_full_name := strip payload.(rr_full_name);
        user_is_active := true;
        user_created_at := created;
        user_updated_at := updated |} in
      do! add_flush TUser user in
      ret user
  end.

Definition authenticate (email password : string) : M User :=
  let! found := scalar TUser (fun u => String.eqb u.(user_email) (lower email)) in
  match found with
  | None => raise (AuthenticationError "Invalid email or password")
  | Some user =>
      if negb (verify_password password user.(user_password_hash)) then
        raise (AuthenticationError "Invalid email or password")
      else if negb user.(user_is_active) then
        raise (AuthenticationError "User account is disabled")
      else ret user
  end.

Definition issue_token_pair (user : User) (family_id : option uuid) : M TokenPair :=
  let! raw_refresh := new_refresh_token in
  let! ts := now in
  let! family := match family_id with Some f => ret f | None => uuid4 end in
  let! id := uuid4 in
  do! add_flush TRefreshToken {|
    rt_id := id;
    rt_user_id := user.(user_id);
    rt_token_hash := token_fingerprint raw_refresh;
    rt_family_id := family;
    rt_expires_at := (ts + days settings.(refresh_token_days))%Z;
    rt_revoked_at := None;
    rt_replaced_by_hash := None;
    rt_created_at := ts |} in
  let! access := create_access_token user.(user_id) in
  ret (mkTokenPair access raw_refresh "bearer").

(** Neither revoked nor expired. *)
Definition token_usable (ts : datetime) (t : RefreshToken) : bool :=
  negb (bool_decide (is_Some t.(rt_revoked_at)) || (t.(rt_expires_at) <=? ts)%Z).

Definition rotate_refresh_token (raw_token : string) : M TokenPair :=
  let fingerprint := token_fingerprint raw_token in
  let! found := scalar_for_update TRefreshToken (fun t => String.eqb t.(rt_token_hash) fingerprint) in
  let! ts := now in
  match found with
  | None => raise (AuthenticationError "Refresh token is invalid or expired")
  | Some token =>
      if negb (token_usable ts token) then
        raise (AuthenticationError "Refresh token is invalid or expired")
      else
      let! owner := get TUser token.(rt_user_id) in
      match owner with
      | None => raise (AuthenticationError "User account is unavailable")
      | Some user =>
          if negb user.(user_is_active) then
            raise (AuthenticationError "User account is unavailable")
          else
          let! pair := issue_token_pair user (Some token.(rt_family_id)) in
          do! flush_update TRefreshToken token
                {| token with rt_revoked_at := Some ts;
                   rt_replaced_by_hash := Some (token_fingerprint pair.(tp_refresh_token)) |} in
          ret pair
      end
  end.

Definition revoke_refresh_token (raw_token : string) : M unit :=
  let fingerprint := token_fingerprint raw_token in
  let! found := scalar_for_update TRefreshToken (fun t => String.eqb t.(rt_token_hash) fingerprint) in
  match found with
  | None => ret tt
  | Some token =>
      if bool_decide (is_Some token.(rt_revoked_at)) then ret tt
      else
      let! ts := now in
      do! flush_update TRefreshToken token {| token with rt_revoked_at := Some ts |} in
      ret tt
  end.

(** ** router.py *)
Definition login_key (client_ip : string) : string := "ratelimit:login:" +:+ client_ip.

Definition _issue_login_tokens (client : option string) (email password : string) : M TokenPair :=
  let client_ip := default "unknown" client in
  let! result := check_rate_limit (login_key client_ip) 10 60 in
  if negb result.(allowed) then
    do! log (Inc RATE_LIMIT_REJECTIONS.(m_name) ["login_ip"]) in
    raise (HTTPException 429 "Too many login attempts"
             [("Retry-After", pretty.pretty result.(retry_after))])
  else
  let! user := authenticate email password in
  issue_token_pair user None.

Definition register (body : RegisterRequest) : M UserResponse :=
  match RegisterRequest_validate body with
  | None => raise RequestValidationError
  | Some payload => let! user := register_user payload in lift (user_response user)
  end.

Definition login (client : option string) (email password : string) : M TokenPair :=
  match validate_email email with
  | None => raise RequestValidationError
  | Some email' => _issue_login_tokens client email' password
  end.

Definition oauth2_token (client : option string) (username password : string) : M TokenPair :=
  _issue_login_tokens client username password.

Definition refresh (refresh_token : string) : M TokenPair := rotate_refresh_token refresh_token.

Definition logout (refresh_token : string) : M unit := revoke_refresh_token refresh_token.

Definition me (token : string) : M UserResponse :=
  let! user := get_current_user token in
  lift (user_response user).
End Auth.
