(* ===== verification/Signing.v ===== *)
(** * Signing: modules/webhooks/signing.py

    The signature header of an outgoing webhook, "t=<unix time>,v1=<hex HMAC>", and its
    verification.  The HMAC itself is a function of the environment. *)
From S2P Require Import Prelude Text Json Schema Config TokenBucket Session.
From stdpp Require Import pretty.
#[local] Open Scope string_scope.

(** ** The string operations of the module *)

(** [s.split(c)]: never empty. *)
Fixpoint split_char (c : ascii) (s : string) : string * list string :=
  match s with
  | EmptyString => (EmptyString, [])
  | String a s' =>
      let '(hd, tl) := split_char c s' in
      if (a =? c)%char then (EmptyString, hd :: tl) else (String a hd, tl)
  end.
Definition split (c : ascii) (s : string) : list string :=
  let '(hd, tl) := split_char c s in hd :: tl.

(** [s.split(c, 1)] when [c] occurs in [s]. *)
Fixpoint split_once (c : ascii) (s : string) : option (string * string) :=
  match s with
  | EmptyString => None
  | String a s' =>
      if (a =? c)%char then Some (EmptyString, s')
      else match split_once c s' with Some (x, y) => Some (String a x, y) | None => None end
  end.

(** [s.split(sep, 1)[1]]; [None] is the IndexError. *)
Fixpoint after (sep s : string) : option string :=
  match drop_prefix sep s with
  | Some rest => Some rest
  | None => match s with EmptyString => None | String _ s' => after sep s' end
  end.

(** The digits of [int(s)]: single underscores may separate them. *)
Definition digit_val (c : ascii) : option N :=
  if (48 <=? code c)%N && (code c <=? 57)%N then Some (code c - 48)%N else None.
Fixpoint dec_digits (ok : bool) (acc : N) (s : string) : option N :=
  match s with
  | EmptyString => if ok then Some acc else None
  | String c s' =>
      match digit_val c with
      | Some d => dec_digits true (10 * acc + d) s'
      | None => if ok && (c =? "_")%char then dec_digits false acc s' else None
      end
  end.
Definition dec_literal (s : string) : option N := dec_digits false 0 s.

(** [int(s)]; [None] is the ValueError.  CPython refuses more than 4300 digits. *)
Definition int10 (s : string) : option Z :=
  let body := strip s in
  if (4300 <? String.length (erase "_" body))%nat then None else
  match body with
  | EmptyString => None
  | String c s' =>
      if (c =? "-")%char then Z.opp ∘ Z.of_N <$> dec_literal s'
      else if (c =? "+")%char then Z.of_N <$> dec_literal s'
      else Z.of_N <$> dec_literal body
  end.

Definition is_ascii (s : string) : bool :=
  forallb (fun c => (code c <? 128)%N) (list_ascii_of_string s).

(** [dict(pairs)[k]]: the last pair wins. *)
Definition dict_get (k : string) (pairs : list (string * string)) : option string :=
  list_find (fun p => p.1 = k) (reverse pairs) ≫= fun p => Some p.2.2.

Section Signing.
Context {E : Env}.

Definition signed_digest (secret payload : string) (ts : Z) : string :=
  hmac_sha256_hexdigest secret (pretty ts +:+ "." +:+ payload).

Definition signature_header (secret payload : string) (ts : Z) : string :=
  "t=" +:+ pretty ts +:+ ",v1=" +:+ signed_digest secret payload ts.

(** [timestamp or int(time.time())] *)
Definition create_signature (secret payload : string) (timestamp : option Z) : M string :=
  let! ts := match timestamp with
             | Some t => if (t =? 0)%Z then time_time else ret t
             | None => time_time
             end in
  ret (signature_header secret payload ts).

(** The body of the [try]: the timestamp and the supplied digest. *)
Definition parse_signature (header : string) : option (Z * string) :=
  pairs ← mapM (split_once "=") (split "," header);
  timestamp ← dict_get "t" pairs ≫= int10;
  supplied ← dict_get "v1" pairs;
  Some (timestamp, supplied).

Definition verify_signature (secret payload header : string) (tolerance_seconds : Z) : M bool :=
  match parse_signature header with
  | None => ret false
  | Some (timestamp, supplied) =>
      let! ts := time_time in
      if (tolerance_seconds <? Z.abs (ts - timestamp))%Z then ret false
      else
      let! signature := create_signature secret payload (Some timestamp) in
      match after "v1=" signature with
      | None => raise IndexError
      | Some expected =>
          (* hmac.compare_digest refuses non-ASCII text *)
          if is_ascii expected && is_ascii supplied then ret (String.eqb expected supplied)
          else raise TypeError
      end
  end.
End Signing.
