(* ===== verification/Email.v ===== *)
(** * Email: integrations/email.py

    The invitation e-mail.  Assigning a header refuses values of several lines; the SMTP server is
    the environment's [smtp_send]. *)
From S2P Require Import Prelude Text Json Schema Config TokenBucket Session.
#[local] Open Scope string_scope.

(** ** Lines of a string *)

(** The line boundaries of [str.splitlines] up to U+00FF. *)
Definition is_linebreak (c : ascii) : bool :=
  existsb (N.eqb (code c)) [10; 11; 12; 13; 28; 29; 30; 133]%N.

(** What follows the first line; a carriage return and a line feed are one boundary. *)
Fixpoint after_line (s : string) : string :=
  match s with
  | "" => ""
  | String c s' =>
      if is_linebreak c then
        match s' with
        | String d s'' => if (code c =? 13)%N && (code d =? 10)%N then s'' else s'
        | "" => ""
        end
      else after_line s'
  end.

(** [len(s.splitlines()) > 1] *)
Definition multiline (s : string) : bool := negb (String.eqb (after_line s) "").

(** ** The message *)
Definition nl : string := String (ascii_of_nat 10) "".

(** [message[name] = value] *)
Definition header_value (value : string) : result string :=
  if multiline value
  then Err (ValueError "Header values may not contain linefeed or carriage return characters")
  else Ok value.

Definition invitation_text (invitation_token : string) : string :=
  "You have been invited to join an organization in TenantFlow." +:+ nl +:+ nl +:+
  "Invitation token: " +:+ invitation_token +:+ nl +:+
  "This local-development message is captured by Mailpit.".

Section Email.
Context {E : Env}.

Definition send_invitation_email (to_email organization_name invitation_token : string) : M unit :=
  let! subject := lift (header_value ("Invitation to " +:+ organization_name)) in
  let! sender := lift (header_value settings.(mail_from)) in
  let! recipient := lift (header_value to_email) in
  let message := mkEmailMessage subject sender recipient (invitation_text invitation_token) in
  let! sent := read (fun t => smtp_send t settings.(mail_host) settings.(mail_port) message) in
  do! lift sent in
  log (SendEmail message).

(** A name of several lines cannot be a subject: nothing is sent. *)
Lemma multiline_subject_refused to_email organization_name token w :
  multiline ("Invitation to " +:+ organization_name) = true ->
  send_invitation_email to_email organization_name token w =
    (Err (ValueError "Header values may not contain linefeed or carriage return characters"), w).
Proof. intros H. unfold send_invitation_email, header_value. by rewrite H. Qed.
End Email.
