(* ===== verification/Webhooks.v ===== *)
(** * Webhooks: modules/webhooks

    Registration of webhook endpoints (event names, target validation, secrets), their
    deactivation, and the listing and manual retry of deliveries. *)
From S2P Require Import Prelude Text Json Base64 Schema Config TokenBucket Session Permissions Security.
From S2P Require Import Access AuditTrail Idempotency Events Projects.
#[local] Open Scope string_scope.

(** ** schemas.py *)
Definition SUPPORTED_EVENTS : list string :=
  ["project.created"; "project.updated"; "project.deleted"; "task.created"; "task.updated";
   "task.completed"; "task.deleted"; "member.invited"].

(** The body before [AnyHttpUrl] normalises the address. *)
Record WebhookCreate := mkWebhookCreate { wc_url : string; wc_events : list string }.

Record WebhookResponse := mkWebhookResponse {
  wr_id : uuid;
  wr_url : string;
  wr_events : list string;
  wr_is_active : bool;
  wr_signing_secret : option string }.

Section Webhooks.
Context {E : Env}.

Definition WebhookCreate_validate (p : WebhookCreate) : option WebhookCreate :=
  url ← any_http_url p.(wc_url);
  if (1 <=? List.length p.(wc_events))%nat && (List.length p.(wc_events) <=? 20)%nat
  then Some (mkWebhookCreate url p.(wc_events)) else None.

(** ** target_validation.py *)

(** [any(not _address_is_public(a) for a in resolved)] *)
Fixpoint any_private (addresses : list string) : result bool :=
  match addresses with
  | [] => Ok false
  | a :: rest =>
      match ip_is_global a with
      | None => Err (ValueError "not an IPv4 or IPv6 address")
      | Some false => Ok true
      | Some true => any_private rest
      end
  end.

(** The addresses a hostname resolves to. *)
Definition validate_resolved (host url : string) : M unit :=
  let! port := lift (url_port url) in
  let port := match port with
              | Some p => if (p =? 0)%Z
                          then if String.eqb (url_scheme url) "https" then 443%Z else 80%Z
                          else p
              | None => if String.eqb (url_scheme url) "https" then 443%Z else 80%Z
              end in
  let! addresses := read (fun t => getaddrinfo t host port) in
  match addresses with
  | None => raise (ValueError "Webhook target hostname could not be resolved")
  | Some l =>
      let resolved := remove_dups l in
      match resolved with
      | [] => raise (ValueError "Webhook target must resolve only to public IP addresses")
      | _ =>
          let! private := lift (any_private resolved) in
          if private : bool then
            raise (ValueError "Webhook target must resolve only to public IP addresses")
          else ret tt
      end
  end.

Definition validate_webhook_target (url : string) : M unit :=
  if settings.(webhook_allow_private_targets) then ret tt
  else match url_hostname url with
  | None | Some EmptyString => raise (ValueError "Webhook target must contain a hostname")
  | Some host =>
      match ip_is_global host with
      | Some false => raise (ValueError "Webhook target must resolve to a public IP address")
      | Some true => ret tt
      | None => validate_resolved host url
      end
  end.

(** ** service.py *)

(** [_fernet()], by its key. *)
Definition _fernet : string :=
  let secret := if String.eqb settings.(webhook_encryption_key) ""
                then settings.(jwt_secret) else settings.(webhook_encryption_key) in
  urlsafe_b64encode (fromhex (sha256_hexdigest (utf8 secret))).

Definition decrypt_signing_secret (value : string) : result string :=
  match fernet_decrypt _fernet value with
  | Some secret => Ok secret
  | None => Err InvalidToken
  end.

(** [set(payload.events) - SUPPORTED_EVENTS] *)
Definition unknown_events (events : list string) : list string :=
  filter (fun e => e ∉ SUPPORTED_EVENTS) events.

Definition create_webhook_endpoint (organization_id uid : uuid) (payload : WebhookCreate)
  : M (WebhookEndpoint * string) :=
  let unknown := unknown_events payload.(wc_events) in
  match unknown with
  | _ :: _ => raise (ValueError
      ("Unsupported events: " +:+ String.concat ", " (sorted_set unknown)))
  | [] =>
      do! validate_webhook_target payload.(wc_url) in
      let! random := token_urlsafe 32 in
      let secret := "whsec_" +:+ random in
      let! encrypted := read (fun t => fernet_encrypt _fernet t secret) in
      let! id := uuid4 in
      let! created := now in
      let! updated := now in
      let endpoint := {|
        ep_id := id;
        ep_organization_id := organization_id;
        ep_url := payload.(wc_url);
        ep_signing_secret_hash := sha256_hexdigest (utf8 secret);
        ep_signing_secret_encrypted := encrypted;
        ep_events := sorted_set payload.(wc_events);
        ep_is_active := true;
        ep_created_by := uid;
        ep_created_at := created;
        ep_updated_at := updated |} in
      do! add_flush TEndpoint endpoint in
      ret (endpoint, secret)
  end.

(** ** router.py; [WebhookDeliveryResponse] is the delivery without its payload. *)
Definition create_webhook (token : string) (organization_id : uuid) (body : WebhookCreate)
  : M WebhookResponse :=
  let! context := require_permission WEBHOOK_MANAGE token organization_id in
  match WebhookCreate_validate body with
  | None => raise RequestValidationError
  | Some payload =>
      let! created := try_except
        (let! created := create_webhook_endpoint organization_id context.(ctx_user).(user_id)
                           payload in
         do! record_audit organization_id (Some context.(ctx_user).(user_id)) "webhook.created"
               "webhook_endpoint" (Some created.1.(ep_id)) None in
         ret created)
        (fun e => match e with
                  | ValueError message => Some (raise (HTTPException 422 message []))
                  | _ => None
                  end) in
      let endpoint := created.1 in
      ret (mkWebhookResponse endpoint.(ep_id) endpoint.(ep_url) endpoint.(ep_events)
             endpoint.(ep_is_active) (Some created.2))
  end.

Definition list_webhooks (token : string) (organization_id : uuid) : M (list WebhookResponse) :=
  let! _ctx := require_permission WEBHOOK_MANAGE token organization_id in
  let! rows := select TEndpoint (fun e => N.eqb e.(ep_organization_id) organization_id) in
  ret ((fun x => mkWebhookResponse x.(ep_id) x.(ep_url) x.(ep_events) x.(ep_is_active) None)
         <$> merge_sort (desc_by ep_created_at) rows).

Definition deactivate_webhook (token : string) (organization_id endpoint_id : uuid) : M unit :=
  let! context := require_permission WEBHOOK_MANAGE token organization_id in
  let! found := scalar TEndpoint (fun e =>
    N.eqb e.(ep_id) endpoint_id && N.eqb e.(ep_organization_id) organization_id) in
  match found with
  | None =>
      raise (NotFoundError "WEBHOOK_ENDPOINT_NOT_FOUND" "Webhook endpoint was not found")
  | Some endpoint =>
      do! flush_update TEndpoint endpoint {| endpoint with ep_is_active := false |} in
      do! record_audit organization_id (Some context.(ctx_user).(user_id)) "webhook.deactivated"
            "webhook_endpoint" (Some endpoint.(ep_id)) None in
      ret tt
  end.

(** The deliveries of the organization's endpoints: the join of both queries. *)
Definition select_deliveries (organization_id : uuid) (p : WebhookDelivery -> bool)
  : M (list WebhookDelivery) :=
  let! deliveries := select TDelivery p in
  let! endpoints := select TEndpoint (fun e => N.eqb e.(ep_organization_id) organization_id) in
  ret (filter (fun d : WebhookDelivery =>
         existsb (fun e : WebhookEndpoint => N.eqb e.(ep_id) d.(dlv_endpoint_id)) endpoints = true)
         deliveries).

(** The response has no payload. *)
Record WebhookDeliveryResponse := mkWebhookDeliveryResponse {
  wdr_id : uuid;
  wdr_event_id : uuid;
  wdr_endpoint_id : uuid;
  wdr_event_type : string;
  wdr_state : string;
  wdr_attempt_count : Z;
  wdr_response_status : option Z;
  wdr_last_error : option string;
  wdr_next_retry_at : option datetime;
  wdr_created_at : datetime;
  wdr_updated_at : datetime }.

Definition delivery_response (delivery : WebhookDelivery) : WebhookDeliveryResponse := {|
  wdr_id := delivery.(dlv_id);
  wdr_event_id := delivery.(dlv_event_id);
  wdr_endpoint_id := delivery.(dlv_endpoint_id);
  wdr_event_type := delivery.(dlv_event_type);
  wdr_state := delivery.(dlv_state);
  wdr_attempt_count := delivery.(dlv_attempt_count);
  wdr_response_status := delivery.(dlv_response_status);
  wdr_last_error := delivery.(dlv_last_error);
  wdr_next_retry_at := delivery.(dlv_next_retry_at);
  wdr_created_at := delivery.(dlv_created_at);
  wdr_updated_at := delivery.(dlv_updated_at) |}.

Definition delivery_states : list string := ["pending"; "delivered"; "retrying"; "dead"].

Definition list_deliveries (token : string) (organization_id : uuid) (state : option string)
    (limit : Z) : M (list WebhookDeliveryResponse) :=
  let! _ctx := require_permission WEBHOOK_MANAGE token organization_id in
  if negb ((1 <=? limit)%Z && (limit <=? 200)%Z) then raise RequestValidationError else
  if negb (default true (one_of delivery_states <$> state)) then
    raise (HTTPException 422 "Unsupported delivery state" [])
  else
  let! rows := select_deliveries organization_id (fun d =>
    default true (String.eqb d.(dlv_state) <$> state)) in
  ret (delivery_response <$> take (Z.to_nat limit) (merge_sort (desc_by dlv_created_at) rows)).

(** The same join for one delivery, [.with_for_update()]. *)
Definition lock_delivery (organization_id delivery_id : uuid) : M (option WebhookDelivery) :=
  let! endpoints := select TEndpoint (fun e => N.eqb e.(ep_organization_id) organization_id) in
  scalar_for_update TDelivery (fun d =>
    N.eqb d.(dlv_id) delivery_id &&
    existsb (fun e : WebhookEndpoint => N.eqb e.(ep_id) d.(dlv_endpoint_id)) endpoints).

Definition retry_delivery (token : string) (organization_id delivery_id : uuid)
  : M WebhookDeliveryResponse :=
  let! context := require_permission WEBHOOK_MANAGE token organization_id in
  let! found := lock_delivery organization_id delivery_id in
  match found with
  | None =>
      raise (NotFoundError "WEBHOOK_DELIVERY_NOT_FOUND" "Webhook delivery was not found")
  | Some old =>
      let! endpoint := get TEndpoint old.(dlv_endpoint_id) in
      if negb (default false (ep_is_active <$> endpoint)) then
        raise (ConflictError "WEBHOOK_ENDPOINT_INACTIVE" "Webhook endpoint is inactive")
      else if String.eqb old.(dlv_state) "delivered" then
        raise (ConflictError "WEBHOOK_ALREADY_DELIVERED" "Delivered webhooks are not retried")
      else
      let! delivery := flush_update TDelivery old
        {| old with dlv_state := "retrying"; dlv_next_retry_at := None;
                    dlv_last_error := None |} in
      do! record_audit organization_id (Some context.(ctx_user).(user_id))
            "webhook.delivery_retried" "webhook_delivery" (Some delivery.(dlv_id)) None in
      do! delay deliver_webhook_task [uuid_str delivery.(dlv_id)] in
      ret (delivery_response delivery)
  end.
End Webhooks.
