(* ===== verification/Billing.v ===== *)
(** * Billing: modules/billing and integrations/stripe_client.py

    Subscriptions, Stripe Checkout and the customer portal, and the processing of Stripe events.
    Stripe's own answers are functions of the environment. *)
From S2P Require Import Prelude Text Json Schema Config TokenBucket Session Metrics Permissions Security.
From S2P Require Import Access AuditTrail Idempotency Events Projects Organizations.
#[local] Open Scope string_scope.

(** ** schemas.py *)
Record CheckoutRequest := mkCheckoutRequest {
  cr_plan : string;
  cr_success_url : string;
  cr_cancel_url : string }.
Definition CheckoutRequest_dump (p : CheckoutRequest) : json :=
  JObj [("plan", JStr p.(cr_plan)); ("success_url", JStr p.(cr_success_url));
        ("cancel_url", JStr p.(cr_cancel_url))].

Record CheckoutResponse := mkCheckoutResponse { co_session_id : string; co_checkout_url : string }.
Definition CheckoutResponse_dump (r : CheckoutResponse) : json :=
  JObj [("session_id", JStr r.(co_session_id)); ("checkout_url", JStr r.(co_checkout_url))].
Definition CheckoutResponse_validate (j : json) : result CheckoutResponse :=
  validated (
    session_id ← str_field "session_id" j;
    url ← str_field "checkout_url" j;
    Some (mkCheckoutResponse session_id url)).

Record PortalResponse := mkPortalResponse { po_session_id : string; po_portal_url : string }.

Record SubscriptionResponse := mkSubscriptionResponse {
  sr_plan : string;
  sr_status : string;
  sr_current_period_end : option datetime }.

(** ** Reading a Stripe event

    [d[k]] and [d.get(k)] with the exceptions of Python, and [x or y]. *)
Definition item (k : string) (j : json) : result json :=
  match j with
  | JObj kvs => match assoc k kvs with Some v => Ok v | None => Err (KeyError k) end
  | _ => Err TypeError
  end.
Definition dot_get (k : string) (j : json) : result json :=
  match json_get k j with Some v => Ok v | None => Err AttributeError end.
Definition py_or (a b : json) : json := if truthy a then a else b.

(** [dict(x)] of a JSON object; Stripe's [data.object] is always one. *)
Definition as_dict (j : json) : result json :=
  match j with JObj _ => Ok j | _ => Err TypeError end.

(** [items[0]] of a truthy value. *)
Definition first_item (j : json) : result json :=
  match j with
  | JArr (x :: _) => Ok x
  | JStr (String c _) => Ok (JStr (String c EmptyString))
  | JObj _ => Err (KeyError "0")
  | _ => Err TypeError
  end.

(** [datetime.fromtimestamp(n, tz=UTC)]: the years 1 to 9999. *)
Definition fromtimestamp (n : Z) : result datetime :=
  if (-62135596800 <=? n)%Z && (n <? 253402300800)%Z then Ok (seconds n)
  else Err (ValueError "year is out of range").

(** Sequencing of results that raise. *)
Definition result_bind {A B} (r : result A) (f : A -> result B) : result B :=
  match r with Ok a => f a | Err e => Err e end.
#[local] Notation "'try!' x := r 'in' k" := (result_bind r (fun x => k))
  (at level 10, x name, r at level 200, k at level 200).

Definition ALLOWED_STRIPE_SUBSCRIPTION_STATES : list (string * string) :=
  [("trialing", "trialing"); ("active", "active"); ("past_due", "past_due");
   ("unpaid", "past_due"); ("paused", "inactive"); ("incomplete", "inactive");
   ("incomplete_expired", "inactive"); ("canceled", "cancelled")].

Definition subscription_state (raw_status : string) : string :=
  default "inactive" ((list_to_map ALLOWED_STRIPE_SUBSCRIPTION_STATES : gmap string string) !! raw_status).

(** [str(obj.get(k)) if obj.get(k) else None] *)
Definition str_or_none (k : string) (obj : json) : result (option string) :=
  try! raw := dot_get k obj in
  Ok (if truthy raw then Some (py_str raw) else None).

Definition _extract_customer_id (obj : json) : result (option string) := str_or_none "customer" obj.

(** [((obj.get("items") or {}).get("data") or [])], then [(items[0].get("price") or {}).get("id")] *)
Definition event_price_id (obj : json) : result json :=
  try! items0 := dot_get "items" obj in
  try! data := dot_get "data" (py_or items0 (JObj [])) in
  let items := py_or data (JArr []) in
  if truthy items then
    try! first := first_item items in
    try! price := dot_get "price" first in
    dot_get "id" (py_or price (JObj []))
  else Ok JNull.

(** [isinstance(period_end, (int, float))]; a bool is an int. *)
Definition event_period_end (obj : json) (old : option datetime) : result (option datetime) :=
  try! period_end := dot_get "current_period_end" obj in
  match period_end with
  | JInt n => try! d := fromtimestamp n in Ok (Some d)
  | JBool b => try! d := fromtimestamp (if b then 1 else 0) in Ok (Some d)
  | _ => Ok old
  end.

Section Billing.
Context {E : Env}.

(** ** service.py *)
Definition get_or_create_subscription (organization_id : uuid) : M Subscription :=
  let! found := scalar TSubscription (fun s => N.eqb s.(sub_organization_id) organization_id) in
  match found with
  | Some subscription => ret subscription
  | None =>
      let! id := uuid4 in
      let! created := now in
      let! updated := now in
      let subscription := {|
        sub_id := id;
        sub_organization_id := organization_id;
        sub_plan := "free";
        sub_status := "inactive";
        sub_stripe_customer_id := None;
        sub_stripe_subscription_id := None;
        sub_current_period_end := None;
        sub_created_at := created;
        sub_updated_at := updated |} in
      do! add_flush TSubscription subscription in
      ret subscription
  end.

(** [if customer_id:] *)
Definition non_empty (s : option string) : option string :=
  match s with Some EmptyString => None | _ => s end.

Definition create_checkout_session (organization_id : uuid) (customer_id : option string)
    (price_id success_url cancel_url idempotency_key : string) : M (string * string) :=
  let params := {|
    cp_price := price_id;
    cp_success_url := success_url;
    cp_cancel_url := cancel_url;
    cp_client_reference_id := uuid_str organization_id;
    cp_organization_id := uuid_str organization_id;
    cp_customer := non_empty customer_id;
    cp_idempotency_key := idempotency_key |} in
  let! answer := read (fun t => stripe_checkout t params) in
  do! log (StripeCheckout params) in
  let! session := lift answer in
  match non_empty session.2 with
  | None => raise (RuntimeError "Stripe Checkout Session did not return a hosted URL")
  | Some url => ret (session.1, url)
  end.

Definition create_portal_session (customer_id return_url : string) : M (string * string) :=
  let! answer := read (fun t => stripe_portal t customer_id return_url) in
  do! log (StripePortal customer_id return_url) in
  lift answer.

Definition create_billing_checkout (organization_id : uuid)
    (plan success_url cancel_url idempotency_key : string) : M (string * string) :=
  if String.eqb settings.(stripe_secret_key) "" then
    raise (ConflictError "STRIPE_NOT_CONFIGURED" "Stripe test mode is not configured")
  else
  let price_id := if String.eqb plan "pro" then settings.(stripe_price_pro)
                  else settings.(stripe_price_business) in
  if String.eqb price_id "" then
    raise (ConflictError "STRIPE_PRICE_NOT_CONFIGURED"
      ("Stripe price for plan '" +:+ plan +:+ "' is not configured"))
  else
  let! subscription := get_or_create_subscription organization_id in
  create_checkout_session organization_id subscription.(sub_stripe_customer_id) price_id
    success_url cancel_url idempotency_key.

Definition _resolve_organization_id (obj : json) : M (option uuid) :=
  let! metadata := lift (dot_get "metadata" obj) in
  let! from_metadata := lift (dot_get "organization_id" (py_or metadata (JObj []))) in
  let! reference := lift (dot_get "client_reference_id" obj) in
  let org_id_raw := py_or from_metadata reference in
  if truthy org_id_raw then
    match uuid_parse (py_str org_id_raw) with
    | Some u => ret (Some u)
    | None => raise (ValueError "badly formed hexadecimal UUID string")
    end
  else
    let! customer := lift (_extract_customer_id obj) in
    match customer with
    | None => ret None
    | Some customer_id =>
        let! found := scalar TSubscription (fun s =>
          bool_decide (s.(sub_stripe_customer_id) = Some customer_id)) in
        ret (sub_organization_id <$> found)
    end.

(** The assignments to the subscription. *)
Definition subscription_event (event_type : string) (obj : json) (s : Subscription)
  : result Subscription :=
  try! stripe_id := str_or_none "id" obj in
  try! customer := _extract_customer_id obj in
  let raw_status := py_str (get_default "status" (JStr "inactive") obj) in
  try! price_id := event_price_id obj in
  try! period_end := event_period_end obj s.(sub_current_period_end) in
  Ok {| s with
    sub_stripe_subscription_id := stripe_id;
    sub_stripe_customer_id := customer;
    sub_status := if String.eqb event_type "customer.subscription.deleted" then "cancelled"
                  else subscription_state raw_status;
    sub_plan := if bool_decide (price_id = JStr settings.(stripe_price_pro)) then "pro"
                else if bool_decide (price_id = JStr settings.(stripe_price_business)) then "business"
                else s.(sub_plan);
    sub_current_period_end := period_end |}.

Definition apply_stripe_event (event_type : string) (obj : json) (s : Subscription)
  : result Subscription :=
  if String.eqb event_type "checkout.session.completed" then
    try! customer := _extract_customer_id obj in
    Ok {| s with sub_stripe_customer_id := customer; sub_status := "active" |}
  else if String.prefix "customer.subscription." event_type then subscription_event event_type obj s
  else if String.eqb event_type "invoice.payment_failed" then
    Ok {| s with sub_status := "past_due" |}
  else Ok s.

(** index_elements=["stripe_event_id"] *)
Definition same_stripe_event (r r' : StripeEvent) : bool :=
  String.eqb r.(sev_stripe_event_id) r'.(sev_stripe_event_id).

(** The block under [if organization_id is not None]. *)
Definition update_subscription (organization_id : uuid) (event_type event_id : string)
    (marker : uuid) (obj : json) : M unit :=
  let! subscription := get_or_create_subscription organization_id in
  let! new := lift (apply_stripe_event event_type obj subscription) in
  do! flush_update TSubscription subscription new in
  do! record_audit organization_id None "billing.stripe_event_processed" "stripe_event"
        (Some marker)
        (Some (JObj [("stripe_event_id", JStr event_id); ("event_type", JStr event_type)])) in
  ret tt.

Definition process_stripe_event (event : json) : M bool :=
  let! event_id := lift (item "id" event) in
  let! event_type := lift (item "type" event) in
  let event_id := py_str event_id in
  let event_type := py_str event_type in
  let! ts := now in
  let! id := uuid4 in
  let! inserted := insert_on_conflict_do_nothing TStripeEvent same_stripe_event {|
    sev_id := id;
    sev_stripe_event_id := event_id;
    sev_event_type := event_type;
    sev_processed_at := ts |} in
  match inserted with
  | None => do! log (Inc STRIPE_WEBHOOK_EVENTS.(m_name) ["duplicate"]) in ret false
  | Some marker =>
      let! data := lift (item "data" event) in
      let! object := lift (item "object" data) in
      let! obj := lift (as_dict object) in
      let! organization_id := _resolve_organization_id obj in
      do! match organization_id with
          | None => ret tt
          | Some org => update_subscription org event_type event_id marker obj
          end in
      do! log (Inc STRIPE_WEBHOOK_EVENTS.(m_name) ["processed"]) in
      ret true
  end.

Definition create_billing_portal (organization_id : uuid) (return_url : string)
  : M (string * string) :=
  if String.eqb settings.(stripe_secret_key) "" then
    raise (ConflictError "STRIPE_NOT_CONFIGURED" "Stripe test mode is not configured")
  else
  let! subscription := get_or_create_subscription organization_id in
  match non_empty subscription.(sub_stripe_customer_id) with
  | None => raise (ConflictError "STRIPE_CUSTOMER_UNAVAILABLE"
              "Complete a Stripe Checkout session before opening the customer portal")
  | Some customer_id => create_portal_session customer_id return_url
  end.

(** ** router.py *)
Definition CheckoutRequest_validate (p : CheckoutRequest) : option CheckoutRequest :=
  success ← http_url p.(cr_success_url);
  cancel ← http_url p.(cr_cancel_url);
  if one_of ["pro"; "business"] p.(cr_plan)
  then Some (mkCheckoutRequest p.(cr_plan) success cancel) else None.

Definition checkout_scope (organization_id uid : uuid) : string :=
  "billing:checkout:" +:+ uuid_str organization_id +:+ ":" +:+ uuid_str uid.

Definition subscription_status (token : string) (organization_id : uuid)
  : M SubscriptionResponse :=
  let! _ctx := require_permission BILLING_MANAGE token organization_id in
  let! s := get_or_create_subscription organization_id in
  ret (mkSubscriptionResponse s.(sub_plan) s.(sub_status) s.(sub_current_period_end)).

Definition checkout (token : string) (organization_id : uuid) (idempotency_key : string)
    (body : CheckoutRequest) : M CheckoutResponse :=
  let! context := require_permission BILLING_MANAGE token organization_id in
  match CheckoutRequest_validate body, idempotency_key_ok idempotency_key with
  | Some payload, true =>
      let uid := context.(ctx_user).(user_id) in
      idempotent uid (Some organization_id) (checkout_scope organization_id uid) idempotency_key
        (canonical_request_hash (CheckoutRequest_dump payload))
        "Completed billing idempotency record is missing its response body"
        (let! s := create_billing_checkout organization_id payload.(cr_plan)
                     payload.(cr_success_url) payload.(cr_cancel_url) idempotency_key in
         ret (mkCheckoutResponse s.1 s.2))
        CheckoutResponse_dump CheckoutResponse_validate
  | _, _ => raise RequestValidationError
  end.

Definition portal (token : string) (organization_id : uuid) (return_url : string)
  : M PortalResponse :=
  let! _ctx := require_permission BILLING_MANAGE token organization_id in
  match http_url return_url with
  | None => raise RequestValidationError
  | Some url =>
      let! s := create_billing_portal organization_id url in
      ret (mkPortalResponse s.1 s.2)
  end.

(** [client.construct_event] checks the signature and compares its timestamp with the clock. *)
Definition construct_webhook_event (payload signature : string) : M json :=
  let! ts := now in
  match stripe_construct_event ts payload signature settings.(stripe_webhook_secret) with
  | Some event => ret event
  | None => raise StripeWebhookVerificationError
  end.

(** The endpoint has no caller identity: Stripe's signature is the authentication. *)
Definition stripe_webhook (payload : string) (stripe_signature : option string) : M unit :=
  match stripe_signature with
  | None => raise RequestValidationError
  | Some signature =>
      let! event := try_except (construct_webhook_event payload signature)
        (fun e => match e with
                  | StripeWebhookVerificationError =>
                      Some (raise (HTTPException 400 "Invalid Stripe webhook" []))
                  | _ => None
                  end) in
      do! process_stripe_event event in
      ret tt
  end.

(** What the environment verified is what is processed. *)
Lemma stripe_webhook_Ok payload stripe_signature u w w' :
  stripe_webhook payload stripe_signature w = (Ok u, w') ->
  exists signature event b, stripe_signature = Some signature /\
    stripe_construct_event (clock w.(w_tick)) payload signature (stripe_webhook_secret settings)
      = Some event /\
    process_stripe_event event (ticked w) = (Ok b, w').
Proof.
  unfold stripe_webhook. intros H. destruct stripe_signature as [s|]; [|by apply raise_Ok in H].
  apply bind_Ok in H as (event & w1 & Hev & H).
  apply bind_Ok in H as (b & w2 & Hp & [-> ->]%ret_Ok). exists s, event, b. split; [done|].
  apply try_except_Ok in Hev as [Hev|(e & w3 & m' & _ & Hh & Hev)].
  - apply bind_Ok in Hev as (ts & w3 & [-> ->]%read_Ok & Hev). cbn beta in Hev.
    destruct (stripe_construct_event _ _ _ _) as [ev|]; [|by apply raise_Ok in Hev].
    apply ret_Ok in Hev as [-> ->]. done.
  - destruct e; simplify_eq; by apply raise_Ok in Hev.
Qed.

Lemma stripe_webhook_run payload signature event b w w' :
  stripe_construct_event (clock w.(w_tick)) payload signature (stripe_webhook_secret settings)
    = Some event ->
  process_stripe_event event (ticked w) = (Ok b, w') ->
  stripe_webhook payload (Some signature) w = (Ok tt, w').
Proof.
  intros Hev Hp. unfold stripe_webhook.
  rewrite (bind_run _ _ _ event (ticked w)); [by rewrite (bind_run _ _ _ _ _ Hp)|].
  unfold try_except, construct_webhook_event.
  rewrite (bind_run _ _ _ (clock (w_tick w)) (ticked w)) by reflexivity. cbv beta. by rewrite Hev.
Qed.

(** A signature that is not accepted, because it is forged or too old. *)
Lemma stripe_webhook_refused payload signature w :
  stripe_construct_event (clock w.(w_tick)) payload signature (stripe_webhook_secret settings) = None ->
  stripe_webhook payload (Some signature) w =
    (Err (HTTPException 400 "Invalid Stripe webhook" []), ticked w).
Proof.
  intros Hev. unfold stripe_webhook. apply bind_fail. unfold try_except, construct_webhook_event.
  rewrite (bind_run _ _ _ (clock (w_tick w)) (ticked w)) by reflexivity. cbv beta. by rewrite Hev.
Qed.
End Billing.
