(* ===== verification/Files.v ===== *)
(** * Files: modules/files and integrations/storage.py

    Upload and download URLs: validation of the upload, the object key under the organization's
    prefix, and the attachment row.  URL signing is boto3's, a function of the environment. *)
From S2P Require Import Prelude Text Json Schema Config TokenBucket Session Permissions Security.
From S2P Require Import Access Projects.
#[local] Open Scope string_scope.

(** ** integrations/storage.py *)
Definition ALLOWED_CONTENT_TYPES : list string :=
  ["application/pdf"; "image/jpeg"; "image/png"; "text/plain"; "text/csv"].
Definition MAX_FILE_SIZE : Z := 20 * 1024 * 1024.

Definition validate_upload (content_type : string) (size_bytes : Z) : result unit :=
  if negb (one_of ALLOWED_CONTENT_TYPES content_type) then Err (ValueError "Unsupported content type")
  else if (size_bytes <=? 0)%Z || (MAX_FILE_SIZE <? size_bytes)%Z then
    Err (ValueError "File size is outside the allowed range")
  else Ok tt.

(** [c.isalnum()] on Latin-1. *)
Definition is_alnum (c : ascii) : bool :=
  let n := code c in
  let between a b := (a <=? n)%N && (n <=? b)%N in
  (between 48 57 || between 65 90 || between 97 122 || (n =? 170) || between 178 179 || (n =? 181)
  || between 185 186 || between 188 190 || between 192 214 || between 216 246 || between 248 255)%N.

(** [s.rsplit(".", 1)[-1]] when a dot occurs in [s]. *)
Fixpoint after_last_dot (s : string) : option string :=
  match s with
  | EmptyString => None
  | String c s' =>
      match after_last_dot s' with
      | Some r => Some r
      | None => if (c =? ".")%char then Some s' else None
      end
  end.

Definition safe_suffix (filename : string) : string :=
  let suffix := match after_last_dot filename with Some s => lower s | None => "bin" end in
  if negb (negb (String.eqb suffix "") && forallb is_alnum (list_ascii_of_string suffix))
     || (10 <? String.length suffix)%nat then "bin" else suffix.

Definition object_key (organization_id id : uuid) (filename : string) : string :=
  "organizations/" +:+ uuid_str organization_id +:+ "/" +:+ uuid_str id +:+ "."
  +:+ safe_suffix filename.

(** ** schemas.py *)
Record PresignUploadRequest := mkPresignUploadRequest {
  pr_filename : string;
  pr_content_type : string;
  pr_size_bytes : Z;
  pr_project_id : option uuid;
  pr_task_id : option uuid }.

(** The field constraints and [require_exactly_one_parent]. *)
Definition PresignUploadRequest_ok (p : PresignUploadRequest) : bool :=
  length_between 1 255 p.(pr_filename) && length_between 3 160 p.(pr_content_type)
  && (0 <? p.(pr_size_bytes))%Z
  && negb (Bool.eqb (bool_decide (p.(pr_project_id) = None)) (bool_decide (p.(pr_task_id) = None))).

Record PresignUploadResponse := mkPresignUploadResponse {
  pur_attachment_id : uuid;
  pur_object_key : string;
  pur_upload_url : string;
  pur_expires_in : Z }.

Record DownloadResponse := mkDownloadResponse { dr_download_url : string; dr_expires_in : Z }.

Section Files.
Context {E : Env}.

Definition build_object_key (organization_id : uuid) (filename : string) : M string :=
  let! id := uuid4 in
  ret (object_key organization_id id filename).

(** [endpoint_url=settings.minio_public_endpoint or settings.minio_endpoint] *)
Definition public_endpoint : string :=
  match settings.(minio_public_endpoint) with
  | None | Some EmptyString => settings.(minio_endpoint)
  | Some e => e
  end.

Definition presign_put (key content_type : string) (expires_seconds : Z) : string :=
  generate_presigned_url public_endpoint "put_object"
    [("Bucket", settings.(minio_bucket)); ("Key", key); ("ContentType", content_type)]
    expires_seconds.

Definition presign_get (key : string) (expires_seconds : Z) : string :=
  generate_presigned_url public_endpoint "get_object"
    [("Bucket", settings.(minio_bucket)); ("Key", key)] expires_seconds.

(** ** router.py *)
Definition require_project (organization_id : uuid) (id : option uuid) : M unit :=
  match id with
  | None => ret tt
  | Some pid =>
      let! found := scalar TProject (fun p =>
        N.eqb p.(prj_id) pid && N.eqb p.(prj_organization_id) organization_id) in
      match found with
      | None => raise (NotFoundError "PROJECT_NOT_FOUND" "Project was not found")
      | Some _ => ret tt
      end
  end.

Definition require_task (organization_id : uuid) (id : option uuid) : M unit :=
  match id with
  | None => ret tt
  | Some tid =>
      let! found := scalar TTask (fun k =>
        N.eqb k.(task_id) tid && N.eqb k.(task_organization_id) organization_id) in
      match found with
      | None => raise (NotFoundError "TASK_NOT_FOUND" "Task was not found")
      | Some _ => ret tt
      end
  end.

Definition create_upload (token : string) (organization_id : uuid)
    (payload : PresignUploadRequest) : M PresignUploadResponse :=
  let! context := require_permission PROJECT_WRITE token organization_id in
  if negb (PresignUploadRequest_ok payload) then raise RequestValidationError else
  do! try_except (lift (validate_upload payload.(pr_content_type) payload.(pr_size_bytes)))
        (fun e => match e with
                  | ValueError message => Some (raise (HTTPException 422 message []))
                  | _ => None
                  end) in
  do! require_project organization_id payload.(pr_project_id) in
  do! require_task organization_id payload.(pr_task_id) in
  let! key := build_object_key organization_id payload.(pr_filename) in
  let! id := uuid4 in
  let! created := now in
  let! updated := now in
  let attachment := {|
    att_id := id;
    att_organization_id := organization_id;
    att_project_id := payload.(pr_project_id);
    att_task_id := payload.(pr_task_id);
    att_object_key := key;
    att_original_filename := payload.(pr_filename);
    att_content_type := payload.(pr_content_type);
    att_size_bytes := payload.(pr_size_bytes);
    att_created_by := context.(ctx_user).(user_id);
    att_created_at := created;
    att_updated_at := updated |} in
  do! add_flush TAttachment attachment in
  ret (mkPresignUploadResponse attachment.(att_id) key
         (presign_put key payload.(pr_content_type) 900) 900).

Definition get_download (token : string) (organization_id attachment_id : uuid)
  : M DownloadResponse :=
  let! _ctx := require_permission PROJECT_READ token organization_id in
  let! found := scalar TAttachment (fun a =>
    N.eqb a.(att_id) attachment_id && N.eqb a.(att_organization_id) organization_id) in
  match found with
  | None => raise (NotFoundError "ATTACHMENT_NOT_FOUND" "Attachment was not found")
  | Some a => ret (mkDownloadResponse (presign_get a.(att_object_key) 900) 900)
  end.
End Files.
