(* ===== verification/Worker.v ===== *)
(** * Worker: workers/tasks.py

    The three Celery tasks.  A task run owns its transactions: each [async with session.begin()]
    block is one [get_session] over the world that the previous blocks and the outside left. *)
From S2P Require Import Prelude Text Json Schema Config TokenBucket Session Events Signing.
From S2P Require Import Email Webhooks Metrics.
#[local] Open Scope string_scope.

Section Worker.
Context {E : Env}.

(** [raise self.retry(exc=exc, countdown=min(300, 2 ** retries * 5))] with [max_retries]: the
    task is published again and Retry is raised, or [exc] itself when the retries are used up. *)
Definition self_retry (task : string) (args : list string) (retries max_retries countdown : Z)
    (exc : exn) : M unit :=
  if (max_retries <=? retries)%Z then raise exc
  else do! log (RetryTask task args countdown) in raise Retry.

Definition backoff (retries : Z) : Z := Z.min 300 (2 ^ retries * 5).

Definition parse_id (s : string) : result uuid :=
  match uuid_parse s with
  | Some u => Ok u
  | None => Err (ValueError "badly formed hexadecimal UUID string")
  end.

(** ** send_invitation_task *)
Definition run_invitation (invitation_id raw_token : string) : M string :=
  let! id := lift (parse_id invitation_id) in
  let! found := get TInvitation id in
  match found with
  | None => raise (RuntimeError "Invitation is not committed yet")
  | Some invitation =>
      if negb (String.eqb invitation.(inv_status) "pending") then ret "skipped" else
      let! organization := get TOrganization invitation.(inv_organization_id) in
      match organization with
      | None => ret "skipped"
      | Some o =>
          do! send_invitation_email invitation.(inv_email) o.(org_name) raw_token in
          ret "success"
      end
  end.

Definition send_invitation (retries : Z) (invitation_id raw_token : string) : M unit :=
  try_except
    (let! outcome := run_invitation invitation_id raw_token in
     record_background_job "invitation_email" outcome)
    (fun e => match e with
              | OSError | RuntimeError _ | SMTPException => Some (
                  do! record_background_job "invitation_email" "retry" in
                  self_retry send_invitation_task [invitation_id; raw_token] retries 5
                    (backoff retries) e)
              | _ => None
              end).

(** ** deliver_webhook_task *)

(** How the first transaction ends: with an outcome, or with a claimed attempt and the delivery
    object that the session keeps (expire_on_commit=False). *)
Inductive claim :=
  | Outcome (outcome : string)
  | Attempt (delivery : WebhookDelivery) (url body : string) (headers : list (string * string)).

Definition mark_dead (delivery : WebhookDelivery) (error : option string) : M claim :=
  do! record_webhook_delivery "dead" in
  do! record_background_job "webhook_delivery" "dead" in
  do! flush_update TDelivery delivery
        {| delivery with dlv_state := "dead"; dlv_last_error := error |} in
  ret (Outcome "dead").

(** [validate_webhook_target] under the [except ValueError]. *)
Definition target_error (url : string) : M (option string) :=
  try_except (do! validate_webhook_target url in ret None)
    (fun e => match e with ValueError message => Some (ret (Some message)) | _ => None end).

Definition claim_delivery (delivery_id : string) : M claim :=
  let! id := lift (parse_id delivery_id) in
  let! found := scalar_for_update TDelivery (fun d => N.eqb d.(dlv_id) id) in
  match found with
  | None => raise (RuntimeError "Webhook delivery is not committed yet")
  | Some delivery =>
      if one_of ["delivered"; "dead"] delivery.(dlv_state) then ret (Outcome "skipped") else
      let! found_endpoint := get TEndpoint delivery.(dlv_endpoint_id) in
      match found_endpoint with
      | None => mark_dead delivery delivery.(dlv_last_error)
      | Some endpoint =>
          if negb endpoint.(ep_is_active) then mark_dead delivery delivery.(dlv_last_error) else
          let! error := target_error endpoint.(ep_url) in
          match error with
          | Some message => mark_dead delivery (Some message)
          | None =>
              let! secret := lift (decrypt_signing_secret endpoint.(ep_signing_secret_encrypted)) in
              let body := canonical_payload delivery.(dlv_payload) in
              let! signature := create_signature secret body None in
              let headers :=
                [("Content-Type", "application/json");
                 ("X-TenantFlow-Signature", signature);
                 ("X-TenantFlow-Event", delivery.(dlv_event_type));
                 ("X-TenantFlow-Event-ID", uuid_str delivery.(dlv_event_id))] in
              let! delivery := flush_update TDelivery delivery
                    {| delivery with dlv_attempt_count := (delivery.(dlv_attempt_count) + 1)%Z |} in
              ret (Attempt delivery endpoint.(ep_url) body headers)
          end
      end
  end.

Definition post (url body : string) (headers : list (string * string)) : M http_outcome :=
  let! outcome := read (fun t => http_post t url body headers) in
  do! log (HttpPost url body headers) in
  ret outcome.

(** [session.get(..., with_for_update=True)] locks the row, but the session already holds the object:
    it keeps the values of its claim (no populate_existing), and the UPDATE of the flush sets
    the columns in which the assigned object [new] differs from the object [held], in the
    row [current]. *)
Definition changed_column {A} `{EqDecision A} (held new current : A) : A :=
  if decide (held = new) then current else new.

Definition set_changed (held new current : WebhookDelivery) : WebhookDelivery :=
  {| dlv_id := current.(dlv_id);
     dlv_event_id := changed_column held.(dlv_event_id) new.(dlv_event_id) current.(dlv_event_id);
     dlv_endpoint_id := changed_column held.(dlv_endpoint_id) new.(dlv_endpoint_id) current.(dlv_endpoint_id);
     dlv_event_type := changed_column held.(dlv_event_type) new.(dlv_event_type) current.(dlv_event_type);
     dlv_payload := changed_column held.(dlv_payload) new.(dlv_payload) current.(dlv_payload);
     dlv_state := changed_column held.(dlv_state) new.(dlv_state) current.(dlv_state);
     dlv_attempt_count := changed_column held.(dlv_attempt_count) new.(dlv_attempt_count) current.(dlv_attempt_count);
     dlv_response_status := changed_column held.(dlv_response_status) new.(dlv_response_status) current.(dlv_response_status);
     dlv_last_error := changed_column held.(dlv_last_error) new.(dlv_last_error) current.(dlv_last_error);
     dlv_next_retry_at := changed_column held.(dlv_next_retry_at) new.(dlv_next_retry_at) current.(dlv_next_retry_at);
     dlv_created_at := changed_column held.(dlv_created_at) new.(dlv_created_at) current.(dlv_created_at);
     dlv_updated_at := changed_column held.(dlv_updated_at) new.(dlv_updated_at) current.(dlv_updated_at) |}.

Definition flush_held (held new current : WebhookDelivery) : M unit :=
  if decide (held = new) then ret tt
  else do! flush_update TDelivery held (set_changed held new current) in ret tt.

(** The transaction of the [except httpx.HTTPError]; [current] is the object of the claim. *)
Definition fail_delivery (current : WebhookDelivery) (delivery_id message : string) : M string :=
  let! id := lift (parse_id delivery_id) in
  let! found := get_for_update TDelivery id in
  match found with
  | None => ret "skipped"
  | Some stored =>
      let error := Some (substring 0 2000 message) in
      if (5 <=? current.(dlv_attempt_count))%Z then
        do! flush_held current
              {| current with dlv_last_error := error; dlv_state := "dead" |} stored in
        ret "dead"
      else
        let! ts := now in
        do! flush_held current
              {| current with dlv_last_error := error; dlv_state := "retrying";
                 dlv_next_retry_at :=
                   Some (ts + seconds (2 ^ current.(dlv_attempt_count) * 5))%Z |} stored in
        ret "retry"
  end.

(** The transaction of the [else]. *)
Definition succeed_delivery (current : WebhookDelivery) (delivery_id : string) (status_code : Z)
  : M unit :=
  let! id := lift (parse_id delivery_id) in
  let! found := get_for_update TDelivery id in
  match found with
  | None => ret tt
  | Some stored =>
      flush_held current
        {| current with dlv_state := "delivered"; dlv_response_status := Some status_code;
           dlv_last_error := None; dlv_next_retry_at := None |} stored
  end.

(** What follows the claim: the request, and the transaction that records its outcome. *)
Definition settle (delivery_id : string) (claimed : claim) : M string :=
  match claimed with
  | Outcome outcome => ret outcome
  | Attempt delivery url body headers =>
      let! response := post url body headers in
      match response with
      | HttpError message =>
          let! outcome := get_session (fail_delivery delivery delivery_id message) in
          if String.eqb outcome "skipped" then ret "skipped" else
          do! record_webhook_delivery outcome in
          do! record_background_job "webhook_delivery" outcome in
          if String.eqb outcome "dead" then ret "dead" else raise (HTTPError message)
      | HttpOk status_code =>
          do! get_session (succeed_delivery delivery delivery_id status_code) in
          do! record_webhook_delivery "delivered" in
          do! record_background_job "webhook_delivery" "success" in
          ret "delivered"
      end
  end.

Definition run_delivery (delivery_id : string) : M string :=
  let! claimed := get_session (claim_delivery delivery_id) in
  settle delivery_id claimed.

Definition deliver_webhook (retries : Z) (delivery_id : string) : M unit :=
  try_except
    (let! outcome := run_delivery delivery_id in
     if String.eqb outcome "skipped" then
       do! record_webhook_delivery "skipped" in
       record_background_job "webhook_delivery" "skipped"
     else ret tt)
    (fun e => match e with
              | HTTPError _ => Some (
                  self_retry deliver_webhook_task [delivery_id] retries 5 (backoff retries) e)
              | RuntimeError _ => Some (
                  do! record_background_job "webhook_delivery" "retry" in
                  self_retry deliver_webhook_task [delivery_id] retries 5 (backoff retries) e)
              | _ => None
              end).

(** ** cleanup_expired_state_task *)

(** The UPDATE of the pending invitations that ran out ([onupdate] sets [updated_at]). *)
Definition expire_invitation (ts updated : datetime) (i : Invitation) : Invitation :=
  if String.eqb i.(inv_status) "pending" && (i.(inv_expires_at) <? ts)%Z
  then {| i with inv_status := "expired"; inv_updated_at := updated |} else i.

Definition cleanup_expired_state : M unit :=
  get_session (
    let! ts := now in
    do! delete_rows (keep TIdempotency (fun r => negb (r.(idem_expires_at) <? ts)%Z)) in
    do! delete_rows (keep TRefreshToken (fun r => negb (r.(rt_expires_at) <? ts)%Z)) in
    let! updated := now in
    fun w => (Ok tt, set_db (set_table TInvitation
               (expire_invitation ts updated <$> w.(w_db) TInvitation) w.(w_db)) w)).

Definition cleanup_task (retries : Z) : M unit :=
  try_except
    (do! cleanup_expired_state in record_background_job "cleanup" "success")
    (fun e => match e with
              | OSError | RuntimeError _ | IntegrityError | DataError | StaleDataError
              | OperationalError => Some (
                  do! record_background_job "cleanup" "retry" in
                  self_retry "tenantflow.maintenance.cleanup_expired" [] retries 3 60 e)
              | _ => None
              end).
End Worker.
