(* ===== verification/Migration.v ===== *)
(** * Migration: alembic/versions/20260817_0001_initial.py

    The DDL of the initial migration as data, its execution on a catalog of tables, and what the
    tables it creates enforce on a row.  An expression of a CHECK or of a partial index is its
    syntax tree; the names of constraints and indexes are kept. *)
From S2P Require Import Prelude Text Json Schema.
#[local] Open Scope string_scope.

(** ** Operations *)
Inductive sql_type :=
  | Uuid | Varchar (n : nat) | TextType | Boolean | DateTimeTz | IntegerType | BigInteger | Jsonb.

Inductive ondelete := NoAction | Cascade | Restrict | SetNull.

Inductive sql_check :=
  | IsIn (column : string) (values : list string)
  | ExactlyOneNotNull (a b : string)
  | IsPositive (column : string).

(** sa.Column *)
Record Column := mkColumn {
  c_name : string;
  c_type : sql_type;
  c_nullable : bool;
  c_primary : bool;
  c_foreign : option (string * string * ondelete);
  c_server_default : bool }.

Definition column (name : string) (ty : sql_type) : Column := mkColumn name ty true false None false.
Definition primary_key (name : string) (ty : sql_type) : Column :=
  mkColumn name ty false true None false.
Definition not_null (c : Column) : Column := {| c with c_nullable := false |}.
Definition references (ref_table ref_column : string) (action : ondelete) (c : Column) : Column :=
  {| c with c_foreign := Some (ref_table, ref_column, action) |}.
(** server_default=sa.true() *)
Definition server_default_true (c : Column) : Column := {| c with c_server_default := true |}.

Inductive table_constraint :=
  | UniqueConstraint (columns : list string) (name : string)
  | ForeignKeyConstraint (columns : list string) (ref_table : string) (ref_columns : list string)
      (action : ondelete) (name : string)
  | CheckConstraint (check : sql_check) (name : string).

(** A CREATE INDEX, with the condition of a partial one. *)
Record Index := mkIndex {
  ix_name : string;
  ix_columns : list string;
  ix_unique : bool;
  ix_where : option sql_check }.

Inductive operation :=
  | create_table (name : string) (columns : list Column) (constraints : list table_constraint)
  | create_index (name table_name : string) (columns : list string) (unique : bool)
      (where_ : option sql_check)
  | drop_table (name : string).

(** ** upgrade *)
Definition timestamps : list Column :=
  [not_null (column "created_at" DateTimeTz); not_null (column "updated_at" DateTimeTz)].

Definition create_users : operation :=
  create_table "users"
    ([primary_key "id" Uuid;
     not_null (column "email" (Varchar 320));
     not_null (column "password_hash" (Varchar 255));
     not_null (column "full_name" (Varchar 160));
     server_default_true (not_null (column "is_active" Boolean))] ++ timestamps)%list
    [UniqueConstraint ["email"] "uq_users_email"].

Definition create_ix_users_email : operation :=
  create_index "ix_users_email" "users" ["email"] false None.

Definition create_organizations : operation :=
  create_table "organizations"
    ([primary_key "id" Uuid;
     not_null (column "name" (Varchar 160));
     not_null (column "slug" (Varchar 80));
     not_null (references "users" "id" Restrict (column "created_by" Uuid))] ++ timestamps)%list
    [UniqueConstraint ["slug"] "uq_organizations_slug"].

Definition create_ix_organizations_slug : operation :=
  create_index "ix_organizations_slug" "organizations" ["slug"] false None.

Definition create_organization_memberships : operation :=
  create_table "organization_memberships"
    ([primary_key "id" Uuid;
     not_null (references "organizations" "id" Cascade (column "organization_id" Uuid));
     not_null (references "users" "id" Cascade (column "user_id" Uuid));
     not_null (column "role" (Varchar 20))] ++ timestamps)%list
    [UniqueConstraint ["organization_id"; "user_id"] "uq_membership_org_user";
     CheckConstraint (IsIn "role" ["owner"; "admin"; "member"; "viewer"])
       "ck_organization_memberships_valid_membership_role"].

Definition create_ix_membership_user_org : operation :=
  create_index "ix_membership_user_org" "organization_memberships" ["user_id"; "organization_id"]
    false None.

Definition create_invitations : operation :=
  create_table "invitations"
    ([primary_key "id" Uuid;
     not_null (references "organizations" "id" Cascade (column "organization_id" Uuid));
     not_null (column "email" (Varchar 320));
     not_null (column "role" (Varchar 20));
     not_null (column "token_hash" (Varchar 64));
     not_null (column "status" (Varchar 20));
     not_null (references "users" "id" NoAction (column "invited_by" Uuid));
     not_null (column "expires_at" DateTimeTz)] ++ timestamps)%list
    [UniqueConstraint ["token_hash"] "uq_invitations_token_hash";
     CheckConstraint (IsIn "role" ["admin"; "member"; "viewer"])
       "ck_invitations_valid_invitation_role";
     CheckConstraint (IsIn "status" ["pending"; "accepted"; "revoked"; "expired"])
       "ck_invitations_valid_invitation_status"].

Definition create_uq_invitation_pending_org_email : operation :=
  create_index "uq_invitation_pending_org_email" "invitations" ["organization_id"; "email"]
    true (Some (IsIn "status" ["pending"])).

Definition create_projects : operation :=
  create_table "projects"
    ([primary_key "id" Uuid;
     not_null (references "organizations" "id" Cascade (column "organization_id" Uuid));
     not_null (column "name" (Varchar 160));
     column "description" TextType;
     not_null (column "status" (Varchar 20));
     not_null (references "users" "id" NoAction (column "created_by" Uuid))] ++ timestamps)%list
    [UniqueConstraint ["organization_id"; "name"] "uq_project_org_name";
     UniqueConstraint ["organization_id"; "id"] "uq_project_org_id";
     CheckConstraint (IsIn "status" ["active"; "archived"]) "ck_projects_valid_project_status"].

Definition create_ix_project_org_created : operation :=
  create_index "ix_project_org_created" "projects" ["organization_id"; "created_at"] false None.

Definition create_tasks : operation :=
  create_table "tasks"
    ([primary_key "id" Uuid;
     not_null (references "organizations" "id" Cascade (column "organization_id" Uuid));
     not_null (column "project_id" Uuid);
     not_null (column "title" (Varchar 200));
     column "description" TextType;
     not_null (column "status" (Varchar 20));
     not_null (column "priority" (Varchar 20));
     references "users" "id" NoAction (column "assignee_id" Uuid);
     not_null (references "users" "id" NoAction (column "created_by" Uuid));
     column "due_at" DateTimeTz] ++ timestamps)%list
    [UniqueConstraint ["organization_id"; "id"] "uq_task_org_id";
     ForeignKeyConstraint ["organization_id"; "project_id"] "projects" ["organization_id"; "id"] Cascade
       "fk_task_project_same_org";
     CheckConstraint (IsIn "status" ["todo"; "in_progress"; "done"; "cancelled"])
       "ck_tasks_valid_task_status";
     CheckConstraint (IsIn "priority" ["low"; "medium"; "high"; "urgent"])
       "ck_tasks_valid_task_priority"].

Definition create_ix_task_org_project_created : operation :=
  create_index "ix_task_org_project_created" "tasks" ["organization_id"; "project_id"; "created_at"]
    false None.

Definition create_ix_task_org_assignee_status : operation :=
  create_index "ix_task_org_assignee_status" "tasks" ["organization_id"; "assignee_id"; "status"]
    false None.

Definition create_attachments : operation :=
  create_table "attachments"
    ([primary_key "id" Uuid;
     not_null (references "organizations" "id" Cascade (column "organization_id" Uuid));
     column "project_id" Uuid;
     column "task_id" Uuid;
     not_null (column "object_key" (Varchar 512));
     not_null (column "original_filename" (Varchar 255));
     not_null (column "content_type" (Varchar 160));
     not_null (column "size_bytes" BigInteger);
     not_null (references "users" "id" NoAction (column "created_by" Uuid))] ++ timestamps)%list
    [ForeignKeyConstraint ["organization_id"; "project_id"] "projects" ["organization_id"; "id"] Cascade
       "fk_attachment_project_same_org";
     ForeignKeyConstraint ["organization_id"; "task_id"] "tasks" ["organization_id"; "id"] Cascade
       "fk_attachment_task_same_org";
     CheckConstraint (ExactlyOneNotNull "project_id" "task_id")
       "ck_attachments_attachment_exactly_one_parent";
     CheckConstraint (IsPositive "size_bytes") "ck_attachments_attachment_positive_size";
     UniqueConstraint ["object_key"] "uq_attachments_object_key"].

Definition create_ix_attachment_org_object : operation :=
  create_index "ix_attachment_org_object" "attachments" ["organization_id"; "object_key"]
    false None.

Definition create_refresh_tokens : operation :=
  create_table "refresh_tokens"
    [primary_key "id" Uuid;
     not_null (references "users" "id" Cascade (column "user_id" Uuid));
     not_null (column "token_hash" (Varchar 64));
     not_null (column "family_id" Uuid);
     not_null (column "expires_at" DateTimeTz);
     column "revoked_at" DateTimeTz;
     column "replaced_by_hash" (Varchar 64);
     not_null (column "created_at" DateTimeTz)]
    [UniqueConstraint ["token_hash"] "uq_refresh_tokens_token_hash"].

Definition create_ix_refresh_user_expires : operation :=
  create_index "ix_refresh_user_expires" "refresh_tokens" ["user_id"; "expires_at"] false None.

Definition create_idempotency_records : operation :=
  create_table "idempotency_records"
    [primary_key "id" Uuid;
     references "organizations" "id" Cascade (column "organization_id" Uuid);
     not_null (references "users" "id" Cascade (column "user_id" Uuid));
     not_null (column "scope" (Varchar 120));
     not_null (column "key" (Varchar 160));
     not_null (column "request_hash" (Varchar 64));
     not_null (column "status" (Varchar 20));
     column "response_status" IntegerType;
     column "response_body" Jsonb;
     not_null (column "created_at" DateTimeTz);
     not_null (column "expires_at" DateTimeTz)]
    [UniqueConstraint ["scope"; "key"] "uq_idempotency_scope_key";
     CheckConstraint (IsIn "status" ["processing"; "completed"; "failed"])
       "ck_idempotency_records_valid_idempotency_status"].

Definition create_ix_idempotency_expires : operation :=
  create_index "ix_idempotency_expires" "idempotency_records" ["expires_at"] false None.

Definition create_webhook_endpoints : operation :=
  create_table "webhook_endpoints"
    ([primary_key "id" Uuid;
     not_null (references "organizations" "id" Cascade (column "organization_id" Uuid));
     not_null (column "url" (Varchar 2048));
     not_null (column "signing_secret_hash" (Varchar 64));
     not_null (column "signing_secret_encrypted" TextType);
     not_null (column "events" Jsonb);
     server_default_true (not_null (column "is_active" Boolean));
     not_null (references "users" "id" NoAction (column "created_by" Uuid))] ++ timestamps)%list
    [].

Definition create_ix_webhook_endpoint_org_active : operation :=
  create_index "ix_webhook_endpoint_org_active" "webhook_endpoints" ["organization_id"; "is_active"]
    false None.

Definition create_webhook_deliveries : operation :=
  create_table "webhook_deliveries"
    ([primary_key "id" Uuid;
     not_null (column "event_id" Uuid);
     not_null (references "webhook_endpoints" "id" Cascade (column "endpoint_id" Uuid));
     not_null (column "event_type" (Varchar 120));
     not_null (column "payload" Jsonb);
     not_null (column "state" (Varchar 20));
     not_null (column "attempt_count" IntegerType);
     column "response_status" IntegerType;
     column "last_error" TextType;
     column "next_retry_at" DateTimeTz] ++ timestamps)%list
    [UniqueConstraint ["event_id"; "endpoint_id"] "uq_delivery_event_endpoint";
     CheckConstraint (IsIn "state" ["pending"; "delivered"; "retrying"; "dead"])
       "ck_webhook_deliveries_valid_delivery_state"].

Definition create_ix_delivery_state_next_retry : operation :=
  create_index "ix_delivery_state_next_retry" "webhook_deliveries" ["state"; "next_retry_at"]
    false None.

Definition create_subscriptions : operation :=
  create_table "subscriptions"
    ([primary_key "id" Uuid;
     not_null (references "organizations" "id" Cascade (column "organization_id" Uuid));
     not_null (column "plan" (Varchar 20));
     not_null (column "status" (Varchar 20));
     column "stripe_customer_id" (Varchar 255);
     column "stripe_subscription_id" (Varchar 255);
     column "current_period_end" DateTimeTz] ++ timestamps)%list
    [UniqueConstraint ["organization_id"] "uq_subscription_organization";
     UniqueConstraint ["stripe_customer_id"] "uq_subscriptions_stripe_customer_id";
     UniqueConstraint ["stripe_subscription_id"] "uq_subscriptions_stripe_subscription_id";
     CheckConstraint (IsIn "plan" ["free"; "pro"; "business"])
       "ck_subscriptions_valid_subscription_plan";
     CheckConstraint (IsIn "status" ["inactive"; "trialing"; "active"; "past_due"; "cancelled"])
       "ck_subscriptions_valid_subscription_status"].

Definition create_stripe_events : operation :=
  create_table "stripe_events"
    [primary_key "id" Uuid;
     not_null (column "stripe_event_id" (Varchar 255));
     not_null (column "event_type" (Varchar 160));
     not_null (column "processed_at" DateTimeTz)]
    [UniqueConstraint ["stripe_event_id"] "uq_stripe_events_stripe_event_id"].

Definition create_audit_logs : operation :=
  create_table "audit_logs"
    [primary_key "id" Uuid;
     not_null (references "organizations" "id" Cascade (column "organization_id" Uuid));
     references "users" "id" SetNull (column "actor_id" Uuid);
     not_null (column "action" (Varchar 160));
     not_null (column "entity_type" (Varchar 120));
     column "entity_id" Uuid;
     not_null (column "metadata" Jsonb);
     not_null (column "created_at" DateTimeTz)]
    [].

Definition create_ix_audit_org_created : operation :=
  create_index "ix_audit_org_created" "audit_logs" ["organization_id"; "created_at"] false None.

Definition upgrade : list operation :=
  [create_users;
   create_ix_users_email;
   create_organizations;
   create_ix_organizations_slug;
   create_organization_memberships;
   create_ix_membership_user_org;
   create_invitations;
   create_uq_invitation_pending_org_email;
   create_projects;
   create_ix_project_org_created;
   create_tasks;
   create_ix_task_org_project_created;
   create_ix_task_org_assignee_status;
   create_attachments;
   create_ix_attachment_org_object;
   create_refresh_tokens;
   create_ix_refresh_user_expires;
   create_idempotency_records;
   create_ix_idempotency_expires;
   create_webhook_endpoints;
   create_ix_webhook_endpoint_org_active;
   create_webhook_deliveries;
   create_ix_delivery_state_next_retry;
   create_subscriptions;
   create_stripe_events;
   create_audit_logs;
   create_ix_audit_org_created].

(** ** downgrade *)
Definition downgrade : list operation :=
  map drop_table ["audit_logs"; "stripe_events"; "subscriptions"; "webhook_deliveries";
    "webhook_endpoints"; "idempotency_records"; "refresh_tokens"; "attachments"; "tasks";
    "projects"; "invitations"; "organization_memberships"; "organizations"; "users"].

(** ** Execution *)
Record TableDef := mkTableDef {
  td_columns : list Column;
  td_constraints : list table_constraint;
  td_indexes : list Index }.

(** The tables by name, in the order of their creation. *)
Definition catalog : Type := list (string * TableDef).

Definition has_columns (d : TableDef) (columns : list string) : bool :=
  forallb (fun c => existsb (fun col => String.eqb c col.(c_name)) d.(td_columns)) columns.

Fixpoint assoc_table (name : string) (cat : catalog) : option TableDef :=
  match cat with
  | [] => None
  | (n, d) :: cat' => if String.eqb name n then Some d else assoc_table name cat'
  end.

(** The lists of columns a foreign key may refer to. *)
Definition unique_keys (d : TableDef) : list (list string) :=
  (map (fun c => [c.(c_name)]) (filter (fun c => c.(c_primary) = true) d.(td_columns)) ++
   omap (fun k => match k with UniqueConstraint cols _ => Some cols | _ => None end)
     d.(td_constraints))%list.

(** The foreign keys of a table: columns, referenced table, referenced columns, ON DELETE. *)
Definition foreign_keys (d : TableDef) : list (list string * string * list string * ondelete) :=
  (omap (fun c => match c.(c_foreign) with
                  | Some (t, k, action) => Some ([c.(c_name)], t, [k], action)
                  | None => None
                  end) d.(td_columns) ++
   omap (fun k => match k with
                  | ForeignKeyConstraint cols t refs action _ => Some (cols, t, refs, action)
                  | _ => None
                  end) d.(td_constraints))%list.

(** The referenced columns are a key of an existing table. *)
Definition foreign_key_ok (cat : catalog) (k : list string * string * list string * ondelete) : bool :=
  let '(cols, t, refs, _) := k in
  match assoc_table t cat with
  | Some d => (List.length cols =? List.length refs)%nat &&
              existsb (fun u => bool_decide (u = refs)) (unique_keys d)
  | None => false
  end.

Definition constraint_columns (k : table_constraint) : list string :=
  match k with
  | UniqueConstraint cols _ | ForeignKeyConstraint cols _ _ _ _ => cols
  | CheckConstraint (IsIn c _) _ | CheckConstraint (IsPositive c) _ => [c]
  | CheckConstraint (ExactlyOneNotNull a b) _ => [a; b]
  end.

(** One operation; [None] is an error of PostgreSQL. *)
Definition execute (op : operation) (cat : catalog) : option catalog :=
  match op with
  | create_table name columns constraints =>
      let d := mkTableDef columns constraints [] in
      if negb (existsb (fun e => String.eqb name e.1) cat) &&
         bool_decide (NoDup (c_name <$> columns)) &&
         forallb (fun k => has_columns d (constraint_columns k)) constraints &&
         forallb (foreign_key_ok cat) (foreign_keys d)
      then Some (cat ++ [(name, d)])%list else None
  | create_index name table_name columns unique where_ =>
      match assoc_table table_name cat with
      | Some d =>
          if has_columns d columns &&
             negb (existsb (fun e => existsb (fun i => String.eqb name i.(ix_name)) e.2.(td_indexes)) cat)
          then Some (map (fun '(n, e) => if String.eqb table_name n
                 then (n, {| e with td_indexes := (e.(td_indexes) ++ [mkIndex name columns unique where_])%list |})
                 else (n, e)) cat)
          else None
      | None => None
      end
  | drop_table name =>
      if existsb (fun e => String.eqb name e.1) cat &&
         negb (existsb (fun e => negb (String.eqb name e.1) &&
                 existsb (fun k => String.eqb name k.1.1.2) (foreign_keys e.2)) cat)
      then Some (filter (fun e => negb (String.eqb name e.1) = true) cat) else None
  end.

Fixpoint execute_all (ops : list operation) (cat : catalog) : option catalog :=
  match ops with
  | [] => Some cat
  | op :: ops' => match execute op cat with Some cat' => execute_all ops' cat' | None => None end
  end.
