(* ===== verification/MigrationSchema.v ===== *)
(** * MigrationSchema: the migrated tables enforce the schema of the models

    A row of Schema as the cells of its table, what PostgreSQL checks of them after [upgrade]
    (column types, NOT NULL, CHECK, UNIQUE and partial unique indexes, FOREIGN KEY), and that this is
    [row_ok]. *)
From S2P Require Import Prelude Text Json Schema Migration.
#[local] Open Scope string_scope.

(** ** Rows as cells *)
Inductive cell :=
  | CNull | CUuid (u : uuid) | CText (s : string) | CBool (b : bool) | CTime (t : datetime)
  | CInt (n : Z) | CJson (j : json).

Definition text_eqb : string -> string -> bool := String.eqb.

(** SQL equality of values that are not NULL. *)
Definition cell_eqb (a b : cell) : bool :=
  match a, b with
  | CUuid x, CUuid y => N.eqb x y
  | CText x, CText y => text_eqb x y
  | CBool x, CBool y => Bool.eqb x y
  | CTime x, CTime y | CInt x, CInt y => Z.eqb x y
  | CJson x, CJson y => json_eqb x y
  | _, _ => false
  end.
Definition is_null (a : cell) : bool := match a with CNull => true | _ => false end.

Definition nullable {A} (f : A -> cell) (o : option A) : cell :=
  match o with Some a => f a | None => CNull end.
Definition cell_strings (l : list string) : cell := CJson (JArr (map JStr l)).

Definition table_name (t : table) : string :=
  match t with
  | TUser => "users"
  | TOrganization => "organizations"
  | TMembership => "organization_memberships"
  | TInvitation => "invitations"
  | TProject => "projects"
  | TTask => "tasks"
  | TAttachment => "attachments"
  | TRefreshToken => "refresh_tokens"
  | TIdempotency => "idempotency_records"
  | TEndpoint => "webhook_endpoints"
  | TDelivery => "webhook_deliveries"
  | TSubscription => "subscriptions"
  | TStripeEvent => "stripe_events"
  | TAuditLog => "audit_logs"
  end.

Definition cells (t : table) : row t -> list (string * cell) :=
  match t with
  | TUser => fun r =>
      [("id", CUuid r.(user_id)); ("email", CText r.(user_email));
       ("password_hash", CText r.(user_password_hash)); ("full_name", CText r.(user_full_name));
       ("is_active", CBool r.(user_is_active)); ("created_at", CTime r.(user_created_at));
       ("updated_at", CTime r.(user_updated_at))]
  | TOrganization => fun r =>
      [("id", CUuid r.(org_id)); ("name", CText r.(org_name)); ("slug", CText r.(org_slug));
       ("created_by", CUuid r.(org_created_by)); ("created_at", CTime r.(org_created_at));
       ("updated_at", CTime r.(org_updated_at))]
  | TMembership => fun r =>
      [("id", CUuid r.(mem_id)); ("organization_id", CUuid r.(mem_organization_id));
       ("user_id", CUuid r.(mem_user_id)); ("role", CText r.(mem_role));
       ("created_at", CTime r.(mem_created_at)); ("updated_at", CTime r.(mem_updated_at))]
  | TInvitation => fun r =>
      [("id", CUuid r.(inv_id)); ("organization_id", CUuid r.(inv_organization_id));
       ("email", CText r.(inv_email)); ("role", CText r.(inv_role));
       ("token_hash", CText r.(inv_token_hash)); ("status", CText r.(inv_status));
       ("invited_by", CUuid r.(inv_invited_by)); ("expires_at", CTime r.(inv_expires_at));
       ("created_at", CTime r.(inv_created_at)); ("updated_at", CTime r.(inv_updated_at))]
  | TProject => fun r =>
      [("id", CUuid r.(prj_id)); ("organization_id", CUuid r.(prj_organization_id));
       ("name", CText r.(prj_name)); ("description", nullable CText r.(prj_description));
       ("status", CText r.(prj_status)); ("created_by", CUuid r.(prj_created_by));
       ("created_at", CTime r.(prj_created_at)); ("updated_at", CTime r.(prj_updated_at))]
  | TTask => fun r =>
      [("id", CUuid r.(task_id)); ("organization_id", CUuid r.(task_organization_id));
       ("project_id", CUuid r.(task_project_id)); ("title", CText r.(task_title));
       ("description", nullable CText r.(task_description)); ("status", CText r.(task_status));
       ("priority", CText r.(task_priority));
       ("assignee_id", nullable CUuid r.(task_assignee_id));
       ("created_by", CUuid r.(task_created_by)); ("due_at", nullable CTime r.(task_due_at));
       ("created_at", CTime r.(task_created_at)); ("updated_at", CTime r.(task_updated_at))]
  | TAttachment => fun r =>
      [("id", CUuid r.(att_id)); ("organization_id", CUuid r.(att_organization_id));
       ("project_id", nullable CUuid r.(att_project_id));
       ("task_id", nullable CUuid r.(att_task_id)); ("object_key", CText r.(att_object_key));
       ("original_filename", CText r.(att_original_filename));
       ("content_type", CText r.(att_content_type)); ("size_bytes", CInt r.(att_size_bytes));
       ("created_by", CUuid r.(att_created_by)); ("created_at", CTime r.(att_created_at));
       ("updated_at", CTime r.(att_updated_at))]
  | TRefreshToken => fun r =>
      [("id", CUuid r.(rt_id)); ("user_id", CUuid r.(rt_user_id));
       ("token_hash", CText r.(rt_token_hash)); ("family_id", CUuid r.(rt_family_id));
       ("expires_at", CTime r.(rt_expires_at)); ("revoked_at", nullable CTime r.(rt_revoked_at));
       ("replaced_by_hash", nullable CText r.(rt_replaced_by_hash));
       ("created_at", CTime r.(rt_created_at))]
  | TIdempotency => fun r =>
      [("id", CUuid r.(idem_id)); ("organization_id", nullable CUuid r.(idem_organization_id));
       ("user_id", CUuid r.(idem_user_id)); ("scope", CText r.(idem_scope));
       ("key", CText r.(idem_key)); ("request_hash", CText r.(idem_request_hash));
       ("status", CText r.(idem_status));
       ("response_status", nullable CInt r.(idem_response_status));
       ("response_body", nullable CJson r.(idem_response_body));
       ("created_at", CTime r.(idem_created_at)); ("expires_at", CTime r.(idem_expires_at))]
  | TEndpoint => fun r =>
      [("id", CUuid r.(ep_id)); ("organization_id", CUuid r.(ep_organization_id));
       ("url", CText r.(ep_url)); ("signing_secret_hash", CText r.(ep_signing_secret_hash));
       ("signing_secret_encrypted", CText r.(ep_signing_secret_encrypted));
       ("events", cell_strings r.(ep_events)); ("is_active", CBool r.(ep_is_active));
       ("created_by", CUuid r.(ep_created_by)); ("created_at", CTime r.(ep_created_at));
       ("updated_at", CTime r.(ep_updated_at))]
  | TDelivery => fun r =>
      [("id", CUuid r.(dlv_id)); ("event_id", CUuid r.(dlv_event_id));
       ("endpoint_id", CUuid r.(dlv_endpoint_id)); ("event_type", CText r.(dlv_event_type));
       ("payload", CJson r.(dlv_payload)); ("state", CText r.(dlv_state));
       ("attempt_count", CInt r.(dlv_attempt_count));
       ("response_status", nullable CInt r.(dlv_response_status));
       ("last_error", nullable CText r.(dlv_last_error));
       ("next_retry_at", nullable CTime r.(dlv_next_retry_at));
       ("created_at", CTime r.(dlv_created_at)); ("updated_at", CTime r.(dlv_updated_at))]
  | TSubscription => fun r =>
      [("id", CUuid r.(sub_id)); ("organization_id", CUuid r.(sub_organization_id));
       ("plan", CText r.(sub_plan)); ("status", CText r.(sub_status));
       ("stripe_customer_id", nullable CText r.(sub_stripe_customer_id));
       ("stripe_subscription_id", nullable CText r.(sub_stripe_subscription_id));
       ("current_period_end", nullable CTime r.(sub_current_period_end));
       ("created_at", CTime r.(sub_created_at)); ("updated_at", CTime r.(sub_updated_at))]
  | TStripeEvent => fun r =>
      [("id", CUuid r.(sev_id)); ("stripe_event_id", CText r.(sev_stripe_event_id));
       ("event_type", CText r.(sev_event_type)); ("processed_at", CTime r.(sev_processed_at))]
  | TAuditLog => fun r =>
      [("id", CUuid r.(aud_id)); ("organization_id", CUuid r.(aud_organization_id));
       ("actor_id", nullable CUuid r.(aud_actor_id)); ("action", CText r.(aud_action));
       ("entity_type", CText r.(aud_entity_type));
       ("entity_id", nullable CUuid r.(aud_entity_id)); ("metadata", CJson r.(aud_metadata));
       ("created_at", CTime r.(aud_created_at))]
  end.

(** The table that the migration created for [t]. *)
Definition migrated : catalog := default [] (execute_all upgrade []).
Definition table_def (t : table) : TableDef :=
  default (mkTableDef [] [] []) (assoc_table (table_name t) migrated).

(** ** What PostgreSQL enforces *)
Fixpoint cell_of (row_cells : list (string * cell)) (c : string) : cell :=
  match row_cells with
  | [] => CNull
  | (n, v) :: rest => if String.eqb c n then v else cell_of rest c
  end.

(** The value fits the type of its column. *)
Definition cell_fits (ty : sql_type) (v : cell) : bool :=
  match v, ty with
  | CNull, _ => true
  | CUuid _, Uuid | CBool _, Boolean | CTime _, DateTimeTz | CJson _, Jsonb | CText _, TextType => true
  | CText s, Varchar n => varchar n s
  | CInt n, IntegerType => int4 n
  | CInt n, BigInteger => int8 n
  | _, _ => false
  end.

Definition columns_ok (d : TableDef) (row_cells : list (string * cell)) : bool :=
  forallb (fun c => cell_fits c.(c_type) (cell_of row_cells c.(c_name)) &&
                    (c.(c_nullable) || negb (is_null (cell_of row_cells c.(c_name)))))
    d.(td_columns).

(** A CHECK that is not false: a comparison with NULL is neither. *)
Definition check_holds (k : sql_check) (row_cells : list (string * cell)) : bool :=
  match k with
  | IsIn c values => match cell_of row_cells c with CText s => one_of values s | _ => true end
  | ExactlyOneNotNull a b =>
      negb (Bool.eqb (negb (is_null (cell_of row_cells a))) (negb (is_null (cell_of row_cells b))))
  | IsPositive c => match cell_of row_cells c with CInt n => (0 <? n)%Z | _ => true end
  end.

(** The condition of a partial index is true. *)
Definition where_true (k : sql_check) (row_cells : list (string * cell)) : bool :=
  match k with
  | IsIn c values =>
      match cell_of row_cells c with CText s => existsb (text_eqb s) values | _ => false end
  | _ => false
  end.

Definition checks_ok (d : TableDef) (row_cells : list (string * cell)) : bool :=
  forallb (fun k => match k with CheckConstraint c _ => check_holds c row_cells | _ => true end)
    d.(td_constraints).

(** The columns [cols] of one row equal the columns [cols'] of another; NULL equals nothing. *)
Fixpoint agree (cols cols' : list string) (a b : list (string * cell)) : bool :=
  match cols, cols' with
  | [], [] => true
  | c :: cols, c' :: cols' => cell_eqb (cell_of a c) (cell_of b c') && agree cols cols' a b
  | _, _ => false
  end.

Definition unique_conflict (d : TableDef) (a b : list (string * cell)) : bool :=
  existsb (fun k => match k with UniqueConstraint cols _ => agree cols cols a b | _ => false end)
    d.(td_constraints) ||
  existsb (fun i => i.(ix_unique) && agree i.(ix_columns) i.(ix_columns) a b &&
             default true ((fun k => where_true k a && where_true k b) <$> i.(ix_where)))
    d.(td_indexes).

Definition tables : list table :=
  [TUser; TOrganization; TMembership; TInvitation; TProject; TTask; TAttachment; TRefreshToken;
   TIdempotency; TEndpoint; TDelivery; TSubscription; TStripeEvent; TAuditLog].

(** A row of the referenced table has the values, unless one of them is NULL. *)
Definition reference_ok (db : Db) (row_cells : list (string * cell))
    (k : list string * string * list string * ondelete) : bool :=
  let '(cols, target, refs, _) := k in
  existsb (fun c => is_null (cell_of row_cells c)) cols ||
  existsb (fun t => String.eqb (table_name t) target &&
                    existsb (fun r' => agree cols refs row_cells (cells t r')) (map_to_list (db t)).*2)
    tables.

(** An INSERT or UPDATE of the row [r] of [t] is accepted. *)
Definition accepted (t : table) (db : Db) (r : row t) : bool :=
  let d := table_def t in let cs := cells t r in
  columns_ok d cs && checks_ok d cs && forallb (reference_ok db cs) (foreign_keys d) &&
  negb (other_row t db (row_id t r) (fun r' => unique_conflict d cs (cells t r'))).

(** ** Lemmas *)

(** Every column of the migrated table is a field of the row. *)
Lemma cells_columns t r : (cells t r).*1 = c_name <$> td_columns (table_def t).
Proof. destruct t; vm_compute; reflexivity. Qed.

Ltac case_bools :=
  repeat match goal with
  | |- context [varchar ?n ?s] => destruct (varchar n s)
  | |- context [int4 ?n] => destruct (int4 n)
  | |- context [int8 ?n] => destruct (int8 n)
  | |- context [one_of ?l ?s] => destruct (one_of l s)
  end.

Lemma columns_fit t r : columns_ok (table_def t) (cells t r) = fits t r.
Proof.
  destruct t; destruct r; unfold fits, varchar_opt;
    repeat match goal with o : option _ |- _ => destruct o end;
    cbv -[varchar int4 int8]; case_bools; reflexivity.
Qed.

Lemma checks_hold t r : checks_ok (table_def t) (cells t r) = check_ok t r.
Proof.
  destruct t; destruct r; unfold check_ok;
    repeat match goal with o : option _ |- _ => destruct o end;
    cbv -[one_of Z.ltb]; case_bools; try reflexivity; by destruct (0 <? _)%Z.
Qed.

(** The keys (organization_id, id) add nothing to the primary key. *)
Lemma unique_conflict_conflict t r r' :
  row_id t r <> row_id t r' ->
  unique_conflict (table_def t) (cells t r) (cells t r') = conflict t r r'.
Proof.
  intros Hne. apply N.eqb_neq in Hne.
  destruct t; destruct r, r'; cbn in Hne; unfold conflict, same_opt; cbv beta iota;
    change String.eqb with text_eqb; cbv -[text_eqb N.eqb]; rewrite ?Hne;
    repeat match goal with
    | |- context [match ?o with Some _ => _ | None => _ end] => destruct o
    end;
    repeat match goal with
    | |- context [text_eqb ?a ?b] => destruct (text_eqb a b)
    | |- context [N.eqb ?a ?b] => destruct (N.eqb a b)
    end; reflexivity.
Qed.

Section References.
Context (db : Db) (Hids : forall t id r, find t db id = Some r -> row_id t r = id).

(** A row with primary key [u] that satisfies [p]. *)
Lemma existsb_key t u (p : row t -> bool) :
  existsb (fun r => N.eqb u (row_id t r) && p r) (map_to_list (db t)).*2 =
  match find t db u with Some r => p r | None => false end.
Proof.
  destruct (find t db u) as [r|] eqn:Hr.
  - destruct (p r) eqn:Hp.
    + apply existsb_exists. exists r. split.
      * apply list_elem_of_In, list_elem_of_fmap. exists (u, r). by rewrite elem_of_map_to_list.
      * by rewrite (Hids _ _ _ Hr), N.eqb_refl, Hp.
    + apply not_true_iff_false. intros (r' & Hin & [Hu%N.eqb_eq Hp']%andb_true_iff)%existsb_exists.
      apply list_elem_of_In, list_elem_of_fmap in Hin as ([k x] & -> & Hx%elem_of_map_to_list).
      cbn in *. rewrite (Hids _ _ _ Hx) in Hu. subst k. change (find t db u = Some x) in Hx. congruence.
  - apply not_true_iff_false. intros (r' & Hin & [Hu%N.eqb_eq _]%andb_true_iff)%existsb_exists.
    apply list_elem_of_In, list_elem_of_fmap in Hin as ([k x] & -> & Hx%elem_of_map_to_list).
    cbn in *. rewrite (Hids _ _ _ Hx) in Hu. subst k. change (find t db u = Some x) in Hx. congruence.
Qed.

Lemma existsb_tables t (f : table -> bool) :
  existsb (fun t' => String.eqb (table_name t') (table_name t) && f t') tables = f t.
Proof.
  cbn [tables existsb].
  destruct t; repeat match goal with
    | |- context [String.eqb (table_name ?a) (table_name ?b)] =>
        let v := eval vm_compute in (String.eqb (table_name a) (table_name b)) in
        change (String.eqb (table_name a) (table_name b)) with v
    end; cbn [andb orb]; by rewrite ?orb_false_r.
Qed.

Lemma cell_id t r : cell_of (cells t r) "id" = CUuid (row_id t r).
Proof. by destruct t. Qed.

Lemma reference_id t cs c action :
  reference_ok db cs ([c], table_name t, ["id"], action) =
  match cell_of cs c with
  | CNull => true
  | CUuid u => has t db u
  | _ => false
  end.
Proof.
  unfold reference_ok. cbn [existsb]. rewrite existsb_tables, orb_false_r.
  assert (Hx : existsb (fun r' => agree [c] ["id"] cs (cells t r')) (map_to_list (db t)).*2 =
    match cell_of cs c with CUuid u => has t db u | _ => false end).
  { cbn [agree]. destruct (cell_of cs c) as [|u| | | | |]; cycle 1.
    { unfold has. transitivity (existsb (fun r => N.eqb u (row_id t r) && true) (map_to_list (db t)).*2).
      - induction (map_to_list (db t)).*2 as [|x l IH]; [done|]. cbn [existsb]. by rewrite IH, cell_id.
      - rewrite (existsb_key t u (fun _ => true)). change (db t !! u) with (find t db u).
        by destruct (find t db u). }
    all: induction (map_to_list (db t)).*2 as [|x l IH]; [done|]; cbn [existsb]; by rewrite IH, cell_id. }
  rewrite Hx. by destruct (cell_of cs c).
Qed.

Lemma existsb_ext_eq {A} (f g : A -> bool) l : (forall x, f x = g x) -> existsb f l = existsb g l.
Proof. intros H. induction l as [|x l IH]; [done|]. cbn. by rewrite H, IH. Qed.

Lemma existsb_false {A} (f : A -> bool) l : (forall x, f x = false) -> existsb f l = false.
Proof. intros H. induction l as [|x l IH]; [done|]. cbn. by rewrite H, IH. Qed.

(** A composite key: the referenced row belongs to the same organization. *)
Lemma reference_pair t (org : row t -> uuid) cs c1 c2 action :
  (forall r, cell_of (cells t r) "organization_id" = CUuid (org r)) ->
  reference_ok db cs ([c1; c2], table_name t, ["organization_id"; "id"], action) =
  match cell_of cs c1, cell_of cs c2 with
  | CNull, _ | _, CNull => true
  | CUuid o, CUuid u => match find t db u with Some r => N.eqb (org r) o | None => false end
  | _, _ => false
  end.
Proof.
  intros Horg. unfold reference_ok. cbn [existsb]. rewrite existsb_tables, orb_false_r.
  assert (Hx : existsb (fun r' => agree [c1; c2] ["organization_id"; "id"] cs (cells t r'))
                 (map_to_list (db t)).*2 =
    match cell_of cs c1, cell_of cs c2 with
    | CUuid o, CUuid u => match find t db u with Some r => N.eqb (org r) o | None => false end
    | _, _ => false
    end).
  { destruct (cell_of cs c1) as [|o| | | | |] eqn:H1, (cell_of cs c2) as [|u| | | | |] eqn:H2;
      try (apply existsb_false; intros r; cbn [agree]; rewrite H1, H2, Horg, cell_id;
           cbn [cell_eqb]; by rewrite ?andb_false_r).
    rewrite <- (existsb_key t u (fun r => N.eqb (org r) o)). apply existsb_ext_eq. intros r.
    cbn [agree]. rewrite H1, H2, Horg, cell_id. cbn [cell_eqb].
    rewrite andb_true_r, andb_comm. f_equal. apply N.eqb_sym. }
  rewrite Hx. by destruct (cell_of cs c1), (cell_of cs c2).
Qed.

Ltac references_of :=
  match goal with
  | |- context [foreign_keys (table_def ?t)] =>
      let l := eval vm_compute in (foreign_keys (table_def t)) in
      replace (foreign_keys (table_def t)) with l by (vm_compute; reflexivity)
  end.

Lemma references_hold t r : forallb (reference_ok db (cells t r)) (foreign_keys (table_def t)) = refs_ok t db r.
Proof.
  destruct t; references_of; cbn [forallb]; unfold refs_ok, has_opt;
    repeat first
      [ rewrite (reference_id TUser) | rewrite (reference_id TOrganization)
      | rewrite (reference_id TEndpoint)
      | rewrite (reference_pair TProject prj_organization_id) by done
      | rewrite (reference_pair TTask task_organization_id) by done ];
    destruct r; unfold project_of, task_of; cbn -[has];
    repeat match goal with o : option _ |- _ => destruct o end; cbn -[has];
    apply eq_iff_eq_true; rewrite ?andb_true_iff; tauto.
Qed.
End References.

(** Rows under their primary keys. *)
Lemma other_row_ext t db id p q :
  (forall id' r, find t db id' = Some r -> id' <> id -> p r = q r) ->
  other_row t db id p = other_row t db id q.
Proof.
  intros H. unfold other_row. apply eq_iff_eq_true. rewrite !existsb_exists.
  split; intros ([k x] & Hin & Hp); exists (k, x); (split; [done|]);
    apply list_elem_of_In, elem_of_map_to_list in Hin; cbn in *;
    destruct (bool_decide_reflect (k = id)); try done; cbn in *; [rewrite <- (H k)|rewrite (H k)]; done.
Qed.

(** ** Properties *)

(** C39: the migration creates the schema of the models.  A row of any of the fourteen tables fits
    the columns that the migration created and passes their NOT NULL, CHECK, UNIQUE, partial unique
    index and FOREIGN KEY constraints exactly when it fits the column types of the mapped class and
    satisfies its constraints. *)
Theorem migration_enforces_schema t db r :
  (forall t id r, find t db id = Some r -> row_id t r = id) ->
  accepted t db r = row_ok t db r.
Proof.
  intros Hids. unfold accepted, row_ok. cbv zeta.
  rewrite columns_fit, checks_hold, references_hold, <- !andb_assoc by done. do 4 f_equal.
  apply other_row_ext. intros id' r' Hr' Hne. apply unique_conflict_conflict.
  pose proof (Hids t id' r' Hr') as Hid. congruence.
Qed.

(** The migration runs and is undone.  [upgrade] succeeds on an empty database: every table is
    created after those it refers to, every foreign key refers to a key, no name is used twice; and
    [downgrade] then drops every table, none of them while another refers to it. *)
Theorem migration_round_trip :
  exists cat, execute_all upgrade [] = Some cat /\ execute_all downgrade cat = Some [] /\
    cat.*1 = table_name <$> tables.
Proof. exists migrated. vm_compute. done. Qed.

(** An organization is accepted once its creator is stored. *)
Definition a_user : User := mkUser 1 "a@b.org" "hash" "A" true 0 0.
Definition an_organization : Organization := mkOrganization 2 "Acme" "acme" 1 0 0.

Lemma migration_enforces_schema_witness :
  accepted TOrganization (put TUser a_user empty_db) an_organization = true.
Proof.
  rewrite (migration_enforces_schema TOrganization (put TUser a_user empty_db) an_organization).
  - vm_compute. reflexivity.
  - intros t id r Hr. destruct (decide (t = TUser)) as [->|Hne].
    + rewrite put_eq in Hr. apply lookup_insert_Some in Hr as [[<- <-]|[_ Hr]]; [done|].
      unfold empty_db in Hr. by rewrite lookup_empty in Hr.
    + rewrite put_ne in Hr by done. unfold empty_db in Hr. by rewrite lookup_empty in Hr.
Defined.
