(* ===== verification/Interpolation.v ===== *)
(** * Interpolation: the option values of [configparser.ConfigParser]

    BasicInterpolation of the standard library, which Alembic's [set_main_option] and
    [get_main_option] go through: the check of [before_set] and the expansion of [before_get].  A
    value is read back as it was written exactly when it has no percent sign. *)
From S2P Require Import Prelude Text.
#[local] Open Scope string_scope.

Inductive config_error :=
  | InvalidInterpolationSyntax            (** the ValueError of [before_set] *)
  | InterpolationSyntaxError
  | InterpolationMissingOptionError
  | InterpolationDepthError.

#[local] Abbreviation percent := ("%"%char) (only parsing).

(** ** [%(name)s] *)

(** Up to the first closing parenthesis. *)
Fixpoint until_paren (s : string) : option (string * string) :=
  match s with
  | EmptyString => None
  | String c s' =>
      if (c =? ")")%char then Some ("", s')
      else match until_paren s' with Some (name, rest) => Some (String c name, rest) | None => None end
  end.

(** [([^)]+)\)s], after the opening parenthesis: the name and what follows. *)
Definition key (s : string) : option (string * string) :=
  match until_paren s with
  | Some (String a name, String "s" rest) => Some (String a name, rest)
  | _ => None
  end.

(** [_KEYCRE.sub("", s)]; every step consumes a character. *)
Fixpoint erase_keys_fuel (fuel : nat) (s : string) : string :=
  match fuel, s with
  | O, _ | _, EmptyString => s
  | S fuel', String c s' =>
      match (match s with String "%" (String "(" r) => key r | _ => None end) with
      | Some (_, rest) => erase_keys_fuel fuel' rest
      | None => String c (erase_keys_fuel fuel' s')
      end
  end.
Definition erase_keys (s : string) : string := erase_keys_fuel (String.length s) s.

Definition has_percent (s : string) : bool := existsb (Ascii.eqb percent) (list_ascii_of_string s).

(** [BasicInterpolation.before_set]. *)
Definition before_set (value : string) : config_error + string :=
  if has_percent (erase_keys (erase "%%" value)) then inl InvalidInterpolationSyntax else inr value.

(** ** Expansion *)
Inductive token := Char (c : ascii) | Percent | Ref (name : string).

Definition next_token (c : ascii) (s : string) : config_error + (token * string) :=
  if negb (c =? percent)%char then inr (Char c, s)
  else match s with
       | String "%" rest => inr (Percent, rest)
       | String "(" rest =>
           match key rest with
           | Some (name, rest) => inr (Ref name, rest)
           | None => inl InterpolationSyntaxError
           end
       | _ => inl InterpolationSyntaxError
       end.

Section Loop.
(** The value of a name, expanded itself when it has a percent sign. *)
Context (resolve : string -> config_error + string).

Definition token_text (t : token) : config_error + string :=
  match t with
  | Char c => inr (String c "")
  | Percent => inr "%"
  | Ref name => resolve (lower name)
  end.

(** The loop of [_interpolate_some]; every step consumes a character. *)
Fixpoint interpolate_rest (fuel : nat) (s : string) : config_error + string :=
  match fuel, s with
  | O, _ | _, EmptyString => inr ""
  | S fuel', String c s' =>
      match next_token c s' with
      | inl e => inl e
      | inr (t, rest) =>
          match token_text t with
          | inl e => inl e
          | inr text =>
              match interpolate_rest fuel' rest with inr r => inr (text +:+ r) | inl e => inl e end
          end
      end
  end.
End Loop.

(** [_interpolate_some] with [depth] levels left. *)
Fixpoint interpolate (options : string -> option string) (depth : nat) (s : string)
  : config_error + string :=
  match depth with
  | O => inl InterpolationDepthError
  | S depth' =>
      interpolate_rest (fun name =>
        match options name with
        | None => inl InterpolationMissingOptionError
        | Some v => if has_percent v then interpolate options depth' v else inr v
        end) (String.length s) s
  end.

Definition MAX_INTERPOLATION_DEPTH : nat := 10.

(** [BasicInterpolation.before_get]. *)
Definition before_get (options : string -> option string) (value : string) : config_error + string :=
  interpolate options MAX_INTERPOLATION_DEPTH value.

Example interpolate_url :
  before_get (fun n => if String.eqb n "here" then Some "/srv" else None) "%(Here)s/a%%b" = inr "/srv/a%b".
Proof. reflexivity. Qed.

(** ** Lemmas *)

(** How many percent signs. *)
Definition percents (s : string) : nat :=
  List.length (filter (fun c => c = percent) (list_ascii_of_string s)).

Lemma percents_cons c s :
  percents (String c s) = ((if (c =? percent)%char then 1 else 0) + percents s)%nat.
Proof.
  unfold percents. cbn [list_ascii_of_string]. rewrite filter_cons.
  destruct (Ascii.eqb_spec c percent); [by rewrite decide_True|by rewrite decide_False].
Qed.

Lemma percents_app s t : percents (s +:+ t) = (percents s + percents t)%nat.
Proof.
  induction s as [|c s IH]; [done|]. rewrite str_app_cons, !percents_cons, IH. lia.
Qed.

Lemma has_percent_percents s : has_percent s = negb (percents s =? 0)%nat.
Proof.
  unfold has_percent. induction s as [|c s IH]; [done|]. rewrite percents_cons. cbn [list_ascii_of_string existsb].
  rewrite IH, Ascii.eqb_sym. by destruct (c =? percent)%char.
Qed.

Lemma until_paren_app s name rest : until_paren s = Some (name, rest) -> s = name +:+ String ")" rest.
Proof.
  revert name. induction s as [|c s IH]; intros name; cbn; [done|].
  destruct (Ascii.eqb_spec c ")") as [->|]; [by intros [= <- <-]|].
  destruct (until_paren s) as [[nm r]|]; [|done]. intros [= <- <-]. by rewrite str_app_cons, <- IH.
Qed.

Lemma key_app s name rest : key s = Some (name, rest) -> s = name +:+ String ")" (String "s" rest).
Proof.
  unfold key. destruct (until_paren s) as [[[|a n] [|b r]]|] eqn:H; try done.
  destruct (Ascii.eqb_spec b "s") as [->|Hb].
  - intros [= <- <-]. by apply until_paren_app.
  - intros H'. exfalso. clear -H' Hb. destruct b as [[] [] [] [] [] [] [] []]; try discriminate H'. by apply Hb.
Qed.

(** A token and what it stands for: the rest is shorter, and no percent sign appears from nowhere. *)
Lemma next_token_split c s t rest :
  next_token c s = inr (t, rest) ->
  (String.length rest <= String.length s)%nat /\
  match t with
  | Char c' => c' = c /\ c <> percent /\ rest = s
  | Percent => c = percent /\ s = String percent rest
  | Ref name => c = percent /\ exists s', s = String "(" s' /\ key s' = Some (name, rest)
  end.
Proof.
  unfold next_token. destruct (Ascii.eqb_spec c percent) as [->|Hc]; cbn [negb].
  2: { intros [= <- <-]. by split. }
  destruct s as [|a s]; [done|].
  destruct (Ascii.eqb_spec a percent) as [->|Ha]; [intros [= <- <-]; split; [cbn; lia|done]|].
  destruct (Ascii.eqb_spec a "(") as [->|Ha']; cbn.
  - destruct (key s) as [[n r]|] eqn:Hk; [|done]. intros [= <- <-].
    pose proof (key_app _ _ _ Hk) as ->. rewrite str_app_length. cbn. split; [lia|].
    split; [done|]. by eexists.
  - intros H. exfalso. destruct a as [[] [] [] [] [] [] [] []]; try discriminate H; done.
Qed.

(** The tokens of a value. *)
Inductive parses : string -> list token -> Prop :=
  | parses_nil : parses "" []
  | parses_cons c s t rest ts :
      next_token c s = inr (t, rest) -> parses rest ts -> parses (String c s) (t :: ts).

Lemma parses_unique s ts ts' : parses s ts -> parses s ts' -> ts = ts'.
Proof.
  intros H. revert ts'. induction H as [|c s t rest ts Ht _ IH]; intros ts' H'; inversion H'; subst; [done|].
  rewrite Ht in H1. injection H1 as <- <-. f_equal. by apply IH.
Qed.

Lemma interpolate_tokens R fuel s r :
  (String.length s <= fuel)%nat -> interpolate_rest R fuel s = inr r ->
  exists ts texts, parses s ts /\ Forall2 (fun t x => token_text R t = inr x) ts texts /\
    r = foldr String.append "" texts.
Proof.
  revert s r. induction fuel as [|fuel IH]; intros [|c s] r Hl; cbn in Hl; try lia; cbn [interpolate_rest].
  - intros [= <-]. exists [], []. by repeat constructor.
  - intros [= <-]. exists [], []. by repeat constructor.
  - destruct (next_token c s) as [e|[t rest]] eqn:Ht; [done|].
    destruct (token_text R t) as [e|x] eqn:Hx; [done|].
    destruct (interpolate_rest R fuel rest) as [e|r'] eqn:Hr; [done|]. intros [= <-].
    destruct (next_token_split _ _ _ _ Ht) as [Hlen _].
    destruct (IH rest r' ltac:(lia) Hr) as (ts & texts & Hp & Hf & ->).
    exists (t :: ts), (x :: texts). split_and!; [by econstructor|by constructor|done].
Qed.

(** Expansion removes a percent sign wherever there is one, unless a value brings new ones. *)
Lemma expansion_shrinks R s ts texts :
  parses s ts -> Forall2 (fun t x => token_text R t = inr x) ts texts ->
  (forall name v, Ref name ∈ ts -> R (lower name) = inr v -> percents v = 0%nat) ->
  (percents (foldr String.append "" texts) + (if has_percent s then 1 else 0) <= percents s)%nat.
Proof.
  intros Hp. revert texts. induction Hp as [|c s t rest ts Ht _ IH]; intros texts Hf Href.
  - apply Forall2_nil_inv_l in Hf as ->. done.
  - apply Forall2_cons_inv_l in Hf as (x & texts' & Hx & Hf & ->). cbn [foldr].
    change (String.append x ?b) with (x +:+ b). rewrite percents_app.
    specialize (IH texts' Hf ltac:(intros name v Hin; apply Href; by right)).
    rewrite has_percent_percents in IH |- *.
    pose proof (next_token_split _ _ _ _ Ht) as [_ Hs]. destruct t as [c'| |name].
    + destruct Hs as (-> & Hc & ->). cbn in Hx. injection Hx as <-. rewrite !percents_cons.
      destruct (Ascii.eqb_spec c percent); [done|]. change (percents "") with 0%nat.
      cbn [Nat.add]. destruct (percents s =? 0)%nat; cbn [negb] in *; lia.
    + destruct Hs as (-> & ->). cbn in Hx. injection Hx as <-. rewrite !percents_cons.
      change (percents "") with 0%nat. cbn [Ascii.eqb Bool.eqb negb Nat.add Nat.eqb].
      destruct (percents rest =? 0)%nat; cbn [negb] in IH; lia.
    + destruct Hs as (-> & s' & -> & Hk). cbn in Hx.
      rewrite (Href name x (list_elem_of_here _ _) Hx), (key_app _ _ _ Hk), !percents_cons, percents_app, !percents_cons.
      cbn [Ascii.eqb Bool.eqb negb Nat.add Nat.eqb]. destruct (percents rest =? 0)%nat; cbn [negb] in IH; lia.
Qed.

(** *** Written and read back *)
Section Option.
Context (options : string -> option string) (self value : string).

(** The option itself; the others have no percent sign. *)
Hypothesis Hself : options self = Some value.
Hypothesis Hothers : forall name v, name <> self -> options name = Some v -> has_percent v = false.

Definition resolve_at (depth : nat) (name : string) : config_error + string :=
  match options name with
  | None => inl InterpolationMissingOptionError
  | Some v => if has_percent v then interpolate options depth v else inr v
  end.

(** A value that refers to itself never expands. *)
Lemma self_reference ts name :
  parses value ts -> Ref name ∈ ts -> lower name = self -> has_percent value = true ->
  forall depth r, interpolate options depth value <> inr r.
Proof.
  intros Hp Hin Hn Hv depth. induction depth as [|depth IH]; intros r H; [done|]. cbn [interpolate] in H.
  apply interpolate_tokens in H as (ts' & texts & Hp' & Hf & _); [|done].
  rewrite <- (parses_unique _ _ _ Hp Hp') in Hf.
  apply list_elem_of_lookup in Hin as [i Hi]. eapply Forall2_lookup_l in Hf as (x & _ & Hx); [|exact Hi].
  cbn in Hx. rewrite Hn, Hself, Hv in Hx. by eapply IH.
Qed.

Lemma expanded_differs depth r :
  has_percent value = true -> interpolate options depth value = inr r -> (percents r < percents value)%nat.
Proof.
  intros Hv H. pose proof H as Hself'. destruct depth as [|depth]; [done|]. cbn [interpolate] in H.
  apply interpolate_tokens in H as (ts & texts & Hp & Hf & ->); [|done].
  pose proof (expansion_shrinks (resolve_at depth) value ts texts Hp Hf) as Hs. rewrite Hv in Hs.
  enough (percents (foldr String.append "" texts) + 1 <= percents value)%nat by lia. apply Hs.
  intros name v Hin HR. unfold resolve_at in HR.
  destruct (decide (lower name = self)) as [Hn|Hn]; [by destruct (self_reference _ _ Hp Hin Hn Hv _ _ Hself')|].
  destruct (options (lower name)) as [v'|] eqn:Hv'; [|done].
  pose proof (Hothers _ _ Hn Hv') as Hno. rewrite Hno in HR. injection HR as <-.
  rewrite has_percent_percents in Hno. by apply negb_false_iff, Nat.eqb_eq in Hno.
Qed.
End Option.

Lemma plain_percent s : has_percent s = false <-> all_chars (not_char percent) s.
Proof.
  unfold has_percent. induction s as [|c s IH]; [done|]. cbn [list_ascii_of_string existsb all_chars].
  rewrite orb_false_iff, IH, Ascii.eqb_neq. unfold not_char. naive_solver.
Qed.

Lemma interpolate_plain R fuel s :
  (String.length s <= fuel)%nat -> has_percent s = false -> interpolate_rest R fuel s = inr s.
Proof.
  revert s. induction fuel as [|fuel IH]; intros [|c s] Hl Hp; cbn in Hl; try lia; try done.
  apply plain_percent in Hp as [Hc Hs]. cbn [interpolate_rest]. unfold next_token.
  destruct (Ascii.eqb_spec c percent); [done|]. cbn [negb token_text].
  rewrite IH; [done|lia|by apply plain_percent].
Qed.

Lemma erase_keys_plain s : has_percent s = false -> erase_keys s = s.
Proof.
  rewrite plain_percent. unfold erase_keys. generalize (String.length s) as n. intros n. revert s.
  induction n as [|n IH]; intros [|c s]; try done. intros [Hc Hs]. cbn [erase_keys_fuel].
  rewrite IH by done. by destruct c as [[] [] [] [] [] [] [] []].
Qed.

Lemma before_set_plain s : has_percent s = false -> before_set s = inr s.
Proof.
  intros H. unfold before_set. rewrite erase_absent by by apply plain_percent.
  by rewrite erase_keys_plain, H.
Qed.

Lemma before_set_value s v : before_set s = inr v -> v = s.
Proof. unfold before_set. case_match; [done|]. by intros [= ->]. Qed.

(** A percent sign before anything but another one or a parenthesis is refused. *)
Lemma erase_keys_stops a c b :
  all_chars (not_char percent) a -> c <> "("%char ->
  has_percent (erase_keys (a +:+ String percent (String c b))) = true.
Proof.
  intros Ha Hc. unfold erase_keys.
  assert (Hf : (String.length a < String.length (a +:+ String percent (String c b)))%nat)
    by (rewrite str_app_length; cbn; lia).
  revert Hf. generalize (String.length (a +:+ String percent (String c b))) as n.
  induction a as [|x a IH]; intros n Hn; (destruct n as [|n]; [cbn in Hn; lia|]).
  - rewrite str_app_nil_l. cbn [erase_keys_fuel].
    destruct c as [[] [] [] [] [] [] [] []]; try reflexivity. by destruct Hc.
  - destruct Ha as [Hx Ha]. rewrite str_app_cons. cbn [erase_keys_fuel].
    assert (Hnone : (match String x (a +:+ String percent (String c b)) with
                     | String "%" (String "(" r) => key r | _ => None end) = None).
    { destruct x as [[] [] [] [] [] [] [] []]; try reflexivity. by destruct Hx. }
    rewrite Hnone. unfold has_percent. cbn [list_ascii_of_string existsb]. apply orb_true_iff. right.
    apply IH; [done|]. cbn in Hn. lia.
Qed.

Lemma drop_prefix_head a p c s : c <> a -> drop_prefix (String a p) (String c s) = None.
Proof. intros Hc. cbn. by destruct (Ascii.eqb_spec a c) as [->|]. Qed.
Lemma drop_prefix_cons a p s : drop_prefix (String a p) (String a s) = drop_prefix p s.
Proof. cbn. by rewrite Ascii.eqb_refl. Qed.
Lemma erase_kept fuel p c s :
  drop_prefix p (String c s) = None -> erase_fuel (S fuel) p (String c s) = String c (erase_fuel fuel p s).
Proof. intros H. cbn [erase_fuel]. by rewrite H. Qed.

Lemma erase_doubled a c b :
  all_chars (not_char percent) a -> c <> percent ->
  exists b', erase "%%" (a +:+ String percent (String c b)) = a +:+ String percent (String c b').
Proof.
  intros Ha Hc. unfold erase.
  assert (Hf : (String.length a + 2 <= String.length (a +:+ String percent (String c b)))%nat)
    by (rewrite str_app_length; cbn; lia).
  revert Hf. generalize (String.length (a +:+ String percent (String c b))) as n.
  induction a as [|x a IH]; intros n Hn; cbn in Hn.
  - destruct n as [|[|n]]; [lia..|]. rewrite str_app_nil_l.
    rewrite !erase_kept; [by eexists|by apply drop_prefix_head|].
    rewrite drop_prefix_cons. by apply drop_prefix_head.
  - destruct n as [|n]; [lia|]. destruct Ha as [Hx Ha]. rewrite str_app_cons.
    rewrite erase_kept by by apply drop_prefix_head.
    destruct (IH Ha n ltac:(lia)) as [b' ->]. exists b'. by rewrite str_app_cons.
Qed.

(** A percent-encoded character is refused by [before_set]. *)
Lemma encoded_refused a c b :
  all_chars (not_char percent) a -> c <> percent -> c <> "("%char ->
  before_set (a +:+ String percent (String c b)) = inl InvalidInterpolationSyntax.
Proof.
  intros Ha Hc Hp. unfold before_set. destruct (erase_doubled a c b Ha Hc) as [b' ->].
  by rewrite erase_keys_stops.
Qed.
