(* ===== verification/MigrationEnv.v ===== *)
(** * MigrationEnv: alembic/env.py

    How the database URL reaches Alembic's connection, and the calls of an offline and an online
    run.  [run_migrations] is a parameter, the effect of the pending migrations on the catalog;
    Migration.v is the only one there is. *)
From S2P Require Import Prelude Text Json Schema Config Interpolation Migration.
#[local] Open Scope string_scope.

(** ** The configuration *)

(** The options of the section [alembic], with the defaults of the parser. *)
Abbreviation options := (gmap string string) (only parsing).

(** alembic.ini; [here] is the directory of the file, which Alembic adds. *)
Definition alembic_ini (here : string) : options :=
  <["script_location" := "alembic"]> (<["prepend_sys_path" := "."]> {["here" := here]}).

(** [parser.set(section, name, value)], [parser.get(section, name)] and
    [dict(parser.items(section))] of the standard library; Alembic's [set_main_option],
    [get_main_option] and [get_section] hand over to them. *)
Definition parser_set (name value : string) (config : options) : config_error + options :=
  match before_set value with inl e => inl e | inr v => inr (<[lower name := v]> config) end.

Definition expanded (config : options) (value : string) : config_error + string :=
  before_get (fun name => config !! name) value.

Definition parser_get (name : string) (config : options) : config_error + option string :=
  match config !! lower name with
  | None => inr None
  | Some v => match expanded config v with inl e => inl e | inr r => inr (Some r) end
  end.

Fixpoint expand_all (config : options) (items : list (string * string))
  : config_error + list (string * string) :=
  match items with
  | [] => inr []
  | (k, v) :: items =>
      match expanded config v with
      | inl e => inl e
      | inr r => match expand_all config items with inl e => inl e | inr l => inr ((k, r) :: l) end
      end
  end.
Definition parser_items (config : options) : config_error + list (string * string) :=
  expand_all config (map_to_list config).

(** ** The runs *)

(** The arguments of [context.configure] that are the program's. *)
Record ContextOptions := mkContextOptions {
  url : option string;
  has_connection : bool;
  literal_binds : bool;
  paramstyle : option string;
  compare_type : bool }.

Inductive call :=
  | FileConfig (path : string)
  | Configure (options : ContextOptions)
  | Connect (url : string)
  | Begin
  | RunMigrations
  | Commit
  | Rollback
  | Close
  | Dispose.

Inductive env_error := ConfigError (e : config_error) | MissingUrl | MigrationError.

Record Run := mkRun { calls : list call; database : catalog; raised : option env_error }.

Section Env.
Context (run_migrations : catalog -> option catalog).

(** The script is printed, the database is not touched. *)
Definition run_migrations_offline (config : options) (cat : catalog) : Run :=
  match parser_get "sqlalchemy.url" config with
  | inl e => mkRun [] cat (Some (ConfigError e))
  | inr url =>
      mkRun [Configure (mkContextOptions url false true (Some "named") true); Begin; RunMigrations; Commit]
        cat None
  end.

(** One transaction around all migrations; an exception leaves both [async with] blocks and skips
    [dispose]. *)
Definition run_async_migrations (config : options) (cat : catalog) : Run :=
  match parser_items config with
  | inl e => mkRun [] cat (Some (ConfigError e))
  | inr section =>
      match List.find (fun kv => String.eqb kv.1 "sqlalchemy.url") section with
      | None => mkRun [] cat (Some MissingUrl)
      | Some (_, url) =>
          let opened := [Connect url; Configure (mkContextOptions None true false None true);
                         Begin; RunMigrations] in
          match run_migrations cat with
          | Some cat' => mkRun (opened ++ [Commit; Close; Dispose])%list cat' None
          | None => mkRun (opened ++ [Rollback; Close])%list cat (Some MigrationError)
          end
      end
  end.

(** The last statement of the module. *)
Definition run_mode (is_offline_mode : bool) : options -> catalog -> Run :=
  if is_offline_mode then run_migrations_offline else run_async_migrations.

Definition env (settings : Settings) (config_file_name : option string) (is_offline_mode : bool)
    (config : options) (cat : catalog) : Run :=
  let start := match config_file_name with Some path => [FileConfig path] | None => [] end in
  match parser_set "sqlalchemy.url" settings.(database_url) config with
  | inl e => mkRun start cat (Some (ConfigError e))
  | inr config =>
      let run := run_mode is_offline_mode config cat in
      {| run with calls := (start ++ run.(calls))%list |}
  end.
End Env.

(** ** Lemmas *)
Lemma expand_all_lookup config items section k v :
  expand_all config items = inr section -> (k, v) ∈ items -> exists r, expanded config v = inr r /\ (k, r) ∈ section.
Proof.
  revert section. induction items as [|[k' v'] items IH]; intros section; cbn [expand_all]; [set_solver|].
  destruct (expanded config v') as [e|r'] eqn:Hv; [done|].
  destruct (expand_all config items) as [e|l]; [done|]. intros [= <-] [[= -> ->]|Hin]%elem_of_cons.
  - exists r'. split; [done|left].
  - destruct (IH l eq_refl Hin) as (r & Hr & Hl). exists r. split; [done|by right].
Qed.

Lemma expand_all_keys config items section :
  expand_all config items = inr section -> section.*1 = items.*1.
Proof.
  revert section. induction items as [|[k v] items IH]; intros section; cbn [expand_all]; [by intros [= <-]|].
  destruct (expanded config v) as [e|r]; [done|]. destruct (expand_all config items) as [e|l]; [done|].
  intros [= <-]. cbn. by rewrite (IH l eq_refl).
Qed.

Lemma expand_all_plain config items :
  (forall k v, (k, v) ∈ items -> has_percent v = false) -> expand_all config items = inr items.
Proof.
  induction items as [|[k v] items IH]; intros H; [done|]. cbn [expand_all].
  unfold expanded, before_get, MAX_INTERPOLATION_DEPTH. cbn [interpolate].
  rewrite interpolate_plain; [|done|apply (H k), list_elem_of_here].
  rewrite IH; [done|]. intros k' v' Hin. apply (H k'). by right.
Qed.

(** The URL that the engine is created with is the expansion of the configured one. *)
Lemma section_url config v section k r :
  config !! "sqlalchemy.url" = Some v -> parser_items config = inr section ->
  List.find (fun kv => String.eqb kv.1 "sqlalchemy.url") section = Some (k, r) -> expanded config v = inr r.
Proof.
  intros Hv Hs Hf. apply List.find_some in Hf as [Hin%list_elem_of_In Hk%String.eqb_eq]. cbn in Hk. subst k.
  apply elem_of_map_to_list in Hv. destruct (expand_all_lookup _ _ _ _ _ Hs Hv) as (r' & Hr & Hin').
  assert (Hnd : NoDup section.*1) by (rewrite (expand_all_keys _ _ _ Hs); apply NoDup_fst_map_to_list).
  by rewrite (NoDup_fst_unique _ _ _ _ Hnd Hin Hin').
Qed.

Lemma section_plain config :
  map_Forall (fun _ v => has_percent v = false) config -> parser_items config = inr (map_to_list config).
Proof.
  intros H. apply expand_all_plain. intros k v Hin%elem_of_map_to_list. by eapply H.
Qed.

Lemma ini_plain here name v :
  has_percent here = false -> alembic_ini here !! name = Some v -> has_percent v = false.
Proof.
  intros Hh. unfold alembic_ini. rewrite !lookup_insert_Some, lookup_singleton_Some.
  intros [[_ <-]|(_ & [[_ <-]|(_ & _ & <-)])]; done.
Qed.

Lemma find_url (l : list (string * string)) v :
  NoDup l.*1 -> ("sqlalchemy.url", v) ∈ l ->
  List.find (fun kv => String.eqb kv.1 "sqlalchemy.url") l = Some ("sqlalchemy.url", v).
Proof.
  intros Hnd Hin. destruct (List.find _ l) as [[k r]|] eqn:Hf.
  - apply List.find_some in Hf as [Hin'%list_elem_of_In Hk%String.eqb_eq]. cbn in Hk. subst k.
    by rewrite (NoDup_fst_unique _ _ _ _ Hnd Hin Hin').
  - eapply List.find_none in Hf; [|by apply list_elem_of_In]. done.
Qed.

(** An online run. *)
Definition migrated (run_migrations : catalog -> option catalog) (cat : catalog) (run : Run) : Prop :=
  (forall url, Connect url ∈ run.(calls) ->
     Begin ∈ run.(calls) /\ (Commit ∈ run.(calls) <-> run.(raised) = None)) /\
  (run.(raised) = None /\ run_migrations cat = Some run.(database) \/
   is_Some run.(raised) /\ run.(database) = cat /\ Commit ∉ run.(calls)).

Lemma failed_run run_migrations cat l e :
  (forall url, Connect url ∉ l) -> Commit ∉ l -> migrated run_migrations cat (mkRun l cat (Some e)).
Proof. intros Hn Hc. split; cbn; [by intros url ?%Hn|]. right. by split_and!. Qed.

Lemma run_async_migrated run_migrations config cat :
  migrated run_migrations cat (run_async_migrations run_migrations config cat).
Proof.
  unfold run_async_migrations. destruct (parser_items config) as [e|section]; [apply failed_run; set_solver|].
  destruct (List.find _ _) as [[k url]|]; [|apply failed_run; set_solver].
  destruct (run_migrations cat) as [cat'|] eqn:Hm; split; cbn [calls raised database].
  - intros u _. split; [set_solver|]. split; [done|set_solver].
  - by left.
  - intros u _. split; [set_solver|]. split; [set_solver|done].
  - right. split_and!; [done..|set_solver].
Qed.

Lemma opened_url url u c l :
  (forall url, Connect url ∉ l) -> Connect url ∈ ([Connect u; Configure c; Begin; RunMigrations] ++ l)%list ->
  url = u.
Proof. intros Hl. cbn. set_solver. Qed.

Lemma run_async_connects run_migrations here url cat :
  has_percent here = false ->
  Connect url ∈ (run_async_migrations run_migrations
    (<["sqlalchemy.url" := url]> (alembic_ini here)) cat).(calls) <-> has_percent url = false.
Proof.
  intros Hh. set (config := <["sqlalchemy.url" := url]> (alembic_ini here)).
  assert (Hurl : config !! "sqlalchemy.url" = Some url) by apply lookup_insert_eq.
  unfold run_async_migrations. split; intros H.
  - destruct (has_percent url) eqn:Hp; [exfalso|done].
    destruct (parser_items config) as [e|section] eqn:Hs; [by apply elem_of_nil in H|].
    destruct (List.find _ section) as [[k r]|] eqn:Hf; [|by apply elem_of_nil in H].
    pose proof (section_url _ _ _ _ _ Hurl Hs Hf) as Hr.
    assert (Hne : (percents r < percents url)%nat).
    { eapply (expanded_differs (fun name => config !! name) "sqlalchemy.url"); [exact Hurl| |exact Hp|exact Hr].
      intros name v Hn Hv. unfold config in Hv. rewrite lookup_insert_ne in Hv by done.
      by eapply ini_plain. }
    destruct (run_migrations cat); cbn [calls] in H; clear Hs Hf Hr Hurl config;
      apply opened_url in H; first [set_solver|subst r; lia].
  - rewrite section_plain, (find_url _ url).
    + destruct (run_migrations cat); cbn [calls]; left.
    + apply NoDup_fst_map_to_list.
    + by apply elem_of_map_to_list.
    + intros name v Hv. destruct (decide (name = "sqlalchemy.url")) as [->|Hn]; [congruence|].
      unfold config in Hv. rewrite lookup_insert_ne in Hv by done. exact (ini_plain _ _ _ Hh Hv).
Qed.

(** ** Property *)

(** C40: an online run of the migrations opens a connection to the configured URL exactly when that
    URL has no percent sign: one inside a percent-encoded password is refused or read back
    changed.  Whatever happens, the database ends up either as it was, with the exception raised, or
    completely migrated. *)
Theorem migrations_reach_database run_migrations settings config_file_name here cat :
  has_percent here = false ->
  let run := env run_migrations settings config_file_name false (alembic_ini here) cat in
  (Connect settings.(database_url) ∈ run.(calls) <-> has_percent settings.(database_url) = false) /\
  migrated run_migrations cat run.
Proof.
  intros Hh. unfold env. set (url := database_url settings).
  set (start := match config_file_name with Some path => [FileConfig path] | None => [] end).
  assert (Hno : forall u, Connect u ∉ start) by (unfold start; destruct config_file_name; set_solver).
  assert (Hnc : Commit ∉ start) by (unfold start; destruct config_file_name; set_solver).
  unfold parser_set. destruct (before_set url) as [e|v] eqn:Hset; cbn [calls raised database].
  - split; [|by apply failed_run]. split; [by intros []%Hno|].
    intros Hp. by rewrite before_set_plain in Hset.
  - apply before_set_value in Hset as ->. change (lower "sqlalchemy.url") with "sqlalchemy.url".
    set (config := <["sqlalchemy.url" := url]> (alembic_ini here)). split.
    + rewrite <- (run_async_connects run_migrations here url cat Hh). fold config. rewrite elem_of_app.
      split; [intros [[]%Hno|?]; done|by right].
    + destruct (run_async_migrated run_migrations config cat) as [Hc Hd]. unfold migrated. cbn [calls raised database].
      split.
      * intros u [[]%Hno|[Hb Hiff]%Hc]%elem_of_app. rewrite !elem_of_app. split; [by right|]. tauto.
      * rewrite elem_of_app. tauto.
Qed.

Definition encoded_settings : Settings :=
  {| default_settings with database_url := "postgresql+asyncpg://app:p%40ss@db/tenantflow" |}.

(** The default URL is used; a password with an encoded sign stops the run. *)
Lemma migrations_reach_database_witness :
  Connect default_settings.(database_url) ∈
    (env (execute_all upgrade) default_settings None false (alembic_ini "/srv") []).(calls) /\
  Connect encoded_settings.(database_url) ∉
    (env (execute_all upgrade) encoded_settings None false (alembic_ini "/srv") []).(calls).
Proof.
  destruct (migrations_reach_database (execute_all upgrade) default_settings None "/srv" [] eq_refl) as [H1 _].
  destruct (migrations_reach_database (execute_all upgrade) encoded_settings None "/srv" [] eq_refl) as [H2 _].
  split; [by apply H1|]. rewrite H2. discriminate.
Defined.
