(* ===== verification/Tracing.v ===== *)
(** * Tracing: observability/tracing.py

    The set-up of OpenTelemetry as the list of library calls it makes; which modules can be imported
    is a parameter, and the calls are taken to succeed. *)
From S2P Require Import Prelude Config.
#[local] Open Scope string_scope.

(** The import statements of the [try] block, in order. *)
Definition modules : list string :=
  ["opentelemetry"; "opentelemetry.exporter.otlp.proto.http.trace_exporter";
   "opentelemetry.instrumentation.fastapi"; "opentelemetry.instrumentation.httpx";
   "opentelemetry.instrumentation.redis"; "opentelemetry.instrumentation.sqlalchemy";
   "opentelemetry.sdk.resources"; "opentelemetry.sdk.trace"; "opentelemetry.sdk.trace.export";
   "app.db.session"].

Inductive otel_call :=
  | TracerProvider (service_name : string)
  | AddSpanProcessor (endpoint : string)
  | SetTracerProvider
  | InstrumentFastAPI
  | InstrumentSQLAlchemy
  | InstrumentHTTPX
  | InstrumentRedis
  | Warning (message : string).

Section Tracing.
Context (importable : string -> bool).

(** [None] is the ImportError of the first module that is missing. *)
Fixpoint import_all (l : list string) : option unit :=
  match l with
  | [] => Some tt
  | m :: l => if importable m then import_all l else None
  end.

Definition instrument (settings : Settings) : list otel_call :=
  [TracerProvider "tenantflow-api";
   AddSpanProcessor (settings.(otel_exporter_otlp_endpoint) +:+ "/v1/traces");
   SetTracerProvider; InstrumentFastAPI; InstrumentSQLAlchemy; InstrumentHTTPX; InstrumentRedis].

Definition configure_tracing (settings : Settings) : list otel_call :=
  if negb settings.(otel_enabled) then []
  else match import_all modules with
       | Some _ => instrument settings
       | None =>
           [Warning "OpenTelemetry requested but instrumentation dependencies are unavailable"]
       end.

(** *** Lemmas *)
Lemma import_all_spec l :
  match import_all l with
  | Some _ => forall m, m ∈ l -> importable m = true
  | None => exists m, m ∈ l /\ importable m = false
  end.
Proof.
  induction l as [|m l IH]; cbn; [by intros m ?%elem_of_nil|]. destruct (importable m) eqn:Hm.
  - destruct (import_all l).
    + intros m' [->|Hin]%elem_of_cons; [done|by apply IH].
    + destruct IH as (m' & Hin & Hf). exists m'. split; [by right|done].
  - exists m. split; [left|done].
Qed.

(** All or nothing: a program without the dependencies runs uninstrumented, with a warning. *)
Lemma tracing_all_or_nothing settings :
  match configure_tracing settings with
  | [] => settings.(otel_enabled) = false
  | [Warning _] => settings.(otel_enabled) = true /\ exists m, m ∈ modules /\ importable m = false
  | l => settings.(otel_enabled) = true /\ (forall m, m ∈ modules -> importable m = true) /\
         l = instrument settings
  end.
Proof.
  unfold configure_tracing. destruct (otel_enabled settings); cbn [negb]; [|done].
  pose proof (import_all_spec modules) as Hi. destruct (import_all modules) as [[]|]; [|by split].
  cbn [instrument]. by split_and!.
Qed.
End Tracing.
