(* ===== verification/Lifecycle.v ===== *)
(** * Lifecycle: the abstract specification of the database

    What may happen to the rows of every table, independent of the code: how rows are born, how
    they evolve, which are deleted.  [write who T] is one such write, to the tables [T] and to rows
    whose tenant satisfies [who].  The service files refine sequences of writes (Refinement); the
    invariants of the program are proved here, once, by induction on such sequences. *)
From stdpp Require Import relations.
From S2P Require Import Prelude Text Json Schema.
#[local] Open Scope string_scope.

(** ** Tenants *)

(** The organization a row belongs to; [None] for the tables shared by all tenants. *)
Definition tenant_of (t : table) (db : Db) : row t -> option uuid :=
  match t return row t -> option uuid with
  | TUser | TRefreshToken | TStripeEvent => fun _ => None
  | TOrganization => fun r => Some r.(org_id)
  | TMembership => fun r => Some r.(mem_organization_id)
  | TInvitation => fun r => Some r.(inv_organization_id)
  | TProject => fun r => Some r.(prj_organization_id)
  | TTask => fun r => Some r.(task_organization_id)
  | TAttachment => fun r => Some r.(att_organization_id)
  | TIdempotency => fun r => r.(idem_organization_id)
  | TEndpoint => fun r => Some r.(ep_organization_id)
  | TDelivery => fun r => ep_organization_id <$> find TEndpoint db r.(dlv_endpoint_id)
  | TSubscription => fun r => Some r.(sub_organization_id)
  | TAuditLog => fun r => Some r.(aud_organization_id)
  end.

(** ** Rows *)

(** An upload: an object under the prefix of its organization, of an allowed type and size. *)
Definition upload_types : list string :=
  ["application/pdf"; "image/jpeg"; "image/png"; "text/plain"; "text/csv"].
Definition upload_lawful (a : Attachment) : Prop :=
  (exists name, a.(att_object_key) =
     "organizations/" +:+ uuid_str a.(att_organization_id) +:+ "/" +:+ name) /\
  a.(att_content_type) ∈ upload_types /\ (a.(att_size_bytes) <= 20971520)%Z.

(** An endpoint lists events that exist, each once. *)
Definition event_types : list string :=
  ["project.created"; "project.updated"; "project.deleted"; "task.created"; "task.updated";
   "task.completed"; "task.deleted"; "member.invited"].
Definition events_lawful (e : WebhookEndpoint) : Prop :=
  NoDup e.(ep_events) /\ e.(ep_events) ⊆ event_types.

(** What the program keeps to beyond the constraints of the database. *)
Definition lawful (t : table) : row t -> Prop :=
  match t return row t -> Prop with
  | TUser => fun r => r.(user_is_active) = true /\ r.(user_email) = lower r.(user_email)
  | TInvitation => fun r =>
      r.(inv_email) = lower r.(inv_email) /\ r.(inv_status) ∈ ["pending"; "accepted"; "expired"]
  | TAttachment => upload_lawful
  | TRefreshToken => fun r => is_Some r.(rt_replaced_by_hash) -> is_Some r.(rt_revoked_at)
  | TIdempotency => fun r => r.(idem_status) = "processing" \/
      r.(idem_status) = "completed" /\ is_Some r.(idem_response_status) /\
      is_Some r.(idem_response_body)
  | TEndpoint => events_lawful
  | TDelivery => fun r => (0 <= r.(dlv_attempt_count))%Z /\
      (r.(dlv_state) = "delivered" -> is_Some r.(dlv_response_status))
  | _ => fun _ => True
  end.

(** ** Life cycles *)

(** The state of a new row.  Organizations and their owners are only born together, below. *)
Definition born (t : table) : row t -> Prop :=
  match t return row t -> Prop with
  | TUser => fun r => r.(user_is_active) = true /\ r.(user_email) = lower r.(user_email)
  | TOrganization => fun _ => False
  | TMembership => fun r => r.(mem_role) <> "owner"
  | TInvitation => fun r => r.(inv_status) = "pending" /\ r.(inv_email) = lower r.(inv_email)
  | TProject => fun r => r.(prj_status) = "active"
  | TTask => fun r => r.(task_status) = "todo"
  | TAttachment => upload_lawful
  | TRefreshToken => fun r => r.(rt_revoked_at) = None /\ r.(rt_replaced_by_hash) = None
  | TIdempotency => fun r => r.(idem_status) = "processing" /\ r.(idem_response_status) = None /\
      r.(idem_response_body) = None
  | TEndpoint => fun r => r.(ep_is_active) = true /\ events_lawful r
  | TDelivery => fun r => r.(dlv_state) = "pending" /\ r.(dlv_attempt_count) = 0%Z
  | TSubscription => fun r => r.(sub_plan) = "free" /\ r.(sub_status) = "inactive"
  | TStripeEvent | TAuditLog => fun _ => True
  end.

(** The admissible updates of a row. *)
Definition evolve (t : table) : row t -> row t -> Prop :=
  match t return row t -> row t -> Prop with
  | TUser | TOrganization | TAttachment | TStripeEvent | TAuditLog => fun _ _ => False
  | TMembership => fun r r' =>
      r.(mem_role) <> "owner" /\ r'.(mem_role) <> "owner" /\
      r'.(mem_organization_id) = r.(mem_organization_id) /\ r'.(mem_user_id) = r.(mem_user_id)
  | TInvitation => fun r r' =>
      r.(inv_status) = "pending" /\ r'.(inv_status) ∈ ["accepted"; "expired"] /\
      r'.(inv_organization_id) = r.(inv_organization_id) /\ r'.(inv_email) = r.(inv_email) /\
      r'.(inv_role) = r.(inv_role) /\ r'.(inv_token_hash) = r.(inv_token_hash) /\
      r'.(inv_expires_at) = r.(inv_expires_at)
  | TProject => fun r r' =>
      r'.(prj_organization_id) = r.(prj_organization_id) /\ r'.(prj_created_by) = r.(prj_created_by)
  | TTask => fun r r' =>
      r'.(task_organization_id) = r.(task_organization_id) /\
      r'.(task_project_id) = r.(task_project_id) /\ r'.(task_created_by) = r.(task_created_by)
  | TRefreshToken => fun r r' =>
      r.(rt_revoked_at) = None /\ is_Some r'.(rt_revoked_at) /\
      r'.(rt_user_id) = r.(rt_user_id) /\ r'.(rt_token_hash) = r.(rt_token_hash) /\
      r'.(rt_family_id) = r.(rt_family_id) /\ r'.(rt_expires_at) = r.(rt_expires_at)
  | TIdempotency => fun r r' =>
      r.(idem_status) = "processing" /\ r'.(idem_status) = "completed" /\
      is_Some r'.(idem_response_status) /\ is_Some r'.(idem_response_body) /\
      r'.(idem_organization_id) = r.(idem_organization_id) /\ r'.(idem_user_id) = r.(idem_user_id) /\
      r'.(idem_scope) = r.(idem_scope) /\ r'.(idem_key) = r.(idem_key) /\
      r'.(idem_request_hash) = r.(idem_request_hash)
  | TEndpoint => fun r r' =>
      r'.(ep_is_active) = false /\ r'.(ep_organization_id) = r.(ep_organization_id) /\
      r'.(ep_url) = r.(ep_url) /\ r'.(ep_events) = r.(ep_events) /\
      r'.(ep_signing_secret_encrypted) = r.(ep_signing_secret_encrypted)
  | TDelivery => fun r r' =>
      (r.(dlv_attempt_count) <= r'.(dlv_attempt_count))%Z /\
      (r'.(dlv_state) = "delivered" -> is_Some r'.(dlv_response_status)) /\
      r'.(dlv_endpoint_id) = r.(dlv_endpoint_id) /\ r'.(dlv_event_id) = r.(dlv_event_id) /\
      r'.(dlv_event_type) = r.(dlv_event_type) /\ r'.(dlv_payload) = r.(dlv_payload)
  | TSubscription => fun r r' => r'.(sub_organization_id) = r.(sub_organization_id)
  end.

Inductive write (who : option uuid -> Prop) (T : list table) (db : Db) : Db -> Prop :=
  | write_insert t r :
      t ∈ T -> who (tenant_of t db r) -> born t r ->
      find t db (row_id t r) = None -> row_ok t db r = true ->
      write who T db (put t r db)
  | write_update t old new :
      t ∈ T -> who (tenant_of t db old) -> evolve t old new ->
      find t db (row_id t new) = Some old -> row_ok t db new = true ->
      write who T db (put t new db)
  | write_organization o m :
      TOrganization ∈ T -> TMembership ∈ T -> who (Some o.(org_id)) ->
      find TOrganization db o.(org_id) = None -> row_ok TOrganization db o = true ->
      find TMembership db m.(mem_id) = None ->
      row_ok TMembership (put TOrganization o db) m = true ->
      m.(mem_organization_id) = o.(org_id) -> m.(mem_role) = "owner" ->
      write who T db (put TMembership m (put TOrganization o db))
  | write_remove_member id m :
      TMembership ∈ T -> who (Some m.(mem_organization_id)) ->
      find TMembership db id = Some m -> m.(mem_role) <> "owner" ->
      write who T db (del TMembership id db)
  | write_delete_task id k :
      TTask ∈ T -> TAttachment ∈ T -> who (Some k.(task_organization_id)) ->
      find TTask db id = Some k ->
      write who T db (delete_task_row id db)
  | write_delete_project id p :
      TProject ∈ T -> TTask ∈ T -> TAttachment ∈ T -> who (Some p.(prj_organization_id)) ->
      find TProject db id = Some p ->
      write who T db (delete_project_row id db).

(** A sequence of writes. *)
Abbreviation writes who T := (rtc (write who T)).

Lemma write_weaken (who who' : option uuid -> Prop) T T' db db' :
  (forall o, who o -> who' o) -> T ⊆ T' -> write who T db db' -> write who' T' db db'.
Proof.
  intros Hw HT H. destruct H; [eapply write_insert|eapply write_update|eapply write_organization
    |eapply write_remove_member|eapply write_delete_task|eapply write_delete_project]; eauto.
Qed.

Lemma writes_weaken (who who' : option uuid -> Prop) T T' db db' :
  (forall o, who o -> who' o) -> T ⊆ T' -> writes who T db db' -> writes who' T' db db'.
Proof.
  intros Hw HT. induction 1 as [|db db1 db' Hs _ IH]; [done|].
  eapply rtc_l; [|exact IH]. by eapply write_weaken.
Qed.

(** ** Well-formedness *)

(** An admissible update preserves the tenant, and what other rows rely on. *)
Lemma evolve_tenant t db old new : evolve t old new -> tenant_of t db new = tenant_of t db old.
Proof. destruct t; cbn; try done; intros; destruct_and?; congruence. Qed.

Lemma evolve_anchor t old new : evolve t old new -> same_anchor t old new.
Proof. destruct t; cbn; try done; intros; destruct_and?; congruence. Qed.

Lemma write_db_ok who T db db' : write who T db db' -> db_ok db -> db_ok db'.
Proof.
  intros H Hok. destruct H.
  - apply db_ok_put; [done..|]. intros old Hold. congruence.
  - apply db_ok_put; [done..|]. intros old' Hold'. simplify_eq. by apply evolve_anchor.
  - apply db_ok_put; [|done|done]. apply db_ok_put; done.
  - by apply db_ok_del.
  - by apply db_ok_delete_task_row.
  - by apply db_ok_delete_project_row.
Qed.

Lemma writes_db_ok who T db db' : writes who T db db' -> db_ok db -> db_ok db'.
Proof. induction 1; eauto using write_db_ok. Qed.

(** *** Lawful rows *)
Definition lawful_rows (db : Db) : Prop := forall t id r, find t db id = Some r -> lawful t r.

Lemma born_lawful t r : born t r -> lawful t r.
Proof.
  destruct t; cbn; try done; intros; destruct_and?.
  - split; [done|]. set_solver.
  - simplify_option_eq. by destruct (is_Some_None (A := string)); congruence.
  - by left.
  - assumption.
  - split; [lia|]. congruence.
Qed.

Lemma evolve_lawful t r r' : evolve t r r' -> lawful t r -> lawful t r'.
Proof.
  destruct t; cbn; try done; intros; destruct_and?.
  - split; [congruence|set_solver].
  - done.
  - by right.
  - unfold events_lawful in *. replace (ep_events r') with (ep_events r) by congruence. tauto.
  - split; [lia|done].
Qed.

Lemma lawful_rows_sub db db' :
  (forall t id r, find t db' id = Some r -> find t db id = Some r) -> lawful_rows db -> lawful_rows db'.
Proof. intros H Hl t id r Hr. by eapply Hl, H. Qed.

Lemma lawful_rows_put t r db : lawful t r -> lawful_rows db -> lawful_rows (put t r db).
Proof.
  intros Hr Hl t' id r' [(<- & -> & ->)|[H _]]%lookup_put_Some; [done|by eapply Hl].
Qed.

Lemma write_lawful who T db db' : write who T db db' -> lawful_rows db -> lawful_rows db'.
Proof.
  intros H Hl. destruct H.
  - by apply lawful_rows_put; [apply born_lawful|].
  - apply lawful_rows_put; [|done]. eapply evolve_lawful; [done|]. by eapply Hl.
  - by do 2 (apply lawful_rows_put; [done|]).
  - eapply lawful_rows_sub; [|exact Hl]. intros *. apply del_sub.
  - eapply lawful_rows_sub; [|exact Hl]. intros *. apply delete_task_row_sub.
  - eapply lawful_rows_sub; [|exact Hl]. intros *. apply delete_project_row_sub.
Qed.

Lemma writes_lawful who T db db' : writes who T db db' -> lawful_rows db -> lawful_rows db'.
Proof. induction 1; eauto using write_lawful. Qed.

(** Tables outside the footprint keep their rows. *)
Lemma write_frame who T db db' t : write who T db db' -> t ∉ T -> db' t = db t.
Proof.
  intros H Ht. destruct H.
  - by rewrite put_ne by (intros <-; done).
  - by rewrite put_ne by (intros <-; done).
  - by rewrite !put_ne by (intros <-; done).
  - by rewrite del_ne by (intros <-; done).
  - by rewrite delete_task_row_ne by (intros ->; done).
  - by rewrite delete_project_row_ne by (intros ->; done).
Qed.

Lemma writes_frame who T db db' t : writes who T db db' -> t ∉ T -> db' t = db t.
Proof.
  induction 1 as [|db db1 db' Hs _ IH]; [done|]. intros Ht. rewrite IH by done.
  by eapply write_frame.
Qed.

(** ** Tenant isolation *)

(** An endpoint stays, with its organization. *)
Lemma write_endpoint who T db db' id e :
  write who T db db' -> find TEndpoint db id = Some e ->
  exists e', find TEndpoint db' id = Some e' /\ e'.(ep_organization_id) = e.(ep_organization_id).
Proof.
  intros H He.
  assert (Hput : forall t r, (t = TEndpoint -> False) -> find TEndpoint (put t r db) id = Some e)
    by (intros t r Ht; by rewrite put_ne by (intros ->; auto)).
  destruct H as [t r _ _ _ Hn _|t old new _ _ Hev Hold _| | | | ].
  - destruct (decide (t = TEndpoint)) as [->|Ht]; [|eauto].
    exists e. rewrite lookup_put_ne; [done|]. congruence.
  - destruct (decide (t = TEndpoint)) as [->|Ht]; [|eauto].
    destruct (decide (ep_id new = id)) as [<-|Hne].
    + exists new. rewrite find_put by done. cbn in *. split; [done|]. destruct_and!. congruence.
    + exists e. by rewrite lookup_put_ne.
  - exists e. by tables.
  - exists e. by tables.
  - exists e. by rewrite delete_task_row_ne.
  - exists e. by rewrite delete_project_row_ne.
Qed.

Lemma write_tenant_of who T db db' t r :
  write who T db db' -> refs_ok t db r = true -> tenant_of t db' r = tenant_of t db r.
Proof.
  intros H Hr. destruct t; try done. cbn in *. apply has_true in Hr as [e He].
  destruct (write_endpoint _ _ _ _ _ _ H He) as (e' & He' & Ho).
  rewrite He', He. cbn. by f_equal.
Qed.

Lemma project_of_elim db org prj p :
  project_of db org prj = true -> find TProject db prj = Some p -> p.(prj_organization_id) = org.
Proof. unfold project_of. intros H Hp. rewrite Hp in H. by apply N.eqb_eq. Qed.

Lemma task_of_elim db org tk k :
  task_of db org tk = true -> find TTask db tk = Some k -> k.(task_organization_id) = org.
Proof. unfold task_of. intros H Hp. rewrite Hp in H. by apply N.eqb_eq. Qed.

(** The rows a cascade removes belong to the tenant of the deleted row. *)
Lemma delete_task_row_tenant db tk k t id r :
  db_ok db -> find TTask db tk = Some k -> find t db id = Some r ->
  tenant_of t db r <> Some k.(task_organization_id) ->
  find t (delete_task_row tk db) id = Some r.
Proof.
  intros Hok Hk Hr Hne. destruct (Hok _ _ _ Hr) as [_ (_ & Href & _)%row_ok_true].
  unfold delete_task_row. destruct t; tables; try done.
  - rewrite lookup_delete_ne; [done|]. intros ->. simplify_eq.
  - apply map_lookup_filter_Some. split; [done|]. cbn in *.
    apply negb_true_iff, bool_decide_eq_false. intros Ha.
    rewrite Ha in Href. bool_to_prop. cbn in *. apply Hne. f_equal. symmetry.
    eapply task_of_elim; eauto.
Qed.

Lemma delete_project_row_tenant db prj p t id r :
  db_ok db -> find TProject db prj = Some p -> find t db id = Some r ->
  tenant_of t db r <> Some p.(prj_organization_id) ->
  find t (delete_project_row prj db) id = Some r.
Proof.
  intros Hok Hp Hr Hne. destruct (Hok _ _ _ Hr) as [_ (_ & Href & _)%row_ok_true].
  unfold delete_project_row. destruct t; tables; try done; cbn in *.
  - rewrite lookup_delete_ne; [done|]. intros ->. simplify_eq.
  - apply map_lookup_filter_Some. split; [done|]. cbn. apply negb_true_iff, N.eqb_neq. intros <-.
    bool_to_prop. apply Hne. f_equal. symmetry. eapply project_of_elim; eauto.
  - apply map_lookup_filter_Some. split; [done|]. cbn. bool_to_prop.
    apply andb_true_iff. split; apply negb_true_iff.
    + apply bool_decide_eq_false. intros Ha. rewrite Ha in *. cbn in *.
      apply Hne. f_equal. symmetry. eapply project_of_elim; eauto.
    + destruct (att_task_id r) as [tk|]; cbn in *; [|done].
      destruct (db TTask !! tk) as [k|] eqn:Hk; cbn; [|done]. apply N.eqb_neq. intros <-.
      destruct (Hok _ _ _ Hk) as [_ (_ & Hkref & _)%row_ok_true]. cbn in Hkref. bool_to_prop.
      apply Hne. f_equal. rewrite <- (task_of_elim _ _ _ _ ltac:(eassumption) Hk).
      symmetry. eapply project_of_elim; eauto.
Qed.

(** A write leaves the rows of the tenants it is not about, and gives them no new ones. *)
Lemma write_tenant who T db db' t id r :
  db_ok db -> write who T db db' ->
  (find t db id = Some r -> ~ who (tenant_of t db r) -> find t db' id = Some r) /\
  (find t db' id = Some r -> ~ who (tenant_of t db' r) -> find t db id = Some r).
Proof.
  intros Hok H.
  assert (Hten : find t db id = Some r -> tenant_of t db' r = tenant_of t db r).
  { intros Hr. destruct (Hok _ _ _ Hr) as [_ (_ & Href & _)%row_ok_true].
    by eapply write_tenant_of. }
  destruct H as [t' r' _ Hw _ Hn _|t' old new _ Hw Hev Hold _|o m _ _ Hw Hn _ Hn' _ Ho _
    |id' m _ Hw Hm _|id' k _ _ Hw Hk|id' p _ _ _ Hw Hp].
  - split.
    + intros Hr _. destruct (decide (t' = t)) as [->|]; [|by rewrite put_ne].
      rewrite lookup_put_ne; [done|]. congruence.
    + intros Hr Hnw. apply lookup_put_Some in Hr as [(-> & -> & ->)|[Hr _]]; [|done].
      destruct Hnw. cbn. by destruct t.
  - split.
    + intros Hr Hnw. destruct (decide (t' = t)) as [->|]; [|by rewrite put_ne].
      rewrite lookup_put_ne; [done|]. intros <-. naive_solver congruence.
    + intros Hr Hnw. apply lookup_put_Some in Hr as [(-> & -> & ->)|[Hr _]]; [|done].
      destruct Hnw. cbn. assert (He := evolve_tenant t (put t new db) old new Hev). rewrite He.
      by destruct t.
  - split.
    + intros Hr _. destruct (decide (t = TMembership)) as [->|].
      * rewrite lookup_put_ne by (cbn; intros ?; congruence). by tables.
      * rewrite put_ne by done. destruct (decide (t = TOrganization)) as [->|].
        -- rewrite lookup_put_ne by (cbn; intros ?; congruence). done.
        -- by rewrite put_ne.
    + intros Hr Hnw. apply lookup_put_Some in Hr as [(<- & -> & ->)|[Hr _]].
      { cbn in *. by rewrite Ho in Hnw. }
      apply lookup_put_Some in Hr as [(<- & -> & ->)|[Hr _]]; done.
  - split; [|by intros ?%del_sub]. intros Hr Hnw.
    destruct (decide (TMembership = t)) as [<-|]; [|by rewrite del_ne].
    rewrite del_eq, lookup_delete_ne; [done|]. intros ->. naive_solver.
  - split; [|by intros ?%delete_task_row_sub]. intros Hr Hnw.
    eapply delete_task_row_tenant; eauto. congruence.
  - split; [|by intros ?%delete_project_row_sub]. intros Hr Hnw.
    eapply delete_project_row_tenant; eauto. congruence.
Qed.

(** The rows of tenants outside [who], in both databases. *)
Definition foreign_rows_kept (who : option uuid -> Prop) (db db' : Db) : Prop :=
  forall t id r,
    (find t db id = Some r /\ ~ who (tenant_of t db r)) <->
    (find t db' id = Some r /\ ~ who (tenant_of t db' r)).

Lemma write_isolated who T db db' :
  db_ok db -> write who T db db' -> foreign_rows_kept who db db'.
Proof.
  intros Hok H t id r. destruct (write_tenant who T db db' t id r Hok H) as [H1 H2].
  assert (Hten : find t db id = Some r -> tenant_of t db' r = tenant_of t db r).
  { intros Hr. destruct (Hok _ _ _ Hr) as [_ (_ & Href & _)%row_ok_true].
    by eapply write_tenant_of. }
  split; intros [Hr Hw]; (split; [eauto|]).
  - by rewrite Hten.
  - by rewrite <- Hten by eauto.
Qed.

Lemma writes_isolated who T db db' :
  db_ok db -> writes who T db db' -> foreign_rows_kept who db db'.
Proof.
  intros Hok H. induction H as [db|db db1 db' Hs _ IH]; [done|]. intros t id r.
  etrans; [apply (write_isolated _ _ _ _ Hok Hs)|]. apply IH. by eapply write_db_ok.
Qed.

(** ** Terminal rows *)

(** Tables whose rows no request removes. *)
Definition permanent (t : table) : bool :=
  match t with TMembership | TProject | TTask | TAttachment => false | _ => true end.

(** A row that admits no update stays as it is. *)
Lemma write_terminal who T db db' t id r :
  permanent t = true -> (forall r', ~ evolve t r r') -> write who T db db' ->
  find t db id = Some r -> find t db' id = Some r.
Proof.
  intros Hp Hterm H Hr.
  destruct H as [t' r' _ _ _ Hn _|t' old new _ _ Hev Hold _|o m _ _ _ Hn _ _ _ _ _| | | ].
  - destruct (decide (t' = t)) as [->|]; [|by rewrite put_ne].
    rewrite lookup_put_ne; [done|]. congruence.
  - destruct (decide (t' = t)) as [->|]; [|by rewrite put_ne].
    rewrite lookup_put_ne; [done|]. intros <-. simplify_eq. by destruct (Hterm new).
  - destruct t; tables; try done. cbn. rewrite lookup_insert_ne; [done|]. intros ?. congruence.
  - by destruct t; tables.
  - destruct t; try done; by rewrite delete_task_row_ne.
  - destruct t; try done; by rewrite delete_project_row_ne.
Qed.

Lemma writes_terminal who T db db' t id r :
  permanent t = true -> (forall r', ~ evolve t r r') -> writes who T db db' ->
  find t db id = Some r -> find t db' id = Some r.
Proof. intros Hp Hterm. induction 1; eauto using write_terminal. Qed.

(** The rows that admit no update. *)
Definition settled (t : table) : row t -> Prop :=
  match t return row t -> Prop with
  | TUser | TOrganization | TStripeEvent | TAuditLog => fun _ => True
  | TInvitation => fun r => r.(inv_status) <> "pending"
  | TRefreshToken => fun r => is_Some r.(rt_revoked_at)
  | TIdempotency => fun r => r.(idem_status) <> "processing"
  | _ => fun _ => False
  end.

Lemma settled_terminal t r r' : settled t r -> ~ evolve t r r'.
Proof.
  destruct t; cbn; try done; intros Hs Hev; destruct_and?; try done.
  destruct Hs. congruence.
Qed.

Lemma settled_permanent t r : settled t r -> permanent t = true.
Proof. by destruct t. Qed.

Lemma writes_settled who T db db' t id r :
  writes who T db db' -> settled t r -> find t db id = Some r -> find t db' id = Some r.
Proof.
  intros H Hs. eapply writes_terminal; [by eapply settled_permanent| |exact H].
  intros r'. by apply settled_terminal.
Qed.

(** ** Exactly one owner *)

Definition is_owner (org mid : uuid) (db : Db) : Prop :=
  exists m, find TMembership db mid = Some m /\
    m.(mem_organization_id) = org /\ m.(mem_role) = "owner".

Definition one_owner (db : Db) : Prop :=
  forall org, has TOrganization db org = true -> exists! mid, is_owner org mid db.

Lemma one_owner_eq db db' :
  db' TMembership = db TMembership -> db' TOrganization = db TOrganization ->
  one_owner db -> one_owner db'.
Proof. intros Hm Ho. unfold one_owner, is_owner, has. by rewrite Hm, Ho. Qed.

(** A write that is not the birth of an organization keeps the owners. *)
Lemma write_owners who T db db' org :
  db_ok db -> write who T db db' -> has TOrganization db org = true ->
  forall mid, is_owner org mid db' <-> is_owner org mid db.
Proof.
  intros Hok H Horg mid. unfold is_owner.
  destruct H as [t r _ _ Hb Hn _|t old new _ _ Hev Hold _|o m _ _ _ Hn _ Hn' _ Ho _
    |id m _ _ Hm Hrole|id k _ _ _ _|id p _ _ _ _ _].
  - destruct (decide (t = TMembership)) as [->|]; [|by rewrite put_ne].
    destruct (decide (mem_id r = mid)) as [<-|]; [|by rewrite lookup_put_ne].
    rewrite find_put by done. cbn in *. naive_solver congruence.
  - destruct (decide (t = TMembership)) as [->|]; [|by rewrite put_ne].
    destruct (decide (mem_id new = mid)) as [<-|]; [|by rewrite lookup_put_ne].
    rewrite find_put by done. cbn in *. destruct_and!. naive_solver congruence.
  - destruct (decide (mem_id m = mid)) as [<-|].
    + rewrite find_put by done. cbn in *. apply has_true in Horg as [? Horg].
      naive_solver congruence.
    + rewrite lookup_put_ne by done. by tables.
  - rewrite del_eq, lookup_delete. case_decide; naive_solver congruence.
  - by rewrite delete_task_row_ne.
  - by rewrite delete_project_row_ne.
Qed.

Lemma write_organizations who T db db' org :
  write who T db db' -> has TOrganization db' org = true ->
  has TOrganization db org = true \/
  (has TOrganization db org = false /\ exists o m,
    o.(org_id) = org /\ m.(mem_organization_id) = org /\ m.(mem_role) = "owner" /\
    find TMembership db m.(mem_id) = None /\
    db' = put TMembership m (put TOrganization o db)).
Proof.
  intros H Horg. destruct (has TOrganization db org) eqn:E; [by left|right]. split; [done|].
  destruct H as [t r _ _ Hb Hn _|t old new _ _ Hev Hold _|o m _ _ _ Hn _ Hn' _ Ho Hrole
    |id m _ _ Hm Hrole|id k _ _ _ _|id p _ _ _ _ _]; unfold has in *.
  - destruct t; tables; try congruence. done.
  - destruct t; tables; try congruence. done.
  - exists o, m. assert (org_id o = org) as <-; [|split_and!; done].
    tables. cbn in Horg. apply bool_decide_eq_true in Horg. apply bool_decide_eq_false in E.
    destruct (decide (org_id o = org)); [done|]. by rewrite lookup_insert_ne in Horg.
  - tables. congruence.
  - rewrite delete_task_row_ne in Horg by done. congruence.
  - rewrite delete_project_row_ne in Horg by done. congruence.
Qed.

Lemma write_one_owner who T db db' :
  db_ok db -> write who T db db' -> one_owner db -> one_owner db'.
Proof.
  intros Hok H Hone org Horg.
  destruct (write_organizations _ _ _ _ _ H Horg) as [Hold|(Hnew & o & m & Ho & Hm & Hr & Hn & ->)].
  - destruct (Hone _ Hold) as (mid & Hmid & Huniq). exists mid. split.
    + by rewrite (write_owners _ _ _ _ _ Hok H Hold).
    + intros mid'. rewrite (write_owners _ _ _ _ _ Hok H Hold). apply Huniq.
  - exists (mem_id m). split.
    + exists m. by rewrite find_put.
    + intros mid (m' & Hm' & Ho' & _). destruct (decide (mem_id m = mid)) as [|Hne]; [done|].
      rewrite lookup_put_ne in Hm' by done. tables.
      destruct (Hok _ _ _ Hm') as [_ (_ & Href & _)%row_ok_true]. cbn in Href. bool_to_prop.
      congruence.
Qed.

Lemma writes_one_owner who T db db' :
  db_ok db -> writes who T db db' -> one_owner db -> one_owner db'.
Proof.
  intros Hok H. induction H as [db|db db1 db' Hs _ IH]; [done|]. intros Hone.
  apply IH; [by eapply write_db_ok|]. by eapply write_one_owner.
Qed.
