(* ===== verification/Refinement.v ===== *)
(** * Refinement: the services implement the life cycles

    Every operation that succeeds is a sequence of the writes of Lifecycle, to the tables its
    lemma names and to rows of the tenants its lemma names. *)
From stdpp Require Import relations.
From S2P Require Import Prelude Text Json Schema Config TokenBucket Session Permissions Security.
From S2P Require Import Access AuditTrail Idempotency Events Projects Tasks Organizations Auth.
From S2P Require Import Webhooks Billing Files Lifecycle.
#[local] Open Scope string_scope.

(** ** Extending a sequence of writes *)
Section Extend.
Context {who : option uuid -> Prop} {T : list table}.

Lemma writes_insert db0 db t r :
  writes who T db0 db -> t ∈ T -> who (tenant_of t db r) -> born t r ->
  find t db (row_id t r) = None -> row_ok t db r = true ->
  writes who T db0 (put t r db).
Proof. intros H *. intros. eapply rtc_r; [exact H|]. by apply write_insert. Qed.

Lemma writes_update db0 db t old new :
  writes who T db0 db -> t ∈ T -> who (tenant_of t db old) -> evolve t old new ->
  find t db (row_id t new) = Some old -> row_ok t db new = true ->
  writes who T db0 (put t new db).
Proof. intros H *. intros. eapply rtc_r; [exact H|]. by eapply write_update. Qed.

(** An UPDATE of a stored row; nothing is written when nothing changed. *)
Lemma flush_update_writes {E : Env} t old new r w w' :
  flush_update t old new w = (Ok r, w') ->
  t ∈ T -> who (tenant_of t (w_db w) old) ->
  (forall ts, evolve t old (touch t ts new)) ->
  row_id t new = row_id t old -> find t (w_db w) (row_id t old) = Some old ->
  writes who T (w_db w) (w_db w').
Proof.
  intros [(_ & _ & ->)|(_ & -> & _ & _ & Hr & ->)]%flush_update_Ok Ht Hw Hev Hid Hf; [done|].
  eapply writes_update; [done|exact Ht|exact Hw|apply Hev| |done].
  cbn. rewrite <- Hf. f_equal. rewrite <- Hid. by destruct t.
Qed.
End Extend.

Section Shared.
Context {E : Env} {who : option uuid -> Prop} {T : list table}.

Lemma record_audit_writes org actor action etype eid meta r w w' :
  record_audit org actor action etype eid meta w = (Ok r, w') ->
  TAuditLog ∈ T -> who (Some org) -> writes who T (w_db w) (w_db w').
Proof.
  intros (Ho & _ & _ & _ & _ & Hn & Hr & -> & _)%record_audit_Ok HT Hw.
  apply writes_insert; try done. cbn. by rewrite Ho.
Qed.

Lemma put_deliveries_writes org ds db :
  insertable ds db -> TDelivery ∈ T -> who (Some org) ->
  Forall (fun d => d.(dlv_state) = "pending" /\ d.(dlv_attempt_count) = 0%Z /\
                   exists e, find TEndpoint db d.(dlv_endpoint_id) = Some e /\
                             e.(ep_organization_id) = org) ds ->
  writes who T db (put_deliveries ds db).
Proof.
  intros Hins HT Hw. revert db Hins. induction ds as [|d ds IH]; intros db; cbn; [done|].
  intros (Hn & Hr & Hins) [(Hs & Ha & e & He & Ho) Hds]%Forall_cons.
  eapply rtc_l; [|apply (IH _ Hins)].
  - apply write_insert; cbn; try done. by rewrite He; cbn; rewrite Ho.
  - eapply Forall_impl; [exact Hds|]. cbn. intros d' (? & ? & e' & He' & ?).
    split_and!; [done..|]. exists e'. by tables.
Qed.

Lemma emit_event_writes org event_type payload event_id w w' :
  db_ok (w_db w) -> emit_event org event_type payload w = (Ok event_id, w') ->
  TDelivery ∈ T -> who (Some org) -> writes who T (w_db w) (w_db w').
Proof.
  intros Hok (ds & endpoints & He & Hep & Hfr & Hins & -> & _)%emit_event_Ok HT Hw.
  apply (put_deliveries_writes org); [done..|]. apply Forall_forall. intros d Hd.
  rewrite Forall_forall in Hfr. destruct (Hfr _ Hd) as (_ & _ & _ & Hs & Ha & _).
  split_and!; [done..|].
  assert (dlv_endpoint_id d ∈ ep_id <$> endpoints) as Hin
    by (rewrite <- Hep; by apply list_elem_of_fmap_2).
  apply list_elem_of_fmap in Hin as (e & -> & (Hsub & id & Hid)%He).
  destruct (Hok _ _ _ Hid) as [<- _]. exists e. split; [done|]. apply Hsub.
Qed.

Lemma new_membership_writes org uid role m w w' :
  new_membership org uid role w = (Ok m, w') ->
  TMembership ∈ T -> who (Some org) -> role <> "owner" -> writes who T (w_db w) (w_db w').
Proof. unfold new_membership. intros H HT Hw Hr. inv_ok. by apply writes_insert. Qed.

(** An idempotent endpoint: the use case between the birth and the completion of its record. *)
Lemma idempotent_writes {R} user org scope key hash missing (work : M R) dump validate a w w' :
  db_ok (w_db w) ->
  idempotent user org scope key hash missing work dump validate w = (Ok a, w') ->
  TIdempotency ∉ T -> who org ->
  (forall w1 w2, db_ok (w_db w1) -> work w1 = (Ok a, w2) ->
                 (exists rec, w_db w1 = put TIdempotency rec (w_db w)) ->
                 writes who T (w_db w1) (w_db w2)) ->
  writes who (TIdempotency :: T) (w_db w) (w_db w').
Proof.
  intros Hok [(-> & _)|H]%idempotent_Ok HT Hw Hwork; [done|].
  destruct H as (rec & w1 & w2 & Hs & Hk & Hh & Ho & Hst & Hrs & Hrb & Hn & Hr & Hdb1 & _ & _ &
                 Hrun & _ & _ & Hr2 & Hdb').
  assert (writes who (TIdempotency :: T) (w_db w) (w_db w1)) as H1.
  { rewrite Hdb1. apply writes_insert; [done|set_solver|by cbn; rewrite Ho|done..]. }
  assert (writes who T (w_db w1) (w_db w2)) as H2.
  { apply Hwork; [by eapply writes_db_ok|done|eauto]. }
  rewrite Hdb'. eapply (writes_update _ _ TIdempotency rec).
  - etrans; [exact H1|]. eapply writes_weaken; [done| |exact H2]. set_solver.
  - set_solver.
  - cbn. by rewrite Ho.
  - cbn. eauto 20.
  - cbn. rewrite (writes_frame _ _ _ _ TIdempotency H2 HT), Hdb1. by apply find_put.
  - exact Hr2.
Qed.
End Shared.

(** What every deletion records before its cascade. *)
Lemma audit_emit_writes {E : Env} org actor action etype eid meta event_type payload r ev w w1 w2 :
  db_ok (w_db w) -> record_audit org actor action etype eid meta w = (Ok r, w1) ->
  emit_event org event_type payload w1 = (Ok ev, w2) ->
  writes (eq (Some org)) [TAuditLog; TDelivery] (w_db w) (w_db w2).
Proof.
  intros Hok Haudit Hemit.
  assert (writes (eq (Some org)) [TAuditLog; TDelivery] (w_db w) (w_db w1)) as Hw
    by (eapply record_audit_writes; [exact Haudit|set_solver|done]).
  etrans; [exact Hw|]. eapply emit_event_writes; [|exact Hemit|set_solver|done].
  by eapply writes_db_ok.
Qed.

(** ** Compositional refinement *)

(** Every successful run of [m] is a sequence of writes. *)
Definition refines {A} (who : option uuid -> Prop) (T : list table) (m : M A) : Prop :=
  forall w a w', db_ok (w_db w) -> m w = (Ok a, w') -> writes who T (w_db w) (w_db w').

(** [m] does not write to the database, whether it succeeds or raises. *)
Definition quiet {A} (m : M A) : Prop := forall w r w', m w = (r, w') -> w_db w' = w_db w.

Create HintDb refine.

Section Rules.
Context {E : Env} {who : option uuid -> Prop} {T : list table}.

Lemma refines_quiet {A} (m : M A) : quiet m -> refines who T m.
Proof. intros Hq w a w' _ ->%Hq. done. Qed.

(** The first step runs in the known world [w]; the rest is refined for every result. *)
Lemma run_bind {A B} (m : M A) (f : A -> M B) w b w' :
  db_ok (w_db w) -> bind m f w = (Ok b, w') ->
  (forall a w1, m w = (Ok a, w1) -> writes who T (w_db w) (w_db w1)) ->
  (forall a, refines who T (f a)) ->
  writes who T (w_db w) (w_db w').
Proof.
  intros Hok (a & w1 & H1 & H2)%bind_Ok Hm Hf. specialize (Hm _ _ H1).
  etrans; [exact Hm|]. apply (Hf a w1 b w'); [|done]. by eapply writes_db_ok.
Qed.

Lemma refines_bind {A B} (m : M A) (f : A -> M B) :
  refines who T m -> (forall a, refines who T (f a)) -> refines who T (bind m f).
Proof. intros Hm Hf w b w' Hok H. eapply run_bind; eauto. Qed.

Lemma refines_add_flush t r :
  t ∈ T -> (forall db, who (tenant_of t db r)) -> born t r -> refines who T (add_flush t r).
Proof. intros Ht Hw Hb w u w' _ (_ & Hn & Hr & ->)%add_flush_Ok. by apply writes_insert. Qed.

Lemma refines_audit org actor action etype eid meta :
  TAuditLog ∈ T -> who (Some org) -> refines who T (record_audit org actor action etype eid meta).
Proof. intros HT Hw w r w' _ H. by eapply record_audit_writes. Qed.

Lemma refines_emit org event_type payload :
  TDelivery ∈ T -> who (Some org) -> refines who T (emit_event org event_type payload).
Proof. intros HT Hw w r w' Hok H. by eapply emit_event_writes. Qed.

Lemma refines_new_membership org uid role :
  TMembership ∈ T -> who (Some org) -> role <> "owner" ->
  refines who T (new_membership org uid role).
Proof. intros HT Hw Hr w m w' _ H. by eapply new_membership_writes. Qed.

Lemma quiet_ret {A} (a : A) : quiet (ret a).
Proof. by intros w r w' [= <- <-]. Qed.
Lemma quiet_raise {A} e : quiet (raise (A := A) e).
Proof. by intros w r w' [= <- <-]. Qed.
Lemma quiet_lift {A} (r : result A) : quiet (lift r).
Proof. by intros w r' w' [= <- <-]. Qed.
Lemma quiet_read {A} (f : nat -> A) : quiet (read f).
Proof. by intros w r w' [= <- <-]. Qed.
Lemma quiet_log e : quiet (log e).
Proof. by intros w r w' [= <- <-]. Qed.
Lemma quiet_select t p : quiet (select t p).
Proof. by intros w r w' [= <- <-]. Qed.
Lemma quiet_get t id : quiet (get t id).
Proof. by intros w r w' [= <- <-]. Qed.

Lemma quiet_bind {A B} (m : M A) (f : A -> M B) :
  quiet m -> (forall a, quiet (f a)) -> quiet (bind m f).
Proof.
  intros Hm Hf w r w'. unfold bind. destruct (m w) as [[a|e] w1] eqn:H1; apply Hm in H1.
  - intros H2%Hf. congruence.
  - intros [= <- <-]. done.
Qed.

Lemma quiet_try {A} (m : M A) h :
  quiet m -> (forall e m', h e = Some m' -> quiet m') -> quiet (try_except m h).
Proof.
  intros Hm Hh w r w'. unfold try_except. destruct (m w) as [[a|e] w1] eqn:H1; apply Hm in H1.
  - intros [= <- <-]. done.
  - destruct (h e) as [m'|] eqn:He; [|intros [= <- <-]; done].
    intros H2%(Hh _ _ He). congruence.
Qed.

(** What the handlers of a [try] cannot change. *)
Lemma try_except_db {A} (m : M A) h w r w1 :
  m w = (r, w1) -> (forall e m', h e = Some m' -> quiet m') ->
  w_db (try_except m h w).2 = w_db w1.
Proof.
  intros Hm Hh. unfold try_except. rewrite Hm. destruct r as [a|e]; [done|].
  destruct (h e) as [m'|] eqn:He; [|done].
  destruct (m' w1) as [r2 w2] eqn:H2. by apply (Hh _ _ He) in H2.
Qed.

Lemma quiet_scalar t p : quiet (scalar t p).
Proof. apply quiet_bind; [apply quiet_select|intros; apply quiet_ret]. Qed.
Lemma quiet_delay task args : quiet (delay task args).
Proof. apply quiet_bind; [apply quiet_read|intros []; [apply quiet_log|apply quiet_raise]]. Qed.
End Rules.

#[export] Hint Resolve quiet_ret quiet_raise quiet_lift quiet_read quiet_log quiet_delay
  quiet_select quiet_scalar quiet_get : refine.
#[export] Hint Extern 0 (quiet now) => apply quiet_read : refine.
#[export] Hint Extern 0 (quiet uuid4) => apply quiet_read : refine.
#[export] Hint Extern 0 (quiet (token_urlsafe _)) => apply quiet_read : refine.
#[export] Hint Extern 0 (quiet (hash_password _)) => apply quiet_read : refine.
#[export] Hint Extern 0 (quiet new_refresh_token) => apply quiet_read : refine.

(** Computations that read, compute and log. *)
Ltac quiet :=
  repeat first
    [ solve [auto with refine]
    | apply quiet_bind; [|intros ?]
    | case_match ].

Ltac refines_step :=
  match goal with
  | |- refines _ _ (bind _ _) => apply refines_bind; [|intros ?]
  | |- refines _ _ (add_flush _ _) => apply refines_add_flush; [set_solver|by intros ?|try done]
  | |- refines _ _ (record_audit _ _ _ _ _ _) => apply refines_audit; [set_solver|done]
  | |- refines _ _ (emit_event _ _ _) => apply refines_emit; [set_solver|done]
  | |- refines _ _ (match ?x with _ => _ end) => destruct x eqn:?
  | |- refines _ _ _ => solve [apply refines_quiet; auto with refine]
  end.
Ltac refines := repeat (refines_step; cbn beta).

(** The row a query returned sits under its primary key. *)
Lemma stored t db r :
  db_ok db -> (exists id, find t db id = Some r) -> find t db (row_id t r) = Some r.
Proof. intros Hok [id Hr]. by destruct (Hok _ _ _ Hr) as [-> _]. Qed.

(** ** Projects *)
Section ProjectWrites.
Context {E : Env} (org : uuid).

Lemma create_project_refines user payload :
  refines (eq (Some org)) [TProject; TAuditLog; TDelivery] (create_project org user payload).
Proof. unfold create_project. refines. Qed.

Lemma get_project_Ok pid p w w' :
  db_ok (w_db w) -> get_project org pid w = (Ok p, w') ->
  w' = w /\ find TProject (w_db w) pid = Some p /\ p.(prj_id) = pid /\
  p.(prj_organization_id) = org.
Proof.
  unfold get_project. intros Hok H. inv_ok. destruct_and!. bool_to_prop.
  pose proof (stored TProject _ _ Hok ltac:(eassumption)) as Hp.
  repeat match goal with H : (_ =? _)%N = true |- _ => apply N.eqb_eq in H end.
  cbn in Hp. subst. done.
Qed.

Lemma assign_project_evolve payload p p' ts :
  assign_project payload p = Some p' -> evolve TProject p (touch TProject ts p').
Proof. unfold assign_project. intros H. repeat case_match; simplify_eq. done. Qed.

Lemma assign_project_id payload p p' : assign_project payload p = Some p' -> prj_id p' = prj_id p.
Proof. unfold assign_project. intros H. repeat case_match; simplify_eq. done. Qed.

Lemma update_project_refines pid user payload :
  refines (eq (Some org)) [TProject; TAuditLog; TDelivery] (update_project org pid user payload).
Proof.
  intros w a w' Hok H. unfold update_project in H.
  apply bind_Ok in H as (p & w1 & (-> & Hp & Hid & Ho)%get_project_Ok & H); [|done].
  destruct (assign_project payload p) as [p'|] eqn:Ha; [|by apply raise_Ok in H].
  eapply (run_bind _ _ _ _ _ Hok H); [|intros; refines].
  intros p'' w1 Hf. eapply (flush_update_writes TProject); [exact Hf|set_solver|by cbn; rewrite Ho|
    intros; by eapply assign_project_evolve|by eapply assign_project_id|].
  cbn. by rewrite Hid.
Qed.

Lemma delete_project_refines pid user :
  refines (eq (Some org)) [TProject; TTask; TAttachment; TAuditLog; TDelivery]
    (delete_project org pid user).
Proof.
  intros w a w' Hok H. unfold delete_project in H.
  apply bind_Ok in H as (p & w1 & (-> & Hp & Hid & Ho)%get_project_Ok & H); [|done].
  apply bind_Ok in H as (r & w1 & Haudit & H). apply bind_Ok in H as (eid & w2 & Hemit & H).
  pose proof (audit_emit_writes _ _ _ _ _ _ _ _ _ _ _ _ _ Hok Haudit Hemit) as Hw.
  apply delete_rows_Ok in H as [-> ->]. cbn. eapply rtc_r.
  - eapply writes_weaken; [done| |exact Hw]. set_solver.
  - apply (write_delete_project _ _ _ _ p); [set_solver..|by rewrite Ho|].
    rewrite (writes_frame _ _ _ _ TProject Hw ltac:(set_solver)). by rewrite Hid.
Qed.
End ProjectWrites.

(** ** Tasks *)
Section TaskWrites.
Context {E : Env} (org : uuid).

Lemma create_task_refines user payload :
  refines (eq (Some org)) [TTask; TAuditLog; TDelivery] (create_task org user payload).
Proof. unfold create_task, _validate_project, _validate_assignee. refines. Qed.

Lemma get_task_Ok tid k w w' :
  db_ok (w_db w) -> get_task org tid w = (Ok k, w') ->
  w' = w /\ find TTask (w_db w) tid = Some k /\ k.(task_id) = tid /\
  k.(task_organization_id) = org.
Proof.
  unfold get_task. intros Hok H. inv_ok. destruct_and!. bool_to_prop.
  pose proof (stored TTask _ _ Hok ltac:(eassumption)) as Hp.
  repeat match goal with H : (_ =? _)%N = true |- _ => apply N.eqb_eq in H end.
  cbn in Hp. subst. done.
Qed.

Lemma assign_task_evolve payload k k' ts :
  assign_task payload k = Some k' -> evolve TTask k (touch TTask ts k').
Proof. unfold assign_task. intros H. repeat case_match; simplify_eq. done. Qed.

Lemma assign_task_id payload k k' : assign_task payload k = Some k' -> task_id k' = task_id k.
Proof. unfold assign_task. intros H. repeat case_match; simplify_eq. done. Qed.

Lemma update_task_refines tid user payload :
  refines (eq (Some org)) [TTask; TAuditLog; TDelivery] (update_task org tid user payload).
Proof.
  intros w a w' Hok H. unfold update_task in H.
  apply bind_Ok in H as (k & w1 & (-> & Hk & Hid & Ho)%get_task_Ok & H); [|done].
  apply bind_Ok in H as (u & w1 & Hval & H).
  assert (w1 = w) as ->.
  { unfold _validate_assignee in Hval. repeat case_match; inv_ok; done. }
  destruct (assign_task payload k) as [k'|] eqn:Ha; [|by apply raise_Ok in H].
  eapply (run_bind _ _ _ _ _ Hok H); [|intros; refines].
  intros k'' w1 Hf. eapply (flush_update_writes TTask); [exact Hf|set_solver|by cbn; rewrite Ho|
    intros; by eapply assign_task_evolve|by eapply assign_task_id|].
  cbn. by rewrite Hid.
Qed.

Lemma delete_task_refines tid user :
  refines (eq (Some org)) [TTask; TAttachment; TAuditLog; TDelivery] (delete_task org tid user).
Proof.
  intros w a w' Hok H. unfold delete_task in H.
  apply bind_Ok in H as (k & w1 & (-> & Hk & Hid & Ho)%get_task_Ok & H); [|done].
  apply bind_Ok in H as (r & w1 & Haudit & H). apply bind_Ok in H as (eid & w2 & Hemit & H).
  pose proof (audit_emit_writes _ _ _ _ _ _ _ _ _ _ _ _ _ Hok Haudit Hemit) as Hw.
  apply delete_rows_Ok in H as [-> ->]. cbn. eapply rtc_r.
  - eapply writes_weaken; [done| |exact Hw]. set_solver.
  - apply (write_delete_task _ _ _ _ k); [set_solver..|by rewrite Ho|].
    rewrite (writes_frame _ _ _ _ TTask Hw ltac:(set_solver)). by rewrite Hid.
Qed.
End TaskWrites.

(** ** Organizations *)
Section OrganizationWrites.
Context {E : Env}.

(** A new organization comes with its owner, under an id no organization had. *)
Lemma create_organization_writes user payload o w w' :
  create_organization user payload w = (Ok o, w') ->
  find TOrganization (w_db w) o.(org_id) = None /\
  writes (eq (Some o.(org_id))) [TOrganization; TMembership; TAuditLog] (w_db w) (w_db w').
Proof.
  unfold create_organization, new_membership. intros H. inv_ok. split; [done|].
  eapply rtc_l; [|eapply record_audit_writes; [eassumption|set_solver|done]].
  apply write_organization; try done; set_solver.
Qed.

Lemma clear_invitation_refines org email :
  refines (eq (Some org)) [TInvitation] (clear_invitation org email).
Proof.
  intros w u w' Hok H. unfold clear_invitation in H. inv_ok; try done.
  all: destruct_and!; bool_to_prop.
  all: match goal with H : flush_update _ ?i _ _ = _ |- _ =>
         rename H into Hf; pose proof (stored TInvitation _ i Hok ltac:(eassumption)) as Hi end.
  all: eapply (flush_update_writes TInvitation _ _ _ _ _ Hf); [set_solver| | |done|exact Hi].
  all: repeat match goal with
         | H : (_ =? _)%N = true |- _ => apply N.eqb_eq in H
         | H : String.eqb _ _ = true |- _ => apply String.eqb_eq in H end.
  all: cbn; try congruence; intros ts; split_and!; try done; set_solver.
Qed.

Lemma invite_member_refines org user payload :
  refines (eq (Some org)) [TInvitation; TAuditLog] (invite_member org user payload).
Proof.
  unfold invite_member. apply refines_bind; [|intros; refines; by cbn; rewrite lower_idem].
  intros w u w' Hok H. eapply writes_weaken; [done| |by eapply (clear_invitation_refines org); [exact Hok|exact H]].
  set_solver.
Qed.

Lemma managed_membership_Ok org mid message m w w' :
  db_ok (w_db w) -> managed_membership org mid message w = (Ok m, w') ->
  w' = w /\ find TMembership (w_db w) mid = Some m /\ m.(mem_id) = mid /\
  m.(mem_organization_id) = org /\ m.(mem_role) <> "owner".
Proof.
  unfold managed_membership. intros Hok H. inv_ok. destruct_and!. bool_to_prop.
  pose proof (stored TMembership _ _ Hok ltac:(eassumption)) as Hp.
  repeat match goal with
    | H : (_ =? _)%N = true |- _ => apply N.eqb_eq in H
    | H : String.eqb _ _ = false |- _ => apply String.eqb_neq in H end.
  cbn in Hp. subst. done.
Qed.

Lemma update_membership_role_refines org mid actor role :
  role <> "owner" ->
  refines (eq (Some org)) [TMembership; TAuditLog] (update_membership_role org mid actor role).
Proof.
  intros Hrole w a w' Hok H. unfold update_membership_role in H.
  apply bind_Ok in H as (m & w1 & (-> & Hm & Hid & Ho & Hr)%managed_membership_Ok & H); [|done].
  cbn beta in H. eapply (run_bind _ _ _ _ _ Hok H); [|intros; refines].
  intros m' w1 Hf. eapply (flush_update_writes TMembership); [exact Hf|set_solver|by cbn; rewrite Ho|
    by intros ts; cbn|done|].
  cbn. by rewrite Hid.
Qed.

Lemma remove_membership_refines org mid actor :
  refines (eq (Some org)) [TMembership; TAuditLog] (remove_membership org mid actor).
Proof.
  intros w a w' Hok H. unfold remove_membership in H.
  apply bind_Ok in H as (m & w1 & (-> & Hm & Hid & Ho & Hr)%managed_membership_Ok & H); [|done].
  apply bind_Ok in H as (r & w1 & Haudit & H).
  assert (writes (eq (Some org)) [TAuditLog] (w_db w) (w_db w1)) as Hw
    by (eapply record_audit_writes; [exact Haudit|set_solver|done]).
  apply delete_rows_Ok in H as [-> ->]. cbn. eapply rtc_r.
  - eapply writes_weaken; [done| |exact Hw]. set_solver.
  - apply (write_remove_member _ _ _ _ m); [set_solver|by rewrite Ho| |done].
    rewrite (writes_frame _ _ _ _ TMembership Hw ltac:(set_solver)). by rewrite Hid.
Qed.

(** Invitations never carry the owner role. *)
Lemma invitation_role db id i :
  db_ok db -> find TInvitation db id = Some i -> i.(inv_role) <> "owner".
Proof.
  intros Hok Hi. destruct (Hok _ _ _ Hi) as [_ ([_ Hc] & _)%row_ok_true]. cbn in Hc. bool_to_prop.
  intros Hr. rewrite Hr in *. done.
Qed.

(** The membership of an accepted invitation: the existing one, or a new one with its role. *)
Lemma accept_membership_Ok i user existing w m w' :
  db_ok (w_db w) -> (exists id, find TInvitation (w_db w) id = Some i) ->
  match existing with
  | Some m => membership_of i.(inv_organization_id) user.(user_id) m = true /\
              exists id, find TMembership (w_db w) id = Some m
  | None => True
  end ->
  match existing with
  | Some m => ret m
  | None => new_membership i.(inv_organization_id) user.(user_id) i.(inv_role)
  end w = (Ok m, w') ->
  m.(mem_organization_id) = i.(inv_organization_id) /\ m.(mem_user_id) = user.(user_id) /\
  find TMembership (w_db w') m.(mem_id) = Some m /\
  writes (eq (Some i.(inv_organization_id))) [TMembership] (w_db w) (w_db w').
Proof.
  intros Hok [id Hi] Hex H. destruct existing as [m0|].
  - apply ret_Ok in H as [-> ->]. destruct Hex as [Hof Hm].
    apply (stored TMembership _ _ Hok) in Hm. apply andb_true_iff in Hof as [Ho Hu].
    apply N.eqb_eq in Ho, Hu. done.
  - split_and!; [by unfold new_membership in H; inv_ok..| |].
    + unfold new_membership in H. inv_ok. by apply find_put.
    + eapply new_membership_writes; [exact H|set_solver|done|by eapply invitation_role].
Qed.

(** What an accepted invitation was, and what accepting it wrote. *)
Lemma accept_invitation_Ok user token m w w' :
  db_ok (w_db w) -> accept_invitation user token w = (Ok m, w') ->
  exists i,
    find TInvitation (w_db w) i.(inv_id) = Some i /\
    i.(inv_token_hash) = token_fingerprint token /\ i.(inv_status) = "pending" /\
    (clock (w_tick w) < i.(inv_expires_at))%Z /\ i.(inv_email) = lower user.(user_email) /\
    m.(mem_organization_id) = i.(inv_organization_id) /\ m.(mem_user_id) = user.(user_id) /\
    find TMembership (w_db w') m.(mem_id) = Some m /\
    (exists i', find TInvitation (w_db w') i.(inv_id) = Some i' /\ i'.(inv_status) = "accepted" /\
                i'.(inv_token_hash) = i.(inv_token_hash)) /\
    writes (eq (Some i.(inv_organization_id))) [TMembership; TInvitation; TAuditLog]
      (w_db w) (w_db w').
Proof.
  unfold accept_invitation. intros Hok H. apply bind_Ok in H as (found & w1 & Hs & H).
  apply scalar_Ok in Hs as [-> Hs]. destruct found as [i|]; [|by apply raise_Ok in H].
  destruct Hs as [Hh%String.eqb_eq Hi].
  destruct (String.eqb_spec (inv_status i) "pending") as [Hst|]; cbn beta iota delta [negb] in H;
    [|by apply raise_Ok in H].
  apply bind_Ok in H as (ts & w1 & [-> ->]%read_Ok & H). cbn beta in H.
  destruct (inv_expires_at i <=? clock (w_tick w))%Z eqn:Hexp; [inv_ok|].
  destruct (String.eqb_spec (inv_email i) (lower (user_email user))) as [He|]; cbn beta iota delta [negb] in H;
    [|by apply raise_Ok in H].
  apply Z.leb_gt in Hexp. change (w_db w) with (w_db (ticked w)) in *.
  apply bind_Ok in H as (existing & w1 & [-> Hex]%scalar_Ok & H). cbn beta in H.
  apply bind_Ok in H as (m' & w1 & Hm & H).
  eapply accept_membership_Ok in Hm as (Ho & Hu & Hstored & Hw1); [|done|exact Hi|by destruct existing].
  apply (stored TInvitation _ _ Hok) in Hi.
  assert (Hi1 : find TInvitation (w_db w1) (inv_id i) = Some i)
    by (rewrite (writes_frame _ _ _ _ TInvitation Hw1) by set_solver; exact Hi).
  apply bind_Ok in H as (i' & w2 & Hf & H). apply bind_Ok in H as (log & w3 & Haudit & H).
  apply ret_Ok in H as [-> ->]. exists i. split_and!; try done.
  - apply record_audit_Ok in Haudit as (_ & _ & _ & _ & _ & _ & _ & -> & _). tables.
    apply flush_update_Ok in Hf as [(_ & _ & ->)|(_ & _ & _ & _ & _ & ->)]; [done|]. cbn. by tables.
  - exists i'. apply record_audit_Ok in Haudit as (_ & _ & _ & _ & _ & _ & _ & -> & _). tables.
    apply flush_update_Ok in Hf as [(Heq & -> & ->)|(_ & -> & _ & _ & _ & ->)].
    + split_and!; [by rewrite <- Heq|done..].
    + split_and!; [cbn; by apply find_put|done..].
  - etrans; [eapply writes_weaken; [done| |exact Hw1]; set_solver|].
    etrans; [|eapply record_audit_writes; [exact Haudit|set_solver|done]].
    eapply (flush_update_writes TInvitation); [exact Hf|set_solver|done| |done|exact Hi1].
    intros ts. cbn. split_and!; try done. set_solver.
Qed.
End OrganizationWrites.
