(* ===== verification/RefineServices.v ===== *)
(** * RefineServices: life cycles of tokens, webhooks, subscriptions and attachments

    The refinement lemmas of Auth, Webhooks, Billing and Files. *)
From stdpp Require Import relations.
From S2P Require Import Prelude Text Json Schema Config TokenBucket Session Permissions Security.
From S2P Require Import Access AuditTrail Idempotency Events Projects Tasks Organizations Auth.
From S2P Require Import Webhooks Billing Files Lifecycle Refinement.
#[local] Open Scope string_scope.

(** ** Auth *)
Section AuthWrites.
Context {E : Env}.

Lemma register_user_refines payload : refines (eq None) [TUser] (register_user payload).
Proof. unfold register_user. refines. cbn. by rewrite lower_idem. Qed.

Lemma create_access_token_quiet uid : quiet (create_access_token uid).
Proof. unfold create_access_token. quiet. Qed.

Lemma issue_token_pair_refines user family :
  refines (eq None) [TRefreshToken] (issue_token_pair user family).
Proof.
  unfold issue_token_pair. refines. apply refines_quiet, create_access_token_quiet.
Qed.

Lemma authenticate_quiet email password : quiet (authenticate email password).
Proof. unfold authenticate. quiet. Qed.

Lemma check_rate_limit_quiet key limit window : quiet (check_rate_limit key limit window).
Proof.
  unfold check_rate_limit, redis_eval, redis. quiet.
  intros w r w'. destruct (rate_limit_lua _ _ _ _ _). by intros [= <- <-].
Qed.

(** The new token of a rotation, and the token it replaces. *)
Lemma issue_token_pair_Ok user family pair w w' :
  issue_token_pair user family w = (Ok pair, w') ->
  exists t, find TRefreshToken (w_db w) t.(rt_id) = None /\
    row_ok TRefreshToken (w_db w) t = true /\
    t.(rt_user_id) = user.(user_id) /\
    t.(rt_token_hash) = token_fingerprint pair.(tp_refresh_token) /\
    t.(rt_revoked_at) = None /\ t.(rt_replaced_by_hash) = None /\
    (forall f, family = Some f -> t.(rt_family_id) = f) /\
    w_db w' = put TRefreshToken t (w_db w) /\ w_log w' = w_log w.
Proof.
  unfold issue_token_pair, create_access_token, new_refresh_token. intros H. inv_ok; cbn.
  all: eexists; split_and!; [eassumption..| | | | | | |]; try done; cbn; congruence.
Qed.

Lemma rotate_refresh_token_Ok raw pair w w' :
  db_ok (w_db w) -> rotate_refresh_token raw w = (Ok pair, w') ->
  exists old new user,
    find TRefreshToken (w_db w) old.(rt_id) = Some old /\
    old.(rt_token_hash) = token_fingerprint raw /\ old.(rt_revoked_at) = None /\
    (clock (w_tick w) < old.(rt_expires_at))%Z /\
    find TUser (w_db w) old.(rt_user_id) = Some user /\ user.(user_is_active) = true /\
    find TRefreshToken (w_db w) new.(rt_id) = None /\ row_ok TRefreshToken (w_db w) new = true /\
    new.(rt_user_id) = old.(rt_user_id) /\ new.(rt_family_id) = old.(rt_family_id) /\
    new.(rt_token_hash) = token_fingerprint pair.(tp_refresh_token) /\
    new.(rt_revoked_at) = None /\ new.(rt_replaced_by_hash) = None /\
    let old' := {| old with rt_revoked_at := Some (clock (w_tick w));
                   rt_replaced_by_hash := Some (token_fingerprint pair.(tp_refresh_token)) |} in
    row_ok TRefreshToken (put TRefreshToken new (w_db w)) old' = true /\
    w_db w' = put TRefreshToken old' (put TRefreshToken new (w_db w)).
Proof.
  unfold rotate_refresh_token. intros Hok H. apply bind_Ok in H as (found & w1 & Hs & H).
  apply scalar_Ok in Hs as [-> Hs]. apply bind_Ok in H as (ts & w1 & [-> ->]%read_Ok & H).
  cbn beta in H. destruct found as [old|]; [|by apply raise_Ok in H].
  destruct Hs as [Hh%String.eqb_eq Hold]. apply (stored TRefreshToken _ _ Hok) in Hold.
  destruct (token_usable (clock (w_tick w)) old) eqn:Hu; cbn beta iota delta [negb] in H;
    [|by apply raise_Ok in H].
  unfold token_usable in Hu. bool_to_prop.
  apply bind_Ok in H as (owner & w1 & [-> ->]%get_Ok & H). cbn beta in H.
  destruct (find TUser _ _) as [user|] eqn:Huser; [|by apply raise_Ok in H].
  destruct (user_is_active user) eqn:Hact; cbn beta iota delta [negb] in H; [|by apply raise_Ok in H].
  apply bind_Ok in H as (p & w1 & Hi & H).
  apply issue_token_pair_Ok in Hi as (new & Hn & Hr & Hnu & Hnh & Hnr & Hnb & Hf & Hdb & _).
  apply bind_Ok in H as (r & w2 & Hfl & H). apply ret_Ok in H as [-> ->].
  assert (rt_revoked_at old = None) as Hrev
    by (destruct (rt_revoked_at old); [|done]; exfalso; eauto).
  destruct (Hok _ _ _ Huser) as [Hid _]. cbn in Hid.
  apply flush_update_Ok in Hfl as [(Heq & _)|(_ & -> & _ & _ & Hrow & Hdb')].
  { apply (f_equal rt_revoked_at) in Heq. cbn in Heq. congruence. }
  exists old, new, user. cbn in Hdb', Hrow. rewrite Hdb' in *. cbn. rewrite Hdb in *.
  split_and!; try done; try congruence. by apply Hf.
Qed.

Lemma rotate_refresh_token_refines raw :
  refines (eq None) [TRefreshToken] (rotate_refresh_token raw).
Proof.
  intros w pair w' Hok H. apply rotate_refresh_token_Ok in H as (old & new & user & H); [|done].
  destruct H as (Hold & _ & Hrev & _ & _ & _ & Hn & Hr & _ & _ & _ & Hnr & Hnb & Hr' & ->).
  eapply (writes_update _ _ TRefreshToken old); [|set_solver|done| | |done].
  - apply writes_insert; [done|set_solver|done..].
  - cbn. split_and!; eauto.
  - cbn. rewrite lookup_put_ne; [done|]. cbn. intros Heq. congruence.
Qed.

Lemma revoke_refresh_token_refines raw :
  refines (eq None) [TRefreshToken] (revoke_refresh_token raw).
Proof.
  unfold revoke_refresh_token. intros w u w' Hok H. inv_ok; try done. destruct_and!.
  match goal with H : flush_update _ ?t _ _ = _ |- _ =>
    rename H into Hf; pose proof (stored TRefreshToken _ t Hok ltac:(eassumption)) as Ht end.
  eapply (flush_update_writes TRefreshToken _ _ _ _ _ Hf); [set_solver|done| |done|exact Ht].
  intros ts. bool_to_prop. cbn. split_and!; eauto.
  by apply eq_None_not_Some.
Qed.

Lemma issue_login_tokens_refines client email password :
  refines (eq None) [TRefreshToken] (_issue_login_tokens client email password).
Proof.
  unfold _issue_login_tokens.
  apply refines_bind; [apply refines_quiet, check_rate_limit_quiet|]. intros r.
  case_match; [refines|]. apply refines_bind; [apply refines_quiet, authenticate_quiet|].
  intros u. apply issue_token_pair_refines.
Qed.
End AuthWrites.

(** ** Webhooks *)
Section WebhookWrites.
Context {E : Env} (org : uuid).

Lemma validate_webhook_target_quiet url : quiet (validate_webhook_target url).
Proof. unfold validate_webhook_target, validate_resolved. quiet. Qed.

Lemma known_events events e : unknown_events events = [] -> e ∈ events -> e ∈ SUPPORTED_EVENTS.
Proof.
  intros Hun He. destruct (decide (e ∈ SUPPORTED_EVENTS)) as [|Hno]; [done|]. exfalso.
  assert (Hin : e ∈ unknown_events events) by (by apply list_elem_of_filter).
  rewrite Hun in Hin. set_solver.
Qed.

Lemma create_webhook_endpoint_refines uid payload :
  refines (eq (Some org)) [TEndpoint] (create_webhook_endpoint org uid payload).
Proof.
  unfold create_webhook_endpoint. cbv zeta. destruct (unknown_events _) eqn:Hun; [|refines].
  apply refines_bind; [apply refines_quiet, validate_webhook_target_quiet|intros; refines].
  split; [done|]. split; [apply sorted_set_NoDup|].
  intros e. cbn [ep_events]. rewrite sorted_set_elem. by apply known_events.
Qed.

Lemma deactivate_endpoint_refines eid actor :
  refines (eq (Some org)) [TEndpoint; TAuditLog]
    (let! found := scalar TEndpoint (fun e =>
       N.eqb e.(ep_id) eid && N.eqb e.(ep_organization_id) org) in
     match found with
     | None =>
         raise (NotFoundError "WEBHOOK_ENDPOINT_NOT_FOUND" "Webhook endpoint was not found")
     | Some endpoint =>
         do! flush_update TEndpoint endpoint {| endpoint with ep_is_active := false |} in
         do! record_audit org (Some actor) "webhook.deactivated"
               "webhook_endpoint" (Some endpoint.(ep_id)) None in
         ret tt
     end).
Proof.
  intros w u w' Hok H. apply bind_Ok in H as (found & w1 & [-> Hs]%scalar_Ok & H).
  cbn beta in H. destruct found as [e|]; [|by apply raise_Ok in H].
  destruct Hs as [[Hid Ho]%andb_true_iff He%(stored TEndpoint _ _ Hok)].
  apply N.eqb_eq in Ho. eapply (run_bind _ _ _ _ _ Hok H); [|intros; refines].
  intros e' w1 Hf. eapply (flush_update_writes TEndpoint); [exact Hf|set_solver| |done|done|exact He].
  cbn. by rewrite Ho.
Qed.

(** The delivery that is locked belongs to an endpoint of the organization. *)
Lemma lock_delivery_Ok did d w w' :
  db_ok (w_db w) -> lock_delivery org did w = (Ok (Some d), w') ->
  w' = w /\ d.(dlv_id) = did /\ find TDelivery (w_db w) d.(dlv_id) = Some d /\
  exists e, find TEndpoint (w_db w) d.(dlv_endpoint_id) = Some e /\ e.(ep_organization_id) = org.
Proof.
  unfold lock_delivery, scalar_for_update. intros Hok H.
  apply bind_Ok in H as (es & w1 & [-> Hes]%select_Ok & H).
  apply (scalar_Ok TDelivery _ (Some d)) in H as [-> [Hp Hd]].
  apply andb_true_iff in Hp as [Hid%N.eqb_eq Hx].
  apply existsb_exists in Hx as (e & He%list_elem_of_In & Hep%N.eqb_eq).
  apply Hes in He as [Ho He]. split_and!; [done|done|by apply (stored TDelivery)|].
  exists e. rewrite <- Hep. split; [by apply (stored TEndpoint)|by apply N.eqb_eq].
Qed.

Lemma retry_refines did actor :
  refines (eq (Some org)) [TDelivery; TAuditLog]
    (let! found := lock_delivery org did in
     match found with
     | None =>
         raise (NotFoundError "WEBHOOK_DELIVERY_NOT_FOUND" "Webhook delivery was not found")
     | Some old =>
         let! endpoint := get TEndpoint old.(dlv_endpoint_id) in
         if negb (default false (ep_is_active <$> endpoint)) then
           raise (ConflictError "WEBHOOK_ENDPOINT_INACTIVE" "Webhook endpoint is inactive")
         else if String.eqb old.(dlv_state) "delivered" then
           raise (ConflictError "WEBHOOK_ALREADY_DELIVERED"
             "Delivered webhooks are not retried")
         else
         let! delivery := flush_update TDelivery old
           {| old with dlv_state := "retrying"; dlv_next_retry_at := None;
                       dlv_last_error := None |} in
         do! record_audit org (Some actor)
               "webhook.delivery_retried" "webhook_delivery" (Some delivery.(dlv_id)) None in
         do! delay deliver_webhook_task [uuid_str delivery.(dlv_id)] in
         ret (delivery_response delivery)
     end).
Proof.
  intros w u w' Hok H. apply bind_Ok in H as ([d|] & w1 & Hs & H); [|by apply raise_Ok in H].
  cbn beta in H. apply lock_delivery_Ok in Hs as (-> & _ & Hd & e & He & Ho); [|done].
  apply bind_Ok in H as (ep & w1 & [-> ->]%get_Ok & H). cbn beta in H.
  destruct (negb _); [by apply raise_Ok in H|].
  destruct (String.eqb_spec (dlv_state d) "delivered"); [by apply raise_Ok in H|].
  eapply (run_bind _ _ _ _ _ Hok H); [|intros; refines].
  intros d' w1 Hf. eapply (flush_update_writes TDelivery); [exact Hf|set_solver| | |done|exact Hd].
  - cbn. rewrite He. cbn. by rewrite Ho.
  - intros ts. cbn. split_and!; try done; lia.
Qed.
End WebhookWrites.

(** ** Billing *)
Section BillingWrites.
Context {E : Env}.

Lemma get_or_create_subscription_refines {who T} org :
  TSubscription ∈ T -> who (Some org) -> refines who T (get_or_create_subscription org).
Proof. intros HT Hw. unfold get_or_create_subscription. refines. Qed.

Lemma get_or_create_subscription_Ok org s w w' :
  db_ok (w_db w) -> get_or_create_subscription org w = (Ok s, w') ->
  s.(sub_organization_id) = org /\ find TSubscription (w_db w') s.(sub_id) = Some s /\
  (w' = w \/ find TSubscription (w_db w) s.(sub_id) = None /\ s.(sub_plan) = "free" /\
             s.(sub_status) = "inactive" /\ row_ok TSubscription (w_db w) s = true /\
             w_db w' = put TSubscription s (w_db w) /\ w_log w' = w_log w).
Proof.
  unfold get_or_create_subscription. intros Hok H. inv_ok.
  - destruct_and!. split_and!; [by apply N.eqb_eq| |by left].
    by apply (stored TSubscription).
  - split_and!; [done|by apply find_put|]. by right.
Qed.

Lemma create_billing_checkout_refines org plan success cancel key :
  refines (eq (Some org)) [TSubscription] (create_billing_checkout org plan success cancel key).
Proof.
  unfold create_billing_checkout. do 2 (case_match; [refines|]).
  apply refines_bind; [apply get_or_create_subscription_refines; [set_solver|done]|].
  intros s. unfold create_checkout_session. refines.
Qed.

Lemma create_billing_portal_refines org url :
  refines (eq (Some org)) [TSubscription] (create_billing_portal org url).
Proof.
  unfold create_billing_portal. case_match; [refines|].
  apply refines_bind; [apply get_or_create_subscription_refines; [set_solver|done]|].
  intros s. unfold create_portal_session. refines.
Qed.

Lemma resolve_organization_quiet obj : quiet (_resolve_organization_id obj).
Proof. unfold _resolve_organization_id. quiet. Qed.

(** The assignments of an event touch neither the identity nor the tenant. *)
Lemma apply_stripe_event_identity event_type obj s s' :
  apply_stripe_event event_type obj s = Ok s' ->
  s'.(sub_id) = s.(sub_id) /\ s'.(sub_organization_id) = s.(sub_organization_id).
Proof.
  unfold apply_stripe_event, subscription_event, result_bind. intros H.
  repeat case_match; simplify_eq; done.
Qed.

Lemma update_subscription_refines org event_type event_id marker obj :
  refines (eq (Some org)) [TSubscription; TAuditLog]
    (update_subscription org event_type event_id marker obj).
Proof.
  intros w u w' Hok H. unfold update_subscription in H.
  apply bind_Ok in H as (s & w1 & Hs & H). cbn beta in H.
  assert (Hw1 : writes (eq (Some org)) [TSubscription; TAuditLog] (w_db w) (w_db w1))
    by (eapply get_or_create_subscription_refines; [..|exact Hs]; [set_solver|done|done]).
  apply get_or_create_subscription_Ok in Hs as (Ho & Hs & _); [|done].
  etrans; [exact Hw1|]. apply bind_Ok in H as (s' & w2 & [Happ ->]%lift_Ok & H). cbn beta in H.
  apply apply_stripe_event_identity in Happ as [Hid Ho'].
  eapply (run_bind _ _ _ _ _ (writes_db_ok _ _ _ _ Hw1 Hok) H); [|intros; refines].
  intros s'' w2 Hf.
  eapply (flush_update_writes TSubscription); [exact Hf|set_solver| |done|exact Hid|exact Hs].
  cbn. by rewrite Ho.
Qed.

(** A verified event: nothing for a duplicate; otherwise its marker, and at most one tenant's
    subscription and audit entry. *)
Lemma process_stripe_event_writes event b w w' :
  db_ok (w_db w) -> process_stripe_event event w = (Ok b, w') ->
  exists org, writes (fun o => o = None \/ o = Some org) [TStripeEvent; TSubscription; TAuditLog]
                (w_db w) (w_db w').
Proof.
  unfold process_stripe_event. intros Hok H.
  apply bind_Ok in H as (eid & w1 & [_ ->]%lift_Ok & H).
  apply bind_Ok in H as (ety & w1 & [_ ->]%lift_Ok & H).
  apply bind_Ok in H as (ts & w1 & [-> ->]%read_Ok & H).
  apply bind_Ok in H as (id & w1 & [-> ->]%read_Ok & H).
  apply bind_Ok in H as (inserted & w1 & Hins & H). cbn beta in H.
  apply insert_on_conflict_Ok in Hins as [(-> & -> & _)|(-> & _ & Hn & Hr & Hw1 & _)].
  { exists 0%N. apply bind_Ok in H as (u & w1 & [= <- <-] & [-> ->]%ret_Ok). done. }
  assert (Hw : forall org, writes (fun o => o = None \/ o = Some org)
      [TStripeEvent; TSubscription; TAuditLog] (w_db w) (w_db w1)).
  { intros org. rewrite Hw1. apply writes_insert; [done|set_solver|by left|done..]. }
  clear Hw1. apply bind_Ok in H as (data & w2 & [_ ->]%lift_Ok & H).
  apply bind_Ok in H as (object & w2 & [_ ->]%lift_Ok & H).
  apply bind_Ok in H as (obj & w2 & [_ ->]%lift_Ok & H).
  apply bind_Ok in H as (org & w2 & Hres%resolve_organization_quiet & H). cbn beta in H.
  apply bind_Ok in H as (u & w3 & Hup & H). apply bind_Ok in H as (u2 & w4 & [= <- <-] & H).
  apply ret_Ok in H as [-> ->]. cbn [w_db add_log]. destruct org as [org|].
  - exists org. etrans; [apply (Hw org)|]. rewrite <- Hres.
    apply update_subscription_refines in Hup.
    + eapply (writes_weaken (eq (Some org))); [intros o <-; by right| |exact Hup]. set_solver.
    + rewrite Hres. eapply writes_db_ok; [apply (Hw 0%N)|done].
  - exists 0%N. apply ret_Ok in Hup as [_ ->]. rewrite Hres. apply Hw.
Qed.
End BillingWrites.

(** ** Files *)
Section FileWrites.
Context {E : Env} (org : uuid).

Lemma require_project_quiet id : quiet (require_project org id).
Proof. unfold require_project. quiet. Qed.
Lemma require_task_quiet id : quiet (require_task org id).
Proof. unfold require_task. quiet. Qed.
End FileWrites.
