(* ===== verification/RefineWorker.v ===== *)
(** * RefineWorker: life cycles under the Celery tasks

    A task commits its own transactions, so its writes stand whether it returns, fails or asks for
    a retry: [commits] is the refinement statement for every outcome. *)
From stdpp Require Import relations.
From S2P Require Import Prelude Text Json Schema Config TokenBucket Session Events Signing.
From S2P Require Import Webhooks Email Metrics Worker Lifecycle Refinement RefineServices.
#[local] Open Scope string_scope.

Definition any_tenant : option uuid -> Prop := fun _ => True.

(** Whatever its outcome, [m] is a sequence of writes. *)
Definition commits {A} (T : list table) (m : M A) : Prop :=
  forall w r w', db_ok (w_db w) -> m w = (r, w') -> writes any_tenant T (w_db w) (w_db w').

Section Commits.
Context {E : Env} {T : list table}.

Lemma commits_quiet {A} (m : M A) : quiet m -> commits T m.
Proof. intros Hq w r w' _ ->%Hq. done. Qed.

Lemma commits_bind {A B} (m : M A) (f : A -> M B) :
  commits T m -> (forall a, commits T (f a)) -> commits T (bind m f).
Proof.
  intros Hm Hf w r w' Hok. unfold bind. destruct (m w) as [[a|e] w1] eqn:H1;
    apply (Hm _ _ _ Hok) in H1.
  - intros H2. etrans; [exact H1|]. eapply Hf; [|exact H2]. by eapply writes_db_ok.
  - intros [= <- <-]. done.
Qed.

Lemma commits_try {A} (m : M A) h :
  commits T m -> (forall e m', h e = Some m' -> commits T m') -> commits T (try_except m h).
Proof.
  intros Hm Hh w r w' Hok. unfold try_except. destruct (m w) as [[a|e] w1] eqn:H1;
    apply (Hm _ _ _ Hok) in H1.
  - intros [= <- <-]. done.
  - destruct (h e) as [m'|] eqn:He; [|intros [= <- <-]; done].
    intros H2. etrans; [exact H1|]. eapply (Hh _ _ He); [|exact H2]. by eapply writes_db_ok.
Qed.

(** A transaction commits what its body did, or nothing. *)
Lemma commits_session {A} (m : M A) : refines any_tenant T m -> commits T (get_session m).
Proof.
  intros Hm w [a|e] w' Hok H.
  - rewrite get_session_Ok in H. exact (Hm w a w' Hok H).
  - apply get_session_Err in H as ->. done.
Qed.
End Commits.

Section WorkerWrites.
Context {E : Env}.

Lemma hincrby_quiet key field : quiet (hincrby key field).
Proof. unfold hincrby. quiet. Qed.
#[local] Hint Resolve hincrby_quiet : refine.

Lemma self_retry_quiet task args retries max countdown e :
  quiet (self_retry task args retries max countdown e).
Proof. unfold self_retry. quiet. Qed.
#[local] Hint Resolve self_retry_quiet : refine.

Lemma run_invitation_quiet id token : quiet (run_invitation id token).
Proof. unfold run_invitation, send_invitation_email. quiet. Qed.

Lemma send_invitation_quiet retries id token : quiet (send_invitation retries id token).
Proof.
  unfold send_invitation, record_background_job. apply quiet_try.
  - apply quiet_bind; [apply run_invitation_quiet|intros; quiet].
  - intros e m' H. destruct e; simplify_eq; quiet.
Qed.

Lemma target_error_quiet url : quiet (target_error url).
Proof.
  unfold target_error. apply quiet_try.
  - apply quiet_bind; [apply validate_webhook_target_quiet|intros; quiet].
  - intros e m' H. destruct e; simplify_eq; quiet.
Qed.

Lemma create_signature_quiet secret payload ts : quiet (create_signature secret payload ts).
Proof. unfold create_signature, time_time. quiet. Qed.

(** The tasks update deliveries they read, and never lower the attempt count. *)
Lemma update_delivery_writes w d d' r w' :
  flush_update TDelivery d d' w = (Ok r, w') ->
  find TDelivery (w_db w) d.(dlv_id) = Some d -> d'.(dlv_id) = d.(dlv_id) ->
  (forall ts, evolve TDelivery d (touch TDelivery ts d')) ->
  writes any_tenant [TDelivery] (w_db w) (w_db w').
Proof.
  intros Hf Hd Hid Hev.
  by eapply (flush_update_writes TDelivery); [exact Hf|set_solver|..|exact Hid|].
Qed.

Lemma mark_dead_writes d error w c w' :
  mark_dead d error w = (Ok c, w') -> find TDelivery (w_db w) d.(dlv_id) = Some d ->
  writes any_tenant [TDelivery] (w_db w) (w_db w').
Proof.
  unfold mark_dead, record_webhook_delivery, record_background_job. intros H Hd.
  apply bind_Ok in H as (u & w1 & H1%hincrby_quiet & H).
  apply bind_Ok in H as (u2 & w2 & H2%hincrby_quiet & H).
  apply bind_Ok in H as (d' & w3 & Hf & H). apply ret_Ok in H as [-> ->].
  rewrite <- H1, <- H2 in *. eapply update_delivery_writes; [exact Hf|done..|].
  intros ts. cbn. split_and!; try done; lia.
Qed.

Lemma mark_dead_Attempt d error c url body headers w w' :
  mark_dead d error w = (Ok (Attempt c url body headers), w') -> False.
Proof.
  unfold mark_dead. intros (? & ? & _ & H)%bind_Ok.
  apply bind_Ok in H as (? & ? & _ & H). by apply bind_Ok in H as (? & ? & _ & [? _]%ret_Ok).
Qed.

Lemma claim_delivery_refines id : refines any_tenant [TDelivery] (claim_delivery id).
Proof.
  intros w c w' Hok H. unfold claim_delivery in H.
  apply bind_Ok in H as (u & w1 & [_ ->]%lift_Ok & H).
  apply bind_Ok in H as (found & w1 & [-> Hs]%scalar_Ok & H). cbn beta in H.
  destruct found as [d|]; [|by apply raise_Ok in H].
  destruct Hs as [_ Hd%(stored TDelivery _ _ Hok)].
  destruct (one_of _ _) eqn:Hst; [by apply ret_Ok in H as [_ ->]|].
  apply bind_Ok in H as (ep & w1 & [-> ->]%get_Ok & H). cbn beta in H.
  destruct (find TEndpoint _ _) as [e|]; [|by eapply mark_dead_writes].
  destruct (negb _); [by eapply mark_dead_writes|].
  apply bind_Ok in H as (error & w1 & H1%target_error_quiet & H). cbn beta in H.
  rewrite <- H1 in *. destruct error as [msg|]; [by eapply mark_dead_writes|].
  apply bind_Ok in H as (secret & w2 & [_ ->]%lift_Ok & H).
  apply bind_Ok in H as (sg & w2 & H2%create_signature_quiet & H). rewrite <- H2 in *.
  apply bind_Ok in H as (d' & w3 & Hf & H). apply ret_Ok in H as [-> ->].
  eapply update_delivery_writes; [exact Hf|done..|].
  intros ts. cbn. split_and!; try done; [lia|]. intros Hd'. by rewrite Hd' in Hst.
Qed.

(** The object that a claimed attempt keeps is the row as the claim stored it. *)
Lemma claim_held id d url body headers w w' :
  db_ok (w_db w) -> claim_delivery id w = (Ok (Attempt d url body headers), w') ->
  parse_id id = Ok d.(dlv_id) /\ find TDelivery (w_db w') d.(dlv_id) = Some d.
Proof.
  intros Hok H. unfold claim_delivery in H.
  apply bind_Ok in H as (u & w1 & [Hp ->]%lift_Ok & H).
  apply bind_Ok in H as (found & w1 & [-> Hs]%scalar_Ok & H). cbn beta in H.
  destruct found as [d0|]; [|by apply raise_Ok in H].
  destruct Hs as [Hid%N.eqb_eq Hd%(stored TDelivery _ _ Hok)].
  destruct (one_of _ _) eqn:Hst; [by apply ret_Ok in H as [? ->]|].
  apply bind_Ok in H as (ep & w1 & [-> ->]%get_Ok & H). cbn beta in H.
  destruct (find TEndpoint _ _) as [e|]; [|by apply mark_dead_Attempt in H].
  destruct (negb _); [by apply mark_dead_Attempt in H|].
  apply bind_Ok in H as (error & w1 & H1%target_error_quiet & H). cbn beta in H.
  destruct error as [msg|]; [by apply mark_dead_Attempt in H|].
  apply bind_Ok in H as (secret & w2 & [_ ->]%lift_Ok & H).
  apply bind_Ok in H as (sg & w2 & H2%create_signature_quiet & H).
  apply bind_Ok in H as (d' & w3 & Hf & H). apply ret_Ok in H as [[= -> _ _ _] ->].
  apply flush_update_Ok in Hf as [(Heq & _)|(_ & -> & _ & _ & _ & ->)].
  - exfalso. apply (f_equal dlv_attempt_count) in Heq. cbn in Heq. lia.
  - split; [by cbn; rewrite Hid|]. cbn. by apply find_put.
Qed.

Lemma column_self {A} `{EqDecision A} (held new : A) : changed_column held new held = new.
Proof. unfold changed_column. by case_decide. Qed.

(** While no other session wrote the row, the flush writes the assigned object. *)
Lemma set_changed_self held new :
  new.(dlv_id) = held.(dlv_id) -> set_changed held new held = new.
Proof.
  intros Hid. unfold set_changed. rewrite !column_self, <- Hid. by destruct new.
Qed.

Lemma flush_held_self held new w :
  new.(dlv_id) = held.(dlv_id) ->
  flush_held held new held w = (let! _r := flush_update TDelivery held new in ret tt) w.
Proof.
  intros Hid. unfold flush_held. rewrite set_changed_self by done. case_decide as Heq; [|done].
  unfold flush_update, bind. by rewrite decide_True.
Qed.

(** The settling transactions of a run that nothing interrupts: the object is the row. *)
Lemma fail_delivery_writes d id message w o w' :
  parse_id id = Ok d.(dlv_id) -> find TDelivery (w_db w) d.(dlv_id) = Some d ->
  fail_delivery d id message w = (Ok o, w') -> writes any_tenant [TDelivery] (w_db w) (w_db w').
Proof.
  intros Hp Hd H. unfold fail_delivery in H. rewrite Hp in H.
  apply bind_Ok in H as (u & w1 & [[= <-] ->]%lift_Ok & H).
  apply bind_Ok in H as (found & w1 & [-> ->]%get_Ok & H). rewrite Hd in H. cbv zeta in H.
  destruct (5 <=? dlv_attempt_count d)%Z.
  - apply bind_Ok in H as (u & w1 & Hf & [_ ->]%ret_Ok). rewrite flush_held_self in Hf by done.
    apply bind_Ok in Hf as (r & w2 & Hf & [_ ->]%ret_Ok).
    eapply update_delivery_writes; [exact Hf|done..|]. intros ts; cbn; split_and!; try done; lia.
  - apply bind_Ok in H as (ts & w1 & [-> ->]%read_Ok & H).
    apply bind_Ok in H as (u & w1 & Hf & [_ ->]%ret_Ok). rewrite flush_held_self in Hf by done.
    apply bind_Ok in Hf as (r & w2 & Hf & [_ ->]%ret_Ok).
    change (w_db w) with (w_db (ticked w)) in *.
    eapply update_delivery_writes; [exact Hf|done..|]. intros ts; cbn; split_and!; try done; lia.
Qed.

Lemma succeed_delivery_writes d id status w u w' :
  parse_id id = Ok d.(dlv_id) -> find TDelivery (w_db w) d.(dlv_id) = Some d ->
  succeed_delivery d id status w = (Ok u, w') -> writes any_tenant [TDelivery] (w_db w) (w_db w').
Proof.
  intros Hp Hd H. unfold succeed_delivery in H. rewrite Hp in H.
  apply bind_Ok in H as (u1 & w1 & [[= <-] ->]%lift_Ok & H).
  apply bind_Ok in H as (found & w1 & [-> ->]%get_Ok & H). rewrite Hd in H.
  rewrite flush_held_self in H by done. apply bind_Ok in H as (r & w2 & Hf & [_ ->]%ret_Ok).
  eapply update_delivery_writes; [exact Hf|done..|]. intros ts; cbn; split_and!; try done; lia.
Qed.

(** A transaction that is known to refine its writes where it runs. *)
Lemma session_writes {A} (m : M A) w r w' T :
  (forall a w1, m w = (Ok a, w1) -> writes any_tenant T (w_db w) (w_db w1)) ->
  get_session m w = (r, w') -> writes any_tenant T (w_db w) (w_db w').
Proof.
  intros Hm H. destruct r as [a|e]; [|by apply get_session_Err in H as ->].
  rewrite get_session_Ok in H. by eapply Hm.
Qed.

Lemma settle_writes id c w r w' :
  (forall d url body headers, c = Attempt d url body headers ->
     parse_id id = Ok d.(dlv_id) /\ find TDelivery (w_db w) d.(dlv_id) = Some d) ->
  settle id c w = (r, w') -> writes any_tenant [TDelivery] (w_db w) (w_db w').
Proof.
  intros Hc H. destruct c as [o|d url body headers]; [by injection H as _ <-|].
  destruct (Hc _ _ _ _ eq_refl) as [Hp Hd]. unfold settle, post, record_webhook_delivery, record_background_job in H.
  erewrite bind_run in H by reflexivity. cbn beta in H.
  match type of H with match ?x with _ => _ end ?w1 = _ =>
    assert (Hdb : w_db w1 = w_db w) by done; set (w1' := w1) in *; clearbody w1'; destruct x as [status|message] end.
  - unfold bind at 1 in H. destruct (get_session _ w1') as [r1 w2] eqn:Hs.
    apply (session_writes _ _ _ _ [TDelivery]) in Hs;
      [|intros a w3 Hrun; eapply succeed_delivery_writes; [exact Hp| |exact Hrun]; by rewrite Hdb].
    rewrite Hdb in Hs. destruct r1 as [u|e]; [|by injection H as _ <-].
    match type of H with ?m w2 = _ => assert (Hm : quiet m) by quiet end. by rewrite (Hm _ _ _ H).
  - unfold bind at 1 in H. destruct (get_session _ w1') as [r1 w2] eqn:Hs.
    apply (session_writes _ _ _ _ [TDelivery]) in Hs;
      [|intros a w3 Hrun; eapply fail_delivery_writes; [exact Hp| |exact Hrun]; by rewrite Hdb].
    rewrite Hdb in Hs. destruct r1 as [o|e]; [|by injection H as _ <-].
    match type of H with ?m w2 = _ => assert (Hm : quiet m) by quiet end. by rewrite (Hm _ _ _ H).
Qed.

Lemma run_delivery_commits id : commits [TDelivery] (run_delivery id).
Proof.
  intros w r w' Hok H. unfold run_delivery, bind in H. destruct (get_session (claim_delivery id) w) as [[c|e] w1] eqn:Hc.
  - rewrite get_session_Ok in Hc. etrans; [by eapply claim_delivery_refines|].
    eapply settle_writes; [|exact H]. intros d url body headers ->. by eapply claim_held.
  - apply get_session_Err in Hc. injection H as _ <-. by rewrite Hc.
Qed.

Lemma deliver_webhook_commits retries id : commits [TDelivery] (deliver_webhook retries id).
Proof.
  unfold deliver_webhook, record_webhook_delivery, record_background_job. apply commits_try.
  - apply commits_bind; [apply run_delivery_commits|]. intros; apply commits_quiet; quiet.
  - intros e m' H. apply commits_quiet. destruct e; simplify_eq; quiet.
Qed.
End WorkerWrites.
