(* ===== verification/Main.v ===== *)
(** * Main: main.py and core/middleware.py

    The exception handlers that turn an exception into a response, the request identifier and the
    security headers. *)
From S2P Require Import Prelude Text Json Schema Config TokenBucket Session.
From stdpp Require Import pretty.
#[local] Open Scope string_scope.

(** A JSON response with its headers. *)
Record Response := mkResponse {
  status_code : Z;
  content : json;
  headers : list (string * string) }.

(** [_error_payload]. *)
Definition _error_payload (request_id : option string) (code message : string)
    (details : option json) : json :=
  JObj [("error", JObj ([("code", JStr code); ("message", JStr message);
                         ("request_id", match request_id with Some r => JStr r | None => JNull end)]
                        ++ match details with Some d => [("details", d)] | None => [] end)%list)].

(** The registered handlers; [errors] is the list pydantic attaches to a RequestValidationError. *)
Definition error_response (request_id : option string) (errors : json) (e : exn) : Response :=
  match e with
  | AppError code message status =>
      mkResponse status (_error_payload request_id code message None) []
  | HTTPException status detail hs =>
      mkResponse status (_error_payload request_id ("HTTP_" +:+ pretty status) detail None) hs
  | IntegrityError =>
      mkResponse 409 (_error_payload request_id "RESOURCE_CONFLICT"
        "The requested change conflicts with existing data" None) []
  | RequestValidationError =>
      mkResponse 422 (_error_payload request_id "VALIDATION_ERROR" "Request validation failed"
        (Some errors)) []
  | _ =>
      mkResponse 500 (_error_payload request_id "INTERNAL_ERROR"
        "An unexpected server error occurred" None) []
  end.

(** ** core/middleware.py *)

(** ^[A-Za-z0-9._:-]{1,64}$ *)
Definition request_id_char (c : ascii) : bool :=
  let n := code c in
  let between a b := (a <=? n)%N && (n <=? b)%N in
  (between 65 90 || between 97 122 || between 48 57 || (n =? 46) || (n =? 95) || (n =? 58)
   || (n =? 45))%N.
Definition request_id_ok (s : string) : bool :=
  (1 <=? String.length s)%nat && (String.length s <=? 64)%nat
  && forallb request_id_char (list_ascii_of_string s).

Definition setdefault (k v : string) (hs : list (string * string)) : list (string * string) :=
  if existsb (fun kv => String.eqb (lower kv.1) (lower k)) hs then hs else (hs ++ [(k, v)])%list.

Section Middleware.
Context {E : Env}.

Definition normalize_request_id (candidate : option string) : M string :=
  match candidate with
  | Some c => if request_id_ok c then ret c else let! u := uuid4 in ret (uuid_str u)
  | None => let! u := uuid4 in ret (uuid_str u)
  end.

(** [SecurityHeadersMiddleware.dispatch] after [call_next]. *)
Definition security_headers (hs : list (string * string)) : list (string * string) :=
  let hs := setdefault "X-Content-Type-Options" "nosniff" hs in
  let hs := setdefault "X-Frame-Options" "DENY" hs in
  let hs := setdefault "Referrer-Policy" "no-referrer" hs in
  let hs := setdefault "Permissions-Policy" "camera=(), microphone=(), geolocation=()" hs in
  if is_production settings
  then setdefault "Strict-Transport-Security" "max-age=31536000; includeSubDomains" hs
  else hs.
End Middleware.

(** ** Lemmas *)
Definition has_header (k : string) (hs : list (string * string)) : Prop :=
  exists v, (exists k', lower k' = lower k /\ (k', v) ∈ hs).

Lemma setdefault_has k v hs : has_header k (setdefault k v hs).
Proof.
  unfold setdefault, has_header. destruct (existsb _ _) eqn:H.
  - apply existsb_exists in H as ([k' v'] & Hin%list_elem_of_In & Hk%String.eqb_eq). eauto.
  - exists v, k. set_solver.
Qed.

Lemma setdefault_mono k k' v hs : has_header k hs -> has_header k (setdefault k' v hs).
Proof.
  unfold setdefault, has_header. intros (v0 & k0 & Hk & Hin).
  destruct (existsb _ _); exists v0, k0; set_solver.
Qed.

(** The characters of a UUID string are admissible in a request identifier. *)
Lemma uuid_str_request_id u : request_id_ok (uuid_str u) = true.
Proof.
  unfold request_id_ok. rewrite uuid_str_length. cbn [Nat.leb andb].
  apply all_chars_forallb, uuid_str_chars; [reflexivity|].
  apply hex_char_forall. reflexivity.
Qed.
