(* ===== verification/Api.v ===== *)
(** * Api: the requests of the API as steps of the world

    [request] has a constructor per state-reading or state-changing endpoint, [handle] dispatches
    it to its router function and [serve] runs it in the transaction of [get_session].  [step] adds
    the worker's tasks: the reachable worlds are those the system passes through when requests and
    tasks run one after the other. *)
From stdpp Require Import relations.
From S2P Require Import Prelude Text Json Schema Config TokenBucket Session Permissions Security.
From S2P Require Import Access AuditTrail Idempotency Events Projects Tasks Organizations Auth.
From S2P Require Import Webhooks Billing Files Email Metrics Worker.
#[local] Open Scope string_scope.

Inductive request :=
  (** /auth *)
  | Register (body : RegisterRequest)
  | Login (client : option string) (email password : string)
  | OAuthToken (client : option string) (username password : string)
  | Refresh (refresh_token : string)
  | Logout (refresh_token : string)
  | Me (token : string)
  (** /organizations *)
  | CreateOrganization (token key : string) (payload : OrganizationCreate)
  | ListOrganizations (token : string)
  | AcceptInvitation (token raw_token : string)
  | Tenant (token : string) (organization_id : uuid) (r : tenant_request)
  (** /webhooks/stripe *)
  | StripeWebhook (payload : string) (signature : option string)
(** The endpoints under /organizations/{organization_id}. *)
with tenant_request :=
  | CreateInvitation (key : string) (body : InviteMemberRequest)
  | ListMembers
  | ChangeMemberRole (membership_id : uuid) (role : string)
  | DeleteMember (membership_id : uuid)
  | CreateProject (payload : ProjectCreate)
  | ListProjects (cursor : option string) (limit : Z)
  | RetrieveProject (project_id : uuid)
  | UpdateProject (project_id : uuid) (payload : ProjectUpdate)
  | DeleteProject (project_id : uuid)
  | CreateTask (payload : TaskCreate)
  | ListTasks (filters : TaskFilter) (cursor : option string) (limit : Z)
  | RetrieveTask (tid : uuid)
  | UpdateTask (tid : uuid) (payload : TaskUpdate)
  | DeleteTask (tid : uuid)
  | CreateUpload (payload : PresignUploadRequest)
  | GetDownload (attachment_id : uuid)
  | CreateWebhook (body : WebhookCreate)
  | ListWebhooks
  | DeactivateWebhook (endpoint_id : uuid)
  | ListDeliveries (state : option string) (limit : Z)
  | RetryDelivery (delivery_id : uuid)
  | ListAudit (limit : Z)
  | SubscriptionStatus
  | Checkout (key : string) (body : CheckoutRequest)
  | Portal (return_url : string).

(** The response models. *)
Inductive reply :=
  | NoContent
  | UserReply (r : UserResponse)
  | Tokens (r : TokenPair)
  | OrganizationReply (r : OrganizationResponse)
  | OrganizationList (l : list OrganizationResponse)
  | InvitationReply (r : InvitationResponse)
  | MembershipReply (r : MembershipResponse)
  | MembershipList (l : list MembershipResponse)
  | ProjectReply (r : ProjectResponse)
  | ProjectPageReply (r : ProjectPage)
  | TaskReply (r : TaskResponse)
  | TaskPageReply (r : TaskPage)
  | UploadReply (r : PresignUploadResponse)
  | DownloadReply (r : DownloadResponse)
  | WebhookReply (r : WebhookResponse)
  | WebhookList (l : list WebhookResponse)
  | DeliveryReply (r : WebhookDeliveryResponse)
  | DeliveryList (l : list WebhookDeliveryResponse)
  | AuditList (l : list AuditResponse)
  | SubscriptionReply (r : SubscriptionResponse)
  | CheckoutReply (r : CheckoutResponse)
  | PortalReply (r : PortalResponse).

(** The permission an organization endpoint requires. *)
Definition required (r : tenant_request) : Permission :=
  match r with
  | CreateInvitation _ _ | ListMembers | ChangeMemberRole _ _ | DeleteMember _ => MEMBERS_MANAGE
  | ListProjects _ _ | RetrieveProject _ | ListTasks _ _ _ | RetrieveTask _
  | GetDownload _ => PROJECT_READ
  | CreateProject _ | UpdateProject _ _ | CreateTask _ | UpdateTask _ _ | DeleteTask _
  | CreateUpload _ => PROJECT_WRITE
  | DeleteProject _ => PROJECT_DELETE
  | CreateWebhook _ | ListWebhooks | DeactivateWebhook _ | ListDeliveries _ _
  | RetryDelivery _ => WEBHOOK_MANAGE
  | ListAudit _ => AUDIT_READ
  | SubscriptionStatus | Checkout _ _ | Portal _ => BILLING_MANAGE
  end.

Section Api.
Context {E : Env}.

Definition reply_with {A} (f : A -> reply) (m : M A) : M reply := let! a := m in ret (f a).
Definition no_content (m : M unit) : M reply := reply_with (fun _ => NoContent) m.

Definition handle_tenant (token : string) (org : uuid) (r : tenant_request) : M reply :=
  match r with
  | CreateInvitation key body => reply_with InvitationReply (create_invitation token org key body)
  | ListMembers => reply_with MembershipList (list_members token org)
  | ChangeMemberRole mid role => reply_with MembershipReply (change_member_role token org mid role)
  | DeleteMember mid => no_content (delete_member token org mid)
  | CreateProject payload => reply_with ProjectReply (projects_create token org payload)
  | ListProjects cursor limit =>
      reply_with ProjectPageReply (list_projects token org cursor limit)
  | RetrieveProject pid => reply_with ProjectReply (projects_retrieve token org pid)
  | UpdateProject pid payload => reply_with ProjectReply (projects_update token org pid payload)
  | DeleteProject pid => no_content (projects_delete token org pid)
  | CreateTask payload => reply_with TaskReply (tasks_create token org payload)
  | ListTasks filters cursor limit =>
      reply_with TaskPageReply (list_tasks token org filters cursor limit)
  | RetrieveTask tid => reply_with TaskReply (tasks_retrieve token org tid)
  | UpdateTask tid payload => reply_with TaskReply (tasks_update token org tid payload)
  | DeleteTask tid => no_content (tasks_delete token org tid)
  | CreateUpload payload => reply_with UploadReply (create_upload token org payload)
  | GetDownload aid => reply_with DownloadReply (get_download token org aid)
  | CreateWebhook body => reply_with WebhookReply (create_webhook token org body)
  | ListWebhooks => reply_with WebhookList (list_webhooks token org)
  | DeactivateWebhook eid => no_content (deactivate_webhook token org eid)
  | ListDeliveries state limit => reply_with DeliveryList (list_deliveries token org state limit)
  | RetryDelivery did => reply_with DeliveryReply (retry_delivery token org did)
  | ListAudit limit => reply_with AuditList (list_audit token org limit)
  | SubscriptionStatus => reply_with SubscriptionReply (subscription_status token org)
  | Checkout key body => reply_with CheckoutReply (checkout token org key body)
  | Portal url => reply_with PortalReply (portal token org url)
  end.

Definition handle (r : request) : M reply :=
  match r with
  | Register body => reply_with UserReply (register body)
  | Login client email password => reply_with Tokens (login client email password)
  | OAuthToken client username password => reply_with Tokens (oauth2_token client username password)
  | Refresh t => reply_with Tokens (refresh t)
  | Logout t => no_content (logout t)
  | Me token => reply_with UserReply (me token)
  | CreateOrganization token key payload =>
      reply_with OrganizationReply (create token key payload)
  | ListOrganizations token => reply_with OrganizationList (list_organizations token)
  | AcceptInvitation token raw => reply_with MembershipReply (accept_member_invitation token raw)
  | Tenant token org r => handle_tenant token org r
  | StripeWebhook payload signature => no_content (stripe_webhook payload signature)
  end.

Definition serve (r : request) : M reply := get_session (handle r).

(** One request, or one run of a worker task, to its end. *)
Inductive step (w : World) : World -> Prop :=
  | step_request r : step w (serve r w).2
  | step_invitation retries id token : step w (send_invitation retries id token w).2
  | step_delivery retries id : step w (deliver_webhook retries id w).2
  | step_cleanup retries : step w (cleanup_task retries w).2.

Definition initial (w : World) : Prop := w_db w = empty_db.
Definition reachable (w : World) : Prop := exists w0, initial w0 /\ rtc step w0 w.
End Api.

(** ** Lemmas *)
Section Facts.
Context {E : Env}.

Lemma reply_with_Ok {A} (f : A -> reply) (m : M A) b w w' :
  reply_with f m w = (Ok b, w') -> exists a, m w = (Ok a, w') /\ b = f a.
Proof.
  unfold reply_with. intros (a & w1 & H & [-> ->]%ret_Ok)%bind_Ok. by exists a.
Qed.

(** Every organization endpoint starts with [require_permission] of its permission. *)
Lemma handle_tenant_gate token org r :
  exists k : OrganizationContext -> M reply, forall w,
    handle_tenant token org r w = bind (require_permission (required r) token org) k w.
Proof.
  assert (Hk : forall A (f : A -> reply) (p : Permission) (body : OrganizationContext -> M A) w,
    reply_with f (bind (require_permission p token org) body) w =
    bind (require_permission p token org) (fun c => reply_with f (body c)) w).
  { intros A f p body w. unfold reply_with, bind.
    by destruct (require_permission p token org w) as [[c|e] w1]. }
  destruct r; eexists; intros w; apply Hk.
Qed.
End Facts.
