(* ===== verification/Routing.v ===== *)
(** * Routing: the routers of main.py and the endpoint that a path reaches

    Every router with the methods and paths of its decorators, the table that [include_router]
    builds from them, and what a request for a path reaches.  Matching and dispatch are Starlette's,
    parameters with their documented laws. *)
From S2P Require Import Prelude Text Json Dates Schema Config TokenBucket Session Pagination.
From S2P Require Import Permissions Security Access Projects Tasks Organizations Auth Webhooks.
From S2P Require Import Billing Files Api.
#[local] Open Scope string_scope.

(** ** Routers *)

(** A method and a path template. *)
Definition Route : Type := string * string.

(** [APIRouter(prefix=...)] with the decorated functions in order. *)
Record Router := mkRouter { prefix : string; router_routes : list Route }.

Definition auth_router : Router := mkRouter "/auth"
  [("POST", "/register"); ("POST", "/login"); ("POST", "/token"); ("POST", "/refresh");
   ("POST", "/logout"); ("GET", "/me")].

Definition organizations_router : Router := mkRouter "/organizations"
  [("POST", ""); ("GET", ""); ("POST", "/{organization_id}/invitations");
   ("POST", "/invitations/accept"); ("GET", "/{organization_id}/members");
   ("PATCH", "/{organization_id}/members/{membership_id}");
   ("DELETE", "/{organization_id}/members/{membership_id}")].

Definition projects_router : Router := mkRouter "/organizations/{organization_id}/projects"
  [("POST", ""); ("GET", ""); ("GET", "/{project_id}"); ("PATCH", "/{project_id}");
   ("DELETE", "/{project_id}")].

Definition tasks_router : Router := mkRouter "/organizations/{organization_id}/tasks"
  [("POST", ""); ("GET", ""); ("GET", "/{task_id}"); ("PATCH", "/{task_id}");
   ("DELETE", "/{task_id}")].

Definition files_router : Router := mkRouter "/organizations/{organization_id}/files"
  [("POST", "/presign"); ("GET", "/{attachment_id}/download")].

Definition webhooks_router : Router := mkRouter "/organizations/{organization_id}/webhooks"
  [("POST", ""); ("GET", ""); ("DELETE", "/{endpoint_id}"); ("GET", "/deliveries");
   ("POST", "/deliveries/{delivery_id}/retry")].

Definition audit_router : Router := mkRouter "/organizations/{organization_id}/audit" [("GET", "")].

Definition billing_router : Router := mkRouter ""
  [("GET", "/organizations/{organization_id}/billing/subscription");
   ("POST", "/organizations/{organization_id}/billing/checkout");
   ("POST", "/organizations/{organization_id}/billing/portal");
   ("POST", "/webhooks/stripe")].

(** [app.include_router(router, prefix=at)]. *)
Definition include_router (table : list Route) (router : Router) (at_ : string) : list Route :=
  (table ++ map (fun r => (r.1, at_ +:+ router.(prefix) +:+ r.2)) router.(router_routes))%list.

Definition included_routers : list Router :=
  [auth_router; organizations_router; projects_router; tasks_router; files_router; webhooks_router;
   audit_router; billing_router].

Definition api_routes : list Route :=
  foldl (fun table router => include_router table router "/api/v1") [] included_routers.

(** The functions that main.py itself decorates. *)
Definition liveness_route : Route := ("GET", "/health/live").
Definition readiness_route : Route := ("GET", "/health/ready").
Definition metrics_route : Route := ("GET", "/metrics").

(** FastAPI adds the routes of the documentation first. *)
Definition documentation_paths : list string :=
  ["/openapi.json"; "/docs"; "/docs/oauth2-redirect"; "/redoc"].
Definition routes (documentation : list Route) : list Route :=
  (documentation ++ api_routes ++ [liveness_route; readiness_route; metrics_route])%list.

(** ** The routes of the requests *)
Definition at_router (router : Router) (method path : string) : Route :=
  (method, "/api/v1" +:+ router.(prefix) +:+ path).

Definition tenant_route (r : tenant_request) : Route :=
  match r with
  | CreateInvitation _ _ => at_router organizations_router "POST" "/{organization_id}/invitations"
  | ListMembers => at_router organizations_router "GET" "/{organization_id}/members"
  | ChangeMemberRole _ _ =>
      at_router organizations_router "PATCH" "/{organization_id}/members/{membership_id}"
  | DeleteMember _ =>
      at_router organizations_router "DELETE" "/{organization_id}/members/{membership_id}"
  | CreateProject _ => at_router projects_router "POST" ""
  | ListProjects _ _ => at_router projects_router "GET" ""
  | RetrieveProject _ => at_router projects_router "GET" "/{project_id}"
  | UpdateProject _ _ => at_router projects_router "PATCH" "/{project_id}"
  | DeleteProject _ => at_router projects_router "DELETE" "/{project_id}"
  | CreateTask _ => at_router tasks_router "POST" ""
  | ListTasks _ _ _ => at_router tasks_router "GET" ""
  | RetrieveTask _ => at_router tasks_router "GET" "/{task_id}"
  | UpdateTask _ _ => at_router tasks_router "PATCH" "/{task_id}"
  | DeleteTask _ => at_router tasks_router "DELETE" "/{task_id}"
  | CreateUpload _ => at_router files_router "POST" "/presign"
  | GetDownload _ => at_router files_router "GET" "/{attachment_id}/download"
  | CreateWebhook _ => at_router webhooks_router "POST" ""
  | ListWebhooks => at_router webhooks_router "GET" ""
  | DeactivateWebhook _ => at_router webhooks_router "DELETE" "/{endpoint_id}"
  | ListDeliveries _ _ => at_router webhooks_router "GET" "/deliveries"
  | RetryDelivery _ => at_router webhooks_router "POST" "/deliveries/{delivery_id}/retry"
  | ListAudit _ => at_router audit_router "GET" ""
  | SubscriptionStatus =>
      at_router billing_router "GET" "/organizations/{organization_id}/billing/subscription"
  | Checkout _ _ =>
      at_router billing_router "POST" "/organizations/{organization_id}/billing/checkout"
  | Portal _ => at_router billing_router "POST" "/organizations/{organization_id}/billing/portal"
  end.

Definition route (r : request) : Route :=
  match r with
  | Register _ => at_router auth_router "POST" "/register"
  | Login _ _ _ => at_router auth_router "POST" "/login"
  | OAuthToken _ _ _ => at_router auth_router "POST" "/token"
  | Refresh _ => at_router auth_router "POST" "/refresh"
  | Logout _ => at_router auth_router "POST" "/logout"
  | Me _ => at_router auth_router "GET" "/me"
  | CreateOrganization _ _ _ => at_router organizations_router "POST" ""
  | ListOrganizations _ => at_router organizations_router "GET" ""
  | AcceptInvitation _ _ => at_router organizations_router "POST" "/invitations/accept"
  | Tenant _ _ r => tenant_route r
  | StripeWebhook _ _ => at_router billing_router "POST" "/webhooks/stripe"
  end.

(** The status of a successful response. *)
Definition tenant_status (r : tenant_request) : Z :=
  match r with
  | CreateInvitation _ _ | CreateProject _ | CreateTask _ | CreateUpload _ | CreateWebhook _
  | Checkout _ _ | Portal _ => 201
  | DeleteMember _ | DeleteProject _ | DeleteTask _ | DeactivateWebhook _ => 204
  | _ => 200
  end.

Definition success_status (r : request) : Z :=
  match r with
  | Register _ | CreateOrganization _ _ _ => 201
  | Logout _ | StripeWebhook _ _ => 204
  | Tenant _ _ r => tenant_status r
  | _ => 200
  end.

(** The identifiers in the path of a request, in the order of its template. *)
Definition tenant_parameters (r : tenant_request) : list uuid :=
  match r with
  | ChangeMemberRole id _ | DeleteMember id | RetrieveProject id | UpdateProject id _
  | DeleteProject id | RetrieveTask id | UpdateTask id _ | DeleteTask id | GetDownload id
  | DeactivateWebhook id | RetryDelivery id => [id]
  | _ => []
  end.
Definition path_parameters (r : request) : list uuid :=
  match r with
  | Tenant _ org r => org :: tenant_parameters r
  | _ => []
  end.

(** ** Paths *)
Inductive segment := Literal (s : string) | Parameter_ (name : string).

Fixpoint split_on (c : ascii) (s : string) : list string :=
  match s with
  | EmptyString => [""]
  | String a s' =>
      if (a =? c)%char then "" :: split_on c s'
      else match split_on c s' with x :: l => String a x :: l | [] => [String a ""] end
  end.

Definition segment_of (s : string) : segment :=
  match s with
  | String "{" name => Parameter_ name
  | _ => Literal s
  end.
Definition segments (template : string) : list segment := map segment_of (split_on "/" template).

Definition fits_segment (s : segment) (x : string) : Prop :=
  match s with Literal l => x = l | Parameter_ _ => x <> "" end.

(** The path with the parameters filled in. *)
Fixpoint fill (template : list segment) (args : list string) : list string :=
  match template, args with
  | Literal l :: t, _ => l :: fill t args
  | Parameter_ _ :: t, a :: args => a :: fill t args
  | _, _ => []
  end.
Definition url (r : request) : string :=
  String.concat "/" (fill (segments (route r).2) (map uuid_str (path_parameters r))).

(** ** Lemmas *)
Lemma split_on_plain c s : all_chars (not_char c) s -> split_on c s = [s].
Proof.
  induction s as [|a s IH]; [done|]. intros [Ha Hs]. cbn. rewrite IH by done.
  by destruct (Ascii.eqb_spec a c).
Qed.

Lemma split_on_app c s t :
  all_chars (not_char c) s -> split_on c (s +:+ String c t) = s :: split_on c t.
Proof.
  induction s as [|a s IH]; intros Hs.
  - rewrite str_app_nil_l. cbn. by rewrite Ascii.eqb_refl.
  - destruct Hs as [Ha Hs]. rewrite str_app_cons. cbn. rewrite IH by done.
    by destruct (Ascii.eqb_spec a c).
Qed.

Lemma split_concat c l :
  l <> [] -> Forall (all_chars (not_char c)) l -> split_on c (String.concat (String c "") l) = l.
Proof.
  intros Hne Hl. induction Hl as [|s l Hs Hl IH]; [done|]. destruct l as [|s' l].
  - by apply split_on_plain.
  - change (String.concat _ _) with (s +:+ String c (String.concat (String c "") (s' :: l))).
    rewrite split_on_app by done. by rewrite IH.
Qed.

(** Templates that some path fits at once. *)
Definition compatible (s t : segment) : bool :=
  match s, t with
  | Literal a, Literal b => String.eqb a b
  | Literal a, Parameter_ _ | Parameter_ _, Literal a => negb (String.eqb a "")
  | Parameter_ _, Parameter_ _ => true
  end.
Fixpoint overlap (s t : list segment) : bool :=
  match s, t with
  | [], [] => true
  | a :: s, b :: t => compatible a b && overlap s t
  | _, _ => false
  end.

Lemma fits_overlap s t path :
  Forall2 fits_segment s path -> Forall2 fits_segment t path -> overlap s t = true.
Proof.
  intros Hs. revert t. induction Hs as [|a x s path Ha _ IH]; intros t Ht.
  - by apply Forall2_nil_inv_r in Ht as ->.
  - apply Forall2_cons_inv_r in Ht as (b & t' & Hb & Ht & ->). cbn. rewrite (IH t' Ht), andb_true_r.
    destruct a, b; cbn in Ha, Hb |- *; subst; try done;
      [apply String.eqb_refl|by apply negb_true_iff, String.eqb_neq..].
Qed.

(** The routes of the program. *)
Definition own_routes : list Route :=
  (api_routes ++ [liveness_route; readiness_route; metrics_route])%list.

Definition apart (r r' : Route) : bool :=
  bool_decide (r = r') || negb (String.eqb r.1 r'.1) || negb (overlap (segments r.2) (segments r'.2)).

Lemma routes_apart : forallb (fun r => forallb (apart r) own_routes) own_routes = true.
Proof. vm_compute. reflexivity. Qed.

Lemma documentation_apart :
  forallb (fun path => forallb (fun r => negb (overlap (segments path) (segments r.2))) own_routes)
    documentation_paths = true.
Proof. vm_compute. reflexivity. Qed.

Lemma tenant_route_own r : tenant_route r ∈ own_routes.
Proof. destruct r; apply (bool_decide_unpack _); vm_compute; exact I. Qed.
Lemma route_own r : route r ∈ own_routes.
Proof.
  destruct r as [| | | | | | | | |? ? r|]; [..|apply (tenant_route_own r)|];
    apply (bool_decide_unpack _); vm_compute; exact I.
Qed.

(** How many parameters a template has. *)
Fixpoint arity (template : list segment) : nat :=
  match template with
  | [] => 0
  | Literal _ :: t => arity t
  | Parameter_ _ :: t => S (arity t)
  end.

Lemma fill_fits template args :
  arity template = List.length args -> Forall (fun a => a <> "") args ->
  Forall2 fits_segment template (fill template args).
Proof.
  revert args. induction template as [|[l|name] t IH]; intros args Hl Ha; cbn in *.
  - constructor.
  - constructor; [done|]. by apply IH.
  - destruct args as [|a args]; [done|]. apply Forall_cons in Ha as [Ha Hargs].
    constructor; [done|]. apply IH; [by injection Hl|done].
Qed.

Lemma fill_all (P : string -> Prop) template args :
  Forall (fun s => match s with Literal l => P l | _ => True end) template -> Forall P args ->
  Forall P (fill template args).
Proof.
  intros Ht. revert args. induction Ht as [|[l|name] t Hl Ht IH]; intros args Ha; cbn.
  - constructor.
  - constructor; [done|]. by apply IH.
  - destruct Ha as [|a args Ha Hargs]; [constructor|]. constructor; [done|]. by apply IH.
Qed.

Lemma route_arity r : arity (segments (route r).2) = List.length (map uuid_str (path_parameters r)).
Proof. destruct r; try reflexivity. destruct r; reflexivity. Qed.

Definition newline : ascii := ascii_of_nat 10.

(** No separator and no line break. *)
Definition plain (c : ascii) : bool := negb (c =? "/")%char && negb (c =? newline)%char.
Definition plain_text (s : string) : Prop := all_chars (fun c => plain c = true) s.

Lemma plain_not s : plain_text s -> all_chars (not_char "/") s /\ all_chars (not_char newline) s.
Proof.
  intros H. split; (eapply all_chars_impl; [|exact H]); intros c Hc; cbv beta in Hc; unfold plain in Hc;
    apply andb_true_iff in Hc as [H1%negb_true_iff H2%negb_true_iff]; by apply Ascii.eqb_neq.
Qed.

Lemma uuid_str_plain u : plain_text (uuid_str u) /\ uuid_str u <> "".
Proof.
  split.
  - apply uuid_str_chars; [done|]. apply hex_char_forall. reflexivity.
  - intros H. pose proof (uuid_str_length u) as Hl. by rewrite H in Hl.
Qed.

(** The parts of a URL. *)
Definition literal_plain (s : segment) : bool :=
  match s with Literal l => forallb plain (list_ascii_of_string l) | Parameter_ _ => true end.

Lemma own_literals : forallb (fun r : Route => forallb literal_plain (segments r.2)) own_routes = true.
Proof. vm_compute. reflexivity. Qed.

Lemma route_literals r :
  Forall (fun s => match s with Literal l => plain_text l | _ => True end) (segments (route r).2).
Proof.
  pose proof own_literals as H. rewrite forallb_forall in H.
  specialize (H (route r) (proj1 (list_elem_of_In _ _) (route_own r))). rewrite forallb_forall in H.
  apply Forall_forall. intros s Hs%list_elem_of_In%H. destruct s as [l|]; [|done].
  by apply all_chars_forallb.
Qed.

Lemma route_parts r : Forall plain_text (fill (segments (route r).2) (map uuid_str (path_parameters r))).
Proof.
  apply fill_all; [apply route_literals|]. apply Forall_map, Forall_forall. intros u _. apply uuid_str_plain.
Qed.

Lemma concat_all (P : ascii -> Prop) sep l :
  all_chars P sep -> Forall (all_chars P) l -> all_chars P (String.concat sep l).
Proof.
  intros Hs H. induction H as [|s l Hp Hl IH]; [done|]. destruct l as [|s' l]; [done|].
  change (String.concat _ _) with (s +:+ sep +:+ String.concat sep (s' :: l)).
  by rewrite !all_chars_app.
Qed.

Lemma url_no_newline r : all_chars (not_char newline) (url r).
Proof.
  apply concat_all; [by split|]. eapply Forall_impl; [apply route_parts|]. intros s H. by apply plain_not.
Qed.

Lemma url_fits r : Forall2 fits_segment (segments (route r).2) (split_on "/" (url r)).
Proof.
  unfold url. rewrite split_concat.
  - apply fill_fits; [apply route_arity|]. apply Forall_map, Forall_forall. intros u _.
    apply uuid_str_plain.
  - destruct r; [..|destruct r|]; discriminate.
  - eapply Forall_impl; [apply route_parts|]. intros s H. by apply plain_not.
Qed.

(** ** The dispatch *)

(** What Starlette documents: a parameter of a template stands for one part of the path, up to the
    next separator, and the first route of the table that matches gets the request. *)
Record starlette (path_matches : string -> string -> bool) (documentation : list Route)
    (dispatch : string -> string -> option Route) : Prop := {
  matches_segments template path : all_chars (not_char newline) path ->
    path_matches template path = true <->
    Forall2 fits_segment (segments template) (split_on "/" path);
  dispatch_first method path :
    dispatch method path =
      List.find (fun r => String.eqb r.1 method && path_matches r.2 path) (routes documentation) }.

Section Dispatched.
Context (path_matches : string -> string -> bool) (documentation : list Route).
Context (dispatch : string -> string -> option Route).
Hypothesis Hlaws : starlette path_matches documentation dispatch.
Hypothesis documented : forall r, r ∈ documentation -> r.2 ∈ documentation_paths.

Lemma own_apart r r' path :
  r ∈ own_routes -> r' ∈ routes documentation -> r.1 = r'.1 ->
  Forall2 fits_segment (segments r.2) path -> Forall2 fits_segment (segments r'.2) path -> r = r'.
Proof.
  intros Hr Hr' Hm Hf Hf'. unfold routes in Hr'. apply elem_of_app in Hr' as [Hr'|Hr'].
  - pose proof (fits_overlap _ _ _ Hf' Hf) as Ho. apply documented, list_elem_of_In in Hr'.
    pose proof documentation_apart as H. rewrite forallb_forall in H. specialize (H _ Hr').
    rewrite forallb_forall in H. apply list_elem_of_In, H in Hr. by rewrite Ho in Hr.
  - pose proof (fits_overlap _ _ _ Hf Hf') as Ho. pose proof routes_apart as H.
    rewrite forallb_forall in H. apply list_elem_of_In, H in Hr. rewrite forallb_forall in Hr.
    change (api_routes ++ _)%list with own_routes in Hr'.
    apply list_elem_of_In, Hr in Hr'. unfold apart in Hr'. rewrite Ho, Hm, String.eqb_refl in Hr'.
    cbn in Hr'. rewrite !orb_false_r in Hr'. by apply bool_decide_eq_true in Hr'.
Qed.

Lemma dispatch_found method path r :
  dispatch method path = Some r ->
  r ∈ routes documentation /\ r.1 = method /\ path_matches r.2 path = true.
Proof.
  rewrite (dispatch_first _ _ _ Hlaws).
  intros [Hin [Hm%String.eqb_eq Hp]%andb_true_iff]%List.find_some.
  split_and!; [by apply list_elem_of_In|done..].
Qed.

Lemma own_route_dispatched r path :
  r ∈ own_routes -> path_matches r.2 path = true -> all_chars (not_char newline) path ->
  dispatch r.1 path = Some r.
Proof.
  intros Hr Hm Hp. rewrite (dispatch_first _ _ _ Hlaws). destruct (List.find _ _) as [r'|] eqn:Hf.
  - apply List.find_some in Hf as [Hin [He%String.eqb_eq Hm']%andb_true_iff].
    f_equal. symmetry. rewrite (matches_segments _ _ _ Hlaws) in Hm, Hm' by done.
    by eapply own_apart; [done|by apply list_elem_of_In|..].
  - exfalso. eapply List.find_none in Hf.
    + cbv beta in Hf. rewrite String.eqb_refl, Hm in Hf. discriminate Hf.
    + apply list_elem_of_In. unfold routes. apply elem_of_app. by right.
Qed.
End Dispatched.

(** ** Property *)

(** C5: every request reaches its own endpoint.  The URL of any request, whatever identifiers are in
    it, is dispatched to the route of that endpoint and to no other; more generally a method and a
    path reach a route of the program exactly when the path fits its template, so that no route
    shadows another. *)
Theorem requests_reach_endpoints path_matches documentation dispatch :
  starlette path_matches documentation dispatch ->
  (forall r, r ∈ documentation -> r.2 ∈ documentation_paths) ->
  (forall r, dispatch (route r).1 (url r) = Some (route r)) /\
  (forall method path r, r ∈ own_routes -> all_chars (not_char newline) path ->
     dispatch method path = Some r <->
     r.1 = method /\ Forall2 fits_segment (segments r.2) (split_on "/" path)).
Proof.
  intros Hlaws Hdoc. split.
  - intros r. eapply own_route_dispatched; [done..|apply route_own| |apply url_no_newline].
    eapply matches_segments; [done|apply url_no_newline|apply url_fits].
  - intros method path r Hr Hp. rewrite <- (matches_segments _ _ _ Hlaws) by done. split.
    + intros H. by eapply dispatch_found in H as (_ & ? & ?).
    + intros [<- Hm]. by eapply own_route_dispatched.
Qed.

(** A matcher. *)
Fixpoint segments_match (s : list segment) (path : list string) : bool :=
  match s, path with
  | [], [] => true
  | Literal l :: s, x :: path => String.eqb x l && segments_match s path
  | Parameter_ _ :: s, x :: path => negb (String.eqb x "") && segments_match s path
  | _, _ => false
  end.

Lemma segments_match_true s path : segments_match s path = true <-> Forall2 fits_segment s path.
Proof.
  revert path. induction s as [|a s IH]; intros [|x path].
  - split; [constructor|done].
  - split; [done|]. by intros H%Forall2_nil_inv_l.
  - split; [by destruct a|]. by intros H%Forall2_nil_inv_r.
  - rewrite Forall2_cons, <- IH. destruct a; cbn; rewrite andb_true_iff.
    + by rewrite String.eqb_eq.
    + by rewrite negb_true_iff, String.eqb_neq.
Qed.

Definition sample_matches (template path : string) : bool :=
  segments_match (segments template) (split_on "/" path).
Definition sample_dispatch (method path : string) : option Route :=
  List.find (fun r => String.eqb r.1 method && sample_matches r.2 path) (routes [("GET", "/docs")]).

Lemma requests_reach_endpoints_witness :
  sample_dispatch "POST" "/api/v1/organizations/invitations/accept" =
    Some ("POST", "/api/v1/organizations/invitations/accept") /\
  sample_dispatch "GET" "/api/v1/organizations/00000000-0000-0000-0000-000000000007/tasks" =
    Some ("GET", "/api/v1/organizations/{organization_id}/tasks").
Proof.
  assert (Hl : starlette sample_matches [("GET", "/docs")] sample_dispatch)
    by by constructor; intros; [apply segments_match_true|].
  assert (Hd : forall r, r ∈ [("GET", "/docs")] -> r.2 ∈ documentation_paths).
  { intros r ->%list_elem_of_singleton. right. left. }
  pose proof (requests_reach_endpoints sample_matches [("GET", "/docs")] sample_dispatch Hl Hd) as [H _].
  split; [exact (H (AcceptInvitation "" ""))|].
  exact (H (Tenant "" 7%N (ListTasks (mkTaskFilter None None None None) None 1))).
Defined.
