(* ===== verification/Http.v ===== *)
(** * Http: the application of main.py as a function from requests to responses

    The construction of the application, its startup check, and its middleware stack, outermost
    first: Starlette's ServerErrorMiddleware with the handler of [Exception], CORS, the metrics of
    observability/middleware.py, the request identifier and the security headers of
    core/middleware.py, and the handlers of the other exceptions; then the health checks and the
    scrape.  Which headers CORSMiddleware adds is Starlette's, a parameter. *)
From stdpp Require Import pretty.
From S2P Require Import Prelude Text Json Dates Schema Config TokenBucket Session Pagination.
From S2P Require Import Permissions Security Access Projects Tasks Organizations Auth Webhooks.
From S2P Require Import Billing Files Metrics Main Api Routing.
From Stdlib Require Import QArith Qround Qabs Lqa.
#[local] Open Scope Z_scope.
#[local] Open Scope string_scope.

(** ** The application *)

(** The arguments of CORSMiddleware. *)
Record CorsOptions := mkCorsOptions {
  allow_origins : list string;
  allow_credentials : bool;
  allow_methods : list string;
  allow_headers : list string }.

Inductive middleware :=
  | SecurityHeadersMiddleware
  | RequestContextMiddleware
  | MetricsMiddleware
  | CORSMiddleware (options : CorsOptions).

(** [FastAPI]: what main.py gives it. *)
Record FastAPI := mkFastAPI {
  title : string;
  version : string;
  debug : bool;
  user_middleware : list middleware;
  app_routes : list Route }.

(** The middleware added last is the outermost. *)
Definition add_middleware (m : middleware) (app : FastAPI) : FastAPI :=
  {| app with user_middleware := m :: app.(user_middleware) |}.

Definition cors_options (s : Settings) : CorsOptions := {|
  allow_origins := s.(app_cors_origins);
  allow_credentials := true;
  allow_methods := ["GET"; "POST"; "PATCH"; "PUT"; "DELETE"; "OPTIONS"];
  allow_headers := ["Authorization"; "Content-Type"; "Idempotency-Key"; "X-Request-ID"] |}.

Definition app (s : Settings) (documentation : list Route) : FastAPI :=
  let app := mkFastAPI s.(app_name) "0.1.0" (s.(app_debug) && negb (is_production s)) []
    (routes documentation) in
  let app := add_middleware SecurityHeadersMiddleware app in
  let app := add_middleware RequestContextMiddleware app in
  let app := add_middleware MetricsMiddleware app in
  add_middleware (CORSMiddleware (cors_options s)) app.

(** The startup: the process serves no request when this raises. *)
Definition lifespan (s : Settings) : result unit := validate_runtime_secrets s.

(** ** Responses *)
(** A body: the reply of an endpoint, a JSON document, a text, or Starlette's page with the traceback
    of an exception. *)
Inductive payload :=
  | ReplyBody (r : reply)
  | JsonBody (j : json)
  | TextBody (s : string)
  | Traceback (e : exn).

Record HttpResponse := mkHttpResponse {
  hr_status : Z;
  hr_body : payload;
  hr_headers : list (string * string) }.

Definition error_http (request_id : option string) (errors : json) (e : exn) : HttpResponse :=
  let r := error_response request_id errors e in
  mkHttpResponse r.(status_code) (JsonBody r.(content)) r.(headers).

(** The exceptions with a handler of their own; the others reach the handler of [Exception]. *)
Definition has_handler (e : exn) : bool :=
  match e with
  | AppError _ _ _ | HTTPException _ _ _ | IntegrityError | RequestValidationError => true
  | _ => false
  end.

(** [response.headers[k] = v]. *)
Definition set_header (k v : string) (hs : list (string * string)) : list (string * string) :=
  (filter (fun kv => lower kv.1 <> lower k) hs ++ [(k, v)])%list.

(** ** Durations

    Doubles are rational numbers, and [float_round] rounds to them. *)
Definition round_half_even (q : Q) : Z :=
  let f := Qfloor q in
  match Qcompare (q - inject_Z f) (1 # 2) with
  | Lt => f
  | Gt => f + 1
  | Eq => if Z.even f then f else f + 1
  end.

Section Durations.
Context {E : Env}.

(** [round(x, 2)]. *)
Definition round2 (x : Q) : Q := float_round (inject_Z (round_half_even (x * 100)) / 100).

(** [time.perf_counter() - started]. *)
Definition elapsed (started stopped : Q) : Q := float_round (stopped - started).
Definition elapsed_ms (started stopped : Q) : Q := round2 (float_round (elapsed started stopped * 1000)).
End Durations.

(** What the middlewares read of a request. *)
Record Incoming := mkIncoming {
  in_method : string;
  in_path : string;
  in_request_id : option string;      (** the X-Request-ID header *)
  in_route : option Route }.          (** [scope["route"]] after the dispatch *)

Section Http.
Context {E : Env}.

(** The response headers after CORSMiddleware, for the request at hand. *)
Context (cors_headers : CorsOptions -> list (string * string) -> list (string * string)).
(** The routes that FastAPI generates. *)
Context (documentation : list Route).

(** ** The middleware stack *)
Definition endpoint (r : request) : M HttpResponse :=
  let! b := serve r in ret (mkHttpResponse (success_status r) (ReplyBody b) []).

(** The records of the handlers. *)
Definition conflict_record (request_id : string) : effect :=
  Logged "INFO" "tenantflow.api" "database_integrity_conflict" [("request_id", LogStr request_id)].
Definition unhandled_record : effect := Logged "ERROR" "tenantflow.api" "unhandled_request_error" [].

Definition exception_middleware (request_id : string) (errors : json) (app : M HttpResponse)
  : M HttpResponse :=
  try_except app (fun e =>
    if has_handler e then Some (
      do! (match e with IntegrityError => log (conflict_record request_id) | _ => ret tt end) in
      ret (error_http (Some request_id) errors e))
    else None).

Definition security_headers_middleware (app : M HttpResponse) : M HttpResponse :=
  let! response := app in
  ret {| response with hr_headers := security_headers response.(hr_headers) |}.

Definition request_record (request_id : string) (request : Incoming) (status : Z) (duration_ms : Q)
  : effect :=
  Logged "INFO" "tenantflow.http" "request_complete"
    [("request_id", LogStr request_id); ("method", LogStr request.(in_method));
     ("path", LogStr request.(in_path)); ("status", LogInt status);
     ("duration_ms", LogFloat duration_ms)].

Definition request_context_middleware (request_id : string) (request : Incoming)
    (app : M HttpResponse) : M HttpResponse :=
  let! started := read perf_counter in
  let! response := app in
  let! stopped := read perf_counter in
  let duration_ms := elapsed_ms started stopped in
  do! log (request_record request_id request response.(hr_status) duration_ms) in
  ret {| response with hr_headers := set_header "X-Request-ID" request_id response.(hr_headers) |}.

Definition route_path (request : Incoming) : string :=
  match request.(in_route) with Some r => r.2 | None => "unmatched" end.

Definition metrics_middleware (request : Incoming) (app : M HttpResponse) : M HttpResponse :=
  let! started := read perf_counter in
  let! response := app in
  do! log (Inc HTTP_REQUESTS.(m_name)
    [request.(in_method); route_path request; pretty response.(hr_status)]) in
  let! stopped := read perf_counter in
  do! log (Observe HTTP_DURATION.(m_name) [request.(in_method); route_path request]
    (elapsed started stopped)) in
  ret response.

Definition cors_middleware (options : CorsOptions) (app : M HttpResponse) : M HttpResponse :=
  let! response := app in
  ret {| response with hr_headers := cors_headers options response.(hr_headers) |}.

(** ServerErrorMiddleware: in debug mode the handler is not called.  [request.state] still carries
    the identifier. *)
Definition server_error_middleware (debug : bool) (request_id : string) (errors : json)
    (app : M HttpResponse) : M HttpResponse :=
  try_except app (fun e => Some (
    if debug then ret (mkHttpResponse 500 (Traceback e) [])
    else do! log unhandled_record in ret (error_http (Some request_id) errors e))).

Definition dispatch_middleware (request_id : string) (request : Incoming) (m : middleware)
    (app : M HttpResponse) : M HttpResponse :=
  match m with
  | SecurityHeadersMiddleware => security_headers_middleware app
  | RequestContextMiddleware => request_context_middleware request_id request app
  | MetricsMiddleware => metrics_middleware request app
  | CORSMiddleware options => cors_middleware options app
  end.

(** The application around an endpoint; [errors] is what pydantic reports of the request.  The
    identifier is drawn here, before the clocks of the middlewares outside of it are read. *)
Definition application (app : FastAPI) (request : Incoming) (errors : json)
    (endpoint : M HttpResponse) : M HttpResponse :=
  let! request_id := normalize_request_id request.(in_request_id) in
  server_error_middleware app.(debug) request_id errors
    (foldr (dispatch_middleware request_id request) (exception_middleware request_id errors endpoint)
       app.(user_middleware)).

Definition respond (candidate : option string) (errors : json) (r : request) : M HttpResponse :=
  application (app settings documentation) (mkIncoming (route r).1 (url r) candidate (Some (route r))) errors
    (endpoint r).

(** No route: FastAPI raises Starlette's exception, which is not the class that main.py handles, and
    gives an answer of its own. *)
Definition respond_unmatched (answer : HttpResponse) (method path : string) (candidate : option string)
  : M HttpResponse :=
  application (app settings documentation) (mkIncoming method path candidate None) JNull (ret answer).

(** ** Health checks *)
Definition liveness : M HttpResponse :=
  ret (mkHttpResponse 200 (JsonBody (JObj [("status", JStr "ok")])) []).

Definition check (name : string) (up : bool) : string * string :=
  (name, if up then "ok" else "unavailable").

Definition readiness : M HttpResponse :=
  let! postgresql_up := read database_up in
  let! redis_up := read redis_up in
  let checks := [check "postgresql" postgresql_up; check "redis" redis_up] in
  let ready := forallb (fun c => String.eqb c.2 "ok") checks in
  ret (mkHttpResponse (if ready then 200 else 503)
    (JsonBody (JObj [("status", JStr (if ready then "ok" else "degraded"));
                     ("checks", JObj (prod_map id JStr <$> checks))])) []).
(** The scrape: the counters and the histogram are in the log, the gauges in the process.  The text
    is prometheus_client's. *)
Definition metrics (generate_latest : list effect -> Gauges -> string) (CONTENT_TYPE_LATEST : string)
    (gauges : Gauges) : M (Gauges * HttpResponse) :=
  let! gauges := refresh_distributed_metrics gauges in
  fun w => (Ok (gauges, mkHttpResponse 200 (TextBody (generate_latest w.(w_log) gauges))
                          [("Content-Type", CONTENT_TYPE_LATEST)]), w).
End Http.

(** ** Lemmas *)
Definition security_header_names : list string :=
  ["X-Content-Type-Options"; "X-Frame-Options"; "Referrer-Policy"; "Permissions-Policy"].

Lemma set_header_has k v hs : (k, v) ∈ set_header k v hs.
Proof. unfold set_header. set_solver. Qed.

Lemma set_header_keeps k k' v hs :
  lower k <> lower k' -> has_header k hs -> has_header k (set_header k' v hs).
Proof.
  intros Hne (v0 & k0 & Hk & Hin). exists v0, k0. split; [done|]. unfold set_header.
  apply elem_of_app. left. apply list_elem_of_filter. split; [cbn; congruence|done].
Qed.

Section Facts.
Context {E : Env}.

Lemma security_headers_all hs k : k ∈ security_header_names -> has_header k (security_headers hs).
Proof.
  intros Hk. unfold security_headers. cbv zeta.
  assert (H : has_header k (setdefault "Permissions-Policy" "camera=(), microphone=(), geolocation=()"
    (setdefault "Referrer-Policy" "no-referrer" (setdefault "X-Frame-Options" "DENY"
      (setdefault "X-Content-Type-Options" "nosniff" hs))))).
  { unfold security_header_names in Hk.
    repeat (apply elem_of_cons in Hk as [->|Hk]); [..|by apply elem_of_nil in Hk];
      repeat first [apply setdefault_has | apply setdefault_mono]. }
  case_match; [by apply setdefault_mono|done].
Qed.

Lemma normalize_request_id_run candidate w :
  exists rid w', normalize_request_id candidate w = (Ok rid, w') /\
    w_db w' = w_db w /\ w_redis w' = w_redis w /\ w_log w' = w_log w /\
    request_id_ok rid = true /\ (forall c, candidate = Some c -> request_id_ok c = true -> rid = c).
Proof.
  unfold normalize_request_id. destruct candidate as [c|].
  - destruct (request_id_ok c) eqn:Hc.
    + exists c, w. split_and!; try done. by intros c' [= <-].
    + exists (uuid_str (uuid4_at (w_tick w))), (ticked w). split_and!; try done.
      * apply uuid_str_request_id.
      * intros c' [= <-]. congruence.
  - exists (uuid_str (uuid4_at (w_tick w))), (ticked w). split_and!; try done.
    apply uuid_str_request_id.
Qed.
End Facts.


(** CORSMiddleware adds headers of its own and changes no other. *)
Definition cors_own (k : string) : bool :=
  String.eqb (lower k) "vary" || String.prefix "access-control-" (lower k).
Definition keeps_headers (cors_headers : CorsOptions -> list (string * string) -> list (string * string))
  : Prop :=
  forall options hs kv, kv ∈ hs -> cors_own kv.1 = false -> kv ∈ cors_headers options hs.

Section Responses.
Context {E : Env} (cors_headers : CorsOptions -> list (string * string) -> list (string * string)).
Hypothesis Hcors : keeps_headers cors_headers.

Lemma cors_has k options hs :
  cors_own k = false -> has_header k hs -> has_header k (cors_headers options hs).
Proof.
  intros Hk (v & k' & Hl & Hin). exists v, k'. split; [done|]. apply Hcors; [done|].
  unfold cors_own in *. cbn. by rewrite Hl.
Qed.

(** The headers of a response that passes the whole stack. *)
Definition final_headers (rid : string) (hs : list (string * string)) : list (string * string) :=
  cors_headers (cors_options settings) (set_header "X-Request-ID" rid (security_headers hs)).

Lemma final_request_id rid hs : ("X-Request-ID", rid) ∈ final_headers rid hs.
Proof. apply Hcors; [apply set_header_has|done]. Qed.

Lemma final_security rid hs k :
  k ∈ security_header_names -> has_header k (final_headers rid hs).
Proof.
  intros Hk. assert (Hn : lower k <> "x-request-id" /\ cors_own k = false).
  { revert k Hk. apply Forall_forall. repeat constructor; discriminate. }
  apply cors_has; [apply Hn|]. apply set_header_keeps; [apply Hn|by apply security_headers_all].
Qed.

Lemma final_transport rid hs :
  is_production settings = true -> has_header "Strict-Transport-Security" (final_headers rid hs).
Proof.
  intros Hp. apply cors_has; [done|]. apply set_header_keeps; [done|].
  unfold security_headers. rewrite Hp. apply setdefault_has.
Qed.
End Responses.

(** ** Durations *)
#[local] Open Scope Q_scope.

Lemma round_half_even_bounds q : Qabs (inject_Z (round_half_even q) - q) <= 1 # 2.
Proof.
  unfold round_half_even. pose proof (Qfloor_le q) as H1. pose proof (Qlt_floor q) as H2.
  rewrite inject_Z_plus in H2. change (inject_Z 1) with 1 in H2.
  assert (Hup : 1 # 2 <= q - inject_Z (Qfloor q) -> Qabs (inject_Z (Qfloor q + 1) - q) <= 1 # 2).
  { intros H. rewrite inject_Z_plus. change (inject_Z 1) with 1. apply Qabs_Qle_condition. lra. }
  assert (Hdown : q - inject_Z (Qfloor q) <= 1 # 2 -> Qabs (inject_Z (Qfloor q) - q) <= 1 # 2).
  { intros H. apply Qabs_Qle_condition. lra. }
  destruct (Qcompare_spec (q - inject_Z (Qfloor q)) (1 # 2)) as [H|H|H]; [|apply Hdown; lra|apply Hup; lra].
  destruct (Z.even _); [apply Hdown|apply Hup]; lra.
Qed.

Lemma round_half_even_nonneg q : 0 <= q -> (0 <= round_half_even q)%Z.
Proof.
  intros Hq. pose proof (round_half_even_bounds q) as H. apply Qabs_Qle_condition in H as [H _].
  assert (Hl : - (1 # 2) <= inject_Z (round_half_even q)) by lra.
  unfold Qle in Hl. cbn in Hl. lia.
Qed.

(** With a clock that does not run backwards no duration is negative. *)
Lemma elapsed_ms_nonneg {E : Env} started stopped :
  (forall x, 0 <= x -> 0 <= float_round x) -> started <= stopped -> 0 <= elapsed_ms started stopped.
Proof.
  intros Hr Hle. unfold elapsed_ms, round2. apply Hr. apply Qle_shift_div_l; [done|].
  rewrite Qmult_0_l. change 0 with (inject_Z 0). rewrite <- Zle_Qle. apply round_half_even_nonneg.
  apply Qmult_le_0_compat; [|done]. apply Hr, Qmult_le_0_compat; [|done]. apply Hr. lra.
Qed.
