(* ===== verification/Logging.v ===== *)
(** * Logging: core/logging.py

    The formatter of the production log and the configuration of the root logger, with the records
    that the middlewares and the exception handlers write.  A line is one JSON document: whatever a
    client puts into the path or the request identifier, it cannot start a line of its own. *)
From S2P Require Import Prelude Text Json JsonLoads JsonRoundTrip Dates Schema Config TokenBucket Session.
#[local] Open Scope N_scope.
#[local] Open Scope string_scope.

(** ** Records *)

(** A value of [extra]; an object that json does not know is written as its [str]. *)
Inductive attribute {float : Type} :=
  | Str (s : string)
  | Int (n : Z)
  | Float (f : float)
  | Object_ (str : string).
Arguments attribute float : clear implicits.
Arguments Str {float}.
Arguments Int {float}.
Arguments Float {float}.
Arguments Object_ {float}.

(** [logging.LogRecord]: what the formatter reads of it. *)
Record LogRecord {float : Type} := mkLogRecord {
  levelname : string;
  name : string;
  getMessage : string;
  attributes : string -> option (attribute float) }.
Arguments LogRecord float : clear implicits.
Arguments mkLogRecord {float}.
Arguments levelname {float}.
Arguments name {float}.
Arguments getMessage {float}.
Arguments attributes {float}.

Section Formatter.
Context {E : Env} {float : Type}.

(** [float.__repr__]. *)
Context (float_repr : float -> string).

Definition encode (v : attribute float) : string :=
  match v with
  | Str s => dumps true (JStr s)
  | Int n => dumps true (JInt n)
  | Float f => float_repr f
  | Object_ str => dumps true (JStr str)
  end.

Definition log_item (kv : string * attribute float) : string :=
  quote true kv.1 +:+ ": " +:+ encode kv.2.
(** [json.dumps(payload, default=str)], with the default separators. *)
Definition dumps_payload (payload : list (string * attribute float)) : string :=
  "{" +:+ String.concat ", " (map log_item payload) +:+ "}".

Definition log_fields : list string := ["request_id"; "method"; "path"; "status"; "duration_ms"].

Definition payload_of (ts : datetime) (record : LogRecord float) : list (string * attribute float) :=
  ([("timestamp", Str (isoformat ts)); ("level", Str record.(levelname));
    ("logger", Str record.(name)); ("message", Str record.(getMessage))] ++
  omap (fun field => (fun v => (field, v)) <$> record.(attributes) field) log_fields)%list.

(** [JsonFormatter.format]. *)
Definition format (record : LogRecord float) : M string :=
  let! ts := now in
  ret (dumps_payload (payload_of ts record)).

End Formatter.

(** ** What the program logs *)
Definition extra_attribute (x : extra) : attribute QArith_base.Q :=
  match x with LogStr s => Str s | LogInt n => Int n | LogFloat q => Float q end.

(** The record of [logger.info(message, extra=fields)] and the like. *)
Definition log_record (level logger message : string) (fields : list (string * extra))
  : LogRecord QArith_base.Q :=
  mkLogRecord level logger message (fun field =>
    (fun kv => extra_attribute kv.2) <$> List.find (fun kv => String.eqb kv.1 field) fields).

Definition record_of (e : effect) : option (LogRecord QArith_base.Q) :=
  match e with
  | Logged level logger message fields => Some (log_record level logger message fields)
  | _ => None
  end.

(** ** The root logger *)
Inductive formatter := JsonFormatter | Formatter (fmt : string).
Inductive level := DEBUG | INFO | WARNING.
Record Logger := mkLogger { handlers : list formatter; root_level : level }.

Definition configure_logging (settings : Settings) (root : Logger) : Logger :=
  mkLogger
    [if String.eqb settings.(app_env) "production" then JsonFormatter
     else Formatter "%(asctime)s %(levelname)s %(name)s %(message)s"]
    (if settings.(app_debug) then DEBUG else INFO).

(** ** Lemmas *)

(** Finite floats are written as JSON numbers, and scanned as such ([m] is the limit of digits). *)
Record json_numbers {float} (float_repr : float -> string) (m : nat) : Prop := {
  float_printable f : all_chars printable (float_repr f);
  float_head f :
    match points (float_repr f) with
    | c :: d :: _ => is_dec c || (c =? code "-")%N && is_dec d
    | _ => false
    end = true;
  float_reads f t : stops t = true ->
    match_number m (points (float_repr f) ++ t)%list = Some (VFloat (float_repr f), t) }.

Section Lines.
Context {float : Type} (float_repr : float -> string) (m : nat).
Hypothesis floats : json_numbers float_repr m.

Definition attribute_value (v : attribute float) : value :=
  match v with
  | Str s | Object_ s => VStr s
  | Int n => VInt n
  | Float f => VFloat (float_repr f)
  end.

Definition attribute_fits (v : attribute float) : bool :=
  match v with Int n => int_fits m n | _ => true end.

#[local] Abbreviation item := (log_item float_repr).

Lemma float_opens f t : opens (points (float_repr f) ++ t)%list = true.
Proof.
  pose proof (float_head _ _ floats f) as Hh. destruct (points (float_repr f)) as [|c [|d s]]; [done..|].
  apply orb_true_iff in Hh as [Hc|[Hc%N.eqb_eq _]%andb_true_iff]; [by apply is_dec_opens|].
  by rewrite Hc.
Qed.

Lemma scan_float f : exists n, forall fuel t, (n <= fuel)%nat -> stops t = true ->
  scan_once m fuel (points (float_repr f) ++ t)%list = Some (VFloat (float_repr f), t).
Proof.
  exists 1%nat. intros [|fuel] t Hf Ht; [lia|]. rewrite <- (float_reads _ _ floats f t Ht).
  pose proof (float_head _ _ floats f) as Hh. destruct (points (float_repr f)) as [|c [|d s]]; [done..|].
  cbn [app]. rewrite scan_once_S.
  assert (Hne : forall a, a ∈ [34; code "{"; code "["]%N -> (c =? a)%N = false).
  { intros a Ha. apply N.eqb_neq. intros ->.
    repeat (apply elem_of_cons in Ha as [->|Ha]; [done|]). by apply elem_of_nil in Ha. }
  rewrite (Hne 34%N), (Hne (code "{")), (Hne (code "[")) by repeat constructor.
  apply scan_word_number. apply orb_true_iff in Hh as [Hc|[Hc%N.eqb_eq Hd]%andb_true_iff]; [by left|].
  right. split; [done|]. unfold starts_with. apply bool_decide_eq_false. subst c.
  cbn [points List.length take]. intros [= H _]. by rewrite H in Hd.
Qed.

Lemma encode_printable v : all_chars printable (encode float_repr v).
Proof. destruct v; [apply dumps_printable..|apply floats|apply dumps_printable]. Qed.

Lemma payload_printable payload : all_chars printable (dumps_payload float_repr payload).
Proof.
  unfold dumps_payload. rewrite !all_chars_app. split_and!; [done| |done].
  induction payload as [|kv l IH]; [done|].
  assert (Hkv : all_chars printable (item kv)).
  { unfold log_item. rewrite !all_chars_app. split_and!; [apply quote_printable|done|apply encode_printable]. }
  destruct l as [|kv' l]; [exact Hkv|]. change (map item (kv :: kv' :: l)) with
    (item kv :: map item (kv' :: l)). cbn [String.concat map] in *.
  apply all_chars_app. split; [exact Hkv|]. apply all_chars_app. split; [done|exact IH].
Qed.

Lemma encode_reads v :
  attribute_fits v = true ->
  (forall t, skip_ws (points (encode float_repr v) ++ t)%list = (points (encode float_repr v) ++ t)%list) /\
  exists n, forall fuel t, (n <= fuel)%nat -> stops t = true ->
    scan_once m fuel (points (encode float_repr v) ++ t)%list = Some (attribute_value v, t).
Proof.
  intros Hv. destruct v as [s|n|f|s].
  - split; [apply opens_dumps_app|]. by apply (dumps_reads true m (JStr s)).
  - split; [apply opens_dumps_app|]. by apply (dumps_reads true m (JInt n)).
  - split; [intros t; apply opens_skip, float_opens|apply scan_float].
  - split; [apply opens_dumps_app|]. by apply (dumps_reads true m (JStr s)).
Qed.

Lemma skip_space t : skip_ws (code " " :: t) = skip_ws t.
Proof. reflexivity. Qed.

Lemma item_member kv t :
  attribute_fits kv.2 = true ->
  member_key (points (item kv) ++ t)%list =
    Some (points kv.1, (points (encode float_repr kv.2) ++ t)%list).
Proof.
  intros Hv. unfold log_item, quote. rewrite !points_app, <- !app_assoc. unfold dquote at 1.
  cbn [points app member_key]. change (code (ascii_of_nat 34)) with 34.
  rewrite N.eqb_refl. cbn [negb]. unfold dquote. cbn [points app].
  change (code (ascii_of_nat 34)) with 34. rewrite scanstring_quoted. cbn [skip_ws].
  change (is_ws (code ":")) with false. cbv iota. rewrite N.eqb_refl. cbn [negb].
  rewrite skip_space. by rewrite (proj1 (encode_reads kv.2 Hv)).
Qed.

Lemma members_line x l :
  Forall (fun kv => attribute_fits kv.2 = true) (x :: l) ->
  exists n, forall fuel t, (n <= fuel)%nat ->
    scan_members m fuel (points (String.concat ", " (map item (x :: l))) ++ code "}" :: t)%list =
    Some (map (fun kv => (kv.1, attribute_value kv.2)) (x :: l), t).
Proof.
  revert x. induction l as [|y l IH]; intros x [Hx Hl]%Forall_cons;
    destruct (encode_reads x.2 Hx) as (_ & nx & Hr).
  - exists (S nx). intros [|f] t Hf; [lia|]. cbn [map String.concat].
    rewrite scan_members_S, item_member, Hr, narrow_points by (lia || done). reflexivity.
  - destruct (IH y Hl) as [n Hn]. exists (S (nx + n)). intros [|f] t Hf; [lia|].
    change (points (String.concat ", " (map item (x :: y :: l)))) with
      (points (item x +:+ ", " +:+ String.concat ", " (map item (y :: l)))).
    rewrite !points_app, <- !app_assoc.
    rewrite scan_members_S, item_member, Hr, narrow_points by (lia || done). cbn [points app skip_ws].
    change (is_ws (code ",")) with false. cbv iota. change (code "," =? code "}")%N with false.
    rewrite N.eqb_refl. cbv iota. rewrite skip_space.
    rewrite opens_skip by (by destruct l). by rewrite Hn by lia.
Qed.

Lemma loads_line x l :
  Forall (fun kv => attribute_fits kv.2 = true) (x :: l) -> NoDup (x :: l).*1 ->
  loads m (points (utf8 (dumps_payload float_repr (x :: l)))) =
    Some (VObj (map (fun kv => (kv.1, attribute_value kv.2)) (x :: l))).
Proof.
  intros Hl Hd. unfold loads. rewrite detect_utf8 by (apply payload_printable || done).
  cbn [decode]. rewrite utf8_decode_utf8.
  destruct (members_line x l Hl) as [n Hn].
  set (t := points (dumps_payload float_repr (x :: l))).
  assert (Ht : t = code "{" :: (points (String.concat ", " (map item (x :: l))) ++ code "}" :: [])%list).
  { unfold t, dumps_payload. rewrite !points_app. reflexivity. }
  assert (Hscan : forall k, (n <= k)%nat ->
    scan_once m (S k) t = Some (VObj (map (fun kv => (kv.1, attribute_value kv.2)) (x :: l)), [])).
  { intros k Hk. rewrite Ht, scan_once_S. change (code "{" =? 34)%N with false.
    rewrite N.eqb_refl. cbv iota. rewrite opens_skip by (by destruct l).
    specialize (Hn k [] Hk). set (body := (points _ ++ _)%list) in *.
    assert (Ho : opens body = true) by (by destruct l). destruct body as [|c b]; [done|].
    unfold opens in Ho. destruct (c =? code "}")%N; [by rewrite orb_true_r in Ho|].
    rewrite Hn, dict_of_distinct; [done|]. rewrite <- list_fmap_compose. done. }
  assert (Hs : skip_ws t = t) by by rewrite Ht.
  unfold loads_text. rewrite Hs.
  rewrite (proj1 (scan_fuel m _) t (S (n + (2 * List.length t + 1)))%nat) by lia.
  by rewrite Hscan by lia.
Qed.

Lemma payload_fields ts record :
  (forall field n, record.(attributes) field = Some (Int n) -> int_fits m n = true) ->
  let payload := payload_of ts record in
  let d := map (fun kv => (kv.1, attribute_value kv.2)) payload in
  Forall (fun kv => attribute_fits kv.2 = true) payload /\ NoDup payload.*1 /\
  forall field, field ∈ log_fields ->
    lookup_key field d = attribute_value <$> record.(attributes) field.
Proof.
  intros Hints. unfold payload_of. cbn [omap list_omap log_fields].
  assert (Hfit : forall field v, record.(attributes) field = Some v -> attribute_fits v = true).
  { intros field [] Hv; try done. by eapply Hints. }
  destruct (attributes record "request_id") as [v1|] eqn:H1,
    (attributes record "method") as [v2|] eqn:H2, (attributes record "path") as [v3|] eqn:H3,
    (attributes record "status") as [v4|] eqn:H4, (attributes record "duration_ms") as [v5|] eqn:H5.
  all: cbn; split_and!; [repeat (apply Forall_cons; split; [first [done|by eapply Hfit]|]); by apply Forall_nil|
    by apply (bool_decide_unpack _); vm_compute|].
  all: intros field Hin; repeat (apply elem_of_cons in Hin as [->|Hin]; [rewrite ?H1, ?H2, ?H3, ?H4, ?H5; reflexivity|]);
    by apply elem_of_nil in Hin.
Qed.
End Lines.

(** The integers of a record. *)
Lemma log_record_ints m level logger message fields :
  Forall (fun kv => match kv.2 with LogInt n => int_fits m n = true | _ => True end) fields ->
  forall field n, (log_record level logger message fields).(attributes) field = Some (Int n) ->
    int_fits m n = true.
Proof.
  intros Hf field n H. cbn in H. apply fmap_Some in H as ([k x] & [Hin _]%List.find_some & Hx).
  rewrite Forall_forall in Hf. apply list_elem_of_In, Hf in Hin. cbn in Hin, Hx.
  destruct x; try done. by injection Hx as <-.
Qed.
