(* ===== verification/RefineApi.v ===== *)
(** * RefineApi: every request and every task is a sequence of life-cycle writes

    [footprint] names the tables an organization endpoint writes; [handle_tenant_refines] shows
    that it writes nothing else, and only rows of its organization.  The invariants of the
    reachable worlds follow from those of Lifecycle. *)
From stdpp Require Import relations.
From S2P Require Import Prelude Text Json Schema Config TokenBucket Session Permissions Security.
From S2P Require Import Access AuditTrail Idempotency Events Projects Tasks Organizations Auth.
From S2P Require Import Webhooks Billing Files Email Metrics Worker Lifecycle Refinement RefineServices.
From S2P Require Import Pagination RefineWorker Api.
#[local] Open Scope string_scope.

Definition footprint (r : tenant_request) : list table :=
  match r with
  | CreateInvitation _ _ => [TIdempotency; TInvitation; TAuditLog]
  | ChangeMemberRole _ _ | DeleteMember _ => [TMembership; TAuditLog]
  | CreateProject _ | UpdateProject _ _ => [TProject; TAuditLog; TDelivery]
  | DeleteProject _ => [TProject; TTask; TAttachment; TAuditLog; TDelivery]
  | CreateTask _ | UpdateTask _ _ => [TTask; TAuditLog; TDelivery]
  | DeleteTask _ => [TTask; TAttachment; TAuditLog; TDelivery]
  | CreateUpload _ => [TAttachment]
  | CreateWebhook _ | DeactivateWebhook _ => [TEndpoint; TAuditLog]
  | RetryDelivery _ => [TDelivery; TAuditLog]
  | SubscriptionStatus | Portal _ => [TSubscription]
  | Checkout _ _ => [TIdempotency; TSubscription]
  | ListMembers | ListProjects _ _ | RetrieveProject _ | ListTasks _ _ _ | RetrieveTask _
  | GetDownload _ | ListWebhooks
  | ListDeliveries _ _ | ListAudit _ => []
  end.

Section Handlers.
Context {E : Env}.

Lemma get_current_user_quiet token : quiet (get_current_user token).
Proof.
  unfold get_current_user, decode_access_token. apply quiet_bind; [|intros; quiet].
  apply quiet_bind; [apply quiet_read|]. intros ts. apply quiet_try; [quiet|].
  intros e m' H. destruct e; simplify_eq; quiet.
Qed.

Lemma require_permission_quiet p token org : quiet (require_permission p token org).
Proof.
  unfold require_permission, get_organization_context.
  apply quiet_bind; [apply get_current_user_quiet|intros; quiet].
Qed.

Lemma keyset_page_quiet t created_at p cursor limit : quiet (keyset_page t created_at p cursor limit).
Proof.
  unfold keyset_page, start_position. apply quiet_bind; [|intros; quiet].
  destruct cursor as [[|c s]|]; [quiet| |quiet].
  destruct (decode_cursor _) as [pos|e]; [quiet|destruct e; quiet].
Qed.

Context {who : option uuid -> Prop} {T : list table}.

Lemma refines_reply {A} (f : A -> reply) (m : M A) : refines who T m -> refines who T (reply_with f m).
Proof. intros H. unfold reply_with. apply refines_bind; [exact H|intros; refines]. Qed.

(** Behind the gate of an organization endpoint. *)
Lemma refines_gate {A} p token org (k : OrganizationContext -> M A) :
  (forall c, refines who T (k c)) -> refines who T (bind (require_permission p token org) k).
Proof. intros H. apply refines_bind; [apply refines_quiet, require_permission_quiet|exact H]. Qed.

Lemma refines_validated {A} (b : bool) e (m : M A) :
  refines who T m -> refines who T (if b then raise e else m).
Proof. intros H. case_match; [refines|exact H]. Qed.

(** A service call and the conversion of its result. *)
Lemma refines_respond {A B} (m : M A) (f : A -> B) :
  refines who T m -> refines who T (let! a := m in ret (f a)).
Proof. intros Hm. apply refines_bind; [exact Hm|intros; refines]. Qed.

Lemma idempotent_refines {R} user org scope key hash missing (work : M R) dump validate :
  TIdempotency ∉ T -> who org -> refines who T work ->
  refines who (TIdempotency :: T) (idempotent user org scope key hash missing work dump validate).
Proof.
  intros HT Hw Hwork w a w' Hok H. eapply idempotent_writes; [done|exact H|done..|].
  intros w1 w2 Hok1 H1 _. by eapply Hwork.
Qed.

(** A [try] whose handlers only raise. *)
Lemma refines_try {A} (m : M A) h :
  refines who T m -> (forall e m', h e = Some m' -> exists e', m' = raise e') ->
  refines who T (try_except m h).
Proof.
  intros Hm Hh w a w' Hok [H|(e & w1 & m' & _ & He & H)]%try_except_Ok; [by eapply Hm|].
  destruct (Hh _ _ He) as [e' ->]. by apply raise_Ok in H.
Qed.

(** A check whose failure only raises, passed. *)
Lemma refines_checked {A B} (r : result A) h (k : A -> M B) :
  (forall e m', h e = Some m' -> exists e', m' = raise e') ->
  (forall a, r = Ok a -> refines who T (k a)) -> refines who T (bind (try_except (lift r) h) k).
Proof.
  intros Hh Hk w b w' Hok H. apply bind_Ok in H as (a & w1 & Ha & H).
  apply try_except_Ok in Ha as [[-> ->]%lift_Ok|(e & w2 & m' & _ & He & Hm)].
  - by eapply Hk.
  - destruct (Hh _ _ He) as [e' ->]. by apply raise_Ok in Hm.
Qed.

Lemma refines_map {A B C} (m : M A) (f : A -> B) (k : B -> M C) :
  refines who T m -> (forall a, refines who T (k (f a))) ->
  refines who T (bind (let! a := m in ret (f a)) k).
Proof.
  intros Hm Hk w c w' Hok H. apply bind_Ok in H as (b & w1 & Hb & H).
  apply bind_Ok in Hb as (a & w2 & Ha & [-> ->]%ret_Ok).
  etrans; [by eapply Hm|]. eapply Hk; [|exact H]. eapply writes_db_ok; [by eapply Hm|done].
Qed.

Lemma refines_weaken {A} T' (m : M A) : refines who T m -> T ⊆ T' -> refines who T' m.
Proof. intros H HT w a w' Hok Hr. eapply writes_weaken; [done|exact HT|by eapply H]. Qed.
End Handlers.

Section Tenant.
Context {E : Env} (token : string) (org : uuid).

Lemma create_invitation_refines key body :
  refines (eq (Some org)) [TIdempotency; TInvitation; TAuditLog]
    (create_invitation token org key body).
Proof.
  unfold create_invitation. apply refines_gate. intros c. do 2 (case_match; [|refines]).
  apply (idempotent_refines (T := [TInvitation; TAuditLog])); [set_solver|done|].
  apply refines_bind; [apply invite_member_refines|intros; refines].
Qed.

Lemma change_member_role_refines mid role :
  refines (eq (Some org)) [TMembership; TAuditLog] (change_member_role token org mid role).
Proof.
  unfold change_member_role. apply refines_gate. intros c.
  destruct (invitable_role role) eqn:Hr; cbn; [|refines].
  apply refines_bind; [|intros; refines]. apply update_membership_role_refines.
  intros ->. discriminate.
Qed.

Lemma create_webhook_refines body :
  refines (eq (Some org)) [TEndpoint; TAuditLog] (create_webhook token org body).
Proof.
  unfold create_webhook. apply refines_gate. intros c. case_match; [|refines].
  apply refines_bind; [|intros; refines]. apply refines_try.
  - apply refines_bind; [|intros; refines].
    eapply refines_weaken; [apply create_webhook_endpoint_refines|set_solver].
  - intros e m' Hh. destruct e; simplify_eq. eauto.
Qed.

Lemma create_upload_refines payload :
  refines (eq (Some org)) [TAttachment] (create_upload token org payload).
Proof.
  unfold create_upload, build_object_key. apply refines_gate. intros c. apply refines_validated.
  apply refines_checked.
  { intros e m' Hh. destruct e; simplify_eq. eauto. }
  intros [] Hval. apply refines_bind; [apply refines_quiet, require_project_quiet|]. intros _.
  apply refines_bind; [apply refines_quiet, require_task_quiet|]. intros _.
  apply refines_map; [refines|]. intros id. refines.
  unfold validate_upload in Hval. destruct (negb _) eqn:Htype; [done|].
  destruct (_ || _) eqn:Hsize; [done|]. bool_to_prop. split_and!; cbn.
  - by eexists.
  - by apply one_of_elem.
  - assumption.
Qed.

Lemma checkout_refines key body :
  refines (eq (Some org)) [TIdempotency; TSubscription] (checkout token org key body).
Proof.
  unfold checkout. apply refines_gate. intros c. do 2 (case_match; [|refines]).
  apply (idempotent_refines (T := [TSubscription])); [set_solver|done|].
  apply refines_bind; [apply create_billing_checkout_refines|intros; refines].
Qed.

(** An organization endpoint writes its footprint, in its organization. *)
Theorem handle_tenant_refines r :
  refines (eq (Some org)) (footprint r) (handle_tenant token org r).
Proof.
  destruct r; cbn [footprint handle_tenant]; apply refines_reply.
  - apply create_invitation_refines.
  - unfold list_members. apply refines_gate. intros c. refines.
  - apply change_member_role_refines.
  - apply refines_gate. intros c. apply remove_membership_refines.
  - by apply refines_gate; intros c; apply refines_validated, refines_respond, create_project_refines.
  - apply refines_gate. intros c. apply refines_validated, refines_quiet.
    apply quiet_bind; [apply keyset_page_quiet|intros; quiet].
  - apply refines_gate. intros c. unfold get_project. refines.
  - by apply refines_gate; intros c; apply refines_validated, refines_respond, update_project_refines.
  - apply refines_gate. intros c. apply delete_project_refines.
  - by apply refines_gate; intros c; apply refines_validated, refines_respond, create_task_refines.
  - apply refines_gate. intros c. apply refines_validated, refines_quiet.
    apply quiet_bind; [apply keyset_page_quiet|intros; quiet].
  - apply refines_gate. intros c. unfold get_task. refines.
  - by apply refines_gate; intros c; apply refines_validated, refines_respond, update_task_refines.
  - apply refines_gate. intros c. apply delete_task_refines.
  - apply create_upload_refines.
  - apply refines_gate. intros c. refines.
  - apply create_webhook_refines.
  - apply refines_gate. intros c. refines.
  - apply refines_gate. intros c. apply deactivate_endpoint_refines.
  - apply refines_gate. intros c. unfold select_deliveries. refines.
  - apply refines_gate. intros c. apply retry_refines.
  - apply refines_gate. intros c. refines.
  - apply refines_gate. intros c. apply refines_bind; [|intros; refines].
    apply get_or_create_subscription_refines; [set_solver|done].
  - apply checkout_refines.
  - apply refines_gate. intros c. case_match; [|refines].
    apply refines_bind; [apply create_billing_portal_refines|intros; refines].
Qed.
End Tenant.

(** ** All requests *)
Definition all_tables : list table :=
  [TUser; TOrganization; TMembership; TInvitation; TProject; TTask; TAttachment; TRefreshToken;
   TIdempotency; TEndpoint; TDelivery; TSubscription; TStripeEvent; TAuditLog].

Lemma all_tables_elem t : t ∈ all_tables.
Proof. destruct t; set_solver. Qed.

(** A row of no organization, or of one that does not exist yet. *)
Definition fresh_tenant (db : Db) (o : option uuid) : Prop :=
  forall org, o = Some org -> find TOrganization db org = None.

(** The tables a request writes, and the tenants: what the abstract machine allows it. *)
Definition request_footprint (r : request) : list table :=
  match r with
  | Register _ => [TUser]
  | Login _ _ _ | OAuthToken _ _ _ | Refresh _ | Logout _ => [TRefreshToken]
  | Me _ | ListOrganizations _ => []
  | CreateOrganization _ _ _ => [TIdempotency; TOrganization; TMembership; TAuditLog]
  | AcceptInvitation _ _ => [TMembership; TInvitation; TAuditLog]
  | Tenant _ _ r => footprint r
  | StripeWebhook _ _ => [TStripeEvent; TSubscription; TAuditLog]
  end.

Definition request_tenants (r : request) (db : Db) (who : option uuid -> Prop) : Prop :=
  match r with
  | Tenant _ org _ => who = eq (Some org)
  | CreateOrganization _ _ _ => who = fresh_tenant db
  | AcceptInvitation _ _ => exists org, who = eq (Some org)
  | StripeWebhook _ _ => exists org, who = (fun o => o = None \/ o = Some org)
  | _ => who = eq None
  end.

Section Requests.
Context {E : Env}.

Lemma create_writes token key payload r w w' :
  db_ok (w_db w) -> create token key payload w = (Ok r, w') ->
  writes (fresh_tenant (w_db w)) [TIdempotency; TOrganization; TMembership; TAuditLog]
    (w_db w) (w_db w').
Proof.
  unfold create. intros Hok H.
  apply bind_Ok in H as (user & w1 & Hu%get_current_user_quiet & H). cbn beta in H.
  destruct (negb _); [by apply raise_Ok in H|].
  rewrite <- Hu in *. eapply (idempotent_writes (T := [TOrganization; TMembership; TAuditLog]));
    [done|exact H|set_solver|done|].
  intros w2 w3 Hok2 Hwork (rec & Hrec).
  apply bind_Ok in Hwork as (o & w4 & Ho & Hwork). apply ret_Ok in Hwork as [-> ->].
  apply create_organization_writes in Ho as [Hfresh Hw].
  eapply writes_weaken; [|done|exact Hw]. intros o' <- org [= <-].
  rewrite Hrec in Hfresh. by tables.
Qed.

Lemma accept_writes token raw r w w' :
  db_ok (w_db w) -> accept_member_invitation token raw w = (Ok r, w') ->
  exists org, writes (eq (Some org)) [TMembership; TInvitation; TAuditLog] (w_db w) (w_db w').
Proof.
  unfold accept_member_invitation. intros Hok H.
  apply bind_Ok in H as (user & w1 & Hu%get_current_user_quiet & H). cbn beta in H.
  destruct (negb _); [by apply raise_Ok in H|].
  apply bind_Ok in H as (m & w2 & Hm & H). apply lift_Ok in H as [_ ->].
  rewrite <- Hu in *. apply accept_invitation_Ok in Hm as (i & Hm); [|done].
  destruct_and!. eauto.
Qed.

Lemma stripe_webhook_writes payload signature u w w' :
  db_ok (w_db w) -> stripe_webhook payload signature w = (Ok u, w') ->
  exists org, writes (fun o => o = None \/ o = Some org) [TStripeEvent; TSubscription; TAuditLog]
                (w_db w) (w_db w').
Proof.
  intros Hok (s & event & b & _ & _ & Hp)%stripe_webhook_Ok.
  by apply process_stripe_event_writes in Hp.
Qed.

(** Requests without an organization in the path, other than Stripe's. *)
Lemma account_refines r :
  match r with
  | Register _ => refines (eq None) [TUser] (handle r)
  | Login _ _ _ | OAuthToken _ _ _ | Refresh _ | Logout _ =>
      refines (eq None) [TRefreshToken] (handle r)
  | Me _ | ListOrganizations _ => quiet (handle r)
  | _ => True
  end.
Proof.
  destruct r; cbn [handle]; try done; try apply refines_reply.
  - unfold register. case_match; [|refines].
    apply refines_bind; [apply register_user_refines|intros; refines].
  - unfold login. case_match; [apply issue_login_tokens_refines|refines].
  - apply issue_login_tokens_refines.
  - apply rotate_refresh_token_refines.
  - apply revoke_refresh_token_refines.
  - apply quiet_bind; [|intros; quiet]. apply quiet_bind; [apply get_current_user_quiet|intros; quiet].
  - apply quiet_bind; [|intros; quiet]. apply quiet_bind; [apply get_current_user_quiet|intros; quiet].
Qed.

(** Every request is a sequence of life-cycle writes, within its footprint and its tenants. *)
Lemma handle_refines r b w w' :
  db_ok (w_db w) -> handle r w = (Ok b, w') ->
  exists who, request_tenants r (w_db w) who /\ writes who (request_footprint r) (w_db w) (w_db w').
Proof.
  intros Hok H. pose proof (account_refines r) as Hr.
  destruct r; cbn [request_tenants request_footprint];
    try (eexists; split; [reflexivity|]; eapply Hr; [exact Hok|exact H]);
    try (apply Hr in H as ->; by eexists);
    try (apply reply_with_Ok in H as (a & H & ->)).
  - eexists. split; [reflexivity|]. eapply create_writes; [exact Hok|exact H].
  - apply accept_writes in H as [org Hw]; [eauto|done].
  - eexists. split; [reflexivity|]. cbn [handle] in H. eapply handle_tenant_refines; [exact Hok|exact H].
  - apply stripe_webhook_writes in H as [org Hw]; [eauto|done].
Qed.

Lemma handle_writes r b w w' :
  db_ok (w_db w) -> handle r w = (Ok b, w') ->
  exists who, writes who all_tables (w_db w) (w_db w').
Proof.
  intros Hok H. destruct (handle_refines r b w w' Hok H) as (who & _ & Hw). exists who.
  eapply writes_weaken; [done| |exact Hw]. intros t _. apply all_tables_elem.
Qed.

Lemma serve_writes r res w w' :
  db_ok (w_db w) -> serve r w = (res, w') ->
  exists who, writes who all_tables (w_db w) (w_db w').
Proof.
  intros Hok H. destruct res as [b|e]; unfold serve in H.
  - rewrite get_session_Ok in H. by eapply handle_writes.
  - apply get_session_Err in H as ->. by exists any_tenant.
Qed.
End Requests.

(** ** The hourly cleanup *)
Section Cleanup.
Context {E : Env}.

Lemma expire_conflict ts u i i' :
  conflict TInvitation (expire_invitation ts u i) (expire_invitation ts u i') = true ->
  conflict TInvitation i i' = true.
Proof.
  unfold expire_invitation. repeat case_match; cbn;
    rewrite !orb_true_iff, !andb_true_iff, !String.eqb_eq, !N.eqb_eq; naive_solver.
Qed.

Lemma expire_id ts u i : inv_id (expire_invitation ts u i) = inv_id i.
Proof. unfold expire_invitation. by destruct (_ && _). Qed.

Lemma db_ok_expire ts u db :
  db_ok db -> db_ok (set_table TInvitation (expire_invitation ts u <$> db TInvitation) db).
Proof.
  intros Hok t id r Hr.
  assert (Hle : anchors_le db (set_table TInvitation (expire_invitation ts u <$> db TInvitation) db))
    by by apply anchors_le_set_table.
  destruct (decide (t = TInvitation)) as [->|Ht].
  - rewrite set_table_eq in Hr. apply lookup_fmap_Some in Hr as (i & <- & Hi).
    destruct (Hok TInvitation id i Hi) as [Hid ([Hf Hc] & Href & Hu)%row_ok_true]. cbn in Hid.
    split; [by cbn; rewrite expire_id|]. apply row_ok_true. split_and!.
    + unfold expire_invitation. destruct (_ && _); [|done].
      apply andb_true_iff in Hf as [Hf _]. apply andb_true_iff. by split.
    + unfold expire_invitation. destruct (_ && _); [|done].
      apply andb_true_iff in Hc as [Hrole _]. apply andb_true_iff. by split.
    + eapply refs_ok_mono; [exact Hle|]. unfold expire_invitation. by destruct (_ && _).
    + intros id' r' Hr' Hne. rewrite set_table_eq in Hr'.
      apply lookup_fmap_Some in Hr' as (i' & <- & Hi'). cbn in Hne. rewrite expire_id in Hne.
      destruct (conflict TInvitation (expire_invitation ts u i) _) eqn:Hx; [|done].
      apply expire_conflict in Hx. by rewrite (Hu _ _ Hi' Hne) in Hx.
  - rewrite set_table_ne in Hr by done. destruct (Hok _ _ _ Hr) as [Hid (Hc & Href & Hu)%row_ok_true].
    split; [done|]. apply row_ok_true. split; [done|]. split; [by eapply refs_ok_mono|].
    intros id' r' Hr'. rewrite set_table_ne in Hr' by done. eauto.
Qed.

(** The database after a cleanup that committed. *)
Definition cleaned (ts u : datetime) (db : Db) : Db :=
  let db1 := keep TIdempotency (fun r => negb (r.(idem_expires_at) <? ts)%Z) db in
  let db2 := keep TRefreshToken (fun r => negb (r.(rt_expires_at) <? ts)%Z) db1 in
  set_table TInvitation (expire_invitation ts u <$> db2 TInvitation) db2.

Lemma cleanup_run w :
  cleanup_expired_state w =
    (Ok tt, set_db (cleaned (clock (w_tick w)) (clock (S (w_tick w))) (w_db w)) (ticked (ticked w))).
Proof. reflexivity. Qed.

Lemma cleaned_ok ts u db : db_ok db -> db_ok (cleaned ts u db).
Proof. intros Hok. apply db_ok_expire. by do 2 (apply db_ok_keep; [done|]). Qed.

Lemma cleaned_ne ts u db t :
  t ∉ [TIdempotency; TRefreshToken; TInvitation] -> cleaned ts u db t = db t.
Proof.
  intros Ht. unfold cleaned. rewrite set_table_ne by set_solver. by rewrite !keep_ne by set_solver.
Qed.

(** A cleanup run commits [cleaned]; what follows only counts and asks for retries. *)
Lemma cleanup_task_db retries w :
  w_db (cleanup_task retries w).2 =
    cleaned (clock (w_tick w)) (clock (S (w_tick w))) (w_db w).
Proof.
  assert (Hq : forall j o, quiet (record_background_job j o))
    by (intros; unfold record_background_job, hincrby; quiet).
  destruct (record_background_job "cleanup" "success" (cleanup_expired_state w).2) as [r w1] eqn:H.
  assert (Hrun : bind cleanup_expired_state
            (fun _ => record_background_job "cleanup" "success") w = (r, w1))
    by (erewrite bind_run by apply cleanup_run; exact H).
  unfold cleanup_task. rewrite (try_except_db _ _ _ _ _ Hrun).
  - by apply Hq in H.
  - intros e m' He. destruct e; simplify_eq;
      (apply quiet_bind; [apply Hq|intros; apply self_retry_quiet]).
Qed.
End Cleanup.

(** ** Invariants of the reachable worlds *)
Section Invariants.
Context {E : Env}.

Lemma step_writes w w' :
  db_ok (w_db w) -> step w w' ->
  (exists who, writes who all_tables (w_db w) (w_db w')) \/
  (exists ts u, w_db w' = cleaned ts u (w_db w)).
Proof.
  intros Hok H. destruct H as [r|retries id token|retries id|retries].
  - left. destruct (serve r w) as [res w1] eqn:Hs. by eapply serve_writes.
  - left. exists any_tenant. destruct (send_invitation retries id token w) as [res w1] eqn:Hs.
    apply send_invitation_quiet in Hs. cbn. by rewrite Hs.
  - left. exists any_tenant. destruct (deliver_webhook retries id w) as [res w1] eqn:Hs.
    eapply writes_weaken; [done| |by eapply deliver_webhook_commits].
    intros t _. apply all_tables_elem.
  - right. do 2 eexists. apply cleanup_task_db.
Qed.

Definition consistent (w : World) : Prop := db_ok (w_db w) /\ one_owner (w_db w).

Lemma step_consistent w w' : step w w' -> consistent w -> consistent w'.
Proof.
  intros H [Hok Hone]. destruct (step_writes _ _ Hok H) as [[who Hw]|(ts & u & Heq)].
  - split; [by eapply writes_db_ok|by eapply writes_one_owner].
  - split; rewrite Heq; [by apply cleaned_ok|].
    eapply one_owner_eq; [apply cleaned_ne; set_solver..|done].
Qed.

Lemma initial_consistent w : initial w -> consistent w.
Proof. intros Hi. unfold consistent, initial in *. rewrite Hi. by split. Qed.

Lemma steps_consistent w w' : rtc step w w' -> consistent w -> consistent w'.
Proof. induction 1; eauto using step_consistent. Qed.

Lemma reachable_consistent w : reachable w -> consistent w.
Proof. intros (w0 & Hi & Hw). eapply steps_consistent; [exact Hw|by apply initial_consistent]. Qed.
End Invariants.
