(* ===== verification/Logs.v ===== *)
(** * Logs: what a run appends to the log of external effects *)
From S2P Require Import Prelude Text Json Schema Config TokenBucket Session Events.

Section Logs.
Context {E : Env}.

(** Every effect that a run of [m] appends to the log satisfies [P]. *)
Definition logs {A} (P : effect -> Prop) (m : M A) : Prop :=
  forall w r w', m w = (r, w') -> exists l, w_log w' = (w_log w ++ l)%list /\ Forall P l.

(** ** The log of a run *)
Lemma logs_bind {A B} P (m : M A) (f : A -> M B) :
  logs P m -> (forall a w w', m w = (Ok a, w') -> logs P (f a)) -> logs P (bind m f).
Proof.
  intros Hm Hf w r w' H. unfold bind in H. destruct (m w) as [[a|e] w1] eqn:Hw.
  - destruct (Hm _ _ _ Hw) as (l1 & Hl1 & HP1). destruct (Hf _ _ _ Hw _ _ _ H) as (l2 & Hl2 & HP2).
    exists (l1 ++ l2)%list. rewrite Hl2, Hl1, app_assoc. split; [done|by apply Forall_app].
  - injection H as _ <-. by apply Hm in Hw.
Qed.

Lemma logs_silent {A} P (m : M A) : (forall w r w', m w = (r, w') -> w_log w' = w_log w) -> logs P m.
Proof. intros H w r w' Hm. exists []. rewrite app_nil_r. split; [by eapply H|done]. Qed.

Lemma logs_log (P : effect -> Prop) e : P e -> logs P (log e).
Proof. intros HP w r w' [= _ <-]. exists [e]. split; [done|by constructor]. Qed.

Lemma logs_try {A} P (m : M A) h :
  logs P m -> (forall e m', h e = Some m' -> logs P m') -> logs P (try_except m h).
Proof.
  intros Hm Hh w r w' H. unfold try_except in H. destruct (m w) as [[a|e] w1] eqn:Hw.
  - injection H as _ <-. by apply Hm in Hw.
  - destruct (h e) as [m'|] eqn:He; [|injection H as _ <-; by apply Hm in Hw].
    destruct (Hm _ _ _ Hw) as (l1 & Hl1 & HP1). destruct (Hh _ _ He _ _ _ H) as (l2 & Hl2 & HP2).
    exists (l1 ++ l2)%list. rewrite Hl2, Hl1, app_assoc. split; [done|by apply Forall_app].
Qed.

Lemma logs_session {A} P (m : M A) : logs P m -> logs P (get_session m).
Proof.
  intros Hm w r w' H. unfold get_session in H. destruct (m w) as [[a|e] w1] eqn:Hw;
    injection H as _ <-; by apply Hm in Hw.
Qed.

Lemma logs_flush P t old new : logs P (flush_update t old new).
Proof.
  apply logs_silent. unfold flush_update. intros w r w'. case_decide; [by intros [= _ <-]|].
  unfold bind, now, read. cbv zeta. repeat case_match; by intros [= _ <-].
Qed.

Lemma logs_add P t r : logs P (add_flush t r).
Proof.
  apply logs_silent. unfold add_flush. intros w x w'. repeat case_match; by intros [= _ <-].
Qed.

Lemma logs_on_conflict P t index r : logs P (insert_on_conflict_do_nothing t index r).
Proof.
  apply logs_silent. unfold insert_on_conflict_do_nothing, bind, add_flush, ret. intros w x w'.
  repeat case_match; simplify_eq; by intros [= _ <-].
Qed.

Lemma logs_for_each {A} P l (body : A -> M unit) :
  (forall a, logs P (body a)) -> logs P (for_each l body).
Proof.
  intros H. induction l as [|a l IH]; cbn [for_each].
  - apply logs_silent. by intros ? ? ? [= _ <-].
  - apply logs_bind; [apply H|intros; exact IH].
Qed.
End Logs.

Create HintDb logs discriminated.
#[export] Hint Resolve logs_flush logs_add logs_on_conflict : logs.

Ltac head_of t := match t with ?f _ => head_of f | _ => t end.

(** One step through a computation whose log entries satisfy the predicate by computation; what is
    not a primitive or a hint is unfolded. *)
Ltac logs_step :=
  match goal with
  | |- logs _ (bind _ _) => apply logs_bind; [|intros ? ? ? _]
  | |- logs _ (match ?x with _ => _ end) => destruct x
  | |- logs _ (let _ := _ in _) => cbv zeta
  | |- logs _ (log _) => apply logs_log; first [exact I|solve [auto 2 with logs nocore]]
  | |- logs _ (for_each _ _) => apply logs_for_each; intros ?
  | |- logs _ (get_session _) => apply logs_session
  | |- logs _ (try_except _ _) => apply logs_try; [|intros [] ? ?; simplify_eq]
  | |- logs _ (fun w => _) =>
      apply logs_silent; intros ? ? ?; cbv zeta; repeat case_match; by intros [= _ <-]
  | |- logs _ _ => solve [auto 2 with logs nocore]
  | |- logs _ ?m => let h := head_of m in progress unfold h
  end.
Ltac logs := repeat logs_step.

(** ** Events *)
Lemma create_deliveries_logs {E : Env} P event_id event_type payload endpoints :
  logs P (create_deliveries event_id event_type payload endpoints).
Proof. induction endpoints as [|e endpoints IH]; cbn [create_deliveries]; logs; exact IH. Qed.
#[export] Hint Resolve create_deliveries_logs : logs.
