(* ===== verification/Keyset.v ===== *)
(** * Keyset: cursors are read back, and pages follow each other without gap or overlap

    The lemmas behind the listings: [decode_cursor] inverts [encode_cursor], and a page that starts
    at a cursor holds the first rows that come after it, newest first. *)
From S2P Require Import Prelude Text Json JsonLoads JsonRoundTrip Dates Base64 Schema Config.
From S2P Require Import TokenBucket Session Pagination.
#[local] Open Scope string_scope.

(** ** ASCII texts *)
Definition ascii7 (c : ascii) : Prop := (code c < 128)%N.

Lemma utf8_ascii s : all_chars ascii7 s -> utf8 s = s.
Proof.
  induction s as [|c s IH]; [done|]. intros [Hc Hs]. cbn [utf8].
  apply N.ltb_lt in Hc. by rewrite Hc, IH.
Qed.

Lemma unpadded_ascii b : bytes b -> all_chars ascii7 (unpadded b).
Proof.
  induction b as [|a|a b|a b c r IH] using triple_ind; intros Hb; [done|..];
    repeat (apply Forall_cons in Hb as [? Hb]); cbn [unpadded all_chars]; unfold ascii7.
  - pose proof (six_bits a 0 0 ltac:(lia) ltac:(lia) ltac:(lia)).
    split_and!; try apply b64_char_ok; tauto.
  - pose proof (six_bits a b 0 ltac:(lia) ltac:(lia) ltac:(lia)).
    split_and!; try apply b64_char_ok; tauto.
  - pose proof (six_bits a b c ltac:(lia) ltac:(lia) ltac:(lia)).
    split_and!; try apply b64_char_ok; tauto.
Qed.

Lemma pad4_ascii s : all_chars ascii7 s -> all_chars ascii7 (pad4 s).
Proof.
  intros Hs. unfold pad4. apply all_chars_app. split; [done|].
  induction (Z.to_nat _) as [|n IH]; cbn; [done|]. by split.
Qed.

Lemma points_bytes s : bytes (points s).
Proof. induction s as [|c s IH]; constructor; [apply N_ascii_bounded|done]. Qed.

(** ** The round trip *)
Section RoundTrip.
Context {E : Env}.

Lemma cursor_read created_at entity_id :
  datetime_ok created_at = true -> (entity_id < 2 ^ 128)%N ->
  decode_cursor (encode_cursor created_at entity_id) = Ok (mkCursor created_at entity_id).
Proof.
  intros Hc Hi. unfold decode_cursor, read_cursor, encode_cursor. cbv zeta.
  rewrite rstrip_encode by apply points_bytes.
  rewrite utf8_ascii by (apply pad4_ascii, unpadded_ascii, points_bytes).
  rewrite decode_unpadded by apply points_bytes. rewrite loads_dumps; [|by vm_compute].
  cbn [value_of map fst snd getitem lookup_key].
  change (String.eqb "created_at" "created_at") with true.
  change (String.eqb "id" "created_at") with false. change (String.eqb "id" "id") with true.
  cbv iota. cbn [datetime_fromisoformat]. rewrite fromisoformat_isoformat by done.
  unfold UUID. rewrite uuid_parse_str by done. cbn. by rewrite Z.sub_0_r.
Qed.

Lemma read_cursor_errors text e :
  read_cursor text = Err e ->
  e = AttributeError \/ e = TypeError \/ exists m, e = ValueError m \/ e = KeyError m.
Proof.
  unfold read_cursor, getitem, datetime_fromisoformat, UUID.
  repeat case_match; intros [= <-]; simplify_eq;
    first [by left | by right; left | right; right; eexists; by left | right; right; eexists; by right].
Qed.

(** Only a [ValueError] or an [AttributeError] leaves [decode_cursor]. *)
Lemma decode_cursor_errors text e :
  decode_cursor text = Err e -> e = AttributeError \/ exists m, e = ValueError m.
Proof.
  unfold decode_cursor. destruct (read_cursor text) as [[c i]|e'] eqn:Hr.
  - destruct (utcoffset c); intros [= <-]; eauto.
  - intros He.
    destruct (read_cursor_errors _ _ Hr) as [-> | [-> | (m & [-> | ->])]]; simplify_eq; eauto.
Qed.
End RoundTrip.

(** ** Pages *)
Section Keyset.
#[local] Open Scope list_scope.
Context (t : table) (created_at : row t -> datetime).
#[local] Abbreviation newest := (newest_first t created_at).
#[local] Abbreviation earlier := (before t created_at).

(** The cursor that points at a row. *)
Definition position_of (r : row t) : Cursor := mkCursor (created_at r) (row_id t r).

Lemma before_true c r :
  earlier c r = true <->
  (created_at r < c.(cur_created_at))%Z \/
  created_at r = c.(cur_created_at) /\ (row_id t r < c.(cur_entity_id))%N.
Proof. unfold before. rewrite orb_true_iff, andb_true_iff, Z.ltb_lt, Z.eqb_eq, N.ltb_lt. done. Qed.

#[local] Instance newest_trans : Transitive newest.
Proof. intros a b c. unfold newest_first. lia. Qed.
#[local] Instance newest_total : Total newest.
Proof. intros a b. unfold newest_first. lia. Qed.

(** The rows of a listing: those of [p] after the position. *)
Definition from_position (p : row t -> bool) (po : option Cursor) (r : row t) : bool :=
  p r && default true ((fun c => earlier c r) <$> po).

Definition listed (p : row t -> bool) (po : option Cursor) (db : Db) : list (row t) :=
  filter (fun r => from_position p po r = true) (rows t db).

(** The primary key of a row is its key in the table. *)
Definition ids_ok (db : Db) : Prop := forall id r, find t db id = Some r -> row_id t r = id.

Lemma rows_ids db : ids_ok db -> row_id t <$> rows t db = (map_to_list (db t)).*1.
Proof.
  intros Hok. unfold rows. rewrite <- list_fmap_compose. apply list_fmap_ext.
  intros i [id r] Hi. cbn. apply Hok. apply elem_of_map_to_list.
  by apply list_elem_of_lookup_2 in Hi.
Qed.

Lemma listed_ids p po db : ids_ok db -> NoDup (row_id t <$> listed p po db).
Proof.
  intros Hok. eapply sublist_NoDup; [|apply fmap_sublist, sublist_filter].
  rewrite rows_ids by done. apply NoDup_fst_map_to_list.
Qed.

Lemma sorted_listed p po db :
  ids_ok db ->
  StronglySorted newest (merge_sort newest (listed p po db)) /\
  NoDup (row_id t <$> merge_sort newest (listed p po db)).
Proof.
  intros Hok. split.
  - apply Sorted_StronglySorted; [apply _|]. apply Sorted_merge_sort, _.
  - rewrite merge_sort_Permutation. by apply listed_ids.
Qed.

(** In a sorted list, exactly the rows after [r] come before its cursor. *)
Lemma sorted_after l1 r l2 x :
  StronglySorted newest (l1 ++ r :: l2) -> NoDup (row_id t <$> l1 ++ r :: l2) ->
  x ∈ l1 ++ r :: l2 -> (earlier (position_of r) x = true <-> x ∈ l2).
Proof.
  intros Hs Hd Hx. rewrite before_true. cbn. apply StronglySorted_app in Hs as (H1 & _ & H2).
  apply StronglySorted_cons in H2 as [H2 _]. rewrite Forall_forall in H2.
  rewrite fmap_app in Hd. apply NoDup_app in Hd as (_ & Hd1 & Hd2). cbn in Hd2.
  apply NoDup_cons in Hd2 as [Hd2 _]. split.
  - intros Hb. apply elem_of_app in Hx as [Hx|Hx].
    + specialize (H1 x r Hx ltac:(left)). unfold newest_first in H1. lia.
    + apply elem_of_cons in Hx as [->|Hx]; [lia|done].
  - intros Hx2. specialize (H2 x Hx2). unfold newest_first in H2. destruct H2 as [H2|[H2 H3]]; [by left|].
    right. split; [done|]. assert (row_id t x <> row_id t r); [|lia].
    intros He. apply Hd2. rewrite <- He. by apply list_elem_of_fmap_2.
Qed.

(** What a page is. *)
Record page_spec (p : row t -> bool) (po : option Cursor) (limit : nat) (db : Db)
    (items : list (row t)) (next : option string) : Prop := {
  page_sorted : StronglySorted newest items;
  page_ids : NoDup (row_id t <$> items);
  page_listed : forall x, x ∈ items -> x ∈ listed p po db;
  page_next :
    match next with
    | None => listed p po db ≡ₚ items
    | Some s => exists r, r ∈ items /\ s = encode_cursor (created_at r) (row_id t r) /\
        List.length items = limit /\
        (forall x, x ∈ listed p po db -> (x ∈ items <-> earlier (position_of r) x = false))
    end }.

Lemma keyset_page_Ok {E : Env} p cursor limit items next w w' :
  ids_ok (w_db w) -> (1 <= limit)%Z ->
  keyset_page t created_at p cursor limit w = (Ok (items, next), w') ->
  w' = w /\ exists po, start_position cursor w = (Ok po, w) /\
                       page_spec p po (Z.to_nat limit) (w_db w) items next.
Proof.
  unfold keyset_page. intros Hok Hlim H. apply bind_Ok in H as (po & w1 & Hpo & H).
  assert (w1 = w) as ->.
  { unfold start_position in Hpo. repeat case_match; simplify_eq; try done; by apply ret_Ok in Hpo as [_ ->]. }
  apply bind_Ok in H as (found & w2 & Hf & H). apply ret_Ok in H as [[= Hitems Hnext] ->].
  unfold select in Hf. injection Hf as Hf <-. split; [done|]. exists po. split; [done|].
  change (filter _ _) with (listed p po (w_db w)) in Hf. subst found.
  destruct (sorted_listed p po (w_db w) Hok) as [Hs Hd].
  set (n := Z.to_nat limit) in *. assert (Hn : (1 <= n)%nat) by lia.
  assert (Hn1 : Z.to_nat (limit + 1) = S n) by lia. rewrite Hn1, take_take in *.
  rewrite Nat.min_l in * by lia.
  pose proof (merge_sort_Permutation newest (listed p po (w_db w))) as Hp.
  set (S0 := merge_sort newest (listed p po (w_db w))) in *. clearbody S0.
  pose proof (take_drop n S0) as Htd.
  split.
  - subst items. rewrite <- Htd in Hs. by apply StronglySorted_app in Hs as (_ & ? & _).
  - subst items. rewrite <- Htd, fmap_app in Hd. by apply NoDup_app in Hd as (? & _ & _).
  - intros x Hx. rewrite <- Hp, <- Htd. subst items. apply elem_of_app. by left.
  - destruct (last (take n S0)) as [r|] eqn:Hl.
    + destruct (Z.ltb_spec limit (Z.of_nat (List.length (take (S n) S0)))) as [Hm|Hm]; subst next.
      * rewrite length_take in Hm. exists r. apply last_Some in Hl as [l1 Hl].
        rewrite Hl in Htd, Hitems. rewrite <- Htd, <- app_assoc in Hs, Hd. split_and!; [|done|..].
        -- rewrite Hitems. apply elem_of_app. right. by left.
        -- rewrite Hitems, <- Hl, length_take. lia.
        -- intros x Hx. rewrite <- Hp, <- Htd, <- app_assoc in Hx. subst items.
           pose proof (sorted_after _ _ _ x Hs Hd Hx) as Ha.
           rewrite <- not_true_iff_false, Ha. rewrite (app_assoc l1 [r]), fmap_app in Hd.
           apply NoDup_app in Hd as (_ & Hd & _). rewrite app_assoc in Hx. split.
           ++ intros Hi Hr. apply (Hd (row_id t x)); by apply list_elem_of_fmap_2.
           ++ intros Hr. by apply elem_of_app in Hx as [|].
      * rewrite length_take in Hm. subst items. by rewrite take_ge, Hp by lia.
    + subst next. apply last_None in Hl. subst items. rewrite Hl.
      destruct S0; [by rewrite <- Hp|]. by destruct n; [lia|].
Qed.

(** *** Following the cursors *)
Lemma listed_elem p po db x :
  x ∈ listed p po db <-> x ∈ rows t db /\ from_position p po x = true.
Proof. unfold listed. rewrite list_elem_of_filter. tauto. Qed.

Lemma from_position_next p po r x :
  from_position p po r = true ->
  from_position p (Some (position_of r)) x = true -> from_position p po x = true.
Proof.
  unfold from_position. destruct po as [c|]; cbn; rewrite !andb_true_iff, !before_true; [|tauto].
  cbn. intros [_ H1] [Hp H2]. split; [done|]. lia.
Qed.

(** What is left after a page: the listing from its last row. *)
Lemma page_rest p po limit db items r :
  ids_ok db -> NoDup (row_id t <$> items) -> (forall x, x ∈ items -> x ∈ listed p po db) ->
  r ∈ items ->
  (forall x, x ∈ listed p po db -> (x ∈ items <-> earlier (position_of r) x = false)) ->
  List.length items = limit ->
  listed p po db ≡ₚ items ++ listed p (Some (position_of r)) db.
Proof.
  intros Hok Hd Hin Hr Hspec _.
  assert (Hnd : forall l, NoDup (row_id t <$> l) -> NoDup l) by (intros l; apply NoDup_fmap_1).
  pose proof (Hin r Hr) as [_ Hrp]%listed_elem.
  apply NoDup_Permutation; [apply Hnd, listed_ids; done|apply NoDup_app; split_and!|].
  - by apply Hnd.
  - intros x Hx [_ Hx2]%listed_elem. apply Hspec in Hx; [|by apply Hin].
    unfold from_position in Hx2. cbn in Hx2. by rewrite Hx, andb_false_r in Hx2.
  - by apply Hnd, listed_ids.
  - intros x. rewrite elem_of_app. split.
    + intros Hx. destruct (earlier (position_of r) x) eqn:He; [right|left; by apply Hspec].
      apply listed_elem in Hx as [Hx Hp]. apply listed_elem. split; [done|].
      unfold from_position in *. cbn. rewrite He, andb_true_r. by apply andb_true_iff in Hp as [-> _].
    + intros [Hx|[Hx Hp]%listed_elem]; [by apply Hin|]. apply listed_elem. split; [done|].
      by eapply from_position_next.
Qed.

Lemma page_spec_rest p po limit db items s :
  ids_ok db -> page_spec p po limit db items (Some s) ->
  exists r, r ∈ items /\ s = encode_cursor (created_at r) (row_id t r) /\
    List.length items = limit /\ r ∈ listed p po db /\
    (forall x, x ∈ listed p po db -> (x ∈ items <-> earlier (position_of r) x = false)) /\
    listed p po db ≡ₚ items ++ listed p (Some (position_of r)) db.
Proof.
  intros Hok [_ Hd Hin (r & Hr & Hs & Hl & Hspec)]. exists r.
  split_and!; auto. by eapply page_rest.
Qed.

(** A traversal: the databases and the pages that were read, while the database may change between
    the requests. *)
Inductive traversal (p : row t -> bool) (limit : nat) :
    option Cursor -> list (Db * list (row t)) -> Prop :=
  | traversal_end po db items :
      ids_ok db -> page_spec p po limit db items None -> traversal p limit po [(db, items)]
  | traversal_next po db items r s rest :
      ids_ok db -> page_spec p po limit db items (Some s) ->
      s = encode_cursor (created_at r) (row_id t r) -> r ∈ listed p po db ->
      (forall x, x ∈ listed p po db -> (x ∈ items <-> earlier (position_of r) x = false)) ->
      traversal p limit (Some (position_of r)) rest -> traversal p limit po ((db, items) :: rest).

Definition with_id (id : uuid) (l : list (row t)) : list (row t) :=
  filter (fun x => row_id t x = id) l.

Lemma with_id_none l id : (forall x, x ∈ l -> row_id t x <> id) -> with_id id l = [].
Proof.
  unfold with_id. induction l as [|y l IH]; intros H; [done|].
  rewrite filter_cons_False by (apply H; left). apply IH. intros x Hx. apply H. by right.
Qed.

Lemma with_id_one l x :
  NoDup (row_id t <$> l) -> x ∈ l -> with_id (row_id t x) l = [x].
Proof.
  unfold with_id. induction l as [|y l IH]; [by intros _ ?%elem_of_nil|].
  rewrite fmap_cons. intros [Hy Hd]%NoDup_cons [->|Hx]%elem_of_cons.
  - rewrite filter_cons_True by done. f_equal. apply with_id_none.
    intros z Hz He. apply Hy. rewrite <- He. by apply list_elem_of_fmap_2.
  - rewrite filter_cons_False; [by apply IH|]. intros He. apply Hy. rewrite He.
    by apply list_elem_of_fmap_2.
Qed.

Lemma with_id_app id l1 l2 : with_id id (l1 ++ l2) = with_id id l1 ++ with_id id l2.
Proof. apply filter_app. Qed.

Lemma rows_find db x id r :
  ids_ok db -> x ∈ rows t db -> row_id t x = id -> find t db id = Some r -> x = r.
Proof.
  intros Hok Hx He Hr. unfold rows in Hx. apply list_elem_of_fmap in Hx as ([k y] & -> & Hx).
  apply elem_of_map_to_list in Hx. cbn in *. pose proof (Hok k y Hx) as Hk.
  assert (k = id) as -> by congruence. change (find t db id = Some y) in Hx. congruence.
Qed.

(** A key after the position. *)
Definition key_after (po : option Cursor) (ts : datetime) (id : uuid) : bool :=
  match po with
  | Some c => (ts <? c.(cur_created_at))%Z || ((ts =? c.(cur_created_at))%Z && (id <? c.(cur_entity_id))%N)
  | None => true
  end.

Lemma from_position_key p po x :
  from_position p po x = p x && key_after po (created_at x) (row_id t x).
Proof. unfold from_position. by destruct po. Qed.

(** A row that stays, with its creation time, is on exactly one page. *)
Lemma traversal_once p limit po pages id ts :
  traversal p limit po pages ->
  Forall (fun '(db, _) => exists x, find t db id = Some x /\ p x = true /\ created_at x = ts) pages ->
  List.length (with_id id (List.concat pages.*2)) =
    if key_after po ts id then 1%nat else 0%nat.
Proof.
  intros Ht. induction Ht as [po db items Hok [_ Hd Hin Hnext]|po db items r s rest Hok Hspec Hs Hr Hsp Ht IH];
    intros [(x & Hx & Hpx & Hc) Hrest]%Forall_cons;
    pose proof (Hok _ _ Hx) as Hid; subst ts id;
    pose proof (rows_elem _ _ _ _ Hx) as Hrow; cbn [fmap list_fmap List.concat snd].
  - rewrite app_nil_r. destruct (key_after po _ _) eqn:Hb.
    + rewrite with_id_one; [done|done|]. rewrite <- Hnext. apply listed_elem.
      by rewrite from_position_key, Hpx, Hb.
    + rewrite with_id_none; [done|]. intros y Hy He. apply Hin, listed_elem in Hy as [Hy Hp].
      pose proof (rows_find _ _ _ _ Hok Hy He Hx) as ->.
      by rewrite from_position_key, Hpx, Hb in Hp.
  - rewrite with_id_app, length_app, IH by done.
    change (key_after (Some (position_of r)) (created_at x) (row_id t x)) with (earlier (position_of r) x).
    destruct Hspec as [_ Hd Hin _].
    destruct (key_after po _ _) eqn:Hb.
    + assert (Hl : x ∈ listed p po db)
        by (apply listed_elem; by rewrite from_position_key, Hpx, Hb).
      destruct (earlier (position_of r) x) eqn:He.
      * rewrite (with_id_none items); [done|]. intros y Hy Hyid.
        pose proof (proj1 (proj1 (listed_elem _ _ _ _) (Hin _ Hy))) as Hyr.
        pose proof (rows_find _ _ _ _ Hok Hyr Hyid Hx) as ->. apply Hsp in Hy; [congruence|done].
      * rewrite with_id_one; [done|done|]. by apply Hsp.
    + rewrite (with_id_none items).
      * destruct (earlier (position_of r) x) eqn:He; [|done].
        apply listed_elem in Hr as [_ Hr].
        assert (Hx2 : from_position p po x = true).
        { eapply from_position_next; [exact Hr|]. by rewrite from_position_key, Hpx. }
        by rewrite from_position_key, Hpx, Hb in Hx2.
      * intros y Hy Hyid. apply Hin, listed_elem in Hy as [Hy Hp].
        pose proof (rows_find _ _ _ _ Hok Hy Hyid Hx) as ->.
        by rewrite from_position_key, Hpx, Hb in Hp.
Qed.
End Keyset.
