(* ===== verification/Transactions.v ===== *)
(** * Transactions: concurrent sessions under READ COMMITTED

    A handler of the other files runs from its first statement to its commit without another session
    in between.  Here a session is a program of statements, and the statements of several sessions
    interleave.  A statement sees the committed rows and the session's own writes, which become
    visible at the commit and vanish at a rollback.  A row that a session has written or selected
    FOR UPDATE is locked until its end, and an INSERT waits for the uncommitted rows it conflicts
    with.  [Reified] gives the program of a handler: run alone, it is the handler. *)
From S2P Require Import Prelude Text Json Schema Config TokenBucket Session.

(** ** Statements and programs *)
Inductive stmt : Type -> Type :=
  | Read {A} (f : nat -> A) : stmt A
  | Emit (e : effect) : stmt unit
  | Select (t : table) (p : row t -> bool) : stmt (list (row t))
  | SelectForUpdate (t : table) (p : row t -> bool) : stmt (option (row t))
  | Get (t : table) (id : uuid) : stmt (option (row t))
  | GetForUpdate (t : table) (id : uuid) : stmt (option (row t))
  | Insert (t : table) (r : row t) : stmt unit
  | InsertOnConflict (t : table) (index : row t -> row t -> bool) (r : row t) : stmt (option uuid)
  | Update (t : table) (old new : row t) : stmt (row t).

Inductive prog (A : Type) : Type :=
  | Done (r : result A)
  | Stmt {B} (s : stmt B) (k : B -> prog A).
Arguments Done {A} r.
Arguments Stmt {A B} s k.

Fixpoint pbind {A B} (p : prog A) (f : A -> prog B) : prog B :=
  match p with
  | Done (Ok a) => f a
  | Done (Err e) => Done (Err e)
  | Stmt s k => Stmt s (fun b => pbind (k b) f)
  end.

Section Run.
Context {E : Env}.

Definition exec {A} (s : stmt A) : M A :=
  match s with
  | Read f => read f
  | Emit e => log e
  | Select t p => select t p
  | SelectForUpdate t p => scalar t p
  | Get t id => get t id
  | GetForUpdate t id => get_for_update t id
  | Insert t r => add_flush t r
  | InsertOnConflict t index r => insert_on_conflict_do_nothing t index r
  | Update t old new => flush_update t old new
  end.

(** A program without interruption. *)
Fixpoint run {A} (p : prog A) : M A :=
  match p with
  | Done r => lift r
  | Stmt s k => bind (exec s) (fun b => run (k b))
  end.

Lemma bind_ext {A B} (m m' : M A) (f f' : A -> M B) w :
  m w = m' w -> (forall a w, f a w = f' a w) -> bind m f w = bind m' f' w.
Proof. intros Hm Hf. unfold bind. rewrite Hm. by destruct (m' w) as [[a|e] w']. Qed.

Lemma run_pbind {A B} (p : prog A) (f : A -> prog B) w :
  run (pbind p f) w = bind (run p) (fun a => run (f a)) w.
Proof.
  revert w. induction p as [[a|e]|C s k IH]; intros w; [done..|]. cbn [pbind run].
  unfold bind at 1 2 3. destruct (exec s w) as [[c|e] w']; [|done]. apply IH.
Qed.

(** ** Handlers as programs *)
Class Reified {A} (m : M A) := {
  prog_of : prog A;
  run_prog_of : forall w, run prog_of w = m w }.
Arguments prog_of {A} m {_}.

Definition reified {A} (m : M A) (p : prog A) (H : forall w, run p w = m w) : Reified m :=
  {| prog_of := p; run_prog_of := H |}.

Lemma run_stmt {A} (s : stmt A) (m : M A) w :
  exec s w = m w -> run (Stmt s (fun a => Done (Ok a))) w = m w.
Proof. intros <-. cbn [run]. unfold bind. by destruct (exec s w) as [[a|e] w']. Qed.

Definition reify_stmt {A} (s : stmt A) : Reified (exec s) :=
  reified _ (Stmt s (fun a => Done (Ok a))) (fun w => run_stmt s _ w eq_refl).

#[export] Instance reify_ret {A} (a : A) : Reified (ret a).
Proof. exact (reified _ (Done (Ok a)) (fun w => eq_refl)). Defined.
#[export] Instance reify_raise {A} e : Reified (raise e : M A).
Proof. exact (reified _ (Done (Err e)) (fun w => eq_refl)). Defined.
#[export] Instance reify_lift {A} (r : result A) : Reified (lift r).
Proof. exact (reified _ (Done r) (fun w => eq_refl)). Defined.
#[export] Instance reify_read {A} (f : nat -> A) : Reified (read f).
Proof. exact (reify_stmt (Read f)). Defined.
#[export] Instance reify_log e : Reified (log e).
Proof. exact (reify_stmt (Emit e)). Defined.
#[export] Instance reify_select t p : Reified (select t p).
Proof. exact (reify_stmt (Select t p)). Defined.
(* A plain [scalar] or [get] takes no lock. *)
#[export] Typeclasses Opaque scalar_for_update get_for_update.
#[export] Instance reify_for_update t p : Reified (scalar_for_update t p).
Proof. exact (reify_stmt (SelectForUpdate t p)). Defined.
#[export] Instance reify_get t id : Reified (get t id).
Proof. exact (reify_stmt (Get t id)). Defined.
#[export] Instance reify_get_for_update t id : Reified (get_for_update t id).
Proof. exact (reify_stmt (GetForUpdate t id)). Defined.
#[export] Instance reify_add t r : Reified (add_flush t r).
Proof. exact (reify_stmt (Insert t r)). Defined.
#[export] Instance reify_on_conflict t index r : Reified (insert_on_conflict_do_nothing t index r).
Proof. exact (reify_stmt (InsertOnConflict t index r)). Defined.
#[export] Instance reify_flush t old new : Reified (flush_update t old new).
Proof. exact (reify_stmt (Update t old new)). Defined.

Lemma run_prog_bind {A B} (m : M A) (f : A -> M B) (Hm : Reified m) (Hf : forall a, Reified (f a)) w :
  run (pbind (prog_of m) (fun a => prog_of (f a))) w = bind m f w.
Proof. rewrite run_pbind. apply bind_ext; [apply run_prog_of|]. intros a w'. apply run_prog_of. Qed.

#[export] Instance reify_bind {A B} (m : M A) (f : A -> M B) :
  Reified m -> (forall a, Reified (f a)) -> Reified (bind m f).
Proof. intros Hm Hf. exact (reified _ _ (run_prog_bind m f Hm Hf)). Defined.
End Run.
Arguments prog_of {E A} m {_}.

(** Transparent definitions are unfolded, matches become matches of programs. *)
Ltac reify_head m :=
  match m with
  | ?f _ => reify_head f
  | _ => m
  end.
#[export] Hint Extern 5 (Reified (match ?x with _ => _ end)) => destruct x : typeclass_instances.
#[export] Hint Extern 9 (Reified ?m) =>
  let h := reify_head m in progress unfold h; cbv zeta : typeclass_instances.

(** The next statement of the program. *)
Ltac evaluate q :=
  let q' := eval hnf in q in
  lazymatch q' with
  | Done _ => change q with q'
  | Stmt _ _ => change q with q'
  end.
Ltac eval_prog :=
  lazymatch goal with |- ?P ?q => evaluate q end; cbv beta; fold @pbind.

(** ** Sessions *)

(** A session holds the rows it has written and not committed, and the row locks of its SELECT ...
    FOR UPDATE; at its end it has a result, and a committed one the rows it wrote. *)
Inductive session (A : Type) : Type :=
  | Running (p : prog A) (ws : Db) (locks : list (table * uuid))
  | Ended (r : result A) (ws : Db).
Arguments Running {A} p ws locks.
Arguments Ended {A} r ws.

(** The committed state, and the sessions. *)
Record system (A : Type) := mkSystem {
  sys_world : World;
  sys_sessions : list (session A) }.
Arguments mkSystem {A} sys_world sys_sessions.
Arguments sys_world {A} s.
Arguments sys_sessions {A} s.

(** The rows a session sees. *)
Definition overlay (ws db : Db) : Db := fun t => ws t ∪ db t.
Definition view (ws : Db) (w : World) : World := set_db (overlay ws w.(w_db)) w.

(** The uncommitted rows after a statement. *)
Definition written {A} (s : stmt A) : A -> Db -> Db :=
  match s in stmt A return A -> Db -> Db with
  | Insert t r => fun _ => put t r
  | InsertOnConflict t _ r => fun created =>
      match created with Some _ => put t r | None => fun ws => ws end
  | Update t old new => fun r => if decide (old = new) then fun ws => ws else put t r
  | _ => fun _ ws => ws
  end.

Definition selected {A} (s : stmt A) : A -> list (table * uuid) :=
  match s in stmt A return A -> list (table * uuid) with
  | SelectForUpdate t _ => fun found =>
      match found with Some r => [(t, row_id t r)] | None => [] end
  | GetForUpdate t id => fun found => match found with Some _ => [(t, id)] | None => [] end
  | _ => fun _ => []
  end.

Definition holds {A} (x : session A) (t : table) (id : uuid) : bool :=
  match x with
  | Running _ ws locks => has t ws id || bool_decide ((t, id) ∈ locks)
  | Ended _ _ => false
  end.

(** An uncommitted row of the session that [r] may not coexist with. *)
Definition rivals {A} (x : session A) (t : table) (r : row t) : bool :=
  match x with
  | Running _ ws _ => has t ws (row_id t r) || existsb (conflict t r) (rows t ws)
  | Ended _ _ => false
  end.

Section System.
Context {E : Env} {A : Type}.
Implicit Types (S : system A) (w : World).

(** The statement has to wait for the session [x]. *)
Definition waits {B} (s : stmt B) (w : World) (x : session A) : bool :=
  match s with
  | SelectForUpdate t p =>
      match (scalar t p w).1 with
      | Ok (Some r) => holds x t (row_id t r)
      | _ => false
      end
  | GetForUpdate t id => has t (w_db w) id && holds x t id
  | Insert t r => rivals x t r
  | InsertOnConflict t _ r => rivals x t r
  | Update t old new =>
      negb (bool_decide (old = new)) && (holds x t (row_id t new) || rivals x t new)
  | _ => false
  end.

Definition blocked {B} (s : stmt B) (w : World) (i : nat) (xs : list (session A)) : bool :=
  existsb id (imap (fun j x => negb (j =? i)%nat && waits s w x) xs).

(** The next step of session [i]: a statement, the commit or the rollback. *)
Definition advance (i : nat) (S : system A) : option (system A) :=
  let w := S.(sys_world) in
  let xs := S.(sys_sessions) in
  match xs !! i with
  | Some (Running (Done (Ok a)) ws _) =>
      Some (mkSystem (set_db (overlay ws w.(w_db)) w) (<[i := Ended (Ok a) ws]> xs))
  | Some (Running (Done (Err e)) _ _) => Some (mkSystem w (<[i := Ended (Err e) empty_db]> xs))
  | Some (Running (Stmt s k) ws locks) =>
      if blocked s (view ws w) i xs then None
      else match exec s (view ws w) with
           | (Ok b, w') =>
               Some (mkSystem (set_db w.(w_db) w')
                 (<[i := Running (k b) (written s b ws) (selected s b ++ locks)]> xs))
           | (Err e, w') =>
               Some (mkSystem (set_db w.(w_db) w') (<[i := Ended (Err e) empty_db]> xs))
           end
  | _ => None
  end.

(** Sessions advance in any order; a session may be lost at any time, which rolls it back. *)
Inductive sys_step S : system A -> Prop :=
  | sys_advance i S' : advance i S = Some S' -> sys_step S S'
  | sys_lost i p ws locks :
      S.(sys_sessions) !! i = Some (Running p ws locks) ->
      sys_step S (mkSystem S.(sys_world)
        (<[i := Ended (Err OperationalError) empty_db]> S.(sys_sessions))).

(** Sessions that begin together. *)
Definition start (w : World) (ps : list (prog A)) : system A :=
  mkSystem w ((fun p => Running p empty_db []) <$> ps).

(** A schedule: the sessions that advance, in order. *)
Fixpoint schedule (order : list nat) (S : system A) : option (system A) :=
  match order with
  | [] => Some S
  | i :: order => advance i S ≫= schedule order
  end.

Lemma schedule_steps order S S' : schedule order S = Some S' -> rtc sys_step S S'.
Proof.
  revert S. induction order as [|i order IH]; intros S; cbn; [intros [= <-]; apply rtc_refl|].
  intros (S1 & H1 & H)%bind_Some. eapply rtc_l; [by eapply sys_advance|by apply IH].
Qed.

Lemma blocked_false {B} (s : stmt B) w i xs :
  blocked s w i xs = false <-> forall j x, xs !! j = Some x -> j <> i -> waits s w x = false.
Proof.
  unfold blocked. rewrite existsb_false_iff. split.
  - intros H j x Hx Hne. assert (Hin : negb (j =? i)%nat && waits s w x ∈
      imap (fun j x => negb (j =? i)%nat && waits s w x) xs).
    { apply list_elem_of_lookup. exists j. by rewrite list_lookup_imap, Hx. }
    specialize (H _ Hin). unfold id in H. destruct (Nat.eqb_spec j i); [done|exact H].
  - intros H b (j & Hj)%list_elem_of_lookup. rewrite list_lookup_imap in Hj.
    destruct (xs !! j) as [x|] eqn:Hx; [|done]. injection Hj as <-. unfold id.
    destruct (Nat.eqb_spec j i) as [->|Hne]; [done|]. cbn. by eapply H.
Qed.
End System.

(** ** Statements *)
Section Statements.
Context {E : Env}.

(** Rows are filed under their id. *)
Definition keyed (db : Db) : Prop := forall t id r, find t db id = Some r -> row_id t r = id.

(** The values a statement may return. *)
Definition possible {A} (s : stmt A) (a : A) : Prop :=
  exists w w', keyed (w_db w) /\ exec s w = (Ok a, w').

Lemma exec_db {A} (s : stmt A) a w w' :
  exec s w = (Ok a, w') -> w_db w' = written s a (w_db w).
Proof.
  destruct s; cbn [exec written].
  - by intros [_ ->]%read_Ok.
  - by intros [= _ <-].
  - by intros [-> _]%select_Ok.
  - by intros [-> _]%scalar_Ok.
  - by intros [_ ->]%get_Ok.
  - by intros [_ ->]%get_Ok.
  - by intros (_ & _ & _ & ->)%add_flush_Ok.
  - intros H. apply insert_on_conflict_Ok in H as [(-> & -> & _)|(-> & _ & _ & _ & -> & _)]; done.
  - intros H. apply flush_update_Ok in H as [(-> & -> & ->)|(Hne & -> & _ & _ & _ & ->)].
    + by rewrite decide_True.
    + by rewrite decide_False.
Qed.

Lemma keyed_empty : keyed empty_db.
Proof. by intros t id r. Qed.

Lemma keyed_put t r db : keyed db -> keyed (put t r db).
Proof.
  intros Hdb t' id r'. destruct (decide (t = t')) as [<-|Hne]; [|rewrite put_ne by done; apply Hdb].
  rewrite put_eq. intros [[<- <-]|[_ H]]%lookup_insert_Some; [done|by apply Hdb].
Qed.

Lemma keyed_written {A} (s : stmt A) a ws : keyed ws -> keyed (written s a ws).
Proof.
  intros Hws. destruct s; cbn [written]; try done; first
    [by apply keyed_put|destruct a; [by apply keyed_put|done]|case_decide; [done|by apply keyed_put]].
Qed.

Lemma keyed_overlay ws db : keyed ws -> keyed db -> keyed (overlay ws db).
Proof.
  intros Hws Hdb t id r. unfold overlay. rewrite lookup_union_Some_raw.
  intros [H|[_ H]]; [by apply Hws|by apply Hdb].
Qed.

Lemma db_ok_keyed db : db_ok db -> keyed db.
Proof. intros H t id r Hr. by apply H in Hr as [? _]. Qed.

(** Every row of a system is filed under its id. *)
Definition sys_keyed {A} (S : system A) : Prop :=
  keyed (w_db S.(sys_world)) /\
  forall i q ws locks, S.(sys_sessions) !! i = Some (Running q ws locks) -> keyed ws.

Lemma start_keyed {A} w (ps : list (prog A)) : keyed (w_db w) -> sys_keyed (start w ps).
Proof.
  intros Hw. split; [done|]. intros i q ws locks Hi. cbn in Hi.
  apply list_lookup_fmap_Some in Hi as (p & [= -> -> ->] & _). apply keyed_empty.
Qed.

Lemma keyed_possible {A B} (S : system A) i (s : stmt B) k ws locks b w' :
  sys_keyed S -> S.(sys_sessions) !! i = Some (Running (Stmt s k) ws locks) ->
  exec s (view ws S.(sys_world)) = (Ok b, w') -> possible s b.
Proof.
  intros [Hw Hs] Hi He. eexists _, _. split; [|exact He]. apply keyed_overlay; [by eapply Hs|done].
Qed.

Lemma keyed_step {A} (S S' : system A) : sys_keyed S -> sys_step S S' -> sys_keyed S'.
Proof.
  intros [Hw Hs] Hstep.
  assert (Hone : forall i x w', keyed (w_db w') ->
    (forall q ws locks, x = Running q ws locks -> keyed ws) ->
    sys_keyed (mkSystem w' (<[i := x]> S.(sys_sessions)))).
  { intros i x w' Hw' Hx. split; [done|]. cbn. intros j q ws locks.
    intros [(_ & -> & _)|[_ Hy]]%list_lookup_insert_Some; [by eapply Hx|by eapply Hs]. }
  destruct Hstep as [i S' H|i q ws locks Hi]; [|by apply Hone].
  unfold advance in H.
  destruct (S.(sys_sessions) !! i) as [[[[a|e]|B s k] ws locks|]|] eqn:Hi; [..|done|done].
  - injection H as <-. apply Hone; [apply keyed_overlay; [by eapply Hs|done]|done].
  - injection H as <-. by apply Hone.
  - destruct (blocked _ _ _ _); [done|].
    destruct (exec s _) as [[b|e] w'] eqn:He; injection H as <-; apply Hone; try done.
    intros q ws' locks' [= _ <- _]. by eapply keyed_written, Hs.
Qed.

(** *** Uncommitted rows belong to one session *)
Definition pending {A} (x : session A) (t : table) (id : uuid) : bool :=
  match x with Running _ ws _ => has t ws id | Ended _ _ => false end.

Definition sys_disjoint {A} (S : system A) : Prop :=
  forall i j x y t id, S.(sys_sessions) !! i = Some x -> S.(sys_sessions) !! j = Some y ->
    pending x t id = true -> pending y t id = true -> i = j.

Lemma has_put t r db t' id :
  has t' (put t r db) id = true -> has t' db id = true \/ t = t' /\ row_id t r = id.
Proof.
  rewrite !has_true. intros [r' Hr']. destruct (decide (t = t')) as [<-|Hne].
  - rewrite put_eq in Hr'. apply lookup_insert_Some in Hr' as [[<- _]|[_ Hr']]; [by right|left; by eexists].
  - rewrite put_ne in Hr' by done. left. by eexists.
Qed.

Lemma touch_id t ts (r : row t) : row_id t (touch t ts r) = row_id t r.
Proof. by destruct t. Qed.

(** A statement does not write a row that another session has written. *)
Lemma pending_exclusive {A B} (s : stmt B) b ws w w' (y : session A) t id :
  exec s (view ws w) = (Ok b, w') -> waits s (view ws w) y = false ->
  has t (written s b ws) id = true -> has t ws id = true \/ pending y t id = false.
Proof.
  intros He Hw Hh. destruct y as [q ws' locks|]; [|by right]. cbn [pending].
  destruct s; cbn [written exec waits rivals holds] in *; try (by left).
  - apply has_put in Hh as [|[<- <-]]; [by left|]. by apply orb_false_iff in Hw as [? _]; right.
  - destruct b; [|by left].
    apply has_put in Hh as [|[<- <-]]; [by left|]. by apply orb_false_iff in Hw as [? _]; right.
  - case_decide as Hd; [by left|].
    apply flush_update_Ok in He as [[? _]|(_ & -> & _)]; [done|].
    apply has_put in Hh as [|[<- <-]]; [by left|]. rewrite touch_id. right.
    rewrite bool_decide_eq_false_2 in Hw by done. cbn [negb andb] in Hw.
    apply orb_false_iff in Hw as [Hw _]. by apply orb_false_iff in Hw as [? _].
Qed.

Lemma start_disjoint {A} w (ps : list (prog A)) : sys_disjoint (start w ps).
Proof.
  intros i j x y t id Hi _ Hx _. cbn in Hi. apply list_lookup_fmap_Some in Hi as (p & -> & _).
  discriminate Hx.
Qed.

Lemma disjoint_step {A} (S S' : system A) : sys_disjoint S -> sys_step S S' -> sys_disjoint S'.
Proof.
  intros HS Hstep.
  assert (Hone : forall i x0 x w', S.(sys_sessions) !! i = Some x0 ->
    (forall j y t id, S.(sys_sessions) !! j = Some y -> j <> i -> pending x t id = true ->
       pending x0 t id = true \/ pending y t id = false) ->
    sys_disjoint (mkSystem w' (<[i := x]> S.(sys_sessions)))).
  { intros i x0 x w' Hi Hx j1 j2 y1 y2 t id. cbn.
    intros [(<- & <- & _)|[Hn1 H1]]%list_lookup_insert_Some [(<- & <- & _)|[Hn2 H2]]%list_lookup_insert_Some;
      [done| | |by eauto]; intros Hp1 Hp2.
    - destruct (Hx j2 y2 t id H2 (not_eq_sym Hn2) Hp1); [by eapply HS|congruence].
    - destruct (Hx j1 y1 t id H1 (not_eq_sym Hn1) Hp2); [by eapply HS|congruence]. }
  destruct Hstep as [i S' H|i q ws locks Hi]; [|by eapply Hone].
  unfold advance in H.
  destruct (S.(sys_sessions) !! i) as [[[[a|e]|B s k] ws locks|]|] eqn:Hi; [..|done|done].
  - injection H as <-. by eapply Hone.
  - injection H as <-. by eapply Hone.
  - destruct (blocked _ _ _ _) eqn:Hb; [done|]. rewrite blocked_false in Hb.
    destruct (exec s _) as [[b|e] w'] eqn:He; injection H as <-; eapply Hone; try done.
    intros j y t id Hj Hne Hp. by eapply pending_exclusive, Hp; [|by eapply Hb].
Qed.
End Statements.
