(* ===== verification/Serial.v ===== *)
(** * Serial: a session without rivals is its handler

    Run to its end with no other session in between, the program of a handler ends with the result
    and in the world of [get_session]: the semantics of Transactions extends that of Session.  Two
    worlds are equivalent when they have the same tables; [exec] and [run] respect this. *)
From S2P Require Import Prelude Text Json Schema Config TokenBucket Session Transactions.

(** ** Worlds with the same tables *)
#[export] Instance db_equiv : Equiv Db := fun db db' => forall t, db t = db' t.
#[export] Instance world_equiv : Equiv World := fun w w' =>
  w.(w_db) ≡ w'.(w_db) /\ w.(w_redis) = w'.(w_redis) /\ w.(w_log) = w'.(w_log) /\
  w.(w_tick) = w'.(w_tick).

#[export] Instance db_equivalence : Equivalence (≡@{Db}).
Proof. split; [done|intros db db' H t; by rewrite H|intros db1 db2 db3 H1 H2 t; by rewrite H1]. Qed.
#[export] Instance world_equivalence : Equivalence (≡@{World}).
Proof.
  split.
  - by intros w.
  - intros w w' (H1 & H2 & H3 & H4). by split_and!; [symmetry|..].
  - intros w1 w2 w3 (H1 & H2 & H3 & H4) (H1' & H2' & H3' & H4').
    split_and!; [by etrans|congruence..].
Qed.

#[export] Instance put_proper t r : Proper ((≡) ==> (≡@{Db})) (put t r).
Proof.
  intros db db' H t'. destruct (decide (t = t')) as [<-|Hne]; [by rewrite !put_eq, H|].
  by rewrite !put_ne.
Qed.

#[export] Instance set_db_proper : Proper ((≡) ==> (≡) ==> (≡)) set_db.
Proof. intros db db' Hdb w w' (_ & H2 & H3 & H4). by split_and!. Qed.

#[export] Instance overlay_proper : Proper ((≡) ==> (≡) ==> (≡@{Db})) overlay.
Proof. intros ws ws' Hws db db' Hdb t. unfold overlay. by rewrite Hws, Hdb. Qed.

Lemma row_ok_proper t (r : row t) (db db' : Db) : db ≡ db' -> row_ok t db r = row_ok t db' r.
Proof.
  intros H. unfold row_ok, other_row. rewrite (H t). f_equal. f_equal.
  assert (Hhas : forall t id, has t db id = has t db' id) by (intros; unfold has; by rewrite (H _)).
  assert (Hopt : forall t id, has_opt t db id = has_opt t db' id)
    by (intros t' [id|]; cbn; [apply Hhas|done]).
  assert (Hprj : forall org id, project_of db org id = project_of db' org id)
    by (intros; unfold project_of; by rewrite (H _)).
  assert (Htk : forall org id, task_of db org id = task_of db' org id)
    by (intros; unfold task_of; by rewrite (H _)).
  destruct t; cbn [refs_ok]; rewrite ?Hhas, ?Hopt, ?Hprj; try done.
  f_equal. f_equal; [f_equal|].
  - destruct (att_project_id r); cbn; by rewrite ?Hprj.
  - destruct (att_task_id r); cbn; by rewrite ?Htk.
Qed.

Section Serial.
Context {E : Env}.

(** Equal results, equivalent worlds. *)
Definition same_outcome {A} (x y : result A * World) : Prop := x.1 = y.1 /\ x.2 ≡ y.2.

Lemma exec_proper {A} (s : stmt A) w w' : w ≡ w' -> same_outcome (exec s w) (exec s w').
Proof.
  intros Hw. pose proof Hw as (Hdb & Hre & Hl & Ht).
  assert (Hadd : forall t r, same_outcome (add_flush t r w) (add_flush t r w')).
  { intros t r. unfold add_flush. rewrite (row_ok_proper _ _ _ _ Hdb). unfold has. rewrite (Hdb t).
    destruct (negb (fits t r)); [done|]. destruct (_ || _); [done|]. split; [done|]. by rewrite Hdb, Hw. }
  assert (Hrows : forall t, rows t (w_db w) = rows t (w_db w')) by (intros t; unfold rows; by rewrite (Hdb t)).
  destruct s; cbn [exec].
  - unfold read, same_outcome. cbn. rewrite Ht. split; [done|]. by split_and!.
  - split; [done|]. unfold add_log. split_and!; cbn; congruence || done.
  - unfold select. by rewrite Hrows.
  - unfold scalar_for_update, scalar, bind, select. by rewrite Hrows.
  - unfold get. by rewrite (Hdb t).
  - unfold get_for_update, get. by rewrite (Hdb t).
  - apply Hadd.
  - unfold insert_on_conflict_do_nothing. rewrite Hrows. destruct (existsb _ _); [done|].
    unfold bind. specialize (Hadd t r).
    destruct (add_flush t r w) as [[u|e] w1], (add_flush t r w') as [[u'|e'] w1'];
      destruct Hadd as [[= <-] Hw1]; cbn in *; by split.
  - unfold flush_update. case_decide; [done|]. unfold bind, now, read. rewrite Ht. cbn.
    rewrite (row_ok_proper _ _ _ _ Hdb). unfold has. rewrite (Hdb t).
    assert (Htick : {| w with w_tick := S (w_tick w') |} ≡ {| w' with w_tick := S (w_tick w') |})
      by by split_and!.
    destruct (negb _); [done|]. destruct (negb _); [done|]. destruct (negb _); [done|].
    split; [done|]. apply set_db_proper; [by apply put_proper|exact Htick].
Qed.

Lemma run_proper {A} (p : prog A) w w' : w ≡ w' -> same_outcome (run p w) (run p w').
Proof.
  revert w w'. induction p as [r|B s k IH]; intros w w' Hw; [done|]. cbn [run]. unfold bind.
  pose proof (exec_proper s w w' Hw) as [Hr Hw1].
  destruct (exec s w) as [[b|e] w1], (exec s w') as [[b'|e'] w1']; cbn in *; try discriminate.
  - injection Hr as <-. by apply IH.
  - by injection Hr as <-.
Qed.

(** ** A system of one session *)
Lemma written_overlay {A} (s : stmt A) a ws db : written s a (overlay ws db) ≡ overlay (written s a ws) db.
Proof.
  assert (Hput : forall t r, put t r (overlay ws db) ≡ overlay (put t r ws) db).
  { intros t r t'. unfold overlay. destruct (decide (t = t')) as [<-|Hne].
    - by rewrite !put_eq, insert_union_l.
    - by rewrite !put_ne. }
  destruct s; cbn [written]; try done; repeat case_match; done || apply Hput.
Qed.

Lemma blocked_alone {A B} (s : stmt B) w (x : session A) : blocked s w 0 [x] = false.
Proof. apply blocked_false. intros [|j] y Hy Hne; done. Qed.

Lemma run_alone {A} (p : prog A) ws locks w0 w1 :
  w1 ≡ view ws w0 ->
  exists n S, schedule (replicate n 0) (mkSystem w0 [Running p ws locks]) = Some S /\
    match run p w1 with
    | (Ok a, w2) => exists ws', S.(sys_sessions) = [Ended (Ok a) ws'] /\ S.(sys_world) ≡ w2
    | (Err e, w2) => S.(sys_sessions) = [Ended (Err e) empty_db] /\
                     S.(sys_world) ≡ set_db (w_db w0) w2
    end.
Proof.
  revert ws locks w0 w1. induction p as [[a|e]|B s k IH]; intros ws locks w0 w1 Hw.
  - exists 1. eexists. split; [done|]. cbn. exists ws. split; [done|]. symmetry. exact Hw.
  - exists 1. eexists. split; [done|]. cbn. split; [done|].
    destruct Hw as (_ & H2 & H3 & H4). by split_and!.
  - cbn [run]. unfold bind. pose proof (exec_proper s _ _ Hw) as [Hr Hw1].
    destruct (exec s (view ws w0)) as [rv w'] eqn:He. cbn [fst snd] in *.
    destruct (exec s w1) as [[b|e] w2]; cbn [fst snd] in *; subst rv.
    + destruct (IH b (written s b ws) (selected s b ++ locks) (set_db (w_db w0) w') w2)
        as (n & S & HS & HM).
      { destruct Hw1 as (Hdb & H2 & H3 & H4). split_and!; [|done..]. cbn. rewrite Hdb.
        rewrite (exec_db _ _ _ _ He). apply written_overlay. }
      exists (Datatypes.S n), S. split; [|exact HM]. cbn [replicate schedule]. unfold advance at 1.
      cbn [sys_world sys_sessions]. change ([Running (Stmt s k) ws locks] !! 0) with
        (Some (Running (Stmt s k) ws locks)). cbn iota. by rewrite blocked_alone, He.
    + exists 1. eexists. split.
      { cbn [replicate schedule]. unfold advance. cbn [sys_world sys_sessions].
        change ([Running (Stmt s k) ws locks] !! 0) with (Some (Running (Stmt s k) ws locks)).
        cbn iota. rewrite blocked_alone, He. reflexivity. }
      cbn. split; [done|]. by rewrite Hw1.
Qed.

(** A handler's session, alone, does what [get_session] does. *)
Theorem session_alone {A} (m : M A) (Hm : Reified m) w :
  exists n S ws, schedule (replicate n 0) (start w [prog_of m]) = Some S /\
    S.(sys_sessions) = [Ended (get_session m w).1 ws] /\ S.(sys_world) ≡ (get_session m w).2.
Proof.
  destruct (run_alone (prog_of m) empty_db [] w w) as (n & S & HS & HM).
  { split_and!; try done. intros t. cbn. unfold overlay, empty_db. by rewrite (left_id_L ∅ (∪)). }
  exists n, S. rewrite run_prog_of in HM. unfold get_session.
  destruct (m w) as [[a|e] w2]; [destruct HM as (ws & HM); by exists ws|by exists empty_db].
Qed.
End Serial.
