(* ===== verification/Races.v ===== *)
(** * Races: a row that only one session may use up

    Some rows are for single use: a refresh token, an invitation.  The handlers that use one select
    it FOR UPDATE, check that it is fresh, and write it back used before they succeed.  Then at most
    one of any number of overlapping sessions succeeds, whatever the schedule. *)
From stdpp Require Import relations.
From S2P Require Import Prelude Text Json Schema Config TokenBucket Session Transactions.

Definition inserting {B} (s : stmt B) : bool :=
  match s with Insert _ _ | InsertOnConflict _ _ _ => true | _ => false end.

Section SingleUse.
Context {E : Env} {A : Type}.

(** The row [id] of [t] is the only one that satisfies [p]; it can be used while it is [fresh]. *)
Context (t : table) (id : uuid) (p fresh : row t -> bool).
Hypothesis unique : forall r r',
  p r = true -> p r' = true -> row_id t r <> row_id t r' -> conflict t r r' = true.

(** ** Programs *)

(** What the statement writes to the row. *)
Definition key_write {B} (s : stmt B) (b : B) : option (row t) :=
  if inserting s then None else find t (written s b empty_db) id.

(** Only ever writes the row used. *)
Definition spends {B} (s : stmt B) (b : B) : Prop :=
  forall r, key_write s b = Some r -> p r = true /\ fresh r = false.

(** A locking read of [t]. *)
Definition as_lock {B} (s : stmt B) : option (B -> option (row t)) :=
  match s in stmt B return option (B -> option (row t)) with
  | SelectForUpdate t' _ =>
      match decide (t' = t) with
      | left e => Some (fun found => eq_rect t' (fun t => option (row t)) found t e)
      | right _ => None
      end
  | _ => None
  end.

Fixpoint harmless (q : prog A) : Prop :=
  match q with
  | Done _ => True
  | Stmt s k => forall b, possible s b -> spends s b /\ harmless (k b)
  end.

(** Cannot succeed any more. *)
Fixpoint failing (q : prog A) : Prop :=
  match q with
  | Done (Ok _) => False
  | Done (Err _) => True
  | Stmt s k => forall b, possible s b -> spends s b /\ failing (k b)
  end.

(** Holds the fresh row, and does not succeed without having used it. *)
Fixpoint holding (used : bool) (q : prog A) : Prop :=
  match q with
  | Done (Ok _) => used = true
  | Done (Err _) => True
  | Stmt s k => forall b, possible s b ->
      spends s b /\ holding (used || bool_decide (is_Some (key_write s b))) (k b)
  end.

(** On its way to the row. *)
Fixpoint seeking (q : prog A) : Prop :=
  match q with
  | Done (Ok _) => False
  | Done (Err _) => True
  | Stmt s k =>
      match as_lock s with
      | Some row_of => forall b, possible s b ->
          match row_of b with
          | Some r => p r = true /\
              (row_id t r = id -> if fresh r then holding false (k b) else failing (k b))
          | None => failing (k b)
          end
      | None => forall b, possible s b -> key_write s b = None /\ seeking (k b)
      end
  end.

(** Statements that do not update the table. *)
Definition updating {B} (s : stmt B) : bool :=
  match s with Update t' _ _ => bool_decide (t' = t) | _ => false end.

Lemma key_write_none {B} (s : stmt B) b : updating s = false -> key_write s b = None.
Proof.
  unfold key_write. destruct s; cbn; try done. intros Hne%bool_decide_eq_false.
  case_decide; [done|]. by rewrite put_ne.
Qed.

Lemma harmless_stmt {B} (s : stmt B) k :
  updating s = false -> (forall b, possible s b -> harmless (k b)) -> harmless (Stmt s k).
Proof. intros Hs H b Hb. split; [intros r; by rewrite key_write_none|by apply H]. Qed.

Lemma failing_stmt {B} (s : stmt B) k :
  updating s = false -> (forall b, possible s b -> failing (k b)) -> failing (Stmt s k).
Proof. intros Hs H b Hb. split; [intros r; by rewrite key_write_none|by apply H]. Qed.

Lemma holding_stmt {B} used (s : stmt B) k :
  updating s = false -> (forall b, possible s b -> holding used (k b)) -> holding used (Stmt s k).
Proof.
  intros Hs H b Hb. split; [intros r; by rewrite key_write_none|].
  rewrite key_write_none, bool_decide_eq_false_2, orb_false_r; [by apply H|by intros []|done].
Qed.

Lemma seeking_stmt {B} (s : stmt B) k :
  updating s = false -> as_lock s = None -> (forall b, possible s b -> seeking (k b)) ->
  seeking (Stmt s k).
Proof. intros Hs Hl H. cbn. rewrite Hl. intros b Hb. split; [by apply key_write_none|by apply H]. Qed.

Lemma seeking_lock q (k : option (row t) -> prog A) :
  (forall r, q r = true -> p r = true) ->
  (forall r, p r = true -> row_id t r = id ->
     if fresh r then holding false (k (Some r)) else failing (k (Some r))) ->
  failing (k None) -> seeking (Stmt (SelectForUpdate t q) k).
Proof.
  intros Hqp Hk Hn. cbn. destruct (decide (t = t)) as [e|]; [|done]. rewrite (eq_pi _ _ e eq_refl).
  cbn. intros b (w & w' & _ & [_ H]%scalar_Ok). destruct b as [r|]; [|done]. destruct H as [Hq _].
  split; [by apply Hqp|]. intros Hid. apply Hk; [by apply Hqp|done].
Qed.

(** The update that uses the row up. *)
Lemma key_write_update (old new r : row t) :
  possible (Update t old new) r -> old <> new ->
  exists ts, r = touch t ts new /\ written (Update t old new) r empty_db = put t r empty_db.
Proof.
  intros (w & w' & _ & H) Hne. cbn [exec] in H.
  apply flush_update_Ok in H as [[? _]|(_ & -> & _)]; [done|]. eexists. split; [done|].
  cbn [written]. by rewrite decide_False.
Qed.

Lemma holding_update used (old new : row t) k :
  old <> new ->
  (forall ts, let r := touch t ts new in row_id t r = id /\ p r = true /\ fresh r = false) ->
  (forall r, holding true (k r)) -> holding used (Stmt (Update t old new) k).
Proof.
  intros Hne Hr Hk r Hp. destruct (key_write_update old new r Hp Hne) as (ts & -> & Hw).
  destruct (Hr ts) as (Hid & Hpr & Hf).
  assert (Hkw : key_write (Update t old new) (touch t ts new) = Some (touch t ts new)).
  { unfold key_write. cbn [inserting]. rewrite Hw. by apply find_put. }
  split; [intros r; rewrite Hkw; by intros [= <-]|].
  rewrite Hkw, bool_decide_eq_true_2, orb_true_r by by eexists. apply Hk.
Qed.

Lemma spends_update (old new : row t) r :
  possible (Update t old new) r ->
  (forall ts, let r := touch t ts new in p r = true /\ fresh r = false) ->
  spends (Update t old new) r.
Proof.
  intros Hp Hr r' Hr'. unfold key_write in Hr'. cbn [inserting] in Hr'.
  destruct (decide (old = new)) as [Heq|Hne]; [cbn in Hr'; by rewrite decide_True in Hr'|].
  destruct (key_write_update old new r Hp Hne) as (ts & -> & Hw). rewrite Hw in Hr'.
  rewrite put_eq in Hr'. apply lookup_insert_Some in Hr' as [[_ <-]|[_ Hr']]; [apply Hr|done].
Qed.

(** ** Databases *)
Definition key_ok (db : Db) : Prop :=
  (forall i r, find t db i = Some r -> row_id t r = i) /\
  (exists r, find t db id = Some r /\ p r = true) /\
  (forall i r, find t db i = Some r -> p r = true -> i = id).

(** A well-formed database has only one such row. *)
Lemma db_ok_key db r : db_ok db -> find t db id = Some r -> p r = true -> key_ok db.
Proof.
  intros Hok Hr Hp.
  assert (Hids : forall i r, find t db i = Some r -> row_id t r = i) by (intros i r' H; by apply Hok in H as [? _]).
  split_and!; [|by exists r|].
  - intros i r'. apply Hids.
  - intros i r' Hr' Hp'. destruct (decide (i = id)) as [|Hne]; [done|].
    destruct (Hok _ _ _ Hr) as [Hid (_ & _ & Hu)%row_ok_true]. specialize (Hu i r' Hr').
    rewrite Hid in Hu. rewrite unique in Hu; [by specialize (Hu Hne)|done..|].
    rewrite Hid. by rewrite (Hids i r' Hr').
Qed.

Definition unused (db : Db) : Prop := exists r, find t db id = Some r /\ fresh r = true.

Definition pending_ok (ws : Db) : Prop :=
  (forall i r, find t ws i = Some r -> row_id t r = i /\ (p r = true -> i = id)) /\
  (forall r, find t ws id = Some r -> p r = true /\ fresh r = false).

Lemma overlay_find ws db i :
  find t (overlay ws db) i = match find t ws i with Some r => Some r | None => find t db i end.
Proof. unfold overlay. rewrite lookup_union. by destruct (find t ws i), (find t db i). Qed.

Lemma key_ok_overlay ws db : pending_ok ws -> key_ok db -> key_ok (overlay ws db).
Proof.
  intros [Hws Hk] (Hids & (r0 & Hr0 & Hp0) & Hu). split_and!.
  - intros i r. rewrite overlay_find. destruct (find t ws i) eqn:Hw; [|by apply Hids].
    intros [= <-]. by apply Hws.
  - rewrite overlay_find. destruct (find t ws id) as [r|] eqn:Hw; [|by exists r0].
    exists r. split; [done|]. by apply Hk.
  - intros i r. rewrite overlay_find. destruct (find t ws i) eqn:Hw; [|by apply Hu].
    intros [= <-]. by apply Hws.
Qed.

Lemma unused_overlay ws db : pending_ok ws -> unused (overlay ws db) -> unused db /\ find t ws id = None.
Proof.
  intros [_ Hk] (r & Hr & Hf). rewrite overlay_find in Hr.
  destruct (find t ws id) as [r'|] eqn:Hw; [|split; [by exists r|done]].
  injection Hr as ->. destruct (Hk r eq_refl). congruence.
Qed.

(** ** What a statement writes *)
Lemma written_find {B} (s : stmt B) b ws i :
  find t (written s b ws) i =
  match find t (written s b empty_db) i with Some r => Some r | None => find t ws i end.
Proof.
  assert (Hput : forall t' r ws, find t (put t' r ws) i =
    match find t (put t' r empty_db) i with Some r => Some r | None => find t ws i end).
  { intros t' r ws'. destruct (decide (t' = t)) as [->|Hne].
    - rewrite !put_eq. destruct (decide (row_id t r = i)) as [<-|Hi].
      + by rewrite !lookup_insert_eq.
      + rewrite !lookup_insert_ne by done. done.
    - rewrite !put_ne by done. done. }
  destruct s; cbn [written]; try done;
    first [apply Hput|destruct b; [apply Hput|done]|case_decide; [done|apply Hput]].
Qed.

Lemma put_empty_find t' (r' : row t') i r :
  find t (put t' r' empty_db) i = Some r -> exists e : t' = t, eq_rect t' row r' t e = r /\ row_id t r = i.
Proof.
  intros H. destruct (decide (t' = t)) as [e|Hne]; [|by rewrite put_ne in H].
  destruct e. exists eq_refl. rewrite put_eq in H.
  apply lookup_insert_Some in H as [[<- <-]|[_ H]]; [done|]. unfold empty_db in H. done.
Qed.
Lemma put_empty_id t' (r' : row t') i r :
  find t (put t' r' empty_db) i = Some r -> t' = t /\ row_id t' r' = i.
Proof. intros (e & <- & <-)%put_empty_find. split; [exact e|by destruct e]. Qed.

(** A row of [t] that a statement writes over a well-formed table is another row than the key, or
    the update of the key. *)
Lemma written_sound {B} (s : stmt B) b w w' i r :
  key_ok (w_db w) -> exec s w = (Ok b, w') -> find t (written s b empty_db) i = Some r ->
  row_id t r = i /\ (p r = true -> i = id) /\ (inserting s = true -> i <> id).
Proof.
  intros (Hids & (r0 & Hr0 & Hp0) & Hu) He Hw.
  assert (Hrow : forall r, row_ok t (w_db w) r = true -> p r = true -> row_id t r = id).
  { intros r' (_ & _ & Hc)%row_ok_true Hp. destruct (decide (row_id t r' = id)) as [|Hne]; [done|].
    specialize (Hc id r0 Hr0 (not_eq_sym Hne)). rewrite unique in Hc; [done..|].
    by rewrite (Hids id r0 Hr0). }
  assert (Hnew : forall t' r', find t' (w_db w) (row_id t' r') = None ->
            row_ok t' (w_db w) r' = true -> find t (put t' r' empty_db) i = Some r ->
            row_id t r = i /\ (p r = true -> i = id) /\ i <> id).
  { intros t' r' Hn Hok Hf. apply put_empty_find in Hf as (e & Hr & Hi). destruct e. cbn in Hr.
    subst r'. split_and!; [done|intros Hp; rewrite <- Hi; by apply Hrow|].
    intros ->. rewrite Hi in Hn. congruence. }
  destruct s; cbn [written exec] in *; try (unfold empty_db in Hw; done).
  - apply add_flush_Ok in He as (_ & Hn & Hok & _). destruct (Hnew _ _ Hn Hok Hw) as (? & ? & ?). done.
  - apply insert_on_conflict_Ok in He as [(-> & _)|(-> & _ & Hn & Hok & _)]; [done|].
    destruct (Hnew _ _ Hn Hok Hw) as (? & ? & ?). done.
  - apply flush_update_Ok in He as [(-> & _)|(Hne & -> & _ & _ & Hok & _)].
    { by rewrite decide_True in Hw. }
    rewrite decide_False in Hw by done. apply put_empty_find in Hw as (e & Hr & Hi). destruct e.
    cbn in Hr. subst r. split_and!; [done| |done]. intros Hp. rewrite <- Hi. by apply Hrow.
Qed.

Lemma pending_ok_written {B} (s : stmt B) b ws w w' :
  pending_ok ws -> key_ok (w_db w) -> exec s (view ws w) = (Ok b, w') -> spends s b ->
  pending_ok (written s b ws).
Proof.
  intros Hws Hkey He Hsp. assert (Hkey' : key_ok (w_db (view ws w))) by by apply key_ok_overlay. destruct Hws as [Hws Hk].
  split.
  - intros i r. rewrite written_find. destruct (find t (written s b empty_db) i) as [r'|] eqn:Hw;
      [|by apply Hws]. intros [= <-]. by destruct (written_sound s b _ _ _ _ Hkey' He Hw) as (? & ? & _).
  - intros r. rewrite written_find. destruct (find t (written s b empty_db) id) as [r'|] eqn:Hw;
      [|by apply Hk]. intros [= <-]. apply Hsp. unfold key_write.
    destruct (written_sound s b _ _ _ _ Hkey' He Hw) as (_ & _ & Hi).
    destruct (inserting s); [by destruct Hi|done].
Qed.

(** The key among the uncommitted rows. *)
Lemma key_written {B} (s : stmt B) b ws w w' :
  pending_ok ws -> key_ok (w_db w) -> exec s (view ws w) = (Ok b, w') ->
  find t (written s b ws) id =
  match key_write s b with Some r => Some r | None => find t ws id end.
Proof.
  intros Hws Hkey He. assert (Hkey' : key_ok (w_db (view ws w))) by by apply key_ok_overlay.
  rewrite written_find. unfold key_write.
  destruct (inserting s) eqn:Hi; [|done].
  destruct (find t (written s b empty_db) id) as [r|] eqn:Hw; [|done].
  destruct (written_sound s b _ _ _ _ Hkey' He Hw) as (_ & _ & H). by destruct H.
Qed.

(** ** Locks *)

(** A statement comes to hold the key only when no other session holds it. *)
Lemma key_locked {B} (s : stmt B) b ws locks w w' (k : B -> prog A) (x : session A) :
  pending_ok ws -> key_ok (w_db w) -> exec s (view ws w) = (Ok b, w') ->
  waits s (view ws w) x = false ->
  holds (Running (k b) (written s b ws) (selected s b ++ locks)) t id = true ->
  holds (Running (Stmt s k) ws locks) t id = true \/ holds x t id = false.
Proof.
  intros Hws Hkey He Hwait. cbn [holds]. rewrite !orb_true_iff. intros [H|H%bool_decide_eq_true].
  - apply has_true in H as [r Hr]. rewrite (key_written s b ws w w') in Hr by done.
    destruct (key_write s b) as [r'|] eqn:Hkw; [|left; left; apply has_true; by exists r].
    right. unfold key_write in Hkw. destruct (inserting s) eqn:Hi; [done|].
    destruct s; cbn [written inserting exec] in *; try (unfold empty_db in Hkw; done).
    case_decide as Hon; [done|]. apply put_empty_id in Hkw as [-> Hid].
    apply flush_update_Ok in He as [[? _]|(_ & -> & _)]; [done|]. rewrite touch_id in Hid.
    cbn [waits] in Hwait. rewrite bool_decide_eq_false_2 in Hwait by done. rewrite Hid in Hwait.
    by apply orb_false_iff in Hwait as [? _].
  - apply elem_of_app in H as [H|H]; [|left; right; by apply bool_decide_eq_true]. right.
    destruct s; cbn [selected exec waits] in *; try by apply elem_of_nil in H.
    2: { destruct b as [r|]; [|by apply elem_of_nil in H]. apply get_Ok in He as [Hr _].
         apply elem_of_cons in H as [H|H%elem_of_nil]; [|done]. injection H as <- <-.
         unfold has in Hwait. by rewrite <- Hr in Hwait. }
    destruct b as [r|]; [|by apply elem_of_nil in H]. rewrite He in Hwait. cbn in Hwait.
    apply elem_of_cons in H as [H|H%elem_of_nil]; [|done]. injection H as Ht Hid. subst t0.
    by rewrite Hid.
Qed.
(** ** The invariant *)
Context (consumer : nat -> bool).

Definition session_ok (c : bool) (db : Db) (x : session A) : Prop :=
  match x with
  | Running q ws locks =>
      pending_ok ws /\
      if c then
        (seeking q /\ find t ws id = None) \/ failing q \/
        (holding (bool_decide (is_Some (find t ws id))) q /\ holds x t id = true /\ unused db)
      else harmless q
  | Ended (Ok _) _ => c = true -> ~ unused db
  | Ended (Err _) _ => True
  end.

Definition succeeded (x : session A) : Prop :=
  match x with Ended (Ok _) _ => True | _ => False end.

Record safe (S : system A) : Prop := {
  safe_keyed : sys_keyed S;
  safe_key : key_ok (w_db S.(sys_world));
  safe_sessions i x : S.(sys_sessions) !! i = Some x ->
    session_ok (consumer i) (w_db S.(sys_world)) x;
  safe_locks i j x y : S.(sys_sessions) !! i = Some x -> S.(sys_sessions) !! j = Some y ->
    holds x t id = true -> holds y t id = true -> i = j;
  safe_once i j x y : S.(sys_sessions) !! i = Some x -> S.(sys_sessions) !! j = Some y ->
    consumer i = true -> consumer j = true -> succeeded x -> succeeded y -> i = j }.

Lemma as_lock_sound {B} (s : stmt B) row_of b v v' :
  as_lock s = Some row_of -> exec s v = (Ok b, v') ->
  key_write s b = None /\
  forall r, row_of b = Some r ->
    (exists i, find t (w_db v) i = Some r) /\ (t, row_id t r) ∈ selected s b.
Proof.
  destruct s; cbn [as_lock exec]; try done. destruct (decide (t0 = t)) as [e|]; [|done]. subst t0.
  intros [= <-] [_ H]%scalar_Ok. split; [done|].
  intros r Hr. cbn in Hr. subst b. destruct H as [_ H]. split; [exact H|]. cbn. set_solver.
Qed.

(** A session stays well behaved over its own statements ... *)
Lemma statement_ok {B} c (s : stmt B) (k : B -> prog A) b ws locks w w' :
  key_ok (w_db w) -> session_ok c (w_db w) (Running (Stmt s k) ws locks) ->
  exec s (view ws w) = (Ok b, w') -> possible s b ->
  session_ok c (w_db w) (Running (k b) (written s b ws) (selected s b ++ locks)).
Proof.
  intros Hkey [Hws Hq] He Hb.
  pose proof (key_written s b ws w w' Hws Hkey He) as Hid.
  assert (Hkey' : key_ok (w_db (view ws w))) by by apply key_ok_overlay.
  assert (Hpend : spends s b -> pending_ok (written s b ws)) 
    by (intros Hs; exact (pending_ok_written s b ws w w' Hws Hkey He Hs)).
  cbn [session_ok]. destruct c; [|destruct (Hq b Hb) as [Hs Hk]; auto].
  destruct Hq as [[Hq Hn]|[Hq|(Hq & Hh & Hu)]].
  - cbn [seeking] in Hq. destruct (as_lock s) as [row_of|] eqn:Hl.
    + specialize (Hq b Hb). destruct (as_lock_sound s row_of b _ _ Hl He) as [Hkw Hrow].
      rewrite Hkw in Hid. split; [apply Hpend; intros r; by rewrite Hkw|].
      destruct (row_of b) as [r|] eqn:Hr; [|by right; left]. destruct Hq as [Hp Hq].
      destruct (Hrow r eq_refl) as [[i Hi] Hin]. destruct Hkey' as (Hids & _ & Hu).
      pose proof (Hu _ _ Hi Hp) as ->. rewrite (Hids _ _ Hi) in Hin.
      specialize (Hq (Hids _ _ Hi)).
      destruct (fresh r) eqn:Hf; [|by right; left]. right; right.
      rewrite Hid, Hn. split; [exact Hq|]. split.
      * cbn [holds]. apply orb_true_iff. right. apply bool_decide_eq_true. set_solver.
      * exists r. cbn [w_db view set_db] in Hi. by rewrite overlay_find, Hn in Hi.
    + destruct (Hq b Hb) as [Hkw Hk]. split; [apply Hpend; intros r; by rewrite Hkw|].
      left. by rewrite Hid, Hkw.
  - destruct (Hq b Hb) as [Hs Hk]. auto.
  - destruct (Hq b Hb) as [Hs Hk]. split; [by apply Hpend|]. right; right. split_and!; [| |done].
    + replace (bool_decide (is_Some (find t (written s b ws) id))) with
        (bool_decide (is_Some (find t ws id)) || bool_decide (is_Some (key_write s b))); [exact Hk|].
      rewrite Hid. destruct (key_write s b); [by rewrite orb_true_r|by rewrite orb_false_r].
    + cbn [holds] in *. apply orb_true_iff in Hh as [Hh|Hh]; apply orb_true_iff.
      * left. apply has_true in Hh as [r Hr]. apply has_true. rewrite Hid, Hr. by destruct (key_write s b).
      * right. apply bool_decide_eq_true in Hh. apply bool_decide_eq_true. set_solver.
Qed.

(** ... and over the commits of the others. *)
Lemma session_ok_commit c db ws x :
  key_ok db -> pending_ok ws -> session_ok c db x ->
  (find t ws id = None \/ holds x t id = false) -> session_ok c (overlay ws db) x.
Proof.
  intros Hkey Hws Hx Hor. destruct x as [q ws' locks|[a|e] ws']; cbn [session_ok] in *; [| |done].
  - destruct Hx as [Hws' Hq]. split; [done|]. destruct c; [|done].
    destruct Hq as [Hq|[Hq|(Hq & Hh & r & Hr & Hf)]]; [by left|by right; left|].
    destruct Hor as [Hn|Hn]; [|congruence]. right; right. split_and!; [done..|].
    exists r. by rewrite overlay_find, Hn.
  - intros Hc [Hu _]%unused_overlay; [|done]. by apply Hx.
Qed.
(** ** Steps *)

(** One session changes, the committed rows do not. *)
Lemma safe_update S i x x' w' :
  safe S -> S.(sys_sessions) !! i = Some x -> w_db w' = w_db S.(sys_world) ->
  sys_keyed (mkSystem w' (<[i := x']> S.(sys_sessions))) ->
  session_ok (consumer i) (w_db w') x' -> ~ succeeded x' ->
  (holds x' t id = true -> holds x t id = true \/
     forall j y, S.(sys_sessions) !! j = Some y -> j <> i -> holds y t id = false) ->
  safe (mkSystem w' (<[i := x']> S.(sys_sessions))).
Proof.
  intros [_ Hkey Hs Hl Ho] Hi Hdb Hkd Hx' Hns Hh.
  assert (Hlook : forall j y, <[i := x']> S.(sys_sessions) !! j = Some y ->
            j = i /\ y = x' \/ j <> i /\ S.(sys_sessions) !! j = Some y).
  { intros j y [(<- & <- & _)|[Hne Hy]]%list_lookup_insert_Some; auto. }
  assert (Hnew : forall j y, S.(sys_sessions) !! j = Some y -> j <> i ->
            holds x' t id = true -> holds y t id = true -> False).
  { intros j y Hj Hne H1 H2. destruct (Hh H1) as [H|H]; [|by rewrite (H j y) in H2].
    by apply Hne, (Hl j i y x). }
  constructor; cbn [sys_world sys_sessions]; [exact Hkd| | | |].
  - by rewrite Hdb.
  - intros j y [[-> ->]|[_ Hy]]%Hlook; [done|]. rewrite Hdb. by apply Hs.
  - intros j1 j2 y1 y2 [[-> ->]|[Hn1 H1]]%Hlook [[-> ->]|[Hn2 H2]]%Hlook; [done| | |by eauto].
    + intros ? ?. exfalso. by eapply (Hnew j2).
    + intros ? ?. exfalso. by eapply (Hnew j1).
  - intros j1 j2 y1 y2 [[-> ->]|[Hn1 H1]]%Hlook [[-> ->]|[Hn2 H2]]%Hlook; [done|tauto|tauto|by eauto].
Qed.

Lemma safe_commit S i a ws locks :
  safe S -> S.(sys_sessions) !! i = Some (Running (Done (Ok a)) ws locks) ->
  sys_keyed (mkSystem (set_db (overlay ws (w_db S.(sys_world))) S.(sys_world))
                 (<[i := Ended (Ok a) ws]> S.(sys_sessions))) ->
  safe (mkSystem (set_db (overlay ws (w_db S.(sys_world))) S.(sys_world))
                 (<[i := Ended (Ok a) ws]> S.(sys_sessions))).
Proof.
  intros [_ Hkey Hs Hl Ho] Hi Hkd. pose proof (Hs _ _ Hi) as [Hws Hq].
  assert (Hlook : forall j y, <[i := Ended (Ok a) ws]> S.(sys_sessions) !! j = Some y ->
            j = i /\ y = Ended (Ok a) ws \/ j <> i /\ S.(sys_sessions) !! j = Some y).
  { intros j y [(<- & <- & _)|[Hne Hy]]%list_lookup_insert_Some; auto. }
  assert (Hused : consumer i = true -> is_Some (find t ws id) /\ unused (w_db S.(sys_world))).
  { intros Hc. rewrite Hc in Hq. destruct Hq as [[[] _]|[[]|(Hq & _ & Hu)]]. cbn in Hq.
    by apply bool_decide_eq_true in Hq. }
  constructor; cbn [sys_world sys_sessions w_db set_db]; [exact Hkd| | | |].
  - by apply key_ok_overlay.
  - intros j y [[-> ->]|[Hne Hy]]%Hlook.
    + intros Hc [_ Hn]%unused_overlay; [|done]. destruct (Hused Hc) as [[r Hr] _]. congruence.
    + apply session_ok_commit; [done..|by apply Hs|].
      destruct (find t ws id) as [r|] eqn:Hw; [right|by left].
      destruct (holds y t id) eqn:Hh; [|done]. destruct Hne. apply (Hl j i y _ Hy Hi Hh).
      cbn [holds]. apply orb_true_iff. left. apply has_true. by exists r.
  - intros j1 j2 y1 y2 [[-> ->]|[Hn1 H1]]%Hlook [[-> ->]|[Hn2 H2]]%Hlook; [done..|by eauto].
  - assert (Hno : forall j y, S.(sys_sessions) !! j = Some y -> consumer i = true ->
              consumer j = true -> succeeded y -> False).
    { intros j y Hy Hci Hcj Hsy. destruct y as [|[b|] ws']; [done| |done].
      apply (Hs _ _ Hy Hcj). by apply Hused. }
    intros j1 j2 y1 y2 [[-> ->]|[Hn1 H1]]%Hlook [[-> ->]|[Hn2 H2]]%Hlook Hc1 Hc2 Hs1 Hs2;
      [done| | |by eauto]; exfalso; by eapply Hno.
Qed.

Lemma safe_failed S i x w' e :
  safe S -> S.(sys_sessions) !! i = Some x -> w_db w' = w_db S.(sys_world) ->
  sys_keyed (mkSystem w' (<[i := Ended (Err e) empty_db]> S.(sys_sessions))) ->
  safe (mkSystem w' (<[i := Ended (Err e) empty_db]> S.(sys_sessions))).
Proof. intros HS Hi Hdb Hkd. by apply (safe_update _ _ x); cbn; auto. Qed.

Lemma safe_step S S' : safe S -> sys_step S S' -> safe S'.
Proof.
  intros HS Hstep. pose proof (keyed_step _ _ (safe_keyed _ HS) Hstep) as Hkd.
  destruct Hstep as [i S' H|i q ws locks Hi]; [|by eapply safe_failed].
  unfold advance in H. destruct (S.(sys_sessions) !! i) as [[[[a|e]|B s k] ws locks|]|] eqn:Hi; [..|done|done].
  - injection H as <-. by eapply safe_commit.
  - injection H as <-. by eapply safe_failed.
  - destruct (blocked _ _ _ _) eqn:Hb; [done|]. rewrite blocked_false in Hb.
    destruct (exec s _) as [[b|e] w'] eqn:He; injection H as <-; [|by eapply safe_failed].
    eapply safe_update; [done|exact Hi|done|done| |by intros []|].
    + cbn [w_db set_db]. eapply statement_ok; [apply HS|by apply HS|exact He|].
      eapply keyed_possible; [apply HS|exact Hi|exact He].
    + intros Hh. destruct (decide (holds (Running (Stmt s k) ws locks) t id = true)) as [|Hn]; [by left|].
      right. intros j y Hj Hne. pose proof (safe_sessions S HS _ _ Hi) as [Hws _].
      by destruct (key_locked s b ws locks S.(sys_world) w' k y Hws (safe_key S HS) He (Hb _ _ Hj Hne) Hh).
Qed.

(** Sessions that begin together, the consumers on their way to the row and the others harmless:
    whatever the schedule, at most one consumer succeeds. *)
Theorem single_use w (ps : list (prog A)) S :
  keyed (w_db w) -> key_ok (w_db w) ->
  (forall i q, ps !! i = Some q -> if consumer i then seeking q else harmless q) ->
  rtc sys_step (start w ps) S ->
  forall i j x y, S.(sys_sessions) !! i = Some x -> S.(sys_sessions) !! j = Some y ->
    consumer i = true -> consumer j = true -> succeeded x -> succeeded y -> i = j.
Proof.
  intros Hkd Hkey Hps H. assert (Hsafe : safe S); [|apply Hsafe].
  assert (H0 : safe (start w ps)).
  { constructor; cbn [start sys_world sys_sessions].
    - by apply start_keyed.
    - exact Hkey.
    - intros i x Hx. apply list_lookup_fmap_Some in Hx as (q & -> & Hq). specialize (Hps _ _ Hq).
      split; [split; by intros ? ?|]. destruct (consumer i); [by left|done].
    - intros i j x y Hx. apply list_lookup_fmap_Some in Hx as (q & -> & Hq). done.
    - intros i j x y Hx. apply list_lookup_fmap_Some in Hx as (q & -> & Hq). done. }
  clear Hps Hkey Hkd. induction H as [|S1 S2 S3 H1 _ IH]; [done|]. by eapply IH, safe_step.
Qed.
End SingleUse.
