(* ===== verification/KeyRaces.v ===== *)
(** * KeyRaces: overlapping requests under one idempotency key

    Sessions that run [idempotent] under the same scope and key, with any use case, in any
    interleaving with each other and with sessions that write no records or records of other keys.
    The one that inserts the record does the work; the others wait for it and answer from the
    stored response. *)
From stdpp Require Import relations.
From S2P Require Import Prelude Text Json Schema Config TokenBucket Session Idempotency.
From S2P Require Import Transactions Races.
#[local] Open Scope string_scope.

(** The table a statement writes. *)
Definition writes_to {B} (s : stmt B) : option table :=
  match s with
  | Insert t _ => Some t
  | InsertOnConflict t _ _ => Some t
  | Update t _ _ => Some t
  | _ => None
  end.

(** Views of a statement on the idempotency records. *)
Definition as_claim {B} (s : stmt B) : option (IdempotencyRecord * (B -> bool)) :=
  match s in stmt B return option (IdempotencyRecord * (B -> bool)) with
  | InsertOnConflict t _ r =>
      match t return row t -> option (IdempotencyRecord * (option uuid -> bool)) with
      | TIdempotency => fun r => Some (r, fun created => bool_decide (is_Some created))
      | _ => fun _ => None
      end r
  | _ => None
  end.
Definition as_update {B} (s : stmt B) : option (IdempotencyRecord * IdempotencyRecord) :=
  match s with
  | Update t old new =>
      match t return row t -> row t -> option (IdempotencyRecord * IdempotencyRecord) with
      | TIdempotency => fun old new => Some (old, new)
      | _ => fun _ _ => None
      end old new
  | _ => None
  end.
Definition as_get {B} (s : stmt B) : option (uuid * (B -> option IdempotencyRecord)) :=
  match s in stmt B return option (uuid * (B -> option IdempotencyRecord)) with
  | Get t id =>
      match t return option (uuid * (option (row t) -> option IdempotencyRecord)) with
      | TIdempotency => Some (id, fun r => r)
      | _ => None
      end
  | _ => None
  end.
Definition as_select {B} (s : stmt B) : option (B -> option IdempotencyRecord) :=
  match s in stmt B return option (B -> option IdempotencyRecord) with
  | SelectForUpdate t _ =>
      match t return option (option (row t) -> option IdempotencyRecord) with
      | TIdempotency => Some (fun r => r)
      | _ => None
      end
  | _ => None
  end.

Section OneKey.
Context {E : Env} {A : Type} (scope key : string) (agrees : json -> A -> Prop).

Definition at_key (r : IdempotencyRecord) : bool :=
  String.eqb r.(idem_scope) scope && String.eqb r.(idem_key) key.
Lemma at_key_true r : at_key r = true <-> r.(idem_scope) = scope /\ r.(idem_key) = key.
Proof. unfold at_key. by rewrite andb_true_iff, !String.eqb_eq. Qed.

(** ** Programs *)

(** Never writes a record, and returns what satisfies [Q]. *)
Fixpoint avoids {R} (Q : R -> Prop) (q : prog R) : Prop :=
  match q with
  | Done (Ok a) => Q a
  | Done (Err _) => True
  | Stmt s k => writes_to s <> Some TIdempotency /\ forall b, possible s b -> avoids Q (k b)
  end.

(** The record is complete; the reply is what it stores. *)
Fixpoint finished (body : json) (q : prog A) : Prop :=
  match q with
  | Done (Ok a) => agrees body a
  | Done (Err _) => True
  | Stmt s k => writes_to s <> Some TIdempotency /\
      forall b, possible s b -> finished body (k b)
  end.

(** What the session reads of its own record. *)
Definition own_read (rec : IdempotencyRecord) {B} (s : stmt B) (b : B) : Prop :=
  match as_get s with
  | Some (id, found) => id = rec.(idem_id) -> found b = Some rec
  | None => True
  end.

(** [rec] is inserted, the work is going on. *)
Fixpoint working (rec : IdempotencyRecord) (q : prog A) : Prop :=
  match q with
  | Done (Ok _) => False
  | Done (Err _) => True
  | Stmt s k =>
      match as_update s with
      | Some (old, new) => old = rec /\ exists status body,
          new = {| rec with idem_status := "completed"; idem_response_status := Some status;
                            idem_response_body := Some body |} /\
          rec.(idem_status) <> "completed" /\
          forall b, possible s b -> finished body (k b)
      | None => writes_to s <> Some TIdempotency /\
          forall b, possible s b -> own_read rec s b -> working rec (k b)
      end
  end.

Section Hash.
Context (hash : string).

(** [r] was found; a success answers from it. *)
Fixpoint answering (r : IdempotencyRecord) (q : prog A) : Prop :=
  match q with
  | Done (Ok a) => exists body,
      r.(idem_response_body) = Some body /\ r.(idem_request_hash) = hash /\ agrees body a
  | Done (Err _) => True
  | Stmt s k => writes_to s = None /\ forall b, possible s b -> answering r (k b)
  end.

(** The key is taken. *)
Fixpoint replaying (q : prog A) : Prop :=
  match q with
  | Done (Ok _) => False
  | Done (Err _) => True
  | Stmt s k => writes_to s = None /\
      match as_select s with
      | Some found => forall b, possible s b ->
          match found b with
          | Some r => at_key r = true /\ answering r (k b)
          | None => replaying (k b)
          end
      | None => forall b, possible s b -> replaying (k b)
      end
  end.

Fixpoint beginning (q : prog A) : Prop :=
  match q with
  | Done (Ok _) => False
  | Done (Err _) => True
  | Stmt s k =>
      match as_claim s with
      | Some (r, created) =>
          at_key r = true /\ r.(idem_request_hash) = hash /\
          forall b, possible s b -> if created b then working r (k b) else replaying (k b)
      | None => writes_to s = None /\ forall b, possible s b -> beginning (k b)
      end
  end.
End Hash.

(** Writes records of other keys only: inserts one and completes it. *)
Fixpoint unrelated (own : option IdempotencyRecord) (q : prog A) : Prop :=
  match q with
  | Done _ => True
  | Stmt s k =>
      match as_claim s with
      | Some (r, created) => own = None /\ at_key r = false /\
          forall b, possible s b -> unrelated (if created b then Some r else None) (k b)
      | None =>
          match as_update s with
          | Some (old, new) => own = Some old /\ old <> new /\ new.(idem_id) = old.(idem_id) /\
              at_key new = false /\ forall b, possible s b -> unrelated (Some new) (k b)
          | None => writes_to s <> Some TIdempotency /\
              forall b, possible s b -> (forall rec, own = Some rec -> own_read rec s b) ->
                unrelated own (k b)
          end
      end
  end.

(** ** The invariant *)

(** Some sessions are requests under the key, with the hash of their payload. *)
Context (hash_of : nat -> option string).

Definition nothing (ws : Db) : Prop := forall t, ws t = ∅.
Definition stored (db : Db) (r : IdempotencyRecord) : Prop :=
  at_key r = true /\ exists id, find TIdempotency db id = Some r.
Definition free (db : Db) : Prop := forall r, ~ stored db r.

(** The uncommitted record under the key. *)
Definition pending_record (ws : Db) (rec : IdempotencyRecord) : Prop :=
  at_key rec = true /\ ws TIdempotency = {[ rec.(idem_id) := rec ]}.

(** The uncommitted record of a session under another key. *)
Definition owned (own : option IdempotencyRecord) (ws db : Db) : Prop :=
  match own with
  | None => ws TIdempotency = ∅
  | Some r => ws TIdempotency = {[ r.(idem_id) := r ]} /\ at_key r = false /\
      find TIdempotency db r.(idem_id) = None
  end.

Definition request_ok (h : option string) (db : Db) (x : session A) : Prop :=
  match h, x with
  | None, Running q ws _ => exists own, owned own ws db /\ unrelated own q
  | None, Ended _ _ => True
  | Some h, Running q ws _ =>
      nothing ws /\ (beginning h q \/ replaying h q \/ exists r, stored db r /\ answering h r q) \/
      free db /\ exists rec, pending_record ws rec /\ rec.(idem_request_hash) = h /\
        (working rec q \/ exists body, rec.(idem_response_body) = Some body /\ finished body q)
  | Some h, Ended (Ok a) ws => exists r body, stored db r /\
      r.(idem_response_body) = Some body /\ r.(idem_request_hash) = h /\ agrees body a
  | Some h, Ended (Err _) _ => True
  end.

Definition claims (x : session A) : Prop :=
  match x with Running _ ws _ => exists rec, pending_record ws rec | Ended _ _ => False end.
(** Succeeded and committed something. *)
Definition worked (x : session A) : Prop :=
  match x with Ended (Ok _) ws => ~ nothing ws | _ => False end.

Record orderly (S : system A) : Prop := {
  orderly_keyed : sys_keyed S;
  orderly_disjoint : sys_disjoint S;
  orderly_unique r r' : stored (w_db S.(sys_world)) r -> stored (w_db S.(sys_world)) r' -> r = r';
  orderly_sessions i x : S.(sys_sessions) !! i = Some x ->
    request_ok (hash_of i) (w_db S.(sys_world)) x;
  orderly_claims i j x y : S.(sys_sessions) !! i = Some x -> S.(sys_sessions) !! j = Some y ->
    claims x -> claims y -> i = j;
  orderly_worked i j x y : S.(sys_sessions) !! i = Some x -> S.(sys_sessions) !! j = Some y ->
    is_Some (hash_of i) -> is_Some (hash_of j) -> worked x -> worked y -> i = j }.

(** ** Statements *)
Lemma written_other {B} (s : stmt B) b ws t : writes_to s <> Some t -> written s b ws t = ws t.
Proof.
  destruct s; cbn; intros Hne; repeat case_match; try done; apply put_ne; congruence.
Qed.

Lemma written_nothing {B} (s : stmt B) b ws : writes_to s = None -> nothing ws -> nothing (written s b ws).
Proof. intros Hs Hws t. rewrite written_other; [apply Hws|congruence]. Qed.

Lemma view_nothing ws w t : nothing ws -> w_db (view ws w) t = w_db w t.
Proof. intros Hws. cbn. unfold overlay. by rewrite Hws, (left_id_L ∅ (∪)). Qed.

Lemma as_claim_sound {B} (s : stmt B) r created b v v' :
  as_claim s = Some (r, created) -> exec s v = (Ok b, v') ->
  (forall ws, written s b ws = if created b then put TIdempotency r ws else ws) /\
  (created b = true -> row_ok TIdempotency (w_db v) r = true /\
     find TIdempotency (w_db v) r.(idem_id) = None) /\
  forall x : session A, waits s v x = rivals x TIdempotency r.
Proof.
  destruct s; cbn [as_claim exec]; try done. destruct t; try done. intros [= <- <-] H.
  apply insert_on_conflict_Ok in H as [(-> & _)|(-> & _ & Hn & Hok & _)]; by split_and!.
Qed.

Lemma as_update_sound {B} (s : stmt B) old new b v v' :
  as_update s = Some (old, new) -> exec s v = (Ok b, v') -> old <> new ->
  forall ws, written s b ws = put TIdempotency new ws.
Proof.
  destruct s; cbn [as_update exec]; try done. destruct t; try done. intros [= <- <-] H Hne ws.
  apply flush_update_Ok in H as [[? _]|(_ & -> & _)]; [done|]. cbn [written].
  by rewrite decide_False.
Qed.

Lemma as_get_sound {B} (s : stmt B) id found b v v' :
  as_get s = Some (id, found) -> exec s v = (Ok b, v') -> found b = find TIdempotency (w_db v) id.
Proof.
  destruct s; cbn [as_get exec]; try done. destruct t; try done. intros [= <- <-] [-> _]%get_Ok.
  done.
Qed.

Lemma as_select_sound {B} (s : stmt B) found b r v v' :
  as_select s = Some found -> exec s v = (Ok b, v') -> found b = Some r ->
  exists id, find TIdempotency (w_db v) id = Some r.
Proof.
  destruct s; cbn [as_select exec]; try done. destruct t; try done.
  intros [= <-] [_ H]%scalar_Ok ->. apply H.
Qed.

(** The uncommitted record is what the session reads back. *)
Lemma own_read_sound {B} (s : stmt B) b ws w w' rec :
  ws TIdempotency = {[ rec.(idem_id) := rec ]} -> exec s (view ws w) = (Ok b, w') -> own_read rec s b.
Proof.
  intros Hws He. unfold own_read. destruct (as_get s) as [[id found]|] eqn:Hg; [|done].
  intros ->. rewrite (as_get_sound s _ _ b _ _ Hg He). cbn. unfold overlay. rewrite Hws.
  rewrite lookup_union, lookup_singleton_eq. by destruct (_ !! _).
Qed.

Lemma stored_view ws w r : ws TIdempotency = ∅ -> stored (w_db (view ws w)) r -> stored (w_db w) r.
Proof.
  intros Hws [Hk [id Hr]]. split; [done|]. exists id. cbn in Hr. unfold overlay in Hr.
  by rewrite Hws, (left_id_L ∅ (∪)) in Hr.
Qed.

Lemma at_key_conflict (r r' : row TIdempotency) :
  at_key r = true -> at_key r' = true -> conflict TIdempotency r r' = true.
Proof.
  intros [Hs Hk]%at_key_true [Hs' Hk']%at_key_true. cbn.
  by rewrite Hs, Hs', Hk, Hk', !String.eqb_refl.
Qed.

(** A new record conflicts with every other record under the key. *)
Lemma row_ok_free w ws r :
  ws TIdempotency = ∅ -> at_key r = true -> row_ok TIdempotency (w_db (view ws w)) r = true ->
  find TIdempotency (w_db (view ws w)) r.(idem_id) = None -> free (w_db w).
Proof.
  intros Hws Hk (_ & _ & Hu)%row_ok_true Hn r' [Hk' [id Hr']].
  assert (Hv : find TIdempotency (w_db (view ws w)) id = Some r').
  { cbn. unfold overlay. by rewrite Hws, (left_id_L ∅ (∪)). }
  specialize (Hu id r' Hv). rewrite (at_key_conflict r r') in Hu by done.
  destruct (decide (id = idem_id r)) as [->|Hne]; [congruence|]. by specialize (Hu Hne).
Qed.

(** ** Steps *)

Lemma unrelated_statement {B} (s : stmt B) (k : B -> prog A) b ws locks locks' w w' :
  request_ok None (w_db w) (Running (Stmt s k) ws locks) -> exec s (view ws w) = (Ok b, w') ->
  possible s b -> request_ok None (w_db w) (Running (k b) (written s b ws) locks').
Proof.
  intros (own & Hown & Hq) He Hb. cbn [request_ok unrelated] in *.
  destruct (as_claim s) as [[r created]|] eqn:Hs.
  - destruct Hq as (-> & Hat & Hk). destruct (as_claim_sound s _ _ b _ _ Hs He) as (Hw & Hrow & _).
    rewrite Hw. exists (if created b then Some r else None). split; [|by apply Hk].
    destruct (created b); [|exact Hown]. destruct (Hrow eq_refl) as [_ Hn]. cbn [owned] in *.
    split_and!; [by rewrite put_eq, Hown|done|]. cbn in Hn. unfold overlay in Hn.
    by rewrite Hown, (left_id_L ∅ (∪)) in Hn.
  - destruct (as_update s) as [[old new]|] eqn:Hu.
    + destruct Hq as (-> & Hne & Hid & Hat & Hk). exists (Some new). split; [|by apply Hk].
      destruct Hown as (Hws & _ & Hf). cbn [owned]. rewrite (as_update_sound s _ _ b _ _ Hu He Hne).
      split_and!; [|done|by rewrite Hid].
      rewrite put_eq, Hws. cbn. by rewrite Hid, insert_singleton_eq.
    + destruct Hq as [Hs' Hk]. exists own. split.
      * destruct own as [r|]; cbn [owned] in *; by rewrite written_other.
      * apply Hk; [done|]. intros rec ->. destruct Hown as (Hws & _). by eapply own_read_sound.
Qed.

(** A session stays well behaved over its own statements ... *)
Lemma request_statement {B} h (s : stmt B) (k : B -> prog A) b ws locks locks' w w' :
  request_ok h (w_db w) (Running (Stmt s k) ws locks) -> exec s (view ws w) = (Ok b, w') ->
  possible s b -> request_ok h (w_db w) (Running (k b) (written s b ws) locks').
Proof.
  intros Hx He Hb.
  destruct h as [h|]; [|by eapply unrelated_statement]. cbn [request_ok] in *.
  destruct Hx as [[Hws Hq]|(Hfree & rec & Hc & Hh & Hq)].
  - destruct Hq as [Hq|[Hq|(r & Hr & [Hs Hk])]].
    + cbn [beginning] in Hq. destruct (as_claim s) as [[r created]|] eqn:Hs.
      2: { destruct Hq as [Hs' Hk]. left. split; [by apply written_nothing|left; by apply Hk]. }
      destruct Hq as (Hat & Hhash & Hk). specialize (Hk b Hb).
      destruct (as_claim_sound s _ _ b _ _ Hs He) as (Hw & Hrow & _). rewrite Hw.
      destruct (created b) eqn:Hcr; [|left; by auto].
      destruct (Hrow eq_refl) as [Hok Hn]. right.
      split; [by eapply row_ok_free|]. exists r. split_and!; [split; [done|]|done|by left].
      by rewrite put_eq, Hws.
    + cbn [replaying] in Hq. destruct Hq as [Hs Hq]. left. split; [by apply written_nothing|].
      destruct (as_select s) as [found|] eqn:Hsel; [|right; left; by apply Hq].
      specialize (Hq b Hb). destruct (found b) as [r|] eqn:Hf; [|by right; left].
      destruct Hq as [Hat Hk]. right; right. exists r. split; [|done].
      apply (stored_view ws); [by apply Hws|]. split; [done|]. by eapply as_select_sound.
    + left. split; [by apply written_nothing|]. right; right. exists r. auto.
  - right. split; [done|]. destruct Hq as [Hq|(body & Hbody & [Hs Hk])].
    2: { exists rec. destruct Hc as [Hat Hc]. split_and!; [split; [done|]|done|].
         - by rewrite written_other.
         - right. exists body. auto. }
    cbn [working] in Hq. destruct (as_update s) as [[old new]|] eqn:Hu.
    + destruct Hq as (-> & status & body & -> & Hst & Hk). exists
        {| rec with idem_status := "completed"; idem_response_status := Some status;
                    idem_response_body := Some body |}.
      destruct Hc as [Hat Hc]. split_and!; [split; [done|]|done|right; exists body; by auto].
      rewrite (as_update_sound s _ _ b _ _ Hu He).
      * rewrite put_eq, Hc. cbn. by rewrite insert_singleton_eq.
      * intros Heq. apply Hst. by rewrite Heq.
    + destruct Hq as [Hs Hk]. exists rec. split_and!; [|done|left; apply Hk; [done|]].
      * destruct Hc as [Hat Hc]. split; [done|]. by rewrite written_other.
      * eapply own_read_sound; [apply Hc|exact He].
Qed.

Lemma unrelated_claims db x : request_ok None db x -> ~ claims x.
Proof.
  destruct x as [q ws locks|]; [|by intros _ []]. intros ([r|] & Hown & _) (rec & Hat & Hws).
  - destruct Hown as (Hws' & Hat' & _). rewrite Hws in Hws'.
    apply (f_equal (.!! r.(idem_id))) in Hws'. rewrite lookup_singleton_eq in Hws'.
    apply lookup_singleton_Some in Hws' as [_ <-]. congruence.
  - cbn in Hown. rewrite Hown in Hws. by apply symmetry, map_non_empty_singleton in Hws.
Qed.

(** ... and claims the key only when no other session has. *)
Lemma claim_exclusive {B} h (s : stmt B) (k : B -> prog A) b ws locks locks' w w' x :
  request_ok h (w_db w) (Running (Stmt s k) ws locks) -> exec s (view ws w) = (Ok b, w') ->
  possible s b -> waits s (view ws w) x = false -> claims (Running (k b) (written s b ws) locks') ->
  claims (Running (Stmt s k) ws locks) \/ ~ claims x.
Proof.
  intros Hx He Hb Hwait Hcl. destruct h as [h|].
  2: { exfalso. eapply unrelated_claims; [|exact Hcl]. by eapply unrelated_statement. }
  cbn [request_ok claims] in *.
  destruct Hx as [[Hws Hq]|(_ & rec & Hc & _)]; [|left; by exists rec].
  destruct Hcl as (rec & Hat & Hrec).
  assert (Hno : writes_to s <> Some TIdempotency -> False).
  { intros Hs. rewrite written_other, Hws in Hrec by done. by apply symmetry, map_non_empty_singleton in Hrec. }
  destruct Hq as [Hq|[[Hs _]|(r & _ & [Hs _])]]; [|rewrite Hs in Hno; by destruct Hno..].
  cbn [beginning] in Hq. destruct (as_claim s) as [[r created]|] eqn:Hs.
  2: { destruct Hq as [Hs' _]. rewrite Hs' in Hno. by destruct Hno. }
  destruct Hq as (Hat' & _ & _). destruct (as_claim_sound s _ _ b _ _ Hs He) as (_ & _ & Hw).
  rewrite Hw in Hwait. right. destruct x as [q ws' locks''|]; [|by intros []].
  intros (rec' & Hk' & Hws'). cbn [rivals] in Hwait. apply orb_false_iff in Hwait as [_ Hcon].
  rewrite existsb_false_iff in Hcon. specialize (Hcon rec').
  rewrite (at_key_conflict r rec') in Hcon by done. discriminate Hcon.
  unfold rows. rewrite Hws', map_to_list_singleton. by apply list_elem_of_singleton.
Qed.

Lemma stored_nothing ws db r : ws TIdempotency = ∅ -> stored (overlay ws db) r <-> stored db r.
Proof.
  intros Hws. unfold stored, overlay. by rewrite Hws, (left_id_L ∅ (∪)).
Qed.

Lemma stored_claim ws db rec r :
  pending_record ws rec -> free db -> stored (overlay ws db) r <-> r = rec.
Proof.
  intros [Hat Hws] Hfree. unfold stored, overlay. rewrite Hws. split.
  - intros [Hk [id Hr]]. rewrite lookup_union_Some_raw in Hr.
    destruct Hr as [[<- <-]%lookup_singleton_Some|[_ Hr]]; [done|].
    destruct (Hfree r). split; [done|by exists id].
  - intros ->. split; [done|]. exists rec.(idem_id). apply lookup_union_Some_l.
    by rewrite lookup_singleton_eq.
Qed.

(** The session at its commit: it has answered from a stored record, or stores its own. *)
Lemma commit_cases h db a ws locks :
  request_ok (Some h) db (Running (Done (Ok a)) ws locks) ->
  (nothing ws /\ exists r body, stored db r /\ r.(idem_response_body) = Some body /\
     r.(idem_request_hash) = h /\ agrees body a) \/
  (free db /\ exists rec body, pending_record ws rec /\ rec.(idem_request_hash) = h /\
     rec.(idem_response_body) = Some body /\ agrees body a).
Proof.
  intros [[Hws [[]|[[]|(r & Hr & body & Hb & Hh & Ha)]]]|(Hf & rec & Hc & Hh & [[]|(body & Hb & Ha)])].
  - left. split; [done|]. by exists r, body.
  - right. split; [done|]. by exists rec, body.
Qed.

(** Committing the record of another key stores nothing under this one. *)
Lemma stored_owned own ws db r : owned own ws db -> stored (overlay ws db) r <-> stored db r.
Proof.
  destruct own as [r'|]; cbn [owned]; [|apply stored_nothing]. intros (Hws & Hat & Hf).
  unfold stored, overlay. rewrite Hws. split; intros [Hk [id Hr]]; (split; [done|]).
  - apply lookup_union_Some_raw in Hr as [Hr|[_ Hr]]; [|by exists id].
    apply lookup_singleton_Some in Hr as [_ ->]. congruence.
  - exists id. apply lookup_union_Some_raw. right. split; [|done].
    apply lookup_singleton_ne. intros <-. congruence.
Qed.

(** The uncommitted records of [x] stay new. *)
Definition stays_new (x : session A) (db db' : Db) : Prop :=
  forall id, pending x TIdempotency id = true ->
    find TIdempotency db id = None -> find TIdempotency db' id = None.

Lemma request_ok_unrelated db db' x :
  stays_new x db db' -> request_ok None db x -> request_ok None db' x.
Proof.
  destruct x as [q ws locks|]; [|done]. intros Hnew ([r|] & Hown & Hq); [|by exists None].
  exists (Some r). split; [|done]. destruct Hown as (Hws & Hat & Hf). split_and!; [done..|].
  apply Hnew; [|done]. apply has_true. exists r. rewrite Hws. apply lookup_singleton_eq.
Qed.

Lemma request_ok_ext h db db' x :
  (forall r, stored db r <-> stored db' r) -> stays_new x db db' ->
  request_ok h db x -> request_ok h db' x.
Proof.
  intros Heq Hnew. destruct h as [h|]; [|by apply request_ok_unrelated].
  destruct x as [q ws locks|[a|e] ws]; cbn [request_ok]; try done.
  - intros [[Hws Hq]|[Hf Hq]]; [left; split; [done|]|right; split; [|done]].
    2: { intros r. rewrite <- Heq. apply Hf. }
    destruct Hq as [Hq|[Hq|(r & Hr & Hq)]]; [by auto..|]. right; right. exists r. by rewrite <- Heq.
  - intros (r & body & Hr & H). exists r, body. by rewrite <- Heq.
Qed.

(** A session that has not claimed the key does not notice the commit of the claim. *)
Lemma request_ok_taken h db db' x :
  free db -> ~ claims x -> stays_new x db db' -> request_ok h db x -> request_ok h db' x.
Proof.
  intros Hf Hc Hnew. destruct h as [h|]; [|by apply request_ok_unrelated].
  destruct x as [q ws locks|[a|e] ws]; cbn [request_ok claims] in *; try done.
  - intros [[Hws Hq]|(_ & rec & Hcl & _)]; [|destruct Hc; by exists rec]. left. split; [done|].
    destruct Hq as [Hq|[Hq|(r & Hr & _)]]; [by auto..|by destruct (Hf r)].
  - intros (r & _ & Hr & _). by destruct (Hf r).
Qed.

(** One session changes, the committed rows do not. *)
Lemma orderly_update S i x x' w' :
  orderly S -> S.(sys_sessions) !! i = Some x -> w_db w' = w_db S.(sys_world) ->
  sys_keyed (mkSystem w' (<[i := x']> S.(sys_sessions))) ->
  sys_disjoint (mkSystem w' (<[i := x']> S.(sys_sessions))) ->
  request_ok (hash_of i) (w_db w') x' -> ~ worked x' ->
  (forall j y, S.(sys_sessions) !! j = Some y -> j <> i -> claims x' -> claims x \/ ~ claims y) ->
  orderly (mkSystem w' (<[i := x']> S.(sys_sessions))).
Proof.
  intros [_ _ Hu Hs Hl Ho] Hi Hdb Hkd Hdj Hx' Hns Hh.
  assert (Hlook : forall j y, <[i := x']> S.(sys_sessions) !! j = Some y ->
            j = i /\ y = x' \/ j <> i /\ S.(sys_sessions) !! j = Some y).
  { intros j y [(<- & <- & _)|[Hne Hy]]%list_lookup_insert_Some; auto. }
  assert (Hnew : forall j y, S.(sys_sessions) !! j = Some y -> j <> i ->
            claims x' -> claims y -> False).
  { intros j y Hj Hne H1 H2. destruct (Hh j y Hj Hne H1) as [H|H]; [|done].
    by apply Hne, (Hl j i y x). }
  constructor; cbn [sys_world sys_sessions]; [exact Hkd|exact Hdj| | | |].
  - by rewrite Hdb.
  - intros j y [[-> ->]|[_ Hy]]%Hlook; [done|]. rewrite Hdb. by apply Hs.
  - intros j1 j2 y1 y2 [[-> ->]|[Hn1 H1]]%Hlook [[-> ->]|[Hn2 H2]]%Hlook; [done| | |by eauto].
    + intros ? ?. exfalso. by eapply (Hnew j2).
    + intros ? ?. exfalso. by eapply (Hnew j1).
  - intros j1 j2 y1 y2 [[-> ->]|[Hn1 H1]]%Hlook [[-> ->]|[Hn2 H2]]%Hlook; [done|tauto|tauto|by eauto].
Qed.

(** ** Commits *)
Section Commit.
Context (S : system A) (i : nat) (a : A) (ws : Db) (locks : list (table * uuid)).
#[local] Abbreviation db := (w_db S.(sys_world)).
#[local] Abbreviation S' := (mkSystem (set_db (overlay ws db) S.(sys_world))
  (<[i := Ended (Ok a) ws]> S.(sys_sessions))).
Hypothesis before : orderly S.
Hypothesis committing : S.(sys_sessions) !! i = Some (Running (Done (Ok a)) ws locks).
Hypothesis after_keyed : sys_keyed S'.
Hypothesis after_disjoint : sys_disjoint S'.

Lemma committed_lookup j y :
  <[i := Ended (Ok a) ws]> S.(sys_sessions) !! j = Some y ->
  j = i /\ y = Ended (Ok a) ws \/ j <> i /\ S.(sys_sessions) !! j = Some y.
Proof. intros [(<- & <- & _)|[Hne Hy]]%list_lookup_insert_Some; auto. Qed.

Lemma others_new j y :
  S.(sys_sessions) !! j = Some y -> j <> i -> stays_new y db (overlay ws db).
Proof.
  intros Hy Hne id Hp Hf. apply lookup_union_None. split; [|done].
  destruct (ws TIdempotency !! id) as [r|] eqn:Hr; [|done]. destruct Hne.
  apply (orderly_disjoint S before j i y _ TIdempotency id Hy committing Hp).
  apply has_true. by exists r.
Qed.

(** Nothing is stored under the key. *)
Lemma commit_quiet :
  (forall r, stored db r <-> stored (overlay ws db) r) -> (is_Some (hash_of i) -> nothing ws) ->
  request_ok (hash_of i) db (Ended (Ok a) ws) -> orderly S'.
Proof.
  destruct before as [_ _ Hu Hs Hl Ho]. intros Hst Hn Hok.
  constructor; cbn [sys_world sys_sessions w_db set_db]; [done|done| | | |].
  - intros r r'. rewrite <- !Hst. apply Hu.
  - intros j y [[-> ->]|[Hne Hy]]%committed_lookup;
      (eapply request_ok_ext; [exact Hst| |]); [by intros id|done|by eapply others_new|by apply Hs].
  - intros j1 j2 y1 y2 [[-> ->]|[Hn1 H1]]%committed_lookup [[-> ->]|[Hn2 H2]]%committed_lookup;
      [done..|by eauto].
  - intros j1 j2 y1 y2 [[-> ->]|[Hn1 H1]]%committed_lookup [[-> ->]|[Hn2 H2]]%committed_lookup
      Hj1 Hj2 Hw1 Hw2; [done| | |by eauto]; exfalso; [by apply Hw1, Hn|by apply Hw2, Hn].
Qed.

(** While the key is free no request under it has succeeded. *)
Lemma none_worked j y :
  free db -> S.(sys_sessions) !! j = Some y -> is_Some (hash_of j) -> worked y -> False.
Proof.
  intros Hf Hy [h Hh] Hw. destruct y as [|[b|] ws']; [done| |done].
  pose proof (orderly_sessions S before _ _ Hy) as Hok. rewrite Hh in Hok.
  destruct Hok as (r & _ & Hr & _). by destruct (Hf r).
Qed.

(** The record of the key is stored. *)
Lemma commit_claim h rec body :
  hash_of i = Some h -> free db -> pending_record ws rec -> rec.(idem_request_hash) = h ->
  rec.(idem_response_body) = Some body -> agrees body a -> orderly S'.
Proof.
  destruct before as [_ _ Hu Hs Hl Ho]. intros Hhash Hf Hc Hh Hb Ha.
  assert (Hcl : claims (Running (Done (Ok a)) ws locks)) by by exists rec.
  constructor; cbn [sys_world sys_sessions w_db set_db]; [done|done| | | |].
  - intros r r'. rewrite !(stored_claim _ _ rec) by done. congruence.
  - intros j y [[-> ->]|[Hne Hy]]%committed_lookup.
    + rewrite Hhash. exists rec, body. split_and!; [by eapply stored_claim|done..].
    + eapply request_ok_taken; [exact Hf| |by eapply others_new|by apply Hs]. intros Hcy.
      apply Hne. by eapply (Hl j i y).
  - intros j1 j2 y1 y2 [[-> ->]|[Hn1 H1]]%committed_lookup [[-> ->]|[Hn2 H2]]%committed_lookup;
      [done..|by eauto].
  - intros j1 j2 y1 y2 [[-> ->]|[Hn1 H1]]%committed_lookup [[-> ->]|[Hn2 H2]]%committed_lookup
      Hj1 Hj2 Hw1 Hw2; [done| | |by eauto]; exfalso;
      [by eapply (none_worked j2)|by eapply (none_worked j1)].
Qed.

Lemma orderly_commit : orderly S'.
Proof.
  pose proof (orderly_sessions S before _ _ committing) as Hx.
  destruct (hash_of i) as [h|] eqn:Hhash.
  2: { destruct Hx as (own & Hown & _). apply commit_quiet; [|by rewrite Hhash; intros []|by rewrite Hhash].
       intros r. symmetry. by eapply stored_owned. }
  destruct (commit_cases _ _ _ _ _ Hx) as [[Hws H]|(Hf & rec & body & Hc & Hh & Hb & Ha)].
  - apply commit_quiet; [|done|by rewrite Hhash]. intros r. symmetry. by apply stored_nothing.
  - by eapply commit_claim.
Qed.
End Commit.

Lemma orderly_failed S i x w' e (S' := mkSystem w' (<[i := Ended (Err e) empty_db]> S.(sys_sessions))) :
  orderly S -> S.(sys_sessions) !! i = Some x -> w_db w' = w_db S.(sys_world) ->
  sys_keyed S' -> sys_disjoint S' -> orderly S'.
Proof.
  intros HS Hi Hdb Hkd Hdj. apply (orderly_update _ _ x); [done..| |by intros []|by intros ? ? ? ? []].
  by destruct (hash_of i).
Qed.

Lemma orderly_step S S' : orderly S -> sys_step S S' -> orderly S'.
Proof.
  intros HS Hstep. pose proof (keyed_step _ _ (orderly_keyed _ HS) Hstep) as Hkd.
  pose proof (disjoint_step _ _ (orderly_disjoint _ HS) Hstep) as Hdj.
  destruct Hstep as [i S' H|i q ws locks Hi]; [|by eapply orderly_failed].
  unfold advance in H. destruct (S.(sys_sessions) !! i) as [[[[a|e]|B s k] ws locks|]|] eqn:Hi; [..|done|done].
  - injection H as <-. by eapply orderly_commit.
  - injection H as <-. by eapply orderly_failed.
  - destruct (blocked _ _ _ _) eqn:Hb; [done|]. rewrite blocked_false in Hb.
    destruct (exec s _) as [[b|e] w'] eqn:He; injection H as <-; [|by eapply orderly_failed].
    assert (Hp : possible s b) by (eapply keyed_possible; [apply HS|exact Hi|exact He]).
    eapply orderly_update; [done|exact Hi|done|done|done| |by intros []|].
    + cbn [w_db set_db]. eapply request_statement; [by apply HS|exact He|exact Hp].
    + intros j y Hj Hne. eapply claim_exclusive; [by apply HS|exact He|exact Hp|by eapply Hb].
Qed.

(** Requests that begin together under the key, among sessions that write no records or records of
    other keys: in whatever interleaving, the successful ones had the same payload and answer from
    the same stored body, and at most one of them committed anything. *)
Theorem one_answer w (ps : list (prog A)) S :
  db_ok (w_db w) ->
  (forall i q, ps !! i = Some q ->
     match hash_of i with Some h => beginning h q | None => unrelated None q end) ->
  rtc sys_step (start w ps) S ->
  forall i j a b ws ws' h h',
    S.(sys_sessions) !! i = Some (Ended (Ok a) ws) -> S.(sys_sessions) !! j = Some (Ended (Ok b) ws') ->
    hash_of i = Some h -> hash_of j = Some h' ->
    h = h' /\ (exists body, agrees body a /\ agrees body b) /\
    (~ nothing ws -> ~ nothing ws' -> i = j).
Proof.
  intros Hok Hps H. assert (Hsafe : orderly S).
  { assert (H0 : orderly (start w ps)).
    { constructor; cbn [start sys_world sys_sessions].
      - by apply start_keyed, db_ok_keyed.
      - apply start_disjoint.
      - intros r r' [[Hs Hk]%at_key_true [id Hr]] [[Hs' Hk']%at_key_true [id' Hr']].
        apply (idempotency_unique (w_db w) id id' r r' Hok Hr Hr'); congruence.
      - intros i x Hx. apply list_lookup_fmap_Some in Hx as (q & -> & Hq). specialize (Hps _ _ Hq).
        destruct (hash_of i); [left; by split_and!; auto|by exists None].
      - intros i j x y Hx. apply list_lookup_fmap_Some in Hx as (q & -> & Hq). intros _ (rec & _ & Hc).
        unfold empty_db in Hc. by apply symmetry, map_non_empty_singleton in Hc.
      - intros i j x y Hx. apply list_lookup_fmap_Some in Hx as (q & -> & Hq). done. }
    clear Hps Hok. induction H as [|S1 S2 S3 H1 _ IH]; [done|]. by eapply IH, orderly_step. }
  intros i j a b ws ws' h h' Hi Hj Hh Hh'.
  pose proof (orderly_sessions S Hsafe _ _ Hi) as Hxi. pose proof (orderly_sessions S Hsafe _ _ Hj) as Hxj.
  rewrite Hh in Hxi. rewrite Hh' in Hxj. destruct Hxi as (r & body & Hr & Hb & Hrh & Ha).
  destruct Hxj as (r' & body' & Hr' & Hb' & Hrh' & Ha').
  pose proof (orderly_unique S Hsafe _ _ Hr Hr') as <-. simplify_eq. split_and!; [done|by exists body|].
  intros Hw Hw'. by apply (orderly_worked S Hsafe i j _ _ Hi Hj).
Qed.

(** ** The protocol as a program *)
Lemma working_bind {R T} rec (q : prog R) (f : R -> prog T) (g : T -> prog A) (Q : R -> Prop) :
  avoids Q q -> (forall r, Q r -> working rec (pbind (f r) g)) ->
  working rec (pbind (pbind q f) g).
Proof.
  intros Hq Hf. induction q as [[r|e]|B s k IH]; cbn in *; [by apply Hf|done|].
  destruct Hq as [Hs Hk]. destruct (as_update s) as [[old new]|] eqn:Hu.
  - destruct Hs. destruct s; try done. by destruct t.
  - split; [done|]. intros b Hb _. by apply IH, Hk.
Qed.

(** The statements of the protocol. *)
Lemma beginning_read {B} hash (s : stmt B) k :
  writes_to s = None -> (forall b, beginning hash (k b)) -> beginning hash (Stmt s k).
Proof. intros Hs Hk. destruct s; try done; by split. Qed.

Lemma beginning_claim hash index (r : row TIdempotency) k :
  at_key r = true -> idem_request_hash r = hash ->
  working r (k (Some (row_id TIdempotency r))) -> replaying hash (k None) ->
  beginning hash (Stmt (InsertOnConflict TIdempotency index r) k).
Proof.
  intros Hat Hh Hw Hr. split_and!; [done..|]. intros b (w & w' & _ & He).
  apply insert_on_conflict_Ok in He as [(-> & _)|(-> & _)]; [exact Hr|exact Hw].
Qed.

Lemma working_own (rec : row TIdempotency) k :
  working rec (k (Some rec)) -> working rec (Stmt (Get TIdempotency (row_id TIdempotency rec)) k).
Proof. intros Hk. split; [done|]. intros b _ Hb. by rewrite (Hb eq_refl). Qed.

Lemma working_complete rec status body (k : row TIdempotency -> prog A) :
  idem_status rec <> "completed" -> (forall b, finished body (k b)) ->
  working rec (Stmt (Update TIdempotency rec
    {| rec with idem_status := "completed"; idem_response_status := Some status;
                idem_response_body := Some body |}) k).
Proof. intros Hs Hk. split; [done|]. by exists status, body. Qed.

Lemma replaying_select hash q (k : option (row TIdempotency) -> prog A) :
  (forall r, q r = true -> at_key r = true) ->
  (forall r, answering hash r (k (Some r))) -> replaying hash (k None) ->
  replaying hash (Stmt (SelectForUpdate TIdempotency q) k).
Proof.
  intros Hq Hk Hn. split; [done|]. intros [r|] (w & w' & _ & He); [|exact Hn]. cbn.
  apply scalar_Ok in He as (_ & Hr & _). split; [by apply Hq|apply Hk].
Qed.

Lemma idempotent_begins {R} user org hash missing (work : M R) (Hw : Reified work) dump validate
    (reply : R -> A) (Q : R -> Prop) :
  avoids Q (prog_of work) ->
  (forall r, Q r -> agrees (dump r) (reply r)) ->
  (forall body r, validate body = Ok r -> agrees body (reply r)) ->
  beginning hash (pbind (prog_of (idempotent user org scope key hash missing work dump validate))
                        (fun r => prog_of (ret (reply r)))).
Proof.
  intros Hq Hdump Hval. do 2 (eval_prog; apply beginning_read; [done|intros ?]).
  eval_prog. apply beginning_claim; [by apply at_key_true|done| |].
  - eval_prog. apply working_own.
    enough (Hk : working {| idem_id := b0; idem_organization_id := org; idem_user_id := user;
        idem_scope := scope; idem_key := key; idem_request_hash := hash;
        idem_status := "processing"; idem_response_status := None; idem_response_body := None;
        idem_created_at := b; idem_expires_at := b + hours 24 |}
        (pbind (pbind (prog_of work) (fun response => prog_of (
           do! complete_idempotency _ 201 (dump response) in ret response)))
           (fun r => prog_of (ret (reply r))))) by exact Hk.
    eapply working_bind; [exact Hq|]. intros r Hr. eval_prog. apply working_complete; [done|].
    intros b1. cbn. by apply Hdump.
  - eval_prog. apply replaying_select; [| |done].
    { intros r. rewrite andb_true_iff, !String.eqb_eq. apply at_key_true. }
    intros r. cbn [pbind]. destruct (String.eqb_spec (idem_request_hash r) hash) as [Hh|]; [|done].
    destruct (String.eqb (idem_status r) "completed"); [|done].
    destruct (idem_response_status r) as [status|]; [|done].
    destruct (idem_response_body r) as [body|] eqn:Hb; [|done].
    cbn. destruct (validate body) as [a|] eqn:Hv; [|done]. exists body. auto.
Qed.

(** ** Other keys *)
Lemma unrelated_other {B} own (s : stmt B) k :
  writes_to s <> Some TIdempotency -> (forall b, unrelated own (k b)) -> unrelated own (Stmt s k).
Proof.
  intros Hs Hk. cbn [unrelated]. destruct (as_claim s) as [[r created]|] eqn:Hc.
  - destruct s; try done. by destruct t.
  - destruct (as_update s) as [[old new]|] eqn:Hu; [destruct s; try done; by destruct t|by split].
Qed.

Lemma avoids_unrelated Q own q : avoids Q q -> unrelated own q.
Proof.
  induction q as [r|B s k IH]; [done|]. intros [Hs Hk].
  destruct (as_claim s) as [[r created]|] eqn:Hc; [destruct s; try done; by destruct t|].
  destruct (as_update s) as [[old new]|] eqn:Hu; [destruct s; try done; by destruct t|].
  cbn [unrelated]. rewrite Hc, Hu. split; [done|]. intros b Hb _. by apply IH, Hk.
Qed.

Lemma unrelated_bind {R T} own (q : prog R) (f : R -> prog T) (g : T -> prog A) (Q : R -> Prop) :
  avoids Q q -> (forall r, unrelated own (pbind (f r) g)) -> unrelated own (pbind (pbind q f) g).
Proof.
  intros Hq Hf. induction q as [[r|e]|B s k IH]; cbn [pbind]; [apply Hf|done|].
  destruct Hq as [Hs Hk]. cbn [pbind unrelated].
  destruct (as_claim s) as [[r created]|] eqn:Hc; [destruct s; try done; by destruct t|].
  destruct (as_update s) as [[old new]|] eqn:Hu; [destruct s; try done; by destruct t|].
  split; [done|]. intros b Hb _. by apply IH, Hk.
Qed.

Lemma unrelated_claim index (r : row TIdempotency) k :
  at_key r = false -> unrelated (Some r) (k (Some (row_id TIdempotency r))) ->
  unrelated None (k None) -> unrelated None (Stmt (InsertOnConflict TIdempotency index r) k).
Proof.
  intros Hat Hw Hr. split_and!; [done..|]. intros b (w & w' & _ & He).
  apply insert_on_conflict_Ok in He as [(-> & _)|(-> & _)]; [exact Hr|exact Hw].
Qed.

Lemma unrelated_own (rec : row TIdempotency) k :
  unrelated (Some rec) (k (Some rec)) ->
  unrelated (Some rec) (Stmt (Get TIdempotency (row_id TIdempotency rec)) k).
Proof. intros Hk. split; [done|]. intros b _ Hb. by rewrite (Hb rec eq_refl eq_refl). Qed.

Lemma unrelated_complete rec status body (k : row TIdempotency -> prog A) :
  at_key rec = false -> idem_status rec <> "completed" ->
  (forall b own, unrelated own (k b)) ->
  unrelated (Some rec) (Stmt (Update TIdempotency rec
    {| rec with idem_status := "completed"; idem_response_status := Some status;
                idem_response_body := Some body |}) k).
Proof.
  intros Hat Hs Hk. split_and!; [done| |done|done|by auto]. intros Heq. apply Hs. by rewrite Heq.
Qed.

Lemma idempotent_unrelated {R} user org scope' key' hash missing (work : M R) (Hw : Reified work)
    dump validate (reply : R -> A) (Q : R -> Prop) :
  scope' <> scope \/ key' <> key -> avoids Q (prog_of work) ->
  unrelated None
    (pbind (prog_of (idempotent user org scope' key' hash missing work dump validate))
           (fun r => prog_of (ret (reply r)))).
Proof.
  intros Hne Hq. do 2 (eval_prog; apply unrelated_other; [done|intros ?]).
  assert (Hat : forall id created expires, at_key {| idem_id := id; idem_organization_id := org;
      idem_user_id := user; idem_scope := scope'; idem_key := key'; idem_request_hash := hash;
      idem_status := "processing"; idem_response_status := None; idem_response_body := None;
      idem_created_at := created; idem_expires_at := expires |} = false).
  { intros id created expires. apply not_true_iff_false. rewrite at_key_true. cbn. tauto. }
  eval_prog. apply unrelated_claim; [apply Hat| |].
  - eval_prog. apply unrelated_own.
    enough (Hk : unrelated (Some {| idem_id := b0; idem_organization_id := org; idem_user_id := user;
        idem_scope := scope'; idem_key := key'; idem_request_hash := hash;
        idem_status := "processing"; idem_response_status := None; idem_response_body := None;
        idem_created_at := b; idem_expires_at := b + hours 24 |})
        (pbind (pbind (prog_of work) (fun response => prog_of (
           do! complete_idempotency _ 201 (dump response) in ret response)))
           (fun r => prog_of (ret (reply r))))) by exact Hk.
    eapply unrelated_bind; [exact Hq|]. intros r. eval_prog. apply unrelated_complete; [apply Hat|done|].
    done.
  - eval_prog. apply unrelated_other; [done|]. intros [r|]; [|done]. cbn [pbind].
    destruct (String.eqb (idem_request_hash r) hash); [|done].
    destruct (String.eqb (idem_status r) "completed"); [|done].
    destruct (idem_response_status r) as [status|]; [|done].
    destruct (idem_response_body r) as [body|]; [|done].
    cbn. by destruct (validate body).
Qed.
End OneKey.
