(* ===== verification/Locked.v ===== *)
(** * Locked: a row that sessions read FOR UPDATE before they change it

    Sessions that write a row only after a locking read of it act on that row one after the other,
    in the order of their commits, however their statements interleave: no update is lost, and each
    starts from what the previous one left. *)
From stdpp Require Import relations.
From S2P Require Import Prelude Text Json Schema Config TokenBucket Session Transactions Races.

Section Locked.
Context {E : Env} {A : Type}.

(** The row [id] of [t]; a session that ends with [a] has turned [r] into [r'] when
    [commits a r r']. *)
Context (t : table) (id : uuid) (commits : A -> row t -> row t -> Prop).

(** ** Programs *)

(** A locking read of the table: the row it finds. *)
Definition locking {B} (s : stmt B) : option (B -> option (row t)) :=
  match s in stmt B return option (B -> option (row t)) with
  | SelectForUpdate t' _ =>
      match decide (t' = t) with
      | left e => Some (fun found => eq_rect t' (fun t => option (row t)) found t e)
      | right _ => None
      end
  | GetForUpdate t' _ =>
      match decide (t' = t) with
      | left e => Some (fun found => eq_rect t' (fun t => option (row t)) found t e)
      | right _ => None
      end
  | _ => None
  end.

(** ... which finds the row [id] if it exists. *)
Definition finds {B} (s : stmt B) : bool :=
  match s with GetForUpdate _ i => N.eqb i id | _ => false end.

(** Holds the row, which was [r0] when it was locked and is [r] now. *)
Fixpoint locked (r0 r : row t) (q : prog A) : Prop :=
  match q with
  | Done (Ok a) => commits a r0 r
  | Done (Err _) => True
  | Stmt s k => forall b, possible s b -> locked r0 (default r (key_write t id s b)) (k b)
  end.

(** Has not read the row for update, and not written it. *)
Fixpoint unlocked (q : prog A) : Prop :=
  match q with
  | Done (Ok a) => forall r, commits a r r
  | Done (Err _) => True
  | Stmt s k =>
      match locking s with
      | Some row_of => forall b, possible s b ->
          match row_of b with
          | Some r => if decide (row_id t r = id) then locked r r (k b) else unlocked (k b)
          | None => if finds s then True else unlocked (k b)
          end
      | None => forall b, possible s b -> key_write t id s b = None /\ unlocked (k b)
      end
  end.

Lemma unlocked_stmt {B} (s : stmt B) k :
  updating t s = false -> locking s = None -> (forall b, possible s b -> unlocked (k b)) ->
  unlocked (Stmt s k).
Proof. intros Hs Hl H. cbn. rewrite Hl. intros b Hb. split; [by apply key_write_none|by apply H]. Qed.

Lemma locked_stmt {B} r0 r (s : stmt B) k :
  updating t s = false -> (forall b, possible s b -> locked r0 r (k b)) -> locked r0 r (Stmt s k).
Proof. intros Hs H b Hb. rewrite key_write_none by done. by apply H. Qed.

Lemma unlocked_select q (k : option (row t) -> prog A) :
  (forall r, q r = true -> row_id t r = id) ->
  (forall r, row_id t r = id -> locked r r (k (Some r))) -> unlocked (k None) ->
  unlocked (Stmt (SelectForUpdate t q) k).
Proof.
  intros Hq Hk Hn. cbn. destruct (decide (t = t)) as [e|]; [|done]. rewrite (eq_pi _ _ e eq_refl).
  cbn. intros b (w & w' & _ & [_ H]%scalar_Ok). destruct b as [r|]; [|done]. destruct H as [Hr%Hq _].
  rewrite decide_True by done. by apply Hk.
Qed.

Lemma unlocked_get (k : option (row t) -> prog A) :
  (forall r, row_id t r = id -> locked r r (k (Some r))) -> unlocked (Stmt (GetForUpdate t id) k).
Proof.
  intros Hk. cbn. destruct (decide (t = t)) as [e|]; [|done]. rewrite (eq_pi _ _ e eq_refl).
  cbn. intros b (w & w' & Hkd & [Hr _]%get_Ok). rewrite N.eqb_refl. destruct b as [r|]; [|done].
  assert (Hid : row_id t r = id) by exact (Hkd t _ _ (eq_sym Hr)).
  rewrite decide_True by done. by apply Hk.
Qed.

Lemma locked_update r0 r (old new : row t) k :
  row_id t new = id ->
  (old = new -> locked r0 r (k new)) ->
  (forall ts, old <> new -> locked r0 (touch t ts new) (k (touch t ts new))) ->
  locked r0 r (Stmt (Update t old new) k).
Proof.
  intros Hid He Hn b Hb. destruct (decide (old = new)) as [Heq|Hne].
  - destruct Hb as (w & w' & _ & Hb). cbn [exec] in Hb.
    apply flush_update_Ok in Hb as [(_ & -> & _)|(? & _)]; [|done].
    unfold key_write. cbn [inserting written]. rewrite decide_True by done. cbn. by apply He.
  - destruct (key_write_update t old new b Hb Hne) as (ts & -> & Hw).
    unfold key_write. cbn [inserting]. rewrite Hw, find_put by by rewrite touch_id. cbn. by apply Hn.
Qed.

(** ** The invariant *)
#[local] Abbreviation is_key := (fun r => N.eqb (row_id t r) id) (only parsing).
#[local] Abbreviation never := (fun _ : row t => false) (only parsing).

Lemma key_unique (r r' : row t) :
  is_key r = true -> is_key r' = true -> row_id t r <> row_id t r' -> conflict t r r' = true.
Proof. intros ->%N.eqb_eq ->%N.eqb_eq Hne. by destruct Hne. Qed.

#[local] Abbreviation key_ok := (key_ok t id is_key) (only parsing).
#[local] Abbreviation pending_ok := (pending_ok t id is_key never) (only parsing).

(** What a running session knows of the committed row [r]. *)
Definition session_fits (r : row t) (x : session A) : Prop :=
  match x with
  | Running q ws locks =>
      pending_ok ws /\
      (unlocked q /\ find t ws id = None \/
       holds x t id = true /\ locked r (default r (find t ws id)) q)
  | Ended _ _ => True
  end.

(** The committed sessions in the order of their commits, and the row before and after them. *)
Inductive chain : row t -> list (nat * A) -> row t -> Prop :=
  | chain_nil r : chain r [] r
  | chain_snoc r l r1 i a r2 : chain r l r1 -> commits a r1 r2 -> chain r (l ++ [(i, a)]) r2.

Record ordered (r0 : row t) (S : system A) (history : list (nat * A)) (r : row t) : Prop := {
  ord_keyed : sys_keyed S;
  ord_key : key_ok (w_db S.(sys_world));
  ord_row : find t (w_db S.(sys_world)) id = Some r;
  ord_sessions i x : S.(sys_sessions) !! i = Some x -> session_fits r x;
  ord_locks i j x y : S.(sys_sessions) !! i = Some x -> S.(sys_sessions) !! j = Some y ->
    holds x t id = true -> holds y t id = true -> i = j;
  ord_history i a : (i, a) ∈ history <-> exists ws, S.(sys_sessions) !! i = Some (Ended (Ok a) ws);
  ord_once : NoDup history.*1;
  ord_chain : chain r0 history r }.

Lemma locking_sound {B} (s : stmt B) row_of b v v' :
  keyed (w_db v) -> locking s = Some row_of -> exec s v = (Ok b, v') ->
  key_write t id s b = None /\
  match row_of b with
  | Some r => row_id t r = id -> find t (w_db v) id = Some r /\ (t, id) ∈ selected s b
  | None => finds s = true -> find t (w_db v) id = None
  end.
Proof.
  intros Hkd Hl He. split; [by destruct s|]. destruct s; cbn [locking] in Hl; try done.
  - destruct (decide (t0 = t)) as [e|]; [|done]. subst t0. injection Hl as <-. cbn.
    cbn [exec] in He. apply scalar_Ok in He as [_ H]. destruct b as [r|]; [|done].
    destruct H as (_ & i & Hr). intros Hid. rewrite <- (Hkd t i r Hr) in Hr. rewrite Hid in Hr.
    split; [done|]. rewrite Hid. left.
  - destruct (decide (t0 = t)) as [e|]; [|done]. subst t0. injection Hl as <-. cbn.
    cbn [exec] in He. apply get_Ok in He as [Hr _]. destruct b as [r|].
    + symmetry in Hr. pose proof (Hkd t _ r Hr) as Hi. intros Hid. rewrite Hid in Hi. subst.
      split; [done|left].
    + intros Hi%N.eqb_eq. by rewrite <- Hi.
Qed.

Lemma db_key_ok db r : keyed db -> find t db id = Some r -> key_ok db.
Proof.
  intros Hkd Hr. split_and!; [by intros i r'; apply Hkd| |].
  - exists r. split; [done|]. by apply N.eqb_eq, Hkd.
  - intros i r' Hr' Hi%N.eqb_eq. rewrite <- (Hkd _ _ _ Hr'). exact Hi.
Qed.

Lemma key_write_id {B} (s : stmt B) b ws w w' r :
  pending_ok ws -> key_ok (w_db w) -> exec s (view ws w) = (Ok b, w') ->
  key_write t id s b = Some r -> row_id t r = id.
Proof.
  intros Hws Hkey He. unfold key_write. destruct (inserting s); [done|]. intros Hr.
  assert (Hv : key_ok (w_db (view ws w))) by by eapply key_ok_overlay.
  by destruct (written_sound t id is_key never key_unique s b _ _ _ _ Hv He Hr) as (? & _).
Qed.

Lemma pending_ok_statement {B} (s : stmt B) b ws w w' :
  pending_ok ws -> key_ok (w_db w) -> exec s (view ws w) = (Ok b, w') -> pending_ok (written s b ws).
Proof.
  intros Hws Hkey He. eapply (pending_ok_written t id); [exact key_unique|exact Hws|exact Hkey|exact He|].
  intros r Hr. split; [|done]. apply N.eqb_eq. exact (key_write_id s b ws w w' r Hws Hkey He Hr).
Qed.

Lemma key_after {B} (s : stmt B) b ws w w' :
  pending_ok ws -> key_ok (w_db w) -> exec s (view ws w) = (Ok b, w') ->
  find t (written s b ws) id =
  match key_write t id s b with Some r => Some r | None => find t ws id end.
Proof. intros Hws Hkey He. exact (key_written t id is_key never key_unique s b ws w w' Hws Hkey He). Qed.

(** Over its own statements ... *)
Lemma statement_fits {B} (s : stmt B) (k : B -> prog A) b ws locks w w' r :
  keyed (overlay ws (w_db w)) -> key_ok (w_db w) -> find t (w_db w) id = Some r ->
  session_fits r (Running (Stmt s k) ws locks) -> exec s (view ws w) = (Ok b, w') -> possible s b ->
  session_fits r (Running (k b) (written s b ws) (selected s b ++ locks)).
Proof.
  intros Hkd Hkey Hr [Hws Hq] He Hb. split; [by eapply pending_ok_statement|].
  pose proof (key_after s b ws w w' Hws Hkey He) as Hid.
  destruct Hq as [[Hq Hn]|[Hh Hq]].
  - cbn [unlocked] in Hq. destruct (locking s) as [row_of|] eqn:Hl.
    + specialize (Hq b Hb). destruct (locking_sound s row_of b (view ws w) w' Hkd Hl He) as [Hkw Hrow].
      rewrite Hkw in Hid. rewrite Hn in Hid.
      assert (Hv : find t (w_db (view ws w)) id = Some r).
      { cbn [w_db view set_db]. by rewrite overlay_find, Hn. }
      destruct (row_of b) as [r'|].
      * destruct (decide (row_id t r' = id)) as [Hi|]; [|by left].
        destruct (Hrow Hi) as [Hf Hin]. assert (r' = r) as -> by congruence. right. rewrite Hid. split; [|done].
        cbn [holds]. apply orb_true_iff. right. apply bool_decide_eq_true, elem_of_app. by left.
      * destruct (finds s); [|by left]. rewrite Hrow in Hv; done.
    + destruct (Hq b Hb) as [Hkw Hk]. left. by rewrite Hid, Hkw, Hn.
  - right. split.
    + cbn [holds] in *. apply orb_true_iff in Hh as [Hh|Hh]; apply orb_true_iff.
      * left. apply has_true in Hh as [r' Hr']. apply has_true. rewrite Hid, Hr'. by destruct (key_write t id s b).
      * right. apply bool_decide_eq_true in Hh. apply bool_decide_eq_true, elem_of_app. by right.
    + rewrite Hid. specialize (Hq b Hb). by destruct (key_write t id s b).
Qed.

(** ... and over the commits of the others. *)
Lemma commit_fits r r' x : session_fits r x -> r' = r \/ holds x t id = false -> session_fits r' x.
Proof.
  intros Hx [->|Hh]; [done|]. destruct x as [q ws locks|]; [|done]. destruct Hx as [Hws [Hq|[Ht _]]]; [|congruence].
  split; [done|by left].
Qed.

(** ** Steps *)
Lemma ordered_update r0 S history r i x x' w' :
  ordered r0 S history r -> S.(sys_sessions) !! i = Some x -> w_db w' = w_db S.(sys_world) ->
  (forall a ws, x <> Ended (Ok a) ws) -> (forall a ws, x' <> Ended (Ok a) ws) ->
  sys_keyed (mkSystem w' (<[i := x']> S.(sys_sessions))) -> session_fits r x' ->
  (holds x' t id = true -> holds x t id = true \/
     forall j y, S.(sys_sessions) !! j = Some y -> j <> i -> holds y t id = false) ->
  ordered r0 (mkSystem w' (<[i := x']> S.(sys_sessions))) history r.
Proof.
  intros [_ Hkey Hr Hs Hl Hh Ho Hc] Hi Hdb Hx0 Hx1 Hkd Hx' Hhold.
  assert (Hlook : forall j y, <[i := x']> S.(sys_sessions) !! j = Some y ->
            j = i /\ y = x' \/ j <> i /\ S.(sys_sessions) !! j = Some y).
  { intros j y [(<- & <- & _)|[Hne Hy]]%list_lookup_insert_Some; auto. }
  assert (Hnew : forall j y, S.(sys_sessions) !! j = Some y -> j <> i ->
            holds x' t id = true -> holds y t id = true -> False).
  { intros j y Hj Hne H1 H2. destruct (Hhold H1) as [H|H]; [|by rewrite (H j y) in H2].
    by apply Hne, (Hl j i y x). }
  constructor; cbn [sys_world sys_sessions]; [exact Hkd|by rewrite Hdb|by rewrite Hdb| | | |done|done].
  - intros j y [[-> ->]|[_ Hy]]%Hlook; [done|by eapply Hs].
  - intros j1 j2 y1 y2 [[-> ->]|[Hn1 H1]]%Hlook [[-> ->]|[Hn2 H2]]%Hlook; [done| | |by eauto].
    + intros ? ?. exfalso. by eapply (Hnew j2).
    + intros ? ?. exfalso. by eapply (Hnew j1).
  - intros j a. rewrite Hh. split; intros [ws Hws]; exists ws.
    + rewrite list_lookup_insert_ne; [done|]. intros <-. rewrite Hi in Hws. by eapply Hx0; injection Hws.
    + apply Hlook in Hws as [[-> Hws]|[_ Hws]]; [by destruct (Hx1 a ws)|done].
Qed.

Lemma ordered_commit r0 S history r i a ws locks :
  ordered r0 S history r -> S.(sys_sessions) !! i = Some (Running (Done (Ok a)) ws locks) ->
  let S' := mkSystem (set_db (overlay ws (w_db S.(sys_world))) S.(sys_world))
              (<[i := Ended (Ok a) ws]> S.(sys_sessions)) in
  sys_keyed S' -> exists r', ordered r0 S' (history ++ [(i, a)]) r'.
Proof.
  intros [_ Hkey Hr Hs Hl Hh Ho Hc] Hi S' Hkd. pose proof (Hs _ _ Hi) as [Hws Hq].
  exists (default r (find t ws id)).
  assert (Hstep : commits a r (default r (find t ws id)) /\
    (default r (find t ws id) = r \/ holds (Running (Done (Ok a)) ws locks) t id = true)).
  { destruct Hq as [[Hq Hn]|[Hhold Hq]]; [|split; [exact Hq|by right]]. rewrite Hn. split; [apply Hq|by left]. }
  destruct Hstep as [Hstep Hown].
  assert (Hlook : forall j y, <[i := Ended (Ok a) ws]> S.(sys_sessions) !! j = Some y ->
            j = i /\ y = Ended (Ok a) ws \/ j <> i /\ S.(sys_sessions) !! j = Some y).
  { intros j y [(<- & <- & _)|[Hne Hy]]%list_lookup_insert_Some; auto. }
  assert (Hfresh : forall b, (i, b) ∉ history) by (intros b [ws' H]%Hh; congruence).
  constructor; unfold S'; cbn [sys_world sys_sessions w_db set_db]; [exact Hkd| | | | | | |].
  - by eapply key_ok_overlay.
  - rewrite overlay_find, Hr. by destruct (find t ws id).
  - intros j y [[-> ->]|[Hne Hy]]%Hlook; [done|]. apply (commit_fits r); [by eapply Hs|].
    destruct Hown as [Hd|Hown]; [by left|right]. destruct (holds y t id) eqn:Hhy; [|done].
    destruct Hne. by apply (Hl j i y _ Hy Hi).
  - intros j1 j2 y1 y2 [[-> ->]|[Hn1 H1]]%Hlook [[-> ->]|[Hn2 H2]]%Hlook; [done..|by eauto].
  - intros j b. rewrite elem_of_app, list_elem_of_singleton, Hh. split.
    + intros [[ws' Hj]|[= -> ->]].
      * exists ws'. rewrite list_lookup_insert_ne; [done|]. intros <-. congruence.
      * exists ws. apply list_lookup_insert_eq. by eapply lookup_lt_Some.
    + intros [ws' [[-> [= ->]]|[_ Hj]]%Hlook]; [by right|left; by exists ws'].
  - rewrite fmap_app. apply NoDup_app. split_and!; [done| |apply NoDup_singleton].
    intros j Hj [= ->]%list_elem_of_singleton. apply list_elem_of_fmap in Hj as ([j b] & [= ->] & Hin).
    by destruct (Hfresh b).
  - by eapply chain_snoc.
Qed.

Lemma ordered_step r0 S S' history r :
  ordered r0 S history r -> sys_step S S' -> exists history' r', ordered r0 S' history' r'.
Proof.
  intros HS Hstep. pose proof (keyed_step _ _ (ord_keyed _ _ _ _ HS) Hstep) as Hkd.
  assert (Hfail : forall i x w' e, S.(sys_sessions) !! i = Some x -> w_db w' = w_db S.(sys_world) ->
    (forall a ws, x <> Ended (Ok a) ws) ->
    sys_keyed (mkSystem w' (<[i := Ended (Err e) empty_db]> S.(sys_sessions))) ->
    exists history' r', ordered r0 (mkSystem w' (<[i := Ended (Err e) empty_db]> S.(sys_sessions))) history' r').
  { intros i x w' e Hi Hdb Hx Hk. exists history, r. by apply (ordered_update _ _ _ _ _ x). }
  destruct Hstep as [i S' H|i q ws locks Hi]; [|by eapply Hfail].
  unfold advance in H. destruct (S.(sys_sessions) !! i) as [[[[a|e]|B s k] ws locks|]|] eqn:Hi; [..|done|done].
  - injection H as <-. destruct (ordered_commit _ _ _ _ _ _ _ _ HS Hi Hkd) as [r' Hr']. by eexists _, _.
  - injection H as <-. by eapply Hfail.
  - destruct (blocked _ _ _ _) eqn:Hb; [done|]. rewrite blocked_false in Hb.
    destruct (exec s _) as [[b|e] w'] eqn:He; injection H as <-; [|by eapply Hfail].
    exists history, r. pose proof (ord_sessions _ _ _ _ HS _ _ Hi) as Hfit.
    destruct (ord_keyed _ _ _ _ HS) as [Hkw Hks].
    eapply ordered_update; [exact HS|exact Hi|done|done|done|exact Hkd| |].
    + eapply statement_fits; [|apply HS|apply HS|exact Hfit|exact He|].
      * apply keyed_overlay; [by eapply Hks|done].
      * by eapply keyed_possible; [apply HS|exact Hi|exact He].
    + intros Hh. destruct (decide (holds (Running (Stmt s k) ws locks) t id = true)) as [|Hn]; [by left|].
      right. intros j y Hj Hne.
      by destruct (key_locked t id is_key never key_unique s b ws locks S.(sys_world) w' k y
        (proj1 Hfit) (ord_key _ _ _ _ HS) He (Hb _ _ Hj Hne) Hh).
Qed.

(** Sessions that begin together and have to lock the row before they write it: whatever the
    schedule, the committed row is the outcome of the committed sessions in the order of their
    commits, each applied to what the one before left. *)
Theorem serialized w (ps : list (prog A)) S r0 :
  keyed (w_db w) -> find t (w_db w) id = Some r0 -> Forall unlocked ps ->
  rtc sys_step (start w ps) S ->
  exists history r, find t (w_db S.(sys_world)) id = Some r /\ chain r0 history r /\ NoDup history.*1 /\
    forall i a, (i, a) ∈ history <-> exists ws, S.(sys_sessions) !! i = Some (Ended (Ok a) ws).
Proof.
  intros Hkd Hr Hps H. assert (Hord : exists history r, ordered r0 S history r).
  2: { destruct Hord as (history & r & HS). exists history, r. split_and!; apply HS. }
  assert (H0 : ordered r0 (start w ps) [] r0).
  { constructor; cbn [start sys_world sys_sessions].
    - by apply start_keyed.
    - by eapply db_key_ok.
    - done.
    - intros i x Hx. apply list_lookup_fmap_Some in Hx as (q & -> & Hq).
      split; [split; by intros ? ?|]. left. split; [|done]. by eapply Forall_lookup_1.
    - intros i j x y Hx. apply list_lookup_fmap_Some in Hx as (q & -> & Hq). done.
    - intros i a. split; [by intros ?%elem_of_nil|]. intros [ws Hx].
      by apply list_lookup_fmap_Some in Hx as (q & [=] & Hq).
    - constructor.
    - constructor. }
  assert (Hgen : forall S1, rtc sys_step S1 S -> forall history r, ordered r0 S1 history r ->
    exists history' r', ordered r0 S history' r').
  { clear. induction 1 as [|S1 S2 S3 H1 _ IH]; intros history r HS; [by eexists _, _|].
    destruct (ordered_step _ _ _ _ _ HS H1) as (h & r' & H2). by eapply IH. }
  by eapply Hgen.
Qed.
End Locked.
