(* ===== verification/Sample.v ===== *)
(** * Sample: a concrete environment and a run of the system

    An executable instance of [Env] and the worlds that a short history of requests passes
    through; the witnesses of the theorems evaluate on them. *)
From stdpp Require Import relations.
From S2P Require Import Prelude Text Json Schema Config TokenBucket Doubles Session Permissions Security.
From S2P Require Import Access AuditTrail Idempotency Events Projects Tasks Organizations Auth.
From S2P Require Import Signing Webhooks Billing Files Email Metrics Worker Api.
From Stdlib Require Import QArith.
#[local] Open Scope string_scope.

(** A polynomial hash written as 64 hexadecimal digits. *)
Fixpoint toy_hash (acc : N) (s : string) : N :=
  match s with
  | EmptyString => acc
  | String c s' => toy_hash ((acc * 257 + code c + 1) mod 2 ^ 256)%N s'
  end.
Definition toy_digest (s : string) : string := hex_fixed 64 (toy_hash 0 s).

Definition sample_settings : Settings :=
  {| default_settings with
     stripe_secret_key := "sk_test"; stripe_webhook_secret := "whsec_stripe";
     stripe_price_pro := "price_pro"; stripe_price_business := "price_business" |}.

(** The subscription event the sample Stripe sends for an organization. *)
Definition sample_event (event_id org : string) : json :=
  JObj [("id", JStr event_id); ("type", JStr "customer.subscription.updated");
        ("data", JObj [("object", JObj [
          ("id", JStr "sub_1"); ("customer", JStr "cus_1"); ("status", JStr "active");
          ("metadata", JObj [("organization_id", JStr org)]);
          ("items", JObj [("data", JArr [JObj [("price", JObj [("id", JStr "price_pro")])]])]);
          ("current_period_end", JInt 1800000000)])])].

(** Signature headers that are their timestamp; older ones than 300 seconds are refused. *)
Definition stamp_header (seconds : Z) : string := "t=" +:+ pretty.pretty seconds.
Definition sample_verify (now : datetime) (signature : string) : bool :=
  match drop_prefix "t=" signature ≫= Signing.int10 with
  | Some stamp => (now / 1000000 - 300 <=? stamp)%Z
  | None => false
  end.

#[export] Instance sample_env : Env := {
  settings := sample_settings;
  clock := fun t => (1700000000000000 + hours (Z.of_nat t))%Z;
  perf_counter := fun t => (Z.of_nat t # 100);
  uuid4_at := fun t => (N.of_nat (S t) mod 2 ^ 128)%N;
  token_urlsafe_at := fun t n => hex_fixed 40 (N.of_nat (100 * t + n));
  sha256_hexdigest := toy_digest;
  argon2_hash := fun _ p => "argon2:" +:+ p;
  argon2_verify := fun h p => String.eqb h ("argon2:" +:+ p);
  jwt_encode := fun c _ => "jwt." +:+ default "" c.(claim_sub);
  jwt_decode := fun now token _ iss aud =>
    sub ← drop_prefix "jwt." token;
    Some (mkClaims (Some sub) (Some "access") now (now + 1) "" iss aud);
  fernet_encrypt := fun _ _ s => "fernet:" +:+ s;
  fernet_decrypt := fun _ s => drop_prefix "fernet:" s;
  hmac_sha256_hexdigest := fun k m => toy_digest (k +:+ ":" +:+ m);
  validate_email := fun s => if existsb (Ascii.eqb "@") (list_ascii_of_string s) then Some s else None;
  float_round := double;
  broker_accepts := fun _ => true;
  redis_up := fun _ => true;
  smtp_send := fun _ _ _ _ => Ok tt;
  database_up := fun _ => true;
  http_post := fun _ url _ _ =>
    if String.prefix "https://down" url then HttpError "connection refused" else HttpOk 200;
  stripe_checkout := fun t _ => Ok ("cs_" +:+ pretty.pretty t, Some "https://checkout.stripe.com");
  stripe_portal := fun _ c _ => Ok ("bps_" +:+ c, "https://billing.stripe.com");
  stripe_construct_event := fun now payload signature _ =>
    if sample_verify now signature then Some (sample_event ("evt:" +:+ payload) payload) else None;
  generate_presigned_url := fun endpoint op _ _ => endpoint +:+ "/" +:+ op;
  url_hostname := fun _ => Some "example.org";
  url_scheme := fun _ => "https";
  url_port := fun _ => Ok None;
  any_http_url := fun s => Some s;
  http_url := fun s => Some s;
  ip_is_global := fun s => if String.eqb s "example.org" then None else Some true;
  getaddrinfo := fun _ _ _ => Some ["93.184.216.34"];
  collate_le := fun a b => String.leb a b;
  iso8601 := fun _ => None }.

Lemma sample_uuid t : (uuid4_at t < 2 ^ 128)%N.
Proof. apply N.mod_lt. discriminate. Qed.

Lemma sample_email s e : validate_email s = Some e -> validate_email e = Some e.
Proof.
  cbn. intros H. destruct (existsb _ (list_ascii_of_string s)) eqn:Hs; [|discriminate].
  injection H as <-. by rewrite Hs.
Qed.

(** A row to start from, when a query finds one. *)
Lemma row_exists {E : Env} t (p : row t -> bool) w :
  (match scalar t p w with (Ok (Some _), _) => true | _ => false end) = true ->
  exists id r, find t (w_db w) id = Some r /\ p r = true.
Proof.
  destruct (scalar t p w) as [[[r|]|] w'] eqn:Hs; try done. intros _.
  apply scalar_Ok in Hs as (_ & Hp & id & Hr). by exists id, r.
Qed.

Definition w0 : World := {| w_db := empty_db; w_redis := ∅; w_log := []; w_tick := 0 |}.

(** The world after the requests, whatever their outcome. *)
Definition run (rs : list request) (w : World) : World := foldl (fun w r => (serve r w).2) w rs.

Lemma run_cons r rs w : run (r :: rs) w = run rs (serve r w).2.
Proof. reflexivity. Qed.

Lemma run_app l1 l2 w : run (l1 ++ l2) w = run l2 (run l1 w).
Proof. apply foldl_app. Qed.

Lemma run_steps rs w : rtc step w (run rs w).
Proof.
  revert w. induction rs as [|r rs IH]; intros w; [done|]. cbn. eapply rtc_l; [|apply IH].
  apply step_request.
Qed.

Lemma run_reachable rs : reachable (run rs w0).
Proof. exists w0. split; [done|]. apply run_steps. Qed.

(** Access tokens and row identifiers by name. *)
Definition token_of (email : string) (w : World) : string :=
  match filter (fun u : User => u.(user_email) = email) (rows TUser (w_db w)) with
  | u :: _ => "jwt." +:+ uuid_str u.(user_id)
  | [] => ""
  end.
Definition org_of (slug : string) (w : World) : uuid :=
  match filter (fun o : Organization => o.(org_slug) = slug) (rows TOrganization (w_db w)) with
  | o :: _ => o.(org_id)
  | [] => 0%N
  end.

Definition alice : string := "alice@acme.org".
Definition bob : string := "bob@globex.org".
Definition carol : string := "carol@acme.org".

(** Three accounts; an organization of Alice, one of Bob. *)
Definition w_users : World := run [
  Register (mkRegisterRequest alice "correct horse" "Alice");
  Register (mkRegisterRequest bob "battery staple" "Bob");
  Register (mkRegisterRequest carol "another secret" "Carol")] w0.

Definition create_acme : request :=
  CreateOrganization (token_of alice w_users) "key-acme-1" (mkOrganizationCreate "Acme" "acme").
Definition create_globex : request :=
  CreateOrganization (token_of bob w_users) "key-globex-1" (mkOrganizationCreate "Globex" "globex").
Definition w_orgs : World := run [create_acme; create_globex] w_users.

Definition acme : uuid := org_of "acme" w_orgs.
Definition globex : uuid := org_of "globex" w_orgs.
Definition alice_token : string := token_of alice w_users.
Definition bob_token : string := token_of bob w_users.
Definition carol_token : string := token_of carol w_users.

(** A webhook endpoint and a project in each organization, and an invitation for Carol. *)
Definition setup : list request := [
  Tenant alice_token acme (CreateWebhook (mkWebhookCreate "https://hooks.acme.org"
    ["project.created"; "project.updated"; "project.deleted"; "task.created"]));
  Tenant bob_token globex (CreateWebhook (mkWebhookCreate "https://down.globex.org"
    ["project.created"]));
  Tenant alice_token acme (CreateProject (mkProjectCreate "Rocket" None));
  Tenant bob_token globex (CreateProject (mkProjectCreate "Submarine" (Some "deep")));
  Tenant alice_token acme (CreateInvitation "key-invite-1" (mkInviteMemberRequest carol "member"))].

Definition w_setup : World := run setup w_orgs.

Lemma w_orgs_reachable : reachable w_orgs.
Proof.
  exists w0. split; [done|]. etrans; [apply run_steps|apply run_steps].
Qed.

Lemma w_setup_reachable : reachable w_setup.
Proof.
  destruct w_orgs_reachable as (w & Hi & Hw). exists w. split; [done|].
  etrans; [exact Hw|apply run_steps].
Qed.

Definition the_project (name : string) (w : World) : uuid :=
  match filter (fun p : Project => p.(prj_name) = name) (rows TProject (w_db w)) with
  | p :: _ => p.(prj_id)
  | [] => 0%N
  end.

(** A request that succeeds. *)
Lemma serve_run r w :
  is_ok (serve r w).1 = true -> exists b, serve r w = (Ok b, (serve r w).2).
Proof. destruct (serve r w) as [[b|e] w']; cbn; [eauto|done]. Qed.

Example setup_runs :
  forallb is_ok (snd (foldl (fun '(w, l) r => ((serve r w).2, l ++ [(serve r w).1])%list)
                        (w_orgs, []) setup)) = true.
Proof. vm_compute. reflexivity. Qed.

(** Carol joins Acme as a member. *)
Definition invitation_token (w : World) : string :=
  default "" (head (omap (fun e =>
    match e with
    | Delay t [_; raw] => if String.eqb t send_invitation_task then Some raw else None
    | _ => None
    end) (w_log w))).
Definition w_joined : World := run [AcceptInvitation carol_token (invitation_token w_setup)] w_setup.
Definition find_user (email : string) (w : World) : User :=
  default (mkUser 0 "" "" "" false 0 0)
    (head (filter (fun u : User => u.(user_email) = email) (rows TUser (w_db w)))).
Definition find_member (org uid : uuid) (w : World) : OrganizationMembership :=
  default (mkOrganizationMembership 0 0 0 "" 0 0)
    (head (filter (fun m : OrganizationMembership =>
       m.(mem_organization_id) = org /\ m.(mem_user_id) = uid) (rows TMembership (w_db w)))).

Lemma run_reachable_from rs w : reachable w -> reachable (run rs w).
Proof.
  intros (w1 & Hi & Hw). exists w1. split; [done|]. etrans; [exact Hw|]. apply run_steps.
Qed.

(** The deliveries whose jobs were published, in order. *)
Definition delivery_jobs (w : World) : list string :=
  omap (fun e =>
    match e with
    | Delay t [id] => if String.eqb t deliver_webhook_task then Some id else None
    | _ => None
    end) (w_log w).
Definition acme_job : string := default "" (delivery_jobs w_setup !! 0%nat).
Definition globex_job : string := default "" (delivery_jobs w_setup !! 1%nat).
Definition delivery_of (id : string) (w : World) : WebhookDelivery :=
  default (mkWebhookDelivery 0 0 0 "" JNull "" 0 None None None 0 0)
    (uuid_parse id ≫= fun u => find TDelivery (w_db w) u).
Definition w_delivered : World := (deliver_webhook 0 acme_job w_setup).2.

Lemma w_delivered_steps : rtc step w0 w_delivered.
Proof.
  eapply rtc_r; [|apply step_delivery]. do 2 (etrans; [|apply run_steps]).
  etrans; [|apply run_steps]. apply rtc_refl.
Qed.

Lemma w_delivered_reachable : reachable w_delivered.
Proof. exists w0. split; [done|exact w_delivered_steps]. Qed.

Example delivered_example :
  dlv_state (delivery_of acme_job w_delivered) = "delivered" /\
  dlv_attempt_count (delivery_of acme_job w_delivered) = 1%Z /\
  dlv_state (delivery_of globex_job (deliver_webhook 0 globex_job w_setup).2) = "retrying".
Proof. vm_compute. done. Qed.
