(* ===== verification/Tenancy.v ===== *)
(** * Tenancy: isolation and authorization of the organization endpoints *)
From stdpp Require Import relations.
From S2P Require Import Prelude Text Json Schema Config TokenBucket Session Permissions Security.
From S2P Require Import Access AuditTrail Idempotency Events Projects Tasks Organizations Auth.
From S2P Require Import Webhooks Billing Files Email Metrics Worker Lifecycle Refinement RefineServices.
From S2P Require Import RefineWorker Api RefineApi Sample.
#[local] Open Scope string_scope.

(** ** Lemmas on the gate *)
Section Gate.
Context {E : Env}.

Lemma serve_tenant_Ok token org r b w w' :
  serve (Tenant token org r) w = (Ok b, w') -> handle_tenant token org r w = (Ok b, w').
Proof. unfold serve. by rewrite get_session_Ok. Qed.

Lemma serve_reachable r w : reachable w -> reachable (serve r w).2.
Proof.
  intros (w1 & Hi & Hw). exists w1. split; [done|]. eapply rtc_r; [exact Hw|]. apply step_request.
Qed.

(** An authenticated caller. *)
Definition authenticated (token : string) (w : World) (u : User) : Prop :=
  exists id, decode_claims (clock w.(w_tick)) token = Ok id /\
             find TUser w.(w_db) id = Some u /\ u.(user_is_active) = true.

Lemma get_current_user_run token w u :
  authenticated token w u -> get_current_user token w = (Ok u, ticked w).
Proof.
  intros (id & Hd & Hu & Ha). unfold get_current_user, decode_access_token.
  rewrite (bind_run _ _ _ id (ticked w)).
  - rewrite (bind_run _ _ _ (Some u) (ticked w)) by (unfold get; by rewrite <- Hu). by rewrite Ha.
  - erewrite bind_run by reflexivity. unfold try_except, lift. by rewrite Hd.
Qed.

(** A gate that raises ends the request with the same exception. *)
Lemma gate_Err token org r w e :
  require_permission (required r) token org w = (Err e, ticked w) ->
  serve (Tenant token org r) w = (Err e, set_db (w_db w) (ticked w)).
Proof.
  intros Hg. unfold serve, get_session. destruct (handle_tenant_gate token org r) as [k Hk].
  cbn [handle]. rewrite Hk, (bind_fail _ _ _ _ _ Hg). done.
Qed.

(** A member's role that a permission is checked against. *)
Lemma gate_member p token org w u id m role :
  db_ok (w_db w) -> authenticated token w u -> find TMembership (w_db w) id = Some m ->
  m.(mem_organization_id) = org -> m.(mem_user_id) = u.(user_id) ->
  m.(mem_role) = role_value role ->
  require_permission p token org w =
    (do! lift (assert_permission role p) in
     ret {| ctx_user := u; ctx_membership := m |}) (ticked w).
Proof.
  intros Hok Hu Hm Ho Hmu Hr. unfold require_permission.
  rewrite (bind_run _ _ _ _ _ (get_current_user_run _ _ _ Hu)).
  assert (Hctx : get_organization_context org u (ticked w) =
                 (Ok {| ctx_user := u; ctx_membership := m |}, ticked w)).
  { unfold get_organization_context. rewrite (bind_run _ _ _ (Some m) (ticked w)); [done|].
    apply (scalar_unique _ _ id); [exact Hm|by rewrite Ho, Hmu, !N.eqb_refl|].
    intros id' m' Hm' [Ho' Hu']%andb_true_iff. apply N.eqb_eq in Ho', Hu'.
    change (w_db (ticked w)) with (w_db w) in Hm'.
    destruct (Hok _ _ _ Hm) as [Hid (_ & _ & Hu1)%row_ok_true].
    destruct (decide (id' = id)) as [->|Hne]; [congruence|]. cbn in Hid.
    specialize (Hu1 _ _ Hm'). cbn in Hu1.
    rewrite Hid, Ho, Ho', Hmu, Hu', !N.eqb_refl in Hu1. by specialize (Hu1 Hne). }
  rewrite (bind_run _ _ _ _ _ Hctx), (bind_run _ _ _ role (ticked w)); [done|].
  unfold lift, context_role. cbn [ctx_membership].
  by rewrite Hr, (proj2 (role_of_value_Some _ role) eq_refl).
Qed.
End Gate.

(** ** Properties *)

(** C1: tenant isolation.  In every reachable world, a successful request to an endpoint of the
    organization [org] neither changes, removes nor adds a row of another organization or of the
    tables all tenants share: the rows whose tenant is not [org] are the same before and after. *)
Theorem tenant_isolation {E : Env} token org r b w w' :
  reachable w -> serve (Tenant token org r) w = (Ok b, w') ->
  foreign_rows_kept (eq (Some org)) (w_db w) (w_db w').
Proof.
  intros [Hok _]%reachable_consistent H%serve_tenant_Ok.
  eapply writes_isolated; [done|]. by eapply handle_tenant_refines.
Qed.

Lemma tenant_isolation_witness :
  exists b w', serve (Tenant alice_token acme (DeleteProject (the_project "Rocket" w_setup))) w_setup
                 = (Ok b, w') /\
    foreign_rows_kept (eq (Some acme)) (w_db w_setup) (w_db w').
Proof.
  destruct (serve_run (Tenant alice_token acme (DeleteProject (the_project "Rocket" w_setup)))
              w_setup ltac:(vm_compute; reflexivity)) as [b Hb].
  exists b. eexists. split; [exact Hb|]. apply (tenant_isolation _ _ _ _ _ _ w_setup_reachable Hb).
Defined.

(** C2: authorization.  A request to an organization endpoint succeeds only for an active user whom
    the access token names and who has a membership of that organization with a role that grants
    the permission of the endpoint. *)
Theorem tenant_authorized {E : Env} token org r b w w' :
  serve (Tenant token org r) w = (Ok b, w') ->
  exists user m role,
    authenticated token w user /\
    (exists id, find TMembership (w_db w) id = Some m) /\
    m.(mem_organization_id) = org /\ m.(mem_user_id) = user.(user_id) /\
    m.(mem_role) = role_value role /\ has_permission role (required r) = true.
Proof.
  intros H%serve_tenant_Ok. destruct (handle_tenant_gate token org r) as [k Hk].
  rewrite Hk in H. apply bind_Ok in H as (c & w1 & Hc & _).
  apply require_permission_Ok in Hc as (_ & Ha & (id & Hd & Hu) & Hm & Ho & Hmu & role & Hr & Hp).
  exists (ctx_user c), (ctx_membership c), role. split_and!; try done. by exists id.
Qed.

Lemma tenant_authorized_witness :
  exists user m role,
    authenticated alice_token w_orgs user /\
    (exists id, find TMembership (w_db w_orgs) id = Some m) /\
    m.(mem_organization_id) = acme /\ m.(mem_user_id) = user.(user_id) /\
    m.(mem_role) = role_value role /\
    has_permission role (required (CreateProject (mkProjectCreate "Rocket" None))) = true.
Proof.
  destruct (serve_run (Tenant alice_token acme (CreateProject (mkProjectCreate "Rocket" None)))
              w_orgs ltac:(vm_compute; reflexivity)) as [b Hb].
  apply (tenant_authorized _ _ _ _ _ _ Hb).
Defined.

(** C3: concealment.  An authenticated user without a membership gets ORGANIZATION_NOT_FOUND from
    every endpoint of the organization, whether it exists or not; the database, the Redis keys and
    the log of outgoing calls stay as they were. *)
Theorem stranger_refused {E : Env} token org r w user :
  authenticated token w user ->
  (forall id m, find TMembership (w_db w) id = Some m ->
     m.(mem_organization_id) = org -> m.(mem_user_id) <> user.(user_id)) ->
  exists w', serve (Tenant token org r) w =
      (Err (NotFoundError "ORGANIZATION_NOT_FOUND" "Organization was not found"), w') /\
    w_db w' = w_db w /\ w_log w' = w_log w /\ w_redis w' = w_redis w.
Proof.
  intros Hu Hm. eexists. split; [apply gate_Err|done].
  unfold require_permission. rewrite (bind_run _ _ _ _ _ (get_current_user_run _ _ _ Hu)).
  apply bind_fail. unfold get_organization_context.
  rewrite (bind_run _ _ _ None (ticked w)); [done|]. apply scalar_none. intros id m Hf.
  apply andb_false_iff. destruct (N.eqb_spec (mem_organization_id m) org) as [Ho|]; [right|by left].
  apply N.eqb_neq. by eapply Hm.
Qed.

Lemma stranger_refused_witness :
  exists w', serve (Tenant carol_token acme ListMembers) w_orgs =
      (Err (NotFoundError "ORGANIZATION_NOT_FOUND" "Organization was not found"), w') /\
    w_db w' = w_db w_orgs /\ w_log w' = w_log w_orgs /\ w_redis w' = w_redis w_orgs.
Proof.
  set (u := default (mkUser 0 "" "" "" false 0 0)
              (head (filter (fun u : User => u.(user_email) = carol) (rows TUser (w_db w_orgs))))).
  apply (stranger_refused carol_token acme ListMembers w_orgs u).
  - exists (user_id u). split_and!; vm_compute; reflexivity.
  - assert (H : map_Forall (fun _ m => m.(mem_organization_id) = acme ->
                 m.(mem_user_id) <> u.(user_id)) (w_db w_orgs TMembership)).
    { apply (bool_decide_eq_true _). vm_compute. reflexivity. }
    intros id m Hm. by apply (H id).
Defined.

(** C4: least privilege.  A member whose role does not grant the endpoint's permission gets
    FORBIDDEN with the role and the permission in the message, and nothing changes. *)
Theorem member_forbidden {E : Env} token org r w user id m role :
  reachable w -> authenticated token w user ->
  find TMembership (w_db w) id = Some m -> m.(mem_organization_id) = org ->
  m.(mem_user_id) = user.(user_id) -> m.(mem_role) = role_value role ->
  has_permission role (required r) = false ->
  exists w', serve (Tenant token org r) w =
      (Err (ForbiddenError "FORBIDDEN" ("Role '" +:+ role_value role +:+ "' lacks permission '"
              +:+ permission_value (required r) +:+ "'")), w') /\
    w_db w' = w_db w /\ w_log w' = w_log w /\ w_redis w' = w_redis w.
Proof.
  intros [Hok _]%reachable_consistent Hu Hm Ho Hmu Hr Hp. eexists. split; [apply gate_Err|done].
  rewrite (gate_member _ _ _ _ _ _ _ _ Hok Hu Hm Ho Hmu Hr).
  apply bind_fail. unfold lift, assert_permission. by rewrite Hp.
Qed.

Lemma member_forbidden_witness :
  exists w', serve (Tenant carol_token acme (DeleteProject (the_project "Rocket" w_joined))) w_joined =
      (Err (ForbiddenError "FORBIDDEN" "Role 'member' lacks permission 'project:delete'"), w') /\
    w_db w' = w_db w_joined /\ w_log w' = w_log w_joined /\ w_redis w' = w_redis w_joined.
Proof.
  set (u := find_user carol w_joined). set (m := find_member acme (user_id u) w_joined).
  apply (member_forbidden carol_token acme (DeleteProject (the_project "Rocket" w_joined)) w_joined
           u (mem_id m) m MEMBER).
  - apply run_reachable_from, w_setup_reachable.
  - exists (user_id u). split_and!; vm_compute; reflexivity.
  - vm_compute. reflexivity.
  - vm_compute. reflexivity.
  - vm_compute. reflexivity.
  - vm_compute. reflexivity.
  - vm_compute. reflexivity.
Defined.

(** C6: the API refines the abstract life cycles.  In every reachable world, a request that
    succeeds is, on the database, a sequence of the writes that the abstract specification allows:
    rows are born in their initial state, evolve along their life cycle and are deleted with what
    depends on them, only in the tables of the request's footprint and only for the tenants it acts
    for; a request that fails writes nothing. *)
Theorem api_refines_lifecycle {E : Env} r res w w' :
  reachable w -> serve r w = (res, w') ->
  match res with
  | Ok _ => exists who, request_tenants r (w_db w) who /\
                        writes who (request_footprint r) (w_db w) (w_db w')
  | Err _ => w_db w' = w_db w
  end.
Proof.
  intros [Hok _]%reachable_consistent H. unfold serve in H. destruct res as [b|e].
  - rewrite get_session_Ok in H. by eapply handle_refines.
  - by apply get_session_Err in H.
Qed.

Lemma api_refines_lifecycle_witness :
  exists b w' who,
    serve (Tenant alice_token acme (CreateProject (mkProjectCreate "Glider" None))) w_setup = (Ok b, w') /\
    request_tenants (Tenant alice_token acme (CreateProject (mkProjectCreate "Glider" None)))
      (w_db w_setup) who /\
    writes who [TProject; TAuditLog; TDelivery] (w_db w_setup) (w_db w').
Proof.
  destruct (serve_run (Tenant alice_token acme (CreateProject (mkProjectCreate "Glider" None)))
              w_setup ltac:(vm_compute; reflexivity)) as [b Hb].
  destruct (api_refines_lifecycle _ _ _ _ w_setup_reachable Hb) as (who & Hwho & Hw).
  exists b. do 2 eexists. split; [exact Hb|]. split; [exact Hwho|exact Hw].
Defined.

(** A successful request to an organization endpoint writes no table outside its footprint; the
    listing and retrieval endpoints write none. *)
Lemma tenant_footprint {E : Env} token org r b w w' t :
  reachable w -> serve (Tenant token org r) w = (Ok b, w') -> t ∉ footprint r ->
  w_db w' t = w_db w t.
Proof.
  intros [Hok _]%reachable_consistent H%serve_tenant_Ok Ht.
  eapply (writes_frame (eq (Some org))); [by eapply handle_tenant_refines|exact Ht].
Qed.
