(* ===== verification/Listing.v ===== *)
(** * Listing: what a client that follows the cursors of a listing reads *)
From stdpp Require Import relations.
From S2P Require Import Prelude Text Json JsonLoads JsonRoundTrip Dates Base64 Schema Config TokenBucket Session Pagination.
From S2P Require Import Permissions Security Access Projects Tasks Lifecycle Api RefineApi Keyset.
From S2P Require Import Sample Tenancy.
#[local] Open Scope string_scope.

(** ** Lemmas *)
Lemma db_ok_ids t db : db_ok db -> ids_ok t db.
Proof. intros Hok id r Hr. by destruct (Hok t id r Hr) as [Hid _]. Qed.

(** The keys of the rows are values of their columns: a 128-bit uuid and a datetime. *)
Definition typed_keys (t : table) (created_at : row t -> datetime) (db : Db) : Prop :=
  forall id r, find t db id = Some r -> (id < 2 ^ 128)%N /\ datetime_ok (created_at r) = true.

Section Facts.
Context {E : Env}.

(** The cursor of a row leads to its position. *)
Lemma start_position_of t created_at r w :
  (row_id t r < 2 ^ 128)%N -> datetime_ok (created_at r) = true ->
  start_position (Some (encode_cursor (created_at r) (row_id t r))) w =
  (Ok (Some (position_of t created_at r)), w).
Proof.
  intros Hi Hc. pose proof (cursor_read _ _ Hc Hi) as Hd. unfold start_position.
  destruct (encode_cursor (created_at r) (row_id t r)) as [|c s] eqn:He.
  - unfold decode_cursor, read_cursor in Hd. discriminate Hd.
  - rewrite Hd. cbn [cur_created_at]. by rewrite Hc.
Qed.

Lemma listed_typed t created_at p po db r :
  db_ok db -> typed_keys t created_at db -> r ∈ listed t created_at p po db ->
  (row_id t r < 2 ^ 128)%N /\ datetime_ok (created_at r) = true.
Proof.
  intros Hok Ht [Hr _]%listed_elem. unfold rows in Hr.
  apply list_elem_of_fmap in Hr as ([id x] & -> & Hr). apply elem_of_map_to_list in Hr. cbn.
  destruct (Ht id x Hr) as [Hi Hc]. by rewrite (db_ok_ids t db Hok id x Hr).
Qed.

(** ** Tasks *)
Definition task_listed (org : uuid) (filters : TaskFilter) (r : Task) : bool :=
  N.eqb r.(task_organization_id) org && task_selected filters r.

Lemma list_tasks_page token org filters cursor limit items next w w' :
  reachable w ->
  serve (Tenant token org (ListTasks filters cursor limit)) w =
    (Ok (TaskPageReply (mkTaskPage items next)), w') ->
  w_db w' = w_db w /\
  exists po, start_position cursor (ticked w) = (Ok po, ticked w) /\
    page_spec TTask task_created_at (task_listed org filters) po (Z.to_nat limit) (w_db w) items next.
Proof.
  intros [Hok _]%reachable_consistent H%serve_tenant_Ok. cbn [handle_tenant] in H.
  apply reply_with_Ok in H as (page & H & [= <-]). unfold list_tasks in H.
  apply bind_Ok in H as (c & w1 & (-> & _)%require_permission_Ok & H).
  destruct (_ && _) eqn:Hv in H; cbn [negb] in H; [|by apply raise_Ok in H].
  apply andb_true_iff in Hv as [[_ Hlim%Z.leb_le]%andb_true_iff _].
  apply bind_Ok in H as ([items' next'] & w2 & H & Hr). cbn [fst snd] in Hr.
  rewrite (list_fmap_id items' : task_response <$> items' = items') in Hr.
  apply ret_Ok in Hr as [[= -> ->] ->].
  apply (keyset_page_Ok _ _ _ _ _ _ _ (ticked w) _ (db_ok_ids _ (w_db w) Hok) Hlim) in H
    as [-> (po & Hpo & Hp)]. eauto.
Qed.

(** The requests of a client that follows [next_cursor] to the end: the worlds they were served in
    and the pages they returned. *)
Inductive task_pages (org : uuid) (filters : TaskFilter) (limit : Z) :
    option string -> list (World * list Task) -> Prop :=
  | task_pages_end token cursor w items w' :
      serve (Tenant token org (ListTasks filters cursor limit)) w =
        (Ok (TaskPageReply (mkTaskPage items None)), w') ->
      task_pages org filters limit cursor [(w, items)]
  | task_pages_next token cursor w items next w' rest :
      serve (Tenant token org (ListTasks filters cursor limit)) w =
        (Ok (TaskPageReply (mkTaskPage items (Some next))), w') ->
      task_pages org filters limit (Some next) rest ->
      task_pages org filters limit cursor ((w, items) :: rest).

Definition db_pages (pages : list (World * list Task)) : list (Db * list Task) :=
  (fun '(w, items) => (w_db w, items)) <$> pages.

Lemma task_pages_traversal org filters limit cursor po pages :
  task_pages org filters limit cursor pages ->
  Forall (fun '(w, _) => reachable w /\ typed_keys TTask task_created_at (w_db w)) pages ->
  (forall w, start_position cursor w = (Ok po, w)) ->
  traversal TTask task_created_at (task_listed org filters) (Z.to_nat limit) po (db_pages pages).
Proof.
  intros Hp. revert po. induction Hp as [token cursor w items w' Hs|token cursor w items next w' rest Hs Hp IH];
    intros po [[Hr Ht] Hrest]%Forall_cons Hpo;
    pose proof (reachable_consistent _ Hr) as [Hok _];
    apply (list_tasks_page _ _ _ _ _ _ _ _ _ Hr) in Hs as (_ & po' & Hpo' & Hspec);
    rewrite Hpo in Hpo'; simplify_eq; cbn [db_pages fmap list_fmap].
  - apply traversal_end; [by apply db_ok_ids|done].
  - destruct (page_spec_rest _ _ _ _ _ _ _ _ (db_ok_ids _ _ Hok) Hspec)
      as (r & Hri & Hn & _ & Hrl & Hsp & _).
    apply (traversal_next _ _ _ _ _ _ _ r next); [by apply db_ok_ids|done..|].
    apply IH; [done|]. intros w1. subst next.
    destruct (listed_typed _ _ _ _ _ _ Hok Ht Hrl) as [Hi Hc]. by apply start_position_of.
Qed.

(** ** Projects *)
Definition project_listed (org : uuid) (p : Project) : bool := N.eqb p.(prj_organization_id) org.

(** The client that follows [next_cursor], with a bound on its requests. *)
Fixpoint read_projects (requests : nat) (token : string) (org : uuid) (limit : Z)
    (cursor : option string) : M (list Project) :=
  match requests with
  | O => raise (RuntimeError "more requests are needed")
  | S requests' =>
      let! answer := serve (Tenant token org (ListProjects cursor limit)) in
      match answer with
      | ProjectPageReply page =>
          match page.(pp_next_cursor) with
          | None => ret page.(pp_items)
          | Some next =>
              let! others := read_projects requests' token org limit (Some next) in
              ret (page.(pp_items) ++ others)%list
          end
      | _ => raise (RuntimeError "not a page")
      end
  end.

Definition at_tick (n : nat) (w : World) : World := {| w with w_tick := n |}.

Lemma at_tick_self w : at_tick (w_tick w) w = w.
Proof. by destruct w. Qed.

(** The caller passes the gate of the listing at the next [n] requests: his access token stays
    valid while he reads. *)
Definition reader (token : string) (org : uuid) (n : nat) (w : World) : Prop :=
  forall k, (k < n)%nat -> exists c, let w := at_tick (w_tick w + k) w in
    require_permission PROJECT_READ token org w = (Ok c, ticked w).

Lemma reader_ticked token org n w : reader token org (S n) w -> reader token org n (ticked w).
Proof.
  intros H k Hk. destruct (H (S k) ltac:(lia)) as [c Hc]. exists c. cbv zeta in *.
  rewrite Nat.add_succ_r in Hc. exact Hc.
Qed.

(** Two listings of one table with the same keys. *)
Lemma list_projects_run token org cursor limit po w :
  db_ok (w_db w) -> (1 <= limit <= 100)%Z -> reader token org 1 w ->
  (forall w, start_position cursor w = (Ok po, w)) ->
  exists items next,
    serve (Tenant token org (ListProjects cursor limit)) w =
      (Ok (ProjectPageReply (mkProjectPage items next)), ticked w) /\
    page_spec TProject prj_created_at (project_listed org) po (Z.to_nat limit) (w_db w) items next.
Proof.
  intros Hok Hlim Hread Hpo. destruct (Hread 0%nat ltac:(lia)) as [c Hc]. cbv zeta in Hc.
  rewrite Nat.add_0_r in Hc. rewrite at_tick_self in Hc.
  destruct (keyset_page TProject prj_created_at (project_listed org) cursor limit (ticked w))
    as [[[items next]|e] w'] eqn:Hpage; cycle 1.
  { unfold keyset_page in Hpage. rewrite (bind_run _ _ _ _ _ (Hpo _)) in Hpage.
    erewrite bind_run in Hpage by reflexivity. discriminate Hpage. }
  exists items, next.
  destruct (keyset_page_Ok _ _ _ _ _ _ _ (ticked w) _ (db_ok_ids _ (w_db w) Hok) (proj1 Hlim) Hpage)
    as [-> (po' & Hpo' & Hspec)].
  rewrite Hpo in Hpo'. injection Hpo' as <-. split; [|exact Hspec].
  unfold serve. apply get_session_Ok. cbn [handle handle_tenant]. unfold reply_with.
  erewrite bind_run; [reflexivity|]. unfold list_projects.
  rewrite (bind_run _ _ _ _ _ Hc).
  assert ((1 <=? limit)%Z && (limit <=? 100)%Z = true) as ->
    by (apply andb_true_iff; rewrite !Z.leb_le; lia).
  cbn [negb]. rewrite (bind_run _ _ _ _ _ Hpage). cbn [fst snd].
  by rewrite (list_fmap_id items : project_response <$> items = items).
Qed.

Lemma newest_sorted_app t created_at l1 l2 :
  StronglySorted (newest_first t created_at) l1 -> StronglySorted (newest_first t created_at) l2 ->
  (forall a b, a ∈ l1 -> b ∈ l2 -> newest_first t created_at a b) ->
  StronglySorted (newest_first t created_at) (l1 ++ l2)%list.
Proof. intros H1 H2 H. by apply StronglySorted_app_2. Qed.

(** From a position, a client with enough requests reads what is left. *)
Lemma read_projects_from requests token org limit cursor po w :
  db_ok (w_db w) -> typed_keys TProject prj_created_at (w_db w) -> (1 <= limit <= 100)%Z ->
  reader token org requests w -> (forall w, start_position cursor w = (Ok po, w)) ->
  let left := listed TProject prj_created_at (project_listed org) po (w_db w) in
  (List.length left < requests * Z.to_nat limit)%nat ->
  exists l w', read_projects requests token org limit cursor w = (Ok l, w') /\ w_db w' = w_db w /\
    l ≡ₚ left /\ StronglySorted (newest_first TProject prj_created_at) l.
Proof.
  revert cursor po w. induction requests as [|n IH]; intros cursor po w Hok Ht Hlim Hread Hpo left Hlen;
    [cbn in Hlen; lia|].
  destruct (list_projects_run token org cursor limit po w Hok Hlim) as (items & next & Hrun & Hspec);
    [intros k Hk; apply Hread; lia|done|].
  cbn [read_projects]. rewrite (bind_run _ _ _ _ _ Hrun). cbn [pp_next_cursor pp_items].
  destruct next as [s|].
  - destruct (page_spec_rest _ _ _ _ _ _ _ _ (db_ok_ids _ _ Hok) Hspec)
      as (r & Hri & -> & Hl & Hrl & Hsp & Hperm).
    destruct (listed_typed _ _ _ _ _ _ Hok Ht Hrl) as [Hi Hc].
    destruct (IH (Some (encode_cursor (prj_created_at r) (row_id TProject r)))
                (Some (position_of TProject prj_created_at r)) (ticked w)) as (l & w' & Hr & Hdb & Hp & Hs);
      [done|done|done|by apply reader_ticked|intros; by apply start_position_of| |].
    { subst left. rewrite Hperm, length_app, Hl in Hlen. cbn in Hlen. cbn. lia. }
    exists (items ++ l)%list, w'. rewrite (bind_run _ _ _ _ _ Hr). split_and!; [done|done|..].
    + subst left. rewrite Hperm. by rewrite Hp.
    + destruct Hspec as [Hsi _ Hin _]. apply newest_sorted_app; [done|done|].
      intros a b Ha Hb. rewrite Hp in Hb. apply listed_elem in Hb as [_ Hb].
      rewrite from_position_key in Hb. apply andb_true_iff in Hb as [_ Hb].
      pose proof (proj1 (Hsp a (Hin a Ha)) Ha) as Hna.
      apply not_true_iff_false in Hna. rewrite before_true in Hna.
      change (before TProject prj_created_at (position_of TProject prj_created_at r) b = true) in Hb.
      rewrite before_true in Hb. unfold newest_first. cbn in *. lia.
  - destruct Hspec as [Hsi _ _ Hnext]. exists items, (ticked w). split_and!; done.
Qed.
End Facts.

(** ** Properties *)

(** C18: nothing is missed and nothing is repeated.  A client reads the task listing page by page,
    following [next_cursor] to the end, while other requests create, change and delete tasks between
    its requests.  A task that is there and matches the filters at every one of its requests is on
    exactly one of the pages. *)
Theorem task_listing_exactly_once {E : Env} org filters limit pages id created_at :
  task_pages org filters limit None pages ->
  Forall (fun '(w, _) => reachable w /\ typed_keys TTask task_created_at (w_db w)) pages ->
  Forall (fun '(w, _) => exists r, find TTask (w_db w) id = Some r /\
            task_listed org filters r = true /\ r.(task_created_at) = created_at) pages ->
  List.length (filter (fun r : Task => r.(task_id) = id) (List.concat pages.*2)) = 1%nat.
Proof.
  intros Hp Hw Hr. pose proof (task_pages_traversal _ _ _ _ None _ Hp Hw (fun _ => eq_refl)) as Ht.
  pose proof (traversal_once _ _ _ _ _ _ id created_at Ht) as H. cbn [key_after] in H.
  unfold db_pages in H. rewrite <- list_fmap_compose in H.
  rewrite (list_fmap_ext _ snd) in H; [|by intros ? [] _].
  apply H. apply Forall_map. eapply Forall_impl; [exact Hr|]. by intros [].
Qed.

(** Three tasks in the sample project of Acme, and three projects. *)
Definition w_tasks : World := run [
  Tenant alice_token acme (CreateTask (mkTaskCreate (the_project "Rocket" w_setup) "Engine" None
    "high" None None));
  Tenant alice_token acme (CreateTask (mkTaskCreate (the_project "Rocket" w_setup) "Fuel" None
    "low" None None));
  Tenant alice_token acme (CreateTask (mkTaskCreate (the_project "Rocket" w_setup) "Crew" None
    "high" None None))] w_setup.
Definition no_filter : TaskFilter := mkTaskFilter None None None None.
Definition the_task (title : string) (w : World) : Task :=
  default (mkTask 0 0 0 "" None "" "" None 0 None 0 0)
    (head (filter (fun r : Task => r.(task_title) = title) (rows TTask (w_db w)))).

(** A page of two tasks that Alice is served. *)
Definition page_at (cursor : option string) (w : World) : option (list Task * option string) :=
  match (serve (Tenant alice_token acme (ListTasks no_filter cursor 2)) w).1 with
  | Ok (TaskPageReply page) => Some (page.(tp_items), page.(tp_next_cursor))
  | _ => None
  end.

Lemma page_at_served cursor w items next :
  page_at cursor w = Some (items, next) ->
  exists w', serve (Tenant alice_token acme (ListTasks no_filter cursor 2)) w =
    (Ok (TaskPageReply (mkTaskPage items next)), w').
Proof.
  unfold page_at. destruct (serve _ w) as [[b|e] w']; cbn [fst]; [|done].
  destruct b as [| | | | | | | | | | | r| | | | | | | | | |]; try done.
  intros [= <- <-]. eexists. by destruct r.
Qed.

(** After her first page one of its tasks is finished and a new one is created. *)
Definition w_between : World := run [
  Tenant alice_token acme (UpdateTask (task_id (the_task "Crew" w_tasks))
    (mkTaskUpdate None None (Some (Some "done")) None None None));
  Tenant alice_token acme (CreateTask (mkTaskCreate (the_project "Rocket" w_setup) "Food" None
    "high" None None))] w_tasks.
Definition first_page : list Task * option string := default ([], None) (page_at None w_tasks).
Definition second_page : list Task * option string :=
  default ([], None) (page_at first_page.2 w_between).

Example pages_example :
  (task_title <$> first_page.1) = ["Crew"; "Fuel"] /\ (task_title <$> second_page.1) = ["Engine"] /\
  second_page.2 = None.
Proof. vm_compute. done. Qed.

Lemma typed_keys_checked t created_at db :
  db_ok db -> forallb (fun r => (row_id t r <? 2 ^ 128)%N && datetime_ok (created_at r)) (rows t db) = true ->
  typed_keys t created_at db.
Proof.
  intros Hok H id r Hr. pose proof (rows_forallb _ _ _ _ _ H Hr) as Hp.
  apply andb_true_iff in Hp as [Hi Hc]. apply N.ltb_lt in Hi. by rewrite <- (db_ok_ids t db Hok id r Hr).
Qed.

Lemma task_listing_exactly_once_witness :
  List.length (filter (fun r : Task => r.(task_id) = task_id (the_task "Engine" w_tasks))
    (List.concat [first_page.1; second_page.1])) = 1%nat.
Proof.
  assert (Hr1 : reachable w_tasks) by (apply run_reachable_from, w_setup_reachable).
  assert (Hr2 : reachable w_between) by (apply run_reachable_from, Hr1).
  assert (Hp1 : page_at None w_tasks = Some (first_page.1, Some (default "" first_page.2)))
    by (vm_compute; reflexivity).
  assert (Hp2 : page_at (Some (default "" first_page.2)) w_between = Some (second_page.1, None))
    by (vm_compute; reflexivity).
  destruct (page_at_served _ _ _ _ Hp1) as [w1 Hs1]. destruct (page_at_served _ _ _ _ Hp2) as [w2 Hs2].
  apply (task_listing_exactly_once acme no_filter 2 [(w_tasks, first_page.1); (w_between, second_page.1)]
           (task_id (the_task "Engine" w_tasks)) (task_created_at (the_task "Engine" w_tasks))).
  - eapply task_pages_next; [exact Hs1|]. eapply task_pages_end. exact Hs2.
  - repeat apply Forall_cons_2; try apply Forall_nil_2; (split; [done|]);
      (apply typed_keys_checked; [by apply reachable_consistent|vm_compute; reflexivity]).
  - repeat apply Forall_cons_2; try apply Forall_nil_2; exists (the_task "Engine" w_tasks);
      (split_and!; [vm_compute; reflexivity..]).
Defined.

(** C19: the listing is complete and the client ends.  While the database does not change and his
    token stays valid, a client that reads the projects of his organization page by page, with a
    limit of 1 to 100, is done after at most one request more than the full pages, and has read
    every project of the organization exactly once, newest first. *)
Theorem project_listing_complete {E : Env} token org limit w :
  reachable w -> typed_keys TProject prj_created_at (w_db w) -> (1 <= limit <= 100)%Z ->
  let projects := filter (fun p => project_listed org p = true) (rows TProject (w_db w)) in
  let requests := S (List.length projects / Z.to_nat limit) in
  reader token org requests w ->
  exists l w', read_projects requests token org limit None w = (Ok l, w') /\ w_db w' = w_db w /\
    l ≡ₚ projects /\ NoDup l /\ StronglySorted (newest_first TProject prj_created_at) l.
Proof.
  intros [Hok _]%reachable_consistent Ht Hlim projects requests Hread.
  assert (Hl : listed TProject prj_created_at (project_listed org) None (w_db w) = projects).
  { subst projects. unfold listed. apply list_filter_iff. intros p.
    unfold from_position. cbn. by rewrite andb_true_r. }
  destruct (read_projects_from requests token org limit None None w) as (l & w' & Hr & Hdb & Hp & Hs);
    [done..|by intros| |].
  - rewrite Hl. subst requests. pose proof (Nat.div_mod_eq (List.length projects) (Z.to_nat limit)).
    pose proof (Nat.mod_upper_bound (List.length projects) (Z.to_nat limit) ltac:(lia)). lia.
  - exists l, w'. rewrite Hl in Hp. split_and!; [done..| |done]. rewrite Hp, <- Hl.
    apply (NoDup_fmap_1 (row_id TProject)), (listed_ids TProject). by apply db_ok_ids.
Qed.

(** The gate of the next requests, evaluated. *)
Lemma reader_checked {E : Env} token org n w :
  forallb (fun k => is_ok (require_permission PROJECT_READ token org
             (at_tick (w_tick w + k) w)).1) (seq 0 n) = true -> reader token org n w.
Proof.
  intros H k Hk. rewrite forallb_forall in H. specialize (H k ltac:(apply in_seq; lia)).
  cbv zeta. destruct (require_permission _ _ _ _) as [[c|e] w'] eqn:Hg; [|done].
  exists c. by apply require_permission_Ok in Hg as [-> _].
Qed.

Lemma project_listing_complete_witness :
  exists l w', read_projects 2 alice_token acme 1 None w_setup = (Ok l, w') /\
    w_db w' = w_db w_setup /\
    l ≡ₚ filter (fun p => project_listed acme p = true) (rows TProject (w_db w_setup)) /\
    NoDup l /\ StronglySorted (newest_first TProject prj_created_at) l.
Proof.
  assert (Hn : List.length (filter (fun p => project_listed acme p = true)
                 (rows TProject (w_db w_setup))) = 1%nat) by (vm_compute; reflexivity).
  pose proof (project_listing_complete alice_token acme 1 w_setup w_setup_reachable) as H.
  cbv zeta in H. rewrite Hn in H. apply H; [|lia|].
  - apply typed_keys_checked; [|vm_compute; reflexivity].
    by apply reachable_consistent, w_setup_reachable.
  - apply reader_checked. vm_compute. reflexivity.
Defined.

(** C20: cursors round trip.  The cursor that a page returns for a row is decoded to the row's
    creation time and identifier, for every datetime and every uuid. *)
Theorem cursor_round_trip {E : Env} created_at entity_id :
  datetime_ok created_at = true -> (entity_id < 2 ^ 128)%N ->
  decode_cursor (encode_cursor created_at entity_id) = Ok (mkCursor created_at entity_id).
Proof. apply cursor_read. Qed.

Lemma cursor_round_trip_witness :
  decode_cursor (encode_cursor 1700000000000001 0x00112233445566778899aabbccddeeff) =
  Ok (mkCursor 1700000000000001 0x00112233445566778899aabbccddeeff).
Proof. apply cursor_round_trip; [reflexivity|]. apply N.ltb_lt. vm_compute. reflexivity. Defined.

(** ** Cursors that are not positions *)

(** The response of the listings to a cursor that [decode_cursor] refuses. *)
Definition cursor_error (e : exn) : exn :=
  match e with ValueError m => HTTPException 422 m [] | _ => e end.

(** Neither a string nor null. *)
Definition no_text (v : value) : bool := match v with VStr _ | VNull => false | _ => true end.

(** The cursor is a JSON object with a timestamp that can be read and with an "id" that [UUID] cannot
    treat as a text. *)
Definition foreign_id {E : Env} (text : string) : Prop :=
  exists raw kvs created_at d id,
    urlsafe_b64decode (points (utf8 (pad4 text))) = Some raw /\
    loads int_max_str_digits raw = Some (VObj kvs) /\
    lookup_key "created_at" kvs = Some (VStr created_at) /\
    fromisoformat iso8601 created_at = Some d /\
    lookup_key "id" kvs = Some id /\ no_text id = true.

Lemma UUID_AttributeError v : UUID v = Err AttributeError <-> no_text v = true.
Proof. destruct v; cbn; try done. by destruct (uuid_parse s). Qed.

Lemma getitem_Ok k data v : getitem k data = Ok v <-> exists kvs, data = VObj kvs /\ lookup_key k kvs = Some v.
Proof.
  destruct data; cbn; try (split; [done|by intros (? & ? & _)]).
  destruct (lookup_key k _) eqn:Hk; split; intros; naive_solver.
Qed.

Lemma getitem_not_AttributeError k data : getitem k data <> Err AttributeError.
Proof. destruct data; cbn; try done. by destruct (lookup_key _ _). Qed.

Lemma decode_cursor_foreign {E : Env} text : decode_cursor text = Err AttributeError <-> foreign_id text.
Proof.
  assert (decode_cursor text = Err AttributeError <-> read_cursor text = Err AttributeError) as ->.
  { unfold decode_cursor. destruct (read_cursor text) as [[c i]|[]]; try done; by destruct (utcoffset c). }
  unfold read_cursor, foreign_id. split.
  - destruct (urlsafe_b64decode _) as [raw|]; [|done]. destruct (loads _ raw) as [data|] eqn:Hl; [|done].
    destruct (getitem "created_at" data) as [c|e] eqn:Hc; cycle 1.
    { intros [= ->]. by destruct (getitem_not_AttributeError "created_at" data). }
    apply getitem_Ok in Hc as (kvs & -> & Hc). destruct c as [| | | |s| |]; try done.
    all: cbn [datetime_fromisoformat].
    all: destruct (fromisoformat iso8601 s) as [d|] eqn:Hd; [|done].
    all: cbn [getitem]; destruct (lookup_key "id" kvs) as [i|] eqn:Hi; [|done].
    all: destruct (UUID i) eqn:Hu; [done|]; intros [= ->]; apply UUID_AttributeError in Hu; by eexists raw, kvs, s, d, i.
  - intros (raw & kvs & s & d & i & -> & -> & Hc & Hd & Hi & Hn). cbn [getitem].
    rewrite Hc. cbn [datetime_fromisoformat]. rewrite Hd, Hi. apply UUID_AttributeError in Hn. by rewrite Hn.
Qed.

(** The messages of [decode_cursor]. *)
Definition cursor_messages : list string :=
  ["Invalid pagination cursor"; "Pagination cursor timestamp must be timezone-aware"].

Lemma decode_cursor_message {E : Env} text e :
  decode_cursor text = Err e -> e = AttributeError \/ exists m, m ∈ cursor_messages /\ e = ValueError m.
Proof.
  intros H. pose proof H as [->|[m ->]]%decode_cursor_errors; [by left|right]. exists m. split; [|done].
  unfold decode_cursor in H. repeat case_match; simplify_eq; unfold cursor_messages; set_solver.
Qed.

(** The requests that take a cursor. *)
Definition cursor_request (text : string) (limit : Z) (r : tenant_request) : Prop :=
  r = ListProjects (Some text) limit \/
  exists filters, TaskFilter_ok filters = true /\ r = ListTasks filters (Some text) limit.

Lemma keyset_page_refused {E : Env} t created_at p text limit w e :
  text <> "" -> decode_cursor text = Err e ->
  keyset_page t created_at p (Some text) limit w = (Err (cursor_error e), w).
Proof.
  intros Hne Hd. unfold keyset_page. apply bind_fail. unfold start_position.
  destruct text as [|a s]; [done|]. rewrite Hd. by destruct (decode_cursor_errors _ _ Hd) as [-> | [m ->]].
Qed.

(** C21: foreign cursors.  A caller with access to the project or the task listing whose non-empty
    cursor does not decode is answered 422 with one of the two messages of [decode_cursor], unless the
    cursor is a JSON object with a timestamp that can be read and an "id" that is neither a string nor
    null: exactly those end in the AttributeError of [UUID], which nothing catches.  Nothing is written
    or published in any case. *)
Theorem bad_cursor_refused {E : Env} token org text limit r w e :
  (1 <= limit <= 100)%Z -> reader token org 1 w -> text <> "" -> decode_cursor text = Err e ->
  cursor_request text limit r ->
  exists error w', serve (Tenant token org r) w = (Err error, w') /\
    w_db w' = w_db w /\ w_log w' = w_log w /\ w_redis w' = w_redis w /\
    (foreign_id text /\ error = AttributeError \/
     ~ foreign_id text /\ exists m, m ∈ cursor_messages /\ error = HTTPException 422 m []).
Proof.
  intros Hlim Hread Hne Hd Hr. destruct (Hread 0%nat ltac:(lia)) as [c Hc]. cbv zeta in Hc.
  rewrite Nat.add_0_r, at_tick_self in Hc.
  exists (cursor_error e), (set_db (w_db w) (ticked w)).
  assert (Hl : (1 <=? limit)%Z && (limit <=? 100)%Z = true) by (apply andb_true_iff; rewrite !Z.leb_le; lia).
  split; [|split; [by destruct w|split; [done|split; [done|]]]].
  - unfold serve, get_session. cbn [handle].
    enough (handle_tenant token org r w = (Err (cursor_error e), ticked w)) as -> by done.
    destruct Hr as [-> | (filters & Hf & ->)]; cbn [handle_tenant]; unfold reply_with; apply bind_fail.
    + unfold list_projects. rewrite (bind_run _ _ _ _ _ Hc), Hl. cbn [negb].
      by apply bind_fail, keyset_page_refused.
    + unfold list_tasks. rewrite (bind_run _ _ _ _ _ Hc), <- andb_assoc, Hf, Hl. cbn [andb negb].
      by apply bind_fail, keyset_page_refused.
  - rewrite <- decode_cursor_foreign, Hd. destruct (decode_cursor_message _ _ Hd) as [-> | (m & Hm & ->)].
    + by left.
    + right. split; [done|by exists m].
Qed.

Lemma bad_cursor_refused_witness :
  exists error w', serve (Tenant alice_token acme (ListTasks (mkTaskFilter None None None None)
                            (Some "not a cursor") 50)) w_setup = (Err error, w') /\
    w_db w' = w_db w_setup /\ exists m, error = HTTPException 422 m [].
Proof.
  destruct (bad_cursor_refused alice_token acme "not a cursor" 50
              (ListTasks (mkTaskFilter None None None None) (Some "not a cursor") 50) w_setup
              (ValueError "Invalid pagination cursor")) as (error & w' & Hw & Hdb & _ & _ & Hcase).
  - lia.
  - apply reader_checked. vm_compute. reflexivity.
  - discriminate.
  - vm_compute. reflexivity.
  - right. eexists. split; [|reflexivity]. reflexivity.
  - exists error, w'. split_and!; [exact Hw|exact Hdb|].
    destruct Hcase as [[Hf _]|[_ (m & _ & Hm)]]; [|by exists m].
    exfalso. apply decode_cursor_foreign in Hf. vm_compute in Hf. discriminate Hf.
Defined.

(** A cursor with a numeric identifier ends in the AttributeError of [UUID(5)]. *)
Lemma numeric_id_unhandled {E : Env} created_at n :
  datetime_ok created_at = true -> int_fits int_max_str_digits n = true ->
  decode_cursor (rstrip_by is_pad (urlsafe_b64encode (points (utf8 (dumps true
    (JObj [("created_at", JStr (isoformat created_at)); ("id", JInt n)])))))) = Err AttributeError.
Proof.
  intros Hc Hn. unfold decode_cursor, read_cursor. rewrite rstrip_encode by apply points_bytes.
  rewrite utf8_ascii by (apply pad4_ascii, unpadded_ascii, points_bytes).
  rewrite decode_unpadded by apply points_bytes. rewrite loads_dumps.
  - cbn [value_of map fst snd getitem lookup_key].
    change (String.eqb "created_at" "created_at") with true.
    change (String.eqb "id" "created_at") with false. change (String.eqb "id" "id") with true.
    cbv iota. cbn [datetime_fromisoformat]. by rewrite fromisoformat_isoformat.
  - cbn [readable forallb fst snd]. rewrite Hn. by vm_compute.
Qed.
