(* ===== verification/Consistency.v ===== *)
(** * Consistency: what holds in every reachable world *)
From stdpp Require Import relations.
From S2P Require Import Prelude Text Json Schema Config TokenBucket Session Permissions Security.
From S2P Require Import Access AuditTrail Idempotency Events Projects Tasks Organizations Auth.
From S2P Require Import Webhooks Billing Files Email Metrics Worker Lifecycle Refinement RefineServices.
From S2P Require Import RefineWorker Api RefineApi Sample Tenancy.
#[local] Open Scope string_scope.

(** ** Lemmas *)
Section Facts.
Context {E : Env}.

Lemma cleaned_sub ts u db t id r :
  t <> TInvitation -> find t (cleaned ts u db) id = Some r -> find t db id = Some r.
Proof.
  intros Ht. unfold cleaned. rewrite set_table_ne by done. by intros ?%keep_sub%keep_sub.
Qed.

(** Rows of the tables that no update and no cleanup touches. *)
Lemma step_append_only w w' t id r :
  db_ok (w_db w) -> t ∈ [TUser; TOrganization; TStripeEvent; TAuditLog] -> step w w' ->
  find t (w_db w) id = Some r -> find t (w_db w') id = Some r.
Proof.
  intros Hok Ht H Hr. destruct (step_writes _ _ Hok H) as [[who Hw]|(ts & u & Heq)].
  - eapply writes_settled; [exact Hw| |exact Hr]. by table_cases Ht.
  - rewrite Heq, cleaned_ne; [done|]. table_cases Ht; set_solver.
Qed.

(** Requests only, one after the other. *)
Definition served (w w' : World) : Prop := exists r, w' = (serve r w).2.

Lemma served_consistent w w' : rtc served w w' -> consistent w -> consistent w'.
Proof.
  induction 1 as [|w w1 w' [r ->] _ IH]; [done|]. intros Hc. apply IH.
  by apply (step_consistent w); [apply step_request|].
Qed.

(** Requests leave settled rows: completed idempotency records, revoked tokens, invitations
    that are no longer pending, audit entries. *)
Lemma served_settled w w' t id r :
  consistent w -> rtc served w w' -> settled t r ->
  find t (w_db w) id = Some r -> find t (w_db w') id = Some r.
Proof.
  intros Hc H Hs. revert Hc. induction H as [|w w1 w' [q ->] _ IH]; [done|]. intros Hc Hr.
  apply IH; [by apply (step_consistent w); [apply step_request|]|].
  destruct (serve q w) as [res w1] eqn:Hq. destruct (serve_writes _ _ _ _ (proj1 Hc) Hq) as [who Hw].
  by eapply writes_settled.
Qed.
(** *** Lawful rows *)

Lemma cleaned_lawful ts u db : lawful_rows db -> lawful_rows (cleaned ts u db).
Proof.
  intros Hl t id r Hr. destruct (decide (t = TInvitation)) as [->|Ht].
  - unfold cleaned in Hr. rewrite set_table_eq in Hr. apply lookup_fmap_Some in Hr as (i & <- & Hi).
    rewrite !keep_ne in Hi by done. apply (Hl TInvitation) in Hi. cbn in *.
    unfold expire_invitation. destruct (_ && _); [|done]. cbn. destruct Hi as [He _].
    split; [done|set_solver].
  - apply Hl with id. by eapply cleaned_sub.
Qed.

Lemma step_lawful w w' : db_ok (w_db w) -> step w w' -> lawful_rows (w_db w) -> lawful_rows (w_db w').
Proof.
  intros Hok H Hl. destruct (step_writes _ _ Hok H) as [[who Hw]|(ts & u & ->)].
  - by eapply writes_lawful.
  - by apply cleaned_lawful.
Qed.

(** *** Idempotency records are committed complete *)
Definition records_completed (db : Db) : Prop :=
  forall id r, find TIdempotency db id = Some r -> r.(idem_status) = "completed".

(** [m] leaves no unfinished record behind when it succeeds. *)
Definition completes {A} (m : M A) : Prop := forall w a w',
  db_ok (w_db w) -> records_completed (w_db w) -> m w = (Ok a, w') -> records_completed (w_db w').

Lemma records_completed_eq db db' :
  db' TIdempotency = db TIdempotency -> records_completed db -> records_completed db'.
Proof. unfold records_completed. by intros ->. Qed.

Lemma completes_refines {A} who T (m : M A) : refines who T m -> TIdempotency ∉ T -> completes m.
Proof.
  intros Hm HT w a w' Hok Hc H. eapply records_completed_eq; [|exact Hc].
  by eapply writes_frame; [eapply Hm|].
Qed.

Lemma completes_reply {A} (f : A -> reply) (m : M A) : completes m -> completes (reply_with f m).
Proof. intros Hm w b w' Hok Hc (a & H & ->)%reply_with_Ok. by eapply Hm. Qed.

Lemma completes_after {A B} (m : M A) (k : A -> M B) :
  quiet m -> (forall a, completes (k a)) -> completes (bind m k).
Proof.
  intros Hm Hk w b w' Hok Hc (a & w1 & H1%Hm & H)%bind_Ok. rewrite <- H1 in *. by eapply Hk.
Qed.

Lemma completes_raise {A} e : completes (raise e : M A).
Proof. intros w a w' _ _ H. by apply raise_Ok in H. Qed.

(** The record of an idempotent endpoint is completed before its transaction ends. *)
Lemma completes_idempotent {R} user org scope key hash missing (work : M R) dump validate :
  (forall w a w', db_ok (w_db w) -> work w = (Ok a, w') -> w_db w' TIdempotency = w_db w TIdempotency) ->
  completes (idempotent user org scope key hash missing work dump validate).
Proof.
  intros Hwork w a w' Hok Hc [(-> & _)|H]%idempotent_Ok; [done|].
  destruct H as (rec & w1 & w2 & _ & _ & _ & _ & _ & _ & _ & Hn & Hr & Hdb1 & _ & _ & Hrun & _ & _ & _ & ->).
  assert (Hok1 : db_ok (w_db w1)).
  { rewrite Hdb1. apply db_ok_put; [done..|]. intros old Hold. cbn in Hn, Hold. congruence. }
  intros id r [(e & -> & ->)|[Hr' Hne]]%lookup_put_Some.
  { by rewrite (eq_pi _ _ e eq_refl). }
  rewrite (Hwork _ _ _ Hok1 Hrun), Hdb1 in Hr'.
  apply lookup_put_Some in Hr' as [(_ & -> & _)|[Hr' _]]; [|by eapply Hc].
  by destruct Hne as [?|[]].
Qed.

Lemma create_completes token key payload : completes (create token key payload).
Proof.
  unfold create. apply completes_after; [apply get_current_user_quiet|]. intros user.
  destruct (negb _); [apply completes_raise|]. apply completes_idempotent.
  intros w a w' _ (o & w1 & Ho & [-> ->]%ret_Ok)%bind_Ok.
  apply create_organization_writes in Ho as [_ Hw]. eapply writes_frame; [exact Hw|set_solver].
Qed.

Lemma create_invitation_completes token org key body : completes (create_invitation token org key body).
Proof.
  unfold create_invitation. apply completes_after; [apply require_permission_quiet|]. intros c.
  do 2 (case_match; [|apply completes_raise]). apply completes_idempotent.
  intros w a w' Hok (inv & w1 & Hi & [_ ->]%lift_Ok)%bind_Ok.
  eapply writes_frame; [by eapply invite_member_refines|set_solver].
Qed.

Lemma checkout_completes token org key body : completes (checkout token org key body).
Proof.
  unfold checkout. apply completes_after; [apply require_permission_quiet|]. intros c.
  do 2 (case_match; [|apply completes_raise]). apply completes_idempotent.
  intros w a w' Hok (s & w1 & Hs & [_ ->]%ret_Ok)%bind_Ok.
  eapply writes_frame; [by eapply create_billing_checkout_refines|set_solver].
Qed.

Lemma handle_completes r : completes (handle r).
Proof.
  destruct (decide (TIdempotency ∈ request_footprint r)) as [HT|HT].
  - destruct r; cbn [request_footprint] in HT; try set_solver.
    + cbn [handle]. apply completes_reply, create_completes.
    + destruct r; cbn [footprint] in HT; try set_solver; apply completes_reply;
        [apply create_invitation_completes|apply checkout_completes].
  - intros w b w' Hok Hc H. destruct (handle_refines _ _ _ _ Hok H) as (who & _ & Hw).
    eapply records_completed_eq; [by eapply writes_frame|done].
Qed.

Lemma step_completes w w' :
  db_ok (w_db w) -> step w w' -> records_completed (w_db w) -> records_completed (w_db w').
Proof.
  intros Hok H Hc. destruct H as [r|retries id token|retries id|retries].
  - destruct (serve r w) as [[b|e] w'] eqn:Hs; cbn.
    + unfold serve in Hs. rewrite get_session_Ok in Hs. by eapply handle_completes.
    + by apply get_session_Err in Hs as ->.
  - destruct (send_invitation retries id token w) as [res w1] eqn:Hs.
    apply send_invitation_quiet in Hs. cbn. by rewrite Hs.
  - destruct (deliver_webhook retries id w) as [res w1] eqn:Hs.
    eapply records_completed_eq; [|exact Hc].
    cbn. eapply writes_frame; [by eapply deliver_webhook_commits|set_solver].
  - rewrite cleanup_task_db. intros id r Hr. by eapply Hc, cleaned_sub.
Qed.

Lemma reachable_lawful w : reachable w -> lawful_rows (w_db w) /\ records_completed (w_db w).
Proof.
  intros (w0 & Hi & H). apply initial_consistent in Hi as Hc0.
  assert (Hl : lawful_rows (w_db w0) /\ records_completed (w_db w0)) by (unfold initial in Hi; by rewrite Hi).
  clear Hi. induction H as [|w0 w1 w Hs _ IH]; [done|]. destruct Hl as [Hl Hr]. apply IH.
  - by eapply step_consistent.
  - split; [by eapply step_lawful; [apply Hc0|..]|by eapply step_completes; [apply Hc0|..]].
Qed.
End Facts.

(** ** Properties *)

(** What every stored row satisfies: its primary key, its columns and constraints, and the rules of
    the program that no constraint states. *)
Definition sound (db : Db) (t : table) (id : uuid) (r : row t) : Prop :=
  row_id t r = id /\ fits t r = true /\ check_ok t r = true /\ refs_ok t db r = true /\
  (forall id' r', find t db id' = Some r' -> id' <> id -> conflict t r r' = false) /\
  lawful t r.

(** C7: what is stored is sound.  In every reachable world each row sits under its primary key, fits
    its column types and satisfies the CHECK, FOREIGN KEY and UNIQUE constraints; it also satisfies
    what no constraint enforces: addresses of accounts and invitations are in lower case, uploads lie
    under the prefix of their organization and have an allowed type and size, endpoints list existing
    events, each once, a token that was replaced is revoked, a delivered webhook has its response
    status; and no idempotency record is left without its response. *)
Theorem reachable_db_ok {E : Env} w t id r :
  reachable w -> find t (w_db w) id = Some r ->
  sound (w_db w) t id r /\
  (forall k rec, find TIdempotency (w_db w) k = Some rec ->
     rec.(idem_status) = "completed" /\
     is_Some rec.(idem_response_status) /\ is_Some rec.(idem_response_body)).
Proof.
  intros Hw Hr. destruct (reachable_consistent _ Hw) as [Hok _].
  destruct (reachable_lawful _ Hw) as [Hl Hc]. split.
  - destruct (Hok _ _ _ Hr) as [Hid ([Hf Hck] & Href & Hu)%row_ok_true]. rewrite Hid in Hu.
    split_and!; try done. by eapply Hl.
  - intros k rec Hrec. pose proof (Hc _ _ Hrec) as Hst. split; [done|].
    destruct (Hl _ _ _ Hrec) as [Hp|[_ H]]; [congruence|exact H].
Qed.

Lemma reachable_db_ok_witness :
  exists id r, find TEndpoint (w_db w_setup) id = Some r /\ sound (w_db w_setup) TEndpoint id r /\
    exists k rec, find TIdempotency (w_db w_setup) k = Some rec /\ rec.(idem_status) = "completed".
Proof.
  destruct (row_exists TEndpoint (fun _ => true) w_setup ltac:(vm_compute; reflexivity))
    as (id & r & Hr & _).
  destruct (row_exists TIdempotency (fun _ => true) w_setup ltac:(vm_compute; reflexivity))
    as (k & rec & Hrec & _).
  destruct (reachable_db_ok w_setup TEndpoint id r w_setup_reachable Hr) as [Hs Hc].
  exists id, r. split; [exact Hr|]. split; [exact Hs|]. exists k, rec. split; [exact Hrec|].
  by apply (Hc k rec).
Defined.

(** C8: exactly one owner.  In every reachable world each organization has one and only one
    membership with the owner role: creation makes it, and invitations, role changes and removals
    can neither add nor take an owner. *)
Theorem reachable_one_owner {E : Env} w org :
  reachable w -> has TOrganization (w_db w) org = true -> exists! mid, is_owner org mid (w_db w).
Proof. intros [_ Hone]%reachable_consistent. apply Hone. Qed.

Lemma reachable_one_owner_witness :
  has TOrganization (w_db w_setup) acme = true /\ exists! mid, is_owner acme mid (w_db w_setup).
Proof.
  split; [vm_compute; reflexivity|].
  apply (reachable_one_owner w_setup acme w_setup_reachable). vm_compute. reflexivity.
Defined.

(** One transaction per request.  A request that raises, at whatever point, leaves the database
    as it found it; what it already sent out (Celery messages, HTTP calls) stays in the log. *)
Theorem failed_request_rolls_back {E : Env} r e w w' :
  serve r w = (Err e, w') -> w_db w' = w_db w.
Proof. apply get_session_Err. Qed.

Lemma failed_request_rolls_back_witness :
  exists e w', serve (Tenant alice_token acme (CreateProject (mkProjectCreate "Rocket" None))) w_setup
                 = (Err e, w') /\ w_db w' = w_db w_setup.
Proof.
  destruct (serve (Tenant alice_token acme (CreateProject (mkProjectCreate "Rocket" None))) w_setup)
    as [[b|e] w'] eqn:Hs.
  - exfalso. assert (H : is_ok (serve (Tenant alice_token acme
      (CreateProject (mkProjectCreate "Rocket" None))) w_setup).1 = false) by (vm_compute; reflexivity).
    rewrite Hs in H. discriminate.
  - exists e, w'. split; [reflexivity|]. apply (failed_request_rolls_back _ _ _ _ Hs).
Defined.

Lemma steps_append_only {E : Env} w w' t id r :
  consistent w -> rtc step w w' -> t ∈ [TUser; TOrganization; TStripeEvent; TAuditLog] ->
  find t (w_db w) id = Some r -> find t (w_db w') id = Some r.
Proof.
  intros Hw H Ht. revert Hw. induction H as [|w w1 w' Hs _ IH]; [done|]. intros Hc Hr.
  apply IH; [by eapply step_consistent|]. by eapply step_append_only; [apply Hc|..].
Qed.

(** C9: append-only records.  No step of the system, requests, worker tasks and cleanups included,
    changes or removes an audit entry, a processed Stripe event, a user or an organization. *)
Theorem records_append_only {E : Env} w w' t id r :
  reachable w -> rtc step w w' -> t ∈ [TUser; TOrganization; TStripeEvent; TAuditLog] ->
  find t (w_db w) id = Some r -> find t (w_db w') id = Some r.
Proof.
  intros Hw H Ht. by apply steps_append_only; [apply reachable_consistent|..].
Qed.

Lemma records_append_only_witness :
  exists id r, find TAuditLog (w_db w_orgs) id = Some r /\ find TAuditLog (w_db w_setup) id = Some r.
Proof.
  destruct (rows TAuditLog (w_db w_orgs)) as [|r l] eqn:Hl; [vm_compute in Hl; discriminate|].
  assert (Hr : exists id, find TAuditLog (w_db w_orgs) id = Some r).
  { assert (Hin : r ∈ rows TAuditLog (w_db w_orgs)) by (rewrite Hl; left).
    unfold rows in Hin. apply list_elem_of_fmap in Hin as ([id r'] & -> & Hm%elem_of_map_to_list).
    by exists id. }
  destruct Hr as [id Hr]. exists id, r. split; [exact Hr|].
  apply (records_append_only w_orgs w_setup TAuditLog id r w_orgs_reachable).
  - apply run_steps.
  - repeat constructor.
  - exact Hr.
Defined.
