(* ===== verification/Replay.v ===== *)
(** * Replay: the idempotent endpoints answer a repeated request with the first response *)
From stdpp Require Import relations.
From S2P Require Import Prelude Text Json Schema Config TokenBucket Session Permissions Security.
From S2P Require Import Access AuditTrail Idempotency Events Projects Tasks Organizations Auth.
From S2P Require Import Webhooks Billing Files Email Metrics Worker Lifecycle Refinement RefineServices.
From S2P Require Import RefineWorker Api RefineApi Sample Tenancy Consistency.
#[local] Open Scope string_scope.

(** ** Lemmas *)
Section Completed.
Context {E : Env}.

Lemma completed_persists scope key hash status body w w' :
  consistent w -> rtc served w w' ->
  completed scope key hash status body (w_db w) -> completed scope key hash status body (w_db w').
Proof.
  intros Hc H (id & r & Hr & Hs & Hk & Hh & Hst & Hrs & Hrb). exists id, r. split_and!; try done.
  eapply (served_settled w w' TIdempotency); [done|done| |done]. cbn. by rewrite Hst.
Qed.

(** After a success the record is completed, with a body that validates to the response. *)
Lemma idempotent_completes {R} user org scope key hash missing (work : M R) dump validate a w w' :
  idempotent user org scope key hash missing work dump validate w = (Ok a, w') ->
  (forall w1 w2, work w1 = (Ok a, w2) -> validate (dump a) = Ok a) ->
  exists status body, completed scope key hash status body (w_db w') /\ validate body = Ok a.
Proof.
  intros [(-> & _ & _ & status & body & Hc & Hv)|H]%idempotent_Ok Hrt; [by exists status, body|].
  destruct H as (rec & w1 & w2 & Hs & Hk & Hh & _ & _ & _ & _ & _ & _ & _ & _ & _ & Hwork & _ & _ &
                 _ & Hdb).
  exists 201%Z, (dump a). split; [|by eapply Hrt].
  eexists (idem_id rec), _. rewrite Hdb, find_put by done. split_and!; done.
Qed.

(** The same request again, in any later world. *)
Lemma idempotent_replay {R} user org scope key hash missing (work : M R) dump validate a w0 w1 w :
  idempotent user org scope key hash missing work dump validate w0 = (Ok a, w1) ->
  (forall w1 w2, work w1 = (Ok a, w2) -> validate (dump a) = Ok a) ->
  consistent w1 -> rtc served w1 w ->
  idempotent user org scope key hash missing work dump validate (ticked w)
    = (Ok a, ticked (ticked (ticked w))).
Proof.
  intros H Hrt Hc Hw. destruct (idempotent_completes _ _ _ _ _ _ _ _ _ _ _ _ H Hrt)
    as (status & body & Hcomp & Hv).
  apply (completed_persists _ _ _ _ _ _ _ Hc Hw) in Hcomp.
  rewrite (idempotent_replays _ _ _ _ _ _ _ _ _ _ status body), Hv; [done| |done].
  exact (proj1 (served_consistent _ _ Hw Hc)).
Qed.

(** Another payload under the same key. *)
Lemma idempotent_conflict {R} user org scope key hash hash' missing (work work' : M R) dump
    validate a w0 w1 w :
  idempotent user org scope key hash missing work dump validate w0 = (Ok a, w1) ->
  (forall w1 w2, work w1 = (Ok a, w2) -> validate (dump a) = Ok a) ->
  consistent w1 -> rtc served w1 w -> hash <> hash' ->
  idempotent user org scope key hash' missing work' dump validate (ticked w) =
    (Err (ConflictError "IDEMPOTENCY_KEY_REUSED"
      "Idempotency-Key was already used with a different request payload"),
     ticked (ticked (ticked w))).
Proof.
  intros H Hrt Hc Hw Hne. destruct (idempotent_completes _ _ _ _ _ _ _ _ _ _ _ _ H Hrt)
    as (status & body & Hcomp & Hv).
  apply (completed_persists _ _ _ _ _ _ _ Hc Hw) in Hcomp.
  destruct Hcomp as (id & r & Hr & Hs & Hk & Hh & _).
  apply (idempotent_refuses _ _ _ _ _ _ _ _ _ _ id r); try done; [|congruence].
  exact (proj1 (served_consistent _ _ Hw Hc)).
Qed.

Lemma authenticated_unique token w u u' :
  authenticated token w u -> authenticated token w u' -> u = u'.
Proof. intros (id & Hd & Hu & _) (id' & Hd' & Hu' & _). congruence. Qed.

(** The responses survive [model_dump] and [model_validate]. *)
Lemma organization_round_trip r :
  (or_id r < 2 ^ 128)%N -> OrganizationResponse_validate (OrganizationResponse_dump r) = Ok r.
Proof.
  intros Hid. unfold OrganizationResponse_validate, OrganizationResponse_dump, str_field. cbn.
  rewrite uuid_parse_str by done. by destruct r.
Qed.

Lemma invitation_round_trip id email role status r :
  (id < 2 ^ 128)%N -> (forall s e, validate_email s = Some e -> validate_email e = Some e) ->
  InvitationResponse_make id email role status = Ok r ->
  InvitationResponse_validate (InvitationResponse_dump r) = Ok r.
Proof.
  intros Hid Hv. unfold InvitationResponse_make.
  destruct (validate_email email) as [e|] eqn:He; cbn; [|done]. intros [= <-].
  unfold InvitationResponse_validate, InvitationResponse_dump, str_field. cbn.
  rewrite uuid_parse_str by done. cbn. by rewrite (Hv _ _ He).
Qed.

Lemma checkout_round_trip r : CheckoutResponse_validate (CheckoutResponse_dump r) = Ok r.
Proof. by destruct r. Qed.

Lemma create_organization_id user payload o w w' :
  create_organization user payload w = (Ok o, w') -> exists t, org_id o = uuid4_at t.
Proof. unfold create_organization. intros H. inv_ok. by eexists. Qed.

Lemma invite_member_id org user payload i w w' :
  invite_member org user payload w = (Ok i, w') -> exists t, inv_id i = uuid4_at t.
Proof. unfold invite_member. intros H. inv_ok. by eexists. Qed.

(** A passed gate gives the caller its context again. *)
Definition permitted (p : Permission) (token : string) (org : uuid) (w : World) (u : User) : Prop :=
  exists c, require_permission p token org w = (Ok c, ticked w) /\ c.(ctx_user) = u.

Lemma permitted_authenticated p token org w c w' :
  require_permission p token org w = (Ok c, w') -> authenticated token w c.(ctx_user).
Proof.
  intros (_ & Ha & (id & Hd & Hu) & _)%require_permission_Ok. by exists id.
Qed.
End Completed.

(** ** Properties *)

(** C10: idempotent creation of organizations.  Once a creation succeeded, the same user sending
    the same key and payload again, after any further requests of anybody, gets the same response,
    and neither the database nor the log of outgoing calls changes: the retry creates nothing. *)
Theorem organization_creation_replayed {E : Env} token key payload b user w w1 w2 :
  (forall t, uuid4_at t < 2 ^ 128)%N -> reachable w -> authenticated token w user ->
  serve (CreateOrganization token key payload) w = (Ok b, w1) ->
  rtc served w1 w2 -> authenticated token w2 user ->
  exists w3, serve (CreateOrganization token key payload) w2 = (Ok b, w3) /\
    w_db w3 = w_db w2 /\ w_log w3 = w_log w2.
Proof.
  intros Huuid Hw Hu H Hs Hu2.
  assert (Hc1 : consistent w1).
  { apply (step_consistent w); [|by apply reachable_consistent].
    replace w1 with (serve (CreateOrganization token key payload) w).2 by (by rewrite H).
    apply step_request. }
  unfold serve in H. rewrite get_session_Ok in H.
  apply reply_with_Ok in H as (r & H & ->). unfold create in H.
  rewrite (bind_run _ _ _ _ _ (get_current_user_run _ _ _ Hu)) in H.
  destruct (negb _) eqn:Hv in H; [by apply raise_Ok in H|].
  eexists. split; [|split].
  - unfold serve, get_session. cbn [handle]. unfold reply_with, create.
    erewrite bind_run; [reflexivity|].
    rewrite (bind_run _ _ _ _ _ (get_current_user_run _ _ _ Hu2)), Hv.
    eapply idempotent_replay; [exact H| |exact Hc1|exact Hs].
    intros w3 w4 Hwork. apply organization_round_trip.
    apply bind_Ok in Hwork as (o & w5 & Ho & [-> ->]%ret_Ok).
    apply create_organization_id in Ho as [t Ht]. cbn. rewrite Ht. apply Huuid.
  - done.
  - done.
Qed.

Lemma alice_authenticated w :
  (exists rs, w = run rs w_users) -> authenticated alice_token w (find_user alice w_users).
Proof.
  intros [rs ->]. exists (user_id (find_user alice w_users)).
  assert (Hu : find TUser (w_db w_users) (user_id (find_user alice w_users)) =
               Some (find_user alice w_users)) by (vm_compute; reflexivity).
  split_and!; [vm_compute; reflexivity| |vm_compute; reflexivity].
  eapply (steps_append_only w_users); [apply reachable_consistent, (run_reachable _)|apply run_steps|repeat constructor|exact Hu].
Qed.

Lemma run_served rs w : rtc served w (run rs w).
Proof.
  revert w. induction rs as [|r rs IH]; intros w; [done|]. cbn.
  eapply rtc_l; [by exists r|apply IH].
Qed.

Lemma organization_creation_replayed_witness :
  exists b w3, serve create_acme w_users = (Ok b, (serve create_acme w_users).2) /\
    serve create_acme w_setup = (Ok b, w3) /\ w_db w3 = w_db w_setup /\ w_log w3 = w_log w_setup.
Proof.
  destruct (serve_run create_acme w_users ltac:(vm_compute; reflexivity)) as [b Hb].
  destruct (organization_creation_replayed alice_token "key-acme-1" (mkOrganizationCreate "Acme" "acme")
              b (find_user alice w_users) w_users (serve create_acme w_users).2 w_setup
              sample_uuid (run_reachable _)
              (alice_authenticated w_users (ex_intro _ [] eq_refl)) Hb) as (w3 & H & Hdb & Hlog).
  - unfold w_setup, w_orgs. rewrite run_cons, <- run_app. apply run_served.
  - apply alice_authenticated. exists ([create_acme; create_globex] ++ setup)%list.
    rewrite run_app. reflexivity.
  - exists b, w3. split; [exact Hb|split; [exact H|split; [exact Hdb|exact Hlog]]].
Defined.

Section TenantReplay.
Context {E : Env}.

(** The first response came from behind the gate, with the authenticated user. *)
Lemma gated_run {A} p token org (k : OrganizationContext -> M A) a w w1 user :
  authenticated token w user -> bind (require_permission p token org) k w = (Ok a, w1) ->
  exists c, ctx_user c = user /\ k c (ticked w) = (Ok a, w1).
Proof.
  intros Hu (c & w2 & Hg & H)%bind_Ok. exists c.
  pose proof (permitted_authenticated _ _ _ _ _ _ Hg) as Hc.
  apply require_permission_Ok in Hg as (-> & _). split; [|done]. by eapply authenticated_unique.
Qed.

Lemma serve_gated {A} token org r p (f : A -> reply) (k : OrganizationContext -> M A) w u a w' :
  handle_tenant token org r = reply_with f (bind (require_permission p token org) k) ->
  permitted p token org w u -> (forall c, ctx_user c = u -> k c (ticked w) = (Ok a, w')) ->
  serve (Tenant token org r) w = (Ok (f a), w').
Proof.
  intros Heq (c & Hg & Hc) Hk. unfold serve, get_session. cbn [handle]. rewrite Heq.
  unfold reply_with. by rewrite (bind_run _ _ _ a w') by (rewrite (bind_run _ _ _ _ _ Hg); auto).
Qed.

Lemma serve_consistent r w b w1 : reachable w -> serve r w = (Ok b, w1) -> consistent w1.
Proof.
  intros Hw H. apply (step_consistent w); [|by apply reachable_consistent].
  replace w1 with (serve r w).2 by (by rewrite H). apply step_request.
Qed.
End TenantReplay.

(** Idempotent invitations.  The same invitation request repeated under its key returns the
    first response and sends no second e-mail: no row and no Celery message is added. *)
Theorem invitation_replayed {E : Env} token org key body b user w w1 w2 :
  (forall t, uuid4_at t < 2 ^ 128)%N ->
  (forall s e, validate_email s = Some e -> validate_email e = Some e) ->
  reachable w -> authenticated token w user ->
  serve (Tenant token org (CreateInvitation key body)) w = (Ok b, w1) ->
  rtc served w1 w2 -> permitted MEMBERS_MANAGE token org w2 user ->
  exists w3, serve (Tenant token org (CreateInvitation key body)) w2 = (Ok b, w3) /\
    w_db w3 = w_db w2 /\ w_log w3 = w_log w2.
Proof.
  intros Huuid Hemail Hw Hu H Hs Hp. pose proof (serve_consistent _ _ _ _ Hw H) as Hc1.
  apply serve_tenant_Ok, reply_with_Ok in H as (r & H & ->).
  apply (gated_run _ _ _ _ _ _ _ _ Hu) in H as (c & Hcu & H).
  exists (ticked (ticked (ticked w2))). split; [|done].
  eapply (serve_gated token org (CreateInvitation key body) MEMBERS_MANAGE InvitationReply);
    [reflexivity|exact Hp|].
  intros c' Hc'. destruct (InviteMemberRequest_validate body) as [payload|]; [|by apply raise_Ok in H].
  destruct (idempotency_key_ok key); [|by apply raise_Ok in H]. rewrite Hcu in H. rewrite Hc'.
  eapply idempotent_replay; [exact H| |exact Hc1|exact Hs].
  intros w3 w4 (i & w5 & Hi & [Hmk ->]%lift_Ok)%bind_Ok. apply invite_member_id in Hi as [t Ht].
  eapply invitation_round_trip; [|exact Hemail|exact Hmk]. rewrite Ht. apply Huuid.
Qed.

Definition invite_carol : tenant_request :=
  CreateInvitation "key-invite-1" (mkInviteMemberRequest carol "member").

Lemma invitation_replayed_witness :
  exists b w3, serve (Tenant alice_token acme invite_carol) w_setup = (Ok b, w3) /\
    serve (Tenant alice_token acme invite_carol) (run (take 4 setup) w_orgs) = (Ok b, w_setup) /\
    w_db w3 = w_db w_setup /\ w_log w3 = w_log w_setup.
Proof.
  set (w := run (take 4 setup) w_orgs).
  destruct (serve_run (Tenant alice_token acme invite_carol) w ltac:(vm_compute; reflexivity)) as [b Hb].
  destruct (invitation_replayed alice_token acme "key-invite-1" (mkInviteMemberRequest carol "member")
              b (find_user alice w_users) w (serve (Tenant alice_token acme invite_carol) w).2 w_setup
              sample_uuid sample_email) as (w3 & H & Hdb & Hlog).
  - apply run_reachable_from, w_orgs_reachable.
  - apply alice_authenticated. exists ([create_acme; create_globex] ++ take 4 setup)%list.
    rewrite run_app. reflexivity.
  - exact Hb.
  - apply rtc_refl.
  - destruct (require_permission MEMBERS_MANAGE alice_token acme w_setup) as [[c|e] w4] eqn:Hg.
    + exists c. pose proof (require_permission_Ok _ _ _ _ _ _ Hg) as [-> _]. split; [exact Hg|].
      eapply authenticated_unique; [by eapply permitted_authenticated|].
      apply alice_authenticated. exists ([create_acme; create_globex] ++ setup)%list.
      rewrite run_app. reflexivity.
    + exfalso. assert (Hx : is_ok (require_permission MEMBERS_MANAGE alice_token acme w_setup).1 = true)
        by (vm_compute; reflexivity).
      rewrite Hg in Hx. discriminate.
  - exists b, w3. split; [exact H|split; [exact Hb|split; [exact Hdb|exact Hlog]]].
Defined.

(** Idempotent checkout.  The same checkout request repeated under its key returns the first
    Checkout session, and Stripe is not called a second time. *)
Theorem checkout_replayed {E : Env} token org key body b user w w1 w2 :
  reachable w -> authenticated token w user ->
  serve (Tenant token org (Checkout key body)) w = (Ok b, w1) ->
  rtc served w1 w2 -> permitted BILLING_MANAGE token org w2 user ->
  exists w3, serve (Tenant token org (Checkout key body)) w2 = (Ok b, w3) /\
    w_db w3 = w_db w2 /\ w_log w3 = w_log w2.
Proof.
  intros Hw Hu H Hs Hp. pose proof (serve_consistent _ _ _ _ Hw H) as Hc1.
  apply serve_tenant_Ok, reply_with_Ok in H as (r & H & ->).
  apply (gated_run _ _ _ _ _ _ _ _ Hu) in H as (c & Hcu & H).
  exists (ticked (ticked (ticked w2))). split; [|done].
  eapply (serve_gated token org (Checkout key body) BILLING_MANAGE CheckoutReply);
    [reflexivity|exact Hp|].
  intros c' Hc'. destruct (CheckoutRequest_validate body) as [payload|]; [|by apply raise_Ok in H].
  destruct (idempotency_key_ok key); [|by apply raise_Ok in H]. rewrite Hcu in H. rewrite Hc'.
  eapply idempotent_replay; [exact H| |exact Hc1|exact Hs].
  intros w3 w4 _. apply checkout_round_trip.
Qed.

Definition buy_pro : tenant_request :=
  Checkout "key-buy-1" (mkCheckoutRequest "pro" "https://acme.org/ok" "https://acme.org/no").
Definition w_bought : World := run [Tenant alice_token acme buy_pro] w_setup.

Lemma alice_permitted p rs :
  is_ok (require_permission p alice_token acme (run rs w_setup)).1 = true ->
  permitted p alice_token acme (run rs w_setup) (find_user alice w_users).
Proof.
  intros Hx. destruct (require_permission p alice_token acme (run rs w_setup)) as [[c|e] w4] eqn:Hg;
    [|discriminate].
  exists c. pose proof (require_permission_Ok _ _ _ _ _ _ Hg) as [-> _]. split; [exact Hg|].
  eapply authenticated_unique; [by eapply permitted_authenticated|].
  apply alice_authenticated. exists ([create_acme; create_globex] ++ (setup ++ rs))%list.
  rewrite run_app, run_app. reflexivity.
Qed.

Lemma checkout_replayed_witness :
  exists b w3, serve (Tenant alice_token acme buy_pro) w_setup = (Ok b, w_bought) /\
    serve (Tenant alice_token acme buy_pro) w_bought = (Ok b, w3) /\
    w_db w3 = w_db w_bought /\ w_log w3 = w_log w_bought.
Proof.
  destruct (serve_run (Tenant alice_token acme buy_pro) w_setup ltac:(vm_compute; reflexivity)) as [b Hb].
  destruct (checkout_replayed alice_token acme "key-buy-1"
    (mkCheckoutRequest "pro" "https://acme.org/ok" "https://acme.org/no")
    b (find_user alice w_users) w_setup w_bought w_bought) as (w3 & H & Hdb & Hlog).
  - apply w_setup_reachable.
  - apply alice_authenticated. exists ([create_acme; create_globex] ++ setup)%list.
    rewrite run_app. reflexivity.
  - exact Hb.
  - apply rtc_refl.
  - apply alice_permitted. vm_compute. reflexivity.
  - exists b, w3. split; [exact Hb|split; [exact H|split; [exact Hdb|exact Hlog]]].
Defined.

(** C12: keys are bound to payloads.  After a successful creation, the same key with a payload
    whose canonical hash differs is refused with IDEMPOTENCY_KEY_REUSED, and nothing changes. *)
Theorem key_reuse_refused {E : Env} token key payload payload' b user w w1 w2 :
  (forall t, uuid4_at t < 2 ^ 128)%N -> reachable w -> authenticated token w user ->
  serve (CreateOrganization token key payload) w = (Ok b, w1) ->
  rtc served w1 w2 -> authenticated token w2 user -> OrganizationCreate_ok payload' = true ->
  canonical_request_hash (OrganizationCreate_dump payload) <>
    canonical_request_hash (OrganizationCreate_dump payload') ->
  exists w3, serve (CreateOrganization token key payload') w2 =
      (Err (ConflictError "IDEMPOTENCY_KEY_REUSED"
        "Idempotency-Key was already used with a different request payload"), w3) /\
    w_db w3 = w_db w2 /\ w_log w3 = w_log w2.
Proof.
  intros Huuid Hw Hu H Hs Hu2 Hok' Hne. pose proof (serve_consistent _ _ _ _ Hw H) as Hc1.
  unfold serve in H. rewrite get_session_Ok in H.
  apply reply_with_Ok in H as (r & H & ->). unfold create in H.
  rewrite (bind_run _ _ _ _ _ (get_current_user_run _ _ _ Hu)) in H.
  destruct (idempotency_key_ok key) eqn:Hk; cbn [andb negb] in H; [|by apply raise_Ok in H].
  destruct (OrganizationCreate_ok payload); cbn [negb] in H; [|by apply raise_Ok in H].
  eexists. split; [|split].
  - unfold serve, get_session. cbn [handle]. unfold reply_with, create.
    rewrite (bind_fail _ _ _ (ConflictError "IDEMPOTENCY_KEY_REUSED"
        "Idempotency-Key was already used with a different request payload")
        (ticked (ticked (ticked w2)))); [reflexivity|].
    rewrite (bind_run _ _ _ _ _ (get_current_user_run _ _ _ Hu2)), Hk, Hok'. cbn [andb negb].
    eapply idempotent_conflict; [exact H| |exact Hc1|exact Hs|exact Hne].
    intros w3 w4 Hwork. apply organization_round_trip.
    apply bind_Ok in Hwork as (o & w5 & Ho & [-> ->]%ret_Ok).
    apply create_organization_id in Ho as [t Ht]. cbn. rewrite Ht. apply Huuid.
  - done.
  - done.
Qed.

Lemma key_reuse_refused_witness :
  exists w3, serve (CreateOrganization alice_token "key-acme-1" (mkOrganizationCreate "Acme" "acme-2"))
      w_setup = (Err (ConflictError "IDEMPOTENCY_KEY_REUSED"
        "Idempotency-Key was already used with a different request payload"), w3) /\
    w_db w3 = w_db w_setup /\ w_log w3 = w_log w_setup.
Proof.
  destruct (serve_run create_acme w_users ltac:(vm_compute; reflexivity)) as [b Hb].
  apply (key_reuse_refused alice_token "key-acme-1" (mkOrganizationCreate "Acme" "acme")
           (mkOrganizationCreate "Acme" "acme-2") b (find_user alice w_users) w_users
           (serve create_acme w_users).2 w_setup sample_uuid (run_reachable _)
           (alice_authenticated w_users (ex_intro _ [] eq_refl)) Hb).
  - unfold w_setup, w_orgs. rewrite run_cons, <- run_app. apply run_served.
  - apply alice_authenticated. exists ([create_acme; create_globex] ++ setup)%list.
    rewrite run_app. reflexivity.
  - vm_compute. reflexivity.
  - vm_compute. discriminate.
Defined.
