(* ===== verification/Credentials.v ===== *)
(** * Credentials: invitations and refresh tokens *)
From stdpp Require Import relations.
From S2P Require Import Prelude Text Json Schema Config TokenBucket Session Permissions Security.
From S2P Require Import Access AuditTrail Idempotency Events Projects Tasks Organizations Auth.
From S2P Require Import Webhooks Billing Files Email Metrics Worker Lifecycle Refinement RefineServices.
From S2P Require Import RefineWorker Api RefineApi Sample Tenancy Consistency Replay.
#[local] Open Scope string_scope.

(** ** Lemmas *)
Section Facts.
Context {E : Env}.

(** Token hashes are unique: a lookup finds the row, if there is one. *)
Lemma invitation_lookup hash i w :
  db_ok (w_db w) -> find TInvitation (w_db w) i.(inv_id) = Some i -> i.(inv_token_hash) = hash ->
  scalar TInvitation (fun i => String.eqb i.(inv_token_hash) hash) w = (Ok (Some i), w).
Proof.
  intros Hok Hi Hh. apply (scalar_unique TInvitation _ (inv_id i) i); [done|by rewrite Hh, String.eqb_refl|].
  intros id' i' Hi' Hh'%String.eqb_eq. destruct (Hok _ _ _ Hi) as [_ (_ & _ & Hu)%row_ok_true].
  destruct (decide (id' = inv_id i)) as [->|Hne]; [congruence|].
  specialize (Hu _ _ Hi' Hne). cbn in Hu. rewrite Hh, Hh', String.eqb_refl in Hu. done.
Qed.

Lemma refresh_lookup hash t w :
  db_ok (w_db w) -> find TRefreshToken (w_db w) t.(rt_id) = Some t -> t.(rt_token_hash) = hash ->
  scalar TRefreshToken (fun t => String.eqb t.(rt_token_hash) hash) w = (Ok (Some t), w).
Proof.
  intros Hok Ht Hh. apply (scalar_unique TRefreshToken _ (rt_id t) t); [done|by rewrite Hh, String.eqb_refl|].
  intros id' t' Ht' Hh'%String.eqb_eq. destruct (Hok _ _ _ Ht) as [_ (_ & _ & Hu)%row_ok_true].
  destruct (decide (id' = rt_id t)) as [->|Hne]; [congruence|].
  specialize (Hu _ _ Ht' Hne). cbn in Hu. rewrite Hh, Hh', String.eqb_refl in Hu. done.
Qed.

(** A revoked token is refused. *)
Lemma rotate_revoked raw t w :
  db_ok (w_db w) -> find TRefreshToken (w_db w) t.(rt_id) = Some t ->
  t.(rt_token_hash) = token_fingerprint raw -> is_Some t.(rt_revoked_at) ->
  rotate_refresh_token raw w =
    (Err (AuthenticationError "Refresh token is invalid or expired"), ticked w).
Proof.
  intros Hok Ht Hh [ts Hr]. unfold rotate_refresh_token.
  rewrite (bind_run _ _ _ _ _ (refresh_lookup _ _ _ Hok Ht Hh)).
  erewrite bind_run by reflexivity. unfold token_usable. by rewrite Hr.
Qed.

(** The refused request, as the client sees it. *)
Lemma serve_refresh_Err raw e w w1 :
  rotate_refresh_token raw w = (Err e, w1) ->
  serve (Refresh raw) w = (Err e, set_db (w_db w) w1).
Proof.
  intros H. unfold serve, get_session. cbn [handle]. unfold reply_with, refresh.
  by rewrite (bind_fail _ _ _ _ _ H).
Qed.
End Facts.

(** ** Properties *)

(** C13: accepting an invitation.  A successful acceptance is by an active user whose lower-cased
    address is the invitation's, with the token whose fingerprint the invitation stores, while it
    is pending and not expired; afterwards the invitation is accepted and the user has a membership
    of its organization. *)
Theorem acceptance_binds_email {E : Env} token raw b w w' :
  reachable w -> serve (AcceptInvitation token raw) w = (Ok b, w') ->
  exists user i m,
    authenticated token w user /\
    find TInvitation (w_db w) i.(inv_id) = Some i /\
    i.(inv_token_hash) = token_fingerprint raw /\ i.(inv_status) = "pending" /\
    (clock (S (w_tick w)) < i.(inv_expires_at))%Z /\ i.(inv_email) = lower user.(user_email) /\
    find TMembership (w_db w') m.(mem_id) = Some m /\
    m.(mem_organization_id) = i.(inv_organization_id) /\ m.(mem_user_id) = user.(user_id) /\
    exists i', find TInvitation (w_db w') i.(inv_id) = Some i' /\ i'.(inv_status) = "accepted".
Proof.
  intros [Hok _]%reachable_consistent H. unfold serve in H. rewrite get_session_Ok in H.
  apply reply_with_Ok in H as (r & H & ->). unfold accept_member_invitation in H.
  apply bind_Ok in H as (user & w1 & Hu & H). cbn beta in H.
  apply get_current_user_Ok in Hu as (Ha & -> & id & Hd & Hu).
  destruct (negb _); [by apply raise_Ok in H|].
  apply bind_Ok in H as (m & w2 & Hm & [_ ->]%lift_Ok).
  apply accept_invitation_Ok in Hm as
    (i & Hi & Hh & Hs & Ht & He & Ho & Hmu & Hmem & (i' & Hi' & Hst & _) & _); [|done].
  exists user, i, m. split_and!; try done; [by exists id|by exists i'].
Qed.

Lemma acceptance_binds_email_witness :
  exists b user i, serve (AcceptInvitation carol_token (invitation_token w_setup)) w_setup = (Ok b, w_joined) /\
    find TInvitation (w_db w_setup) i.(inv_id) = Some i /\ i.(inv_email) = lower user.(user_email).
Proof.
  destruct (serve_run (AcceptInvitation carol_token (invitation_token w_setup)) w_setup
              ltac:(vm_compute; reflexivity)) as [b Hb].
  destruct (acceptance_binds_email _ _ _ _ _ w_setup_reachable Hb)
    as (user & i & m & _ & Hi & _ & _ & _ & He & _).
  exists b, user, i. split; [exact Hb|split; [exact Hi|exact He]].
Defined.

(** An invitation is accepted once.  After a successful acceptance, presenting the same token
    again, in any later world and by any user, fails with INVITATION_NOT_ACTIVE and changes
    nothing. *)
Theorem acceptance_single_use {E : Env} token raw b w w1 w2 token' user' :
  reachable w -> serve (AcceptInvitation token raw) w = (Ok b, w1) -> rtc served w1 w2 ->
  authenticated token' w2 user' ->
  exists w3, serve (AcceptInvitation token' raw) w2 =
      (Err (ConflictError "INVITATION_NOT_ACTIVE" "Invitation is no longer active"), w3) /\
    w_db w3 = w_db w2.
Proof.
  intros Hw H Hs Hu2. pose proof (serve_consistent _ _ _ _ Hw H) as Hc1.
  apply reachable_consistent in Hw as [Hok _]. unfold serve in H. rewrite get_session_Ok in H.
  apply reply_with_Ok in H as (r & H & ->). unfold accept_member_invitation in H.
  apply bind_Ok in H as (user & w0 & Hu & H). cbn beta in H.
  apply get_current_user_Ok in Hu as (_ & -> & _).
  destruct (negb (invitation_token_ok raw)) eqn:Hraw; [by apply raise_Ok in H|].
  apply bind_Ok in H as (m & w3 & Hm & [_ Heq]%lift_Ok). subst w3.
  apply accept_invitation_Ok in Hm as
    (i & Hi & Hh & _ & _ & _ & _ & _ & _ & (i' & Hi' & Hst & Hth) & Hwr); [|done].
  destruct (proj1 Hc1 _ _ _ Hi') as [Hid _]. cbn in Hid. rewrite <- Hid in Hi'.
  apply (served_settled w1 w2 TInvitation) in Hi'; [|done|done|by cbn; rewrite Hst].
  destruct (served_consistent _ _ Hs Hc1) as [Hok2 _].
  eexists. split.
  - unfold serve, get_session. cbn [handle]. unfold reply_with, accept_member_invitation.
    rewrite (bind_fail _ _ _ (ConflictError "INVITATION_NOT_ACTIVE" "Invitation is no longer active")
               (ticked w2)); [reflexivity|].
    rewrite (bind_run _ _ _ _ _ (get_current_user_run _ _ _ Hu2)), Hraw.
    apply bind_fail. unfold accept_invitation. erewrite bind_run.
    2: { apply (invitation_lookup (token_fingerprint raw) i' (ticked w2)); [done|exact Hi'|congruence]. }
    cbn beta iota. by rewrite Hst.
  - done.
Qed.

Lemma acceptance_single_use_witness :
  exists w3, serve (AcceptInvitation alice_token (invitation_token w_setup)) w_joined =
      (Err (ConflictError "INVITATION_NOT_ACTIVE" "Invitation is no longer active"), w3) /\
    w_db w3 = w_db w_joined.
Proof.
  destruct (serve_run (AcceptInvitation carol_token (invitation_token w_setup)) w_setup
              ltac:(vm_compute; reflexivity)) as [b Hb].
  apply (acceptance_single_use carol_token _ b w_setup w_joined w_joined alice_token
           (find_user alice w_users) w_setup_reachable Hb).
  - apply rtc_refl.
  - apply alice_authenticated.
    exists ([create_acme; create_globex] ++ (setup ++
              [AcceptInvitation carol_token (invitation_token w_setup)]))%list.
    rewrite run_app, run_app. reflexivity.
Defined.

(** Expired invitations.  Accepting a pending invitation after its expiry fails with
    INVITATION_EXPIRED; the service marks it expired, but the exception rolls the transaction back,
    so the invitation stays pending in the database. *)
Theorem expired_mark_rolled_back {E : Env} token raw w user i :
  db_ok (w_db w) -> authenticated token w user -> invitation_token_ok raw = true ->
  find TInvitation (w_db w) i.(inv_id) = Some i ->
  i.(inv_token_hash) = token_fingerprint raw -> i.(inv_status) = "pending" ->
  (i.(inv_expires_at) <= clock (S (w_tick w)))%Z ->
  exists w', serve (AcceptInvitation token raw) w =
      (Err (ConflictError "INVITATION_EXPIRED" "Invitation has expired"), w') /\
    find TInvitation (w_db w') i.(inv_id) = Some i.
Proof.
  intros Hok Hu Hraw Hi Hh Hst Hexp.
  set (expired := {| i with inv_status := "expired" |}).
  destruct (Hok _ _ _ Hi) as [_ ([Hfits Hc] & Href & Hun)%row_ok_true].
  assert (Hfits' : fits TInvitation (touch TInvitation (clock (w_tick (ticked (ticked w)))) expired) = true)
    by (unfold fits in *; apply andb_true_iff in Hfits as [Hfits _]; apply andb_true_iff; by split).
  assert (Hflush : exists r w1, flush_update TInvitation i expired (ticked (ticked w)) = (Ok r, w1)).
  { do 2 eexists. apply flush_update_run.
    - intros Heq. apply (f_equal inv_status) in Heq. cbn in Heq. congruence.
    - apply has_true. by exists i.
    - exact Hfits'.
    - apply row_ok_true. split_and!; [exact Hfits'| |exact Href|].
      + unfold check_ok in *. apply andb_true_iff in Hc as [Hrole _]. apply andb_true_iff. by split.
      + intros id' r' Hr' Hne. specialize (Hun _ _ Hr' Hne). cbn in *.
        apply orb_false_iff in Hun as [-> _]. by rewrite !andb_false_r. }
  destruct Hflush as (r & w1 & Hflush). exists (set_db (w_db w) w1). split; [|exact Hi].
  unfold serve, get_session. cbn [handle]. unfold reply_with, accept_member_invitation.
  rewrite (bind_fail _ _ _ (ConflictError "INVITATION_EXPIRED" "Invitation has expired") w1);
    [reflexivity|].
  rewrite (bind_run _ _ _ _ _ (get_current_user_run _ _ _ Hu)), Hraw.
  apply bind_fail. unfold accept_invitation.
  rewrite (bind_run _ _ _ (Some i) (ticked w)) by (apply (invitation_lookup _ i (ticked w)); done).
  rewrite Hst, String.eqb_refl. cbn [negb].
  rewrite (bind_run _ _ _ (clock (S (w_tick w))) (ticked (ticked w))) by reflexivity.
  rewrite (proj2 (Z.leb_le _ _) Hexp). by rewrite (bind_run _ _ _ _ _ Hflush).
Qed.

(** Nine days after the invitation. *)
Definition w_late : World := {| w_setup with w_tick := (216 + w_tick w_setup)%nat |}.
Definition the_invitation (w : World) : Invitation :=
  default (mkInvitation 0 0 "" "" "" "" 0 0 0 0) (head (rows TInvitation (w_db w))).

Lemma expired_mark_rolled_back_witness :
  exists w', serve (AcceptInvitation carol_token (invitation_token w_setup)) w_late =
      (Err (ConflictError "INVITATION_EXPIRED" "Invitation has expired"), w') /\
    find TInvitation (w_db w') (inv_id (the_invitation w_setup)) = Some (the_invitation w_setup).
Proof.
  apply (expired_mark_rolled_back carol_token (invitation_token w_setup) w_late
           (find_user carol w_users) (the_invitation w_setup)).
  - apply (proj1 (reachable_consistent _ w_setup_reachable)).
  - exists (user_id (find_user carol w_users)). split_and!; vm_compute; reflexivity.
  - vm_compute. reflexivity.
  - vm_compute. reflexivity.
  - vm_compute. reflexivity.
  - vm_compute. reflexivity.
  - vm_compute. discriminate.
Defined.

(** C15: refresh-token rotation.  A successful refresh used a stored, unrevoked, unexpired token of
    an active user; afterwards that token is revoked and names its successor, and the successor, a
    new unrevoked token of the same user and family, is the one handed out. *)
Theorem refresh_rotates {E : Env} raw b w w' :
  reachable w -> serve (Refresh raw) w = (Ok b, w') ->
  exists pair old user,
    b = Tokens pair /\
    find TRefreshToken (w_db w) old.(rt_id) = Some old /\
    old.(rt_token_hash) = token_fingerprint raw /\ old.(rt_revoked_at) = None /\
    (clock (w_tick w) < old.(rt_expires_at))%Z /\
    find TUser (w_db w) old.(rt_user_id) = Some user /\ user.(user_is_active) = true /\
    find TRefreshToken (w_db w') old.(rt_id) = Some
      {| old with rt_revoked_at := Some (clock (w_tick w));
         rt_replaced_by_hash := Some (token_fingerprint pair.(tp_refresh_token)) |} /\
    exists new, find TRefreshToken (w_db w') new.(rt_id) = Some new /\
      find TRefreshToken (w_db w) new.(rt_id) = None /\
      new.(rt_token_hash) = token_fingerprint pair.(tp_refresh_token) /\
      new.(rt_revoked_at) = None /\ new.(rt_user_id) = old.(rt_user_id) /\
      new.(rt_family_id) = old.(rt_family_id).
Proof.
  intros [Hok _]%reachable_consistent H. unfold serve in H. rewrite get_session_Ok in H.
  apply reply_with_Ok in H as (pair & H & ->).
  apply rotate_refresh_token_Ok in H as (old & new & user & H); [|done].
  destruct H as (Hold & Hh & Hr & Hexp & Hu & Ha & Hn & _ & Hnu & Hnf & Hnh & Hnr & _ & _ & ->).
  exists pair, old, user. split_and!; try done; [by apply find_put|].
  exists new. split_and!; try done.
  rewrite lookup_put_ne by (cbn; congruence). by apply find_put.
Qed.

Definition login_alice : request := Login (Some "10.0.0.1") alice "correct horse".
Definition w_login : World := run [login_alice] w_setup.
Definition alice_refresh : string :=
  match (serve login_alice w_setup).1 with Ok (Tokens p) => p.(tp_refresh_token) | _ => "" end.
Definition w_refreshed : World := run [Refresh alice_refresh] w_login.

Lemma refresh_rotates_witness :
  exists pair old, serve (Refresh alice_refresh) w_login = (Ok (Tokens pair), w_refreshed) /\
    find TRefreshToken (w_db w_login) old.(rt_id) = Some old /\ old.(rt_revoked_at) = None.
Proof.
  destruct (serve_run (Refresh alice_refresh) w_login ltac:(vm_compute; reflexivity)) as [b Hb].
  destruct (refresh_rotates _ _ _ _ (run_reachable_from _ _ w_setup_reachable) Hb)
    as (pair & old & user & -> & Hold & _ & Hr & _).
  exists pair, old. split; [exact Hb|split; [exact Hold|exact Hr]].
Defined.

(** Refresh tokens are single-use.  After a successful refresh, presenting
    the spent token again in any later world is refused with 401 and changes nothing. *)
Theorem refresh_single_use {E : Env} raw b w w1 w2 :
  reachable w -> serve (Refresh raw) w = (Ok b, w1) -> rtc served w1 w2 ->
  exists w3, serve (Refresh raw) w2 =
      (Err (AuthenticationError "Refresh token is invalid or expired"), w3) /\
    w_db w3 = w_db w2.
Proof.
  intros Hw H Hs. pose proof (serve_consistent _ _ _ _ Hw H) as Hc1.
  apply reachable_consistent in Hw as [Hok _]. unfold serve in H. rewrite get_session_Ok in H.
  apply reply_with_Ok in H as (pair & H & ->).
  apply rotate_refresh_token_Ok in H as (old & new & user & H); [|done].
  destruct H as (Hold & Hh & Hr & Hexp & Hu & Ha & Hn & _ & Hnu & Hnf & Hnh & Hnr & _ & _ & Hdb).
  match type of Hdb with _ = put _ ?o _ =>
    assert (Hold' : find TRefreshToken (w_db w1) (rt_id old) = Some o)
      by (rewrite Hdb; by apply find_put) end.
  apply (served_settled w1 w2 TRefreshToken) in Hold'; [|done|done|by eexists].
  destruct (served_consistent _ _ Hs Hc1) as [Hok2 _].
  match type of Hold' with _ = Some ?o =>
    pose proof (rotate_revoked raw o w2 Hok2 Hold' Hh ltac:(by eexists)) as Herr end.
  eexists. split; [exact (serve_refresh_Err _ _ _ _ Herr)|done].
Qed.

Lemma refresh_single_use_witness :
  exists w3, serve (Refresh alice_refresh) w_refreshed =
      (Err (AuthenticationError "Refresh token is invalid or expired"), w3) /\
    w_db w3 = w_db w_refreshed.
Proof.
  destruct (serve_run (Refresh alice_refresh) w_login ltac:(vm_compute; reflexivity)) as [b Hb].
  apply (refresh_single_use alice_refresh b w_login w_refreshed w_refreshed
           (run_reachable_from _ _ w_setup_reachable) Hb).
  apply rtc_refl.
Defined.
