(* ===== verification/Delivery.v ===== *)
(** * Delivery: domain events, their deliveries and the delivery task *)
From stdpp Require Import relations.
From S2P Require Import Prelude Text Json Schema Config TokenBucket Session Permissions Security.
From S2P Require Import Access AuditTrail Idempotency Events Projects Tasks Organizations Auth.
From S2P Require Import Signing Webhooks Billing Files Email Metrics Worker Lifecycle Refinement RefineServices.
From S2P Require Import RefineWorker Api RefineApi Sample Tenancy Consistency Replay.
#[local] Open Scope string_scope.

(** ** Lemmas: events *)

(** Deliveries inserted for one event go to distinct endpoints. *)
Lemma insertable_NoDup ds db event_id :
  insertable ds db -> Forall (fun d => d.(dlv_event_id) = event_id) ds ->
  NoDup (dlv_endpoint_id <$> ds) /\
  forall d d0 id0, d ∈ ds -> find TDelivery db id0 = Some d0 -> d0.(dlv_event_id) = event_id ->
    id0 = d0.(dlv_id) -> d.(dlv_endpoint_id) <> d0.(dlv_endpoint_id).
Proof.
  revert db. induction ds as [|d ds IH]; intros db; cbn.
  { intros _ _. split; [constructor|]. intros *. by rewrite elem_of_nil. }
  intros (Hn & Hr & Hins) [He Hall]%Forall_cons.
  destruct (IH _ Hins Hall) as [Hnd Hold].
  assert (Hfst : forall d0 id0, find TDelivery db id0 = Some d0 -> d0.(dlv_event_id) = event_id ->
    id0 = d0.(dlv_id) -> d.(dlv_endpoint_id) <> d0.(dlv_endpoint_id)).
  { intros d0 id0 Hd0 He0 -> Heq. apply row_ok_true in Hr as (_ & _ & Hu).
    specialize (Hu _ _ Hd0). cbn in Hu. rewrite He, He0, Heq, !N.eqb_refl in Hu.
    discriminate Hu. intros Hid. congruence. }
  split.
  - apply NoDup_cons. split; [|done]. intros (d' & Heq & Hd')%list_elem_of_fmap.
    apply (Hold d' d (dlv_id d) Hd'); [by apply find_put|done..].
  - intros d' d0 id0 [->|Hd']%elem_of_cons Hd0 He0 Hid; [by eapply Hfst|].
    apply (Hold d' d0 id0 Hd'); [|done..].
    rewrite lookup_put_ne; [done|]. cbn. intros Heq. congruence.
Qed.

(** What one event did: [ds] are its deliveries. *)
Definition event_effect (org : uuid) (event_type : string) (payload : json) (event_id : uuid)
    (ds : list WebhookDelivery) (w w' : World) : Prop :=
  NoDup (dlv_endpoint_id <$> ds) /\
  (forall eid, eid ∈ dlv_endpoint_id <$> ds <->
     exists e, find TEndpoint (w_db w) eid = Some e /\ subscribed org event_type e) /\
  Forall (fresh_delivery event_id event_type payload) ds /\
  (forall id d, find TDelivery (w_db w') id = Some d <->
     (d ∈ ds /\ d.(dlv_id) = id) \/ find TDelivery (w_db w) id = Some d) /\
  w_log w' = (w_log w ++ ((fun d => Delay deliver_webhook_task [uuid_str d.(dlv_id)]) <$> ds))%list.

Section Events.
Context {E : Env}.

Lemma emit_event_effect org event_type payload event_id w w' :
  db_ok (w_db w) -> emit_event org event_type payload w = (Ok event_id, w') ->
  exists ds, event_effect org event_type payload event_id ds w w' /\
    (forall t, t <> TDelivery -> w_db w' t = w_db w t).
Proof.
  intros Hok (ds & endpoints & He & Hep & Hfr & Hins & Hdb & Hlog & _)%emit_event_Ok.
  exists ds. rewrite Hdb. split; [|intros t Ht; by apply put_deliveries_ne].
  split_and!; [|intros eid| | |done].
  - eapply insertable_NoDup; [exact Hins|]. eapply Forall_impl; [exact Hfr|]. by intros d [? _].
  - rewrite Hep, list_elem_of_fmap. split.
    + intros (e & -> & (Hs & id & Hid)%He). exists e. split; [|done].
      by apply (stored TEndpoint _ e Hok); exists id.
    + intros (e & Hid & Hs). exists e. destruct (Hok _ _ _ Hid) as [Heq _]. split; [done|].
      apply He. eauto.
  - done.
  - intros id d. rewrite Hdb. by apply find_put_deliveries.
Qed.
End Events.

(** [event_effect] reads the endpoints, the deliveries and the log of the first world. *)
Lemma event_effect_eq org event_type payload event_id ds w w1 w' :
  w_db w1 TEndpoint = w_db w TEndpoint -> w_db w1 TDelivery = w_db w TDelivery ->
  w_log w1 = w_log w -> event_effect org event_type payload event_id ds w1 w' ->
  event_effect org event_type payload event_id ds w w'.
Proof. intros He Hd Hl. unfold event_effect. by rewrite He, Hd, Hl. Qed.

(** C17: one delivery per subscribed endpoint.  A domain event of an organization creates exactly
    one pending delivery, with no attempt made, for each active endpoint of that organization that
    subscribes to its type, none for any other, changes no earlier delivery, publishes exactly
    one job per delivery, in order, and does nothing else: no row of another table and nothing in
    Redis changes. *)
Theorem event_fan_out {E : Env} org event_type payload event_id w w' :
  reachable w -> emit_event org event_type payload w = (Ok event_id, w') ->
  (exists ds, event_effect org event_type payload event_id ds w w') /\
  (forall t, t <> TDelivery -> w_db w' t = w_db w t) /\ w_redis w' = w_redis w.
Proof.
  intros [Hok _]%reachable_consistent H.
  destruct (emit_event_effect _ _ _ _ _ _ Hok H) as (ds & Hds & Hrest).
  split_and!; [by exists ds|exact Hrest|].
  by apply emit_event_Ok in H as (? & ? & _ & _ & _ & _ & _ & _ & Hr).
Qed.

Lemma event_fan_out_witness :
  exists id ds w', emit_event acme "project.created" JNull w_setup = (Ok id, w') /\
    event_effect acme "project.created" JNull id ds w_setup w' /\
    w_db w' TEndpoint = w_db w_setup TEndpoint /\ w_redis w' = w_redis w_setup.
Proof.
  destruct (emit_event acme "project.created" JNull w_setup) as [[id|e] w'] eqn:H.
  - destruct (event_fan_out acme "project.created" JNull id w_setup w' w_setup_reachable H)
      as ([ds Hds] & Hrest & Hr).
    exists id, ds, w'. split_and!; [reflexivity|exact Hds|by apply Hrest|exact Hr].
  - exfalso. assert (Hx : is_ok (emit_event acme "project.created" JNull w_setup).1 = true)
      by (vm_compute; reflexivity).
    rewrite H in Hx. discriminate.
Defined.

(** Creating a project.  A successful creation answers with a project that did not exist
    before: active, of the path's organization, with the stripped name, created by the caller; it
    is stored, one audit entry names it and its creator, the organization's endpoints get the
    "project.created" event with its id and name, and no other table changes. *)
Theorem project_created {E : Env} token org payload b w w' :
  reachable w -> serve (Tenant token org (CreateProject payload)) w = (Ok b, w') ->
  exists user p audit event_id ds,
    authenticated token w user /\ b = ProjectReply p /\
    p.(prj_organization_id) = org /\ p.(prj_name) = strip payload.(pc_name) /\
    p.(prj_description) = payload.(pc_description) /\ p.(prj_status) = "active" /\
    p.(prj_created_by) = user.(user_id) /\ find TProject (w_db w) p.(prj_id) = None /\
    w_db w' TProject = <[p.(prj_id) := p]> (w_db w TProject) /\
    audit.(aud_action) = "project.created" /\ audit.(aud_organization_id) = org /\
    audit.(aud_actor_id) = Some user.(user_id) /\ audit.(aud_entity_id) = Some p.(prj_id) /\
    find TAuditLog (w_db w) audit.(aud_id) = None /\
    w_db w' TAuditLog = <[audit.(aud_id) := audit]> (w_db w TAuditLog) /\
    event_effect org "project.created"
      (JObj [("project_id", JStr (uuid_str p.(prj_id))); ("name", JStr p.(prj_name))])
      event_id ds w w' /\
    (forall t, t ∉ [TProject; TAuditLog; TDelivery] -> w_db w' t = w_db w t).
Proof.
  intros Hw H. pose proof (serve_consistent _ _ _ _ Hw H) as [Hok' _].
  apply reachable_consistent in Hw as [Hok _]. apply serve_tenant_Ok in H.
  assert (Hframe := handle_tenant_refines token org _ _ _ _ Hok H).
  apply reply_with_Ok in H as (p & H & ->). unfold projects_create in H.
  apply bind_Ok in H as (c & w1 & Hg & H). pose proof (permitted_authenticated _ _ _ _ _ _ Hg) as Hu.
  apply require_permission_Ok in Hg as (-> & _). cbn beta in H.
  destruct (negb _); [by apply raise_Ok in H|]. apply bind_Ok in H as (p1 & w4 & H & [-> ->]%ret_Ok).
  unfold create_project in H.
  apply bind_Ok in H as (id & w1 & [-> ->]%read_Ok & H).
  apply bind_Ok in H as (t1 & w1 & [-> ->]%read_Ok & H).
  apply bind_Ok in H as (t2 & w1 & [-> ->]%read_Ok & H). cbv beta zeta in H.
  match type of H with context [add_flush TProject ?r] => set (p0 := r) in * end.
  apply bind_Ok in H as (u & w1 & (_ & Hn & Hr & ->)%add_flush_Ok & H).
  apply bind_Ok in H as (audit & w2 & Ha & H).
  apply record_audit_Ok in Ha as (Hao & Hau & Hac & _ & Hae & Han & Har & Hdb2 & Hlog2 & _).
  apply bind_Ok in H as (event_id & w3 & Hev & [-> ->]%ret_Ok).
  assert (Hok2 : db_ok (w_db w2)).
  { rewrite Hdb2. apply db_ok_put; [|done..]. apply db_ok_put; [done..|].
    intros old Hold. cbn in Hn, Hold. congruence. }
  apply emit_event_effect in Hev as (ds & Hds & Hrest); [|done].
  exists (ctx_user c), p0, audit, event_id, ds. split_and!; try done.
  - rewrite (Hrest TProject), Hdb2 by done. by tables.
  - rewrite (Hrest TAuditLog), Hdb2 by done. by tables.
  - eapply (event_effect_eq _ _ _ _ _ _ w2); [| | |exact Hds]; [| |done]; rewrite Hdb2; by tables.
  - intros t Ht. by apply (writes_frame _ _ _ _ t Hframe).
Qed.

Lemma project_created_witness :
  exists p ds event_id w',
    serve (Tenant alice_token acme (CreateProject (mkProjectCreate "  Probe " None))) w_setup
      = (Ok (ProjectReply p), w') /\
    p.(prj_name) = "Probe" /\ find TProject (w_db w_setup) p.(prj_id) = None /\
    event_effect acme "project.created"
      (JObj [("project_id", JStr (uuid_str p.(prj_id))); ("name", JStr p.(prj_name))])
      event_id ds w_setup w'.
Proof.
  destruct (serve_run (Tenant alice_token acme (CreateProject (mkProjectCreate "  Probe " None)))
              w_setup ltac:(vm_compute; reflexivity)) as [b Hb].
  destruct (project_created alice_token acme (mkProjectCreate "  Probe " None) b w_setup _
              w_setup_reachable Hb)
    as (user & p & audit & event_id & ds & _ & -> & _ & Hname & _ & _ & _ & Hn & _ & _ & _ & _ & _
        & _ & _ & Hev & _).
  exists p, ds, event_id. eexists. split; [exact Hb|split_and!; [|exact Hn|exact Hev]].
  rewrite Hname. vm_compute. reflexivity.
Defined.
