(* ===== verification/DeliveryTask.v ===== *)
(** * DeliveryTask: what a run of the delivery task does *)
From stdpp Require Import relations.
From S2P Require Import Prelude Text Json Schema Config TokenBucket Session Permissions Security.
From S2P Require Import Access AuditTrail Idempotency Events Projects Tasks Organizations Auth.
From S2P Require Import Signing Webhooks Billing Files Email Metrics Worker Lifecycle Refinement RefineServices.
From S2P Require Import RefineWorker Api RefineApi Logs Sample Tenancy Consistency Replay.
#[local] Open Scope string_scope.

(** Only counters were written: no message, no HTTP request. *)
Definition metric (e : effect) : Prop := match e with Hincrby _ _ => True | _ => False end.
Definition only_metrics (w w' : World) : Prop :=
  w_db w' = w_db w /\ w_redis w' = w_redis w /\
  exists l, w_log w' = (w_log w ++ l)%list /\ Forall metric l.

Section Facts.
Context {E : Env}.

Lemma only_metrics_trans w1 w2 w3 : only_metrics w1 w2 -> only_metrics w2 w3 -> only_metrics w1 w3.
Proof.
  intros (Hd & Hr & l & Hl & Hm) (Hd' & Hr' & l' & Hl' & Hm'). split_and!; try congruence.
  exists (l ++ l')%list. split; [by rewrite Hl', Hl, app_assoc|by apply Forall_app].
Qed.

(** Counting never fails. *)
Lemma hincrby_run key field w :
  exists w', hincrby key field w = (Ok tt, w') /\ only_metrics w w'.
Proof.
  unfold hincrby. erewrite bind_run by reflexivity. destruct (redis_up (w_tick w)).
  - eexists. split; [reflexivity|]. split_and!; try done. exists [Hincrby key field]. split; [done|].
    by constructor.
  - eexists. split; [reflexivity|]. split_and!; try done. exists []. by rewrite app_nil_r.
Qed.

(** The delivery a job names. *)
Definition delivery_named (id : string) (d : WebhookDelivery) (w : World) : Prop :=
  uuid_parse id = Some d.(dlv_id) /\ find TDelivery (w_db w) d.(dlv_id) = Some d.

Lemma claim_lookup d w :
  db_ok (w_db w) -> find TDelivery (w_db w) d.(dlv_id) = Some d ->
  scalar TDelivery (fun d' => N.eqb d'.(dlv_id) d.(dlv_id)) w = (Ok (Some d), w).
Proof.
  intros Hok Hd. apply (scalar_unique TDelivery _ (dlv_id d) d); [done|by rewrite N.eqb_refl|].
  intros id' d' Hd' Heq%N.eqb_eq. destruct (Hok _ _ _ Hd') as [Hid _]. cbn in Hid. congruence.
Qed.

Lemma parse_id_run id d w : uuid_parse id = Some d -> lift (parse_id id) w = (Ok d, w).
Proof. intros H. unfold lift, parse_id. by rewrite H. Qed.
End Facts.

(** Settled deliveries are left alone.  A job for a delivery that is delivered or dead returns
    normally: no request is sent, the delivery and the whole database stay, only the skip counters
    move. *)
Theorem settled_delivery_skipped {E : Env} retries id d w :
  db_ok (w_db w) -> delivery_named id d w -> d.(dlv_state) ∈ ["delivered"; "dead"] ->
  exists w', deliver_webhook retries id w = (Ok tt, w') /\ only_metrics w w'.
Proof.
  intros Hok [Hid Hd] Hst.
  assert (Hclaim : claim_delivery id w = (Ok (Outcome "skipped"), w)).
  { unfold claim_delivery. rewrite (bind_run _ _ _ _ _ (parse_id_run _ _ w Hid)).
    rewrite (bind_run _ _ _ _ _ (claim_lookup _ _ Hok Hd)).
    by rewrite (proj2 (one_of_elem _ _) Hst). }
  destruct (hincrby_run _WEBHOOK_HASH "skipped" w) as (w1 & H1 & Hm1).
  destruct (hincrby_run _BACKGROUND_HASH ("webhook_delivery" +:+ ":" +:+ "skipped") w1)
    as (w2 & H2 & Hm2).
  exists w2. split; [|by eapply only_metrics_trans].
  unfold deliver_webhook, try_except.
  rewrite (bind_run _ _ _ "skipped" w).
  - cbn [String.eqb Ascii.eqb Bool.eqb]. unfold record_webhook_delivery, record_background_job.
    rewrite (bind_run _ _ _ _ _ H1). by rewrite H2.
  - unfold run_delivery, get_session. rewrite (bind_run _ _ _ (Outcome "skipped") w); [done|].
    by rewrite Hclaim.
Qed.

Lemma settled_delivery_skipped_witness :
  exists w', deliver_webhook 1 acme_job w_delivered = (Ok tt, w') /\ only_metrics w_delivered w'.
Proof.
  apply (settled_delivery_skipped 1 acme_job (delivery_of acme_job w_delivered) w_delivered).
  - apply (proj1 (reachable_consistent _ w_delivered_reachable)).
  - split; vm_compute; reflexivity.
  - vm_compute. constructor.
Defined.

(** ** The request of an attempt *)
Definition no_post (e : effect) : Prop := match e with HttpPost _ _ _ => False | _ => True end.

(** The request [url], [body], [headers] is the one that the delivery [d] asks for in [w]: it is
    neither delivered nor dead, its endpoint is active and its target valid, the body is its
    canonical payload, signed at the time [t]. *)
Definition requested {E : Env} (w : World) (d : WebhookDelivery) (url body : string)
    (headers : list (string * string)) (t : nat) : Prop :=
  (d.(dlv_state) ∉ ["delivered"; "dead"]) /\
  exists e secret,
    find TEndpoint (w_db w) d.(dlv_endpoint_id) = Some e /\ e.(ep_is_active) = true /\
    url = e.(ep_url) /\ (exists w1 w2, validate_webhook_target url w1 = (Ok tt, w2)) /\
    decrypt_signing_secret e.(ep_signing_secret_encrypted) = Ok secret /\
    body = canonical_payload d.(dlv_payload) /\
    headers = [("Content-Type", "application/json");
               ("X-TenantFlow-Signature", signature_header secret body (clock t / 1000000));
               ("X-TenantFlow-Event", d.(dlv_event_type));
               ("X-TenantFlow-Event-ID", uuid_str d.(dlv_event_id))].

(** ** Time passes *)
Create HintDb later.

Section Later.
Context {E : Env}.

Definition later {A} (m : M A) : Prop := forall w r w', m w = (r, w') -> (w_tick w <= w_tick w')%nat.

Lemma later_bind {A B} (m : M A) (f : A -> M B) : later m -> (forall a, later (f a)) -> later (bind m f).
Proof.
  intros Hm Hf w r w' H. unfold bind in H. destruct (m w) as [[a|e] w1] eqn:Hw.
  - etrans; [by eapply Hm|by eapply Hf].
  - injection H as _ <-. by eapply Hm.
Qed.

Lemma later_try {A} (m : M A) h :
  later m -> (forall e m', h e = Some m' -> later m') -> later (try_except m h).
Proof.
  intros Hm Hh w r w' H. unfold try_except in H. destruct (m w) as [[a|e] w1] eqn:Hw.
  - injection H as _ <-. by eapply Hm.
  - destruct (h e) as [m'|] eqn:He; [|injection H as _ <-; by eapply Hm].
    etrans; [by eapply Hm|by eapply Hh].
Qed.

Lemma later_session {A} (m : M A) : later m -> later (get_session m).
Proof.
  intros Hm w r w' H. unfold get_session in H.
  destruct (m w) as [[a|e] w1] eqn:Hw; injection H as _ <-; by apply Hm in Hw.
Qed.

Lemma later_flush t old new : later (flush_update t old new).
Proof.
  unfold flush_update. intros w r w'. case_decide; [by intros [= _ <-]|].
  unfold bind, now, read. cbv zeta. repeat case_match; intros [= _ <-]; cbn; lia.
Qed.
End Later.

#[local] Hint Resolve later_flush : later.

Ltac later_step :=
  match goal with
  | |- later (bind _ _) => apply later_bind; [|intros ?]
  | |- later (match ?x with _ => _ end) => destruct x
  | |- later (let _ := _ in _) => cbv zeta
  | |- later (get_session _) => apply later_session
  | |- later (try_except _ _) => apply later_try; [|intros [] ? ?; simplify_eq]
  | |- later (fun w => _) =>
      intros ? ? ?; cbv zeta; repeat case_match; intros [= _ <-]; cbn; lia
  | |- later _ => solve [auto 2 with later nocore]
  | |- later ?m => let h := head_of m in progress unfold h
  end.
Ltac later := repeat later_step.

Section Posts.
Context {E : Env}.

Lemma target_error_later url : later (target_error url).
Proof. later. Qed.

(** What a claim decided, and the row it stored. *)
Lemma claim_attempt id held url body headers w w' :
  db_ok (w_db w) -> claim_delivery id w = (Ok (Attempt held url body headers), w') ->
  exists d t, delivery_named id d w /\ requested w d url body headers t /\
    (w_tick w <= t < w_tick w')%nat /\ delivery_named id held w' /\ held.(dlv_id) = d.(dlv_id) /\
    held.(dlv_attempt_count) = (d.(dlv_attempt_count) + 1)%Z.
Proof.
  intros Hok H. pose proof (claim_held _ _ _ _ _ _ _ Hok H) as [Hph Hheld]. unfold claim_delivery in H.
  apply bind_Ok in H as (u & w1 & [Hp ->]%lift_Ok & H).
  apply bind_Ok in H as (found & w1 & [-> Hs]%scalar_Ok & H). cbn beta in H.
  destruct found as [d|]; [|by apply raise_Ok in H].
  destruct Hs as [Hid%N.eqb_eq Hd%(stored TDelivery _ _ Hok)].
  destruct (one_of _ _) eqn:Hst; [by apply ret_Ok in H as [? _]|].
  apply bind_Ok in H as (ep & w1 & [-> ->]%get_Ok & H). cbn beta in H.
  destruct (find TEndpoint _ _) as [e|] eqn:He; [|by apply mark_dead_Attempt in H].
  destruct (ep_is_active e) eqn:Hact; cbn [negb] in H; [|by apply mark_dead_Attempt in H].
  apply bind_Ok in H as (error & w1 & Ht & H). cbn beta in H.
  destruct error as [msg|]; [by apply mark_dead_Attempt in H|].
  apply bind_Ok in H as (secret & w2 & [Hsec ->]%lift_Ok & H).
  apply bind_Ok in H as (sg & w2 & Hsg & H).
  apply bind_Ok in Hsg as (ts & w3 & Hts & [-> ->]%ret_Ok).
  apply bind_Ok in Hts as (now & w4 & [-> ->]%read_Ok & [-> ->]%ret_Ok).
  apply bind_Ok in H as (d' & w4 & Hf & [[= -> -> -> ->] ->]%ret_Ok).
  assert (Hname : forall i, parse_id id = Ok i -> uuid_parse id = Some i)
    by (unfold parse_id; intros i; destruct (uuid_parse id); congruence).
  assert (Hlate : (w_tick w <= w_tick w1)%nat).
  { eapply (target_error_later (ep_url e)); exact Ht. }
  assert (Hflush : (S (w_tick w1) <= w_tick w4)%nat) by exact (later_flush _ _ _ _ _ _ Hf).
  exists d, (w_tick w1). split_and!.
  - split; [|exact Hd]. apply Hname. congruence.
  - split; [intros Hx%one_of_elem; congruence|].
    exists e, secret. split_and!; try done.
    apply try_except_Ok in Ht as [Ht|(e0 & w5 & m' & _ & Hh & Ht)]; [|by destruct e0; simplify_eq].
    apply bind_Ok in Ht as ([] & w5 & Hv & _). eauto.
  - done.
  - lia.
  - split; [by apply Hname|exact Hheld].
  - rewrite Hph in Hp. injection Hp as ->. by cbn in Hid.
  - apply flush_update_Ok in Hf as [(Heq & _ & _)|(_ & -> & _)]; [|done].
    apply (f_equal dlv_attempt_count) in Heq. cbn in Heq. lia.
Qed.

Lemma claim_no_post id : logs no_post (claim_delivery id).
Proof. logs. Qed.

(** The settling transactions keep the attempt count, whether they commit or not. *)
Definition same_count (id : uuid) (n : Z) (db : Db) : Prop :=
  exists d, find TDelivery db id = Some d /\ d.(dlv_attempt_count) = n.

Lemma flush_held_count held new w u w' :
  flush_held held new held w = (Ok u, w') ->
  find TDelivery (w_db w) held.(dlv_id) = Some held -> new.(dlv_id) = held.(dlv_id) ->
  new.(dlv_attempt_count) = held.(dlv_attempt_count) -> same_count held.(dlv_id) held.(dlv_attempt_count) (w_db w').
Proof.
  intros H Hd Hid Hn. rewrite flush_held_self in H by done.
  apply bind_Ok in H as (r & w1 & Hf & [_ ->]%ret_Ok).
  apply flush_update_Ok in Hf as [(_ & _ & ->)|(_ & -> & _ & _ & _ & ->)]; [by exists held|].
  eexists. split; [by apply find_put|done].
Qed.

Lemma settled_count {A} id held (m : M A) w r w' :
  delivery_named id held w ->
  (forall w1 a w2, w_db w1 = w_db w -> m w1 = (Ok a, w2) ->
     same_count held.(dlv_id) held.(dlv_attempt_count) (w_db w2)) ->
  get_session m w = (r, w') -> same_count held.(dlv_id) held.(dlv_attempt_count) (w_db w').
Proof.
  intros [_ Hd] Hm H. destruct r as [a|e].
  - rewrite get_session_Ok in H. by eapply Hm.
  - apply get_session_Err in H as ->. by exists held.
Qed.

Lemma fail_count id held message w a w' :
  delivery_named id held w -> fail_delivery held id message w = (Ok a, w') ->
  same_count held.(dlv_id) held.(dlv_attempt_count) (w_db w').
Proof.
  intros [Hp Hd] H. unfold fail_delivery in H. rewrite (bind_run _ _ _ _ _ (parse_id_run _ _ w Hp)) in H.
  apply bind_Ok in H as (found & w1 & [-> ->]%get_Ok & H). rewrite Hd in H. cbv zeta in H.
  destruct (5 <=? _)%Z.
  - apply bind_Ok in H as (u & w1 & Hf & [_ ->]%ret_Ok). by apply (flush_held_count _ _ _ _ _ Hf).
  - apply bind_Ok in H as (ts & w1 & [-> ->]%read_Ok & H).
    apply bind_Ok in H as (u & w1 & Hf & [_ ->]%ret_Ok). by apply (flush_held_count _ _ _ _ _ Hf).
Qed.

Lemma succeed_count id held status w u w' :
  delivery_named id held w -> succeed_delivery held id status w = (Ok u, w') ->
  same_count held.(dlv_id) held.(dlv_attempt_count) (w_db w').
Proof.
  intros [Hp Hd] H. unfold succeed_delivery in H. rewrite (bind_run _ _ _ _ _ (parse_id_run _ _ w Hp)) in H.
  apply bind_Ok in H as (found & w1 & [-> ->]%get_Ok & H). rewrite Hd in H.
  by apply (flush_held_count _ _ _ _ _ H).
Qed.

(** What a run does after the claim: the request, and nothing else that leaves the process. *)
Lemma settle_posts id held url body headers w r w' :
  delivery_named id held w -> settle id (Attempt held url body headers) w = (r, w') ->
  (exists l, w_log w' = (w_log w ++ HttpPost url body headers :: l)%list /\ Forall no_post l) /\
  same_count held.(dlv_id) held.(dlv_attempt_count) (w_db w').
Proof.
  intros Hn H. cbn [settle] in H. unfold post in H. erewrite bind_run in H by reflexivity. cbn beta in H.
  match type of H with match ?x with _ => _ end ?w1 = _ =>
    assert (Hn1 : delivery_named id held w1) by exact Hn;
    assert (Hl1 : w_log w1 = (w_log w ++ [HttpPost url body headers])%list) by done;
    set (w1' := w1) in *; clearbody w1'; destruct x as [status|message] end; split.
  - assert (Hlogs : logs no_post (
      let! _ := get_session (succeed_delivery held id status) in
      let! _ := record_webhook_delivery "delivered" in
      let! _ := record_background_job "webhook_delivery" "success" in ret "delivered")) by logs.
    destruct (Hlogs _ _ _ H) as (l & Hl & HP). exists l. by rewrite Hl, Hl1, <- app_assoc.
  - unfold bind at 1 in H. destruct (get_session _ w1') as [r1 w2] eqn:Hs.
    eapply settled_count in Hs; [|exact Hn1|].
    2: { intros w3 a w4 Hdb. apply succeed_count. unfold delivery_named. by rewrite Hdb. }
    destruct r1 as [u|e]; [|by injection H as _ <-].
    match type of H with ?m w2 = _ => assert (Hm : quiet m) end.
    { unfold record_webhook_delivery, record_background_job, hincrby. quiet. }
    by rewrite (Hm _ _ _ H).
  - assert (Hlogs : logs no_post (
      let! outcome := get_session (fail_delivery held id message) in
      if String.eqb outcome "skipped" then ret "skipped" else
      let! _ := record_webhook_delivery outcome in
      let! _ := record_background_job "webhook_delivery" outcome in
      if String.eqb outcome "dead" then ret "dead" else raise (HTTPError message))) by logs.
    destruct (Hlogs _ _ _ H) as (l & Hl & HP). exists l. by rewrite Hl, Hl1, <- app_assoc.
  - unfold bind at 1 in H. destruct (get_session _ w1') as [r1 w2] eqn:Hs.
    eapply settled_count in Hs; [|exact Hn1|].
    2: { intros w3 a w4 Hdb. apply fail_count. unfold delivery_named. by rewrite Hdb. }
    destruct r1 as [o|e]; [|by injection H as _ <-].
    match type of H with ?m w2 = _ => assert (Hm : quiet m) end.
    { unfold record_webhook_delivery, record_background_job, hincrby. quiet. }
    by rewrite (Hm _ _ _ H).
Qed.

(** The requests of a run: none, or the one of the delivery's attempt, which is counted. *)
Definition posts (id : string) (w w' : World) : Prop :=
  exists l, w_log w' = (w_log w ++ l)%list /\
    (Forall no_post l \/
     exists before after d url body headers t,
       l = (before ++ HttpPost url body headers :: after)%list /\
       Forall no_post before /\ Forall no_post after /\
       delivery_named id d w /\ requested w d url body headers t /\
       (w_tick w <= t < w_tick w')%nat /\
       exists d', find TDelivery (w_db w') d.(dlv_id) = Some d' /\
         d'.(dlv_attempt_count) = (d.(dlv_attempt_count) + 1)%Z).

(** What follows without another request. *)
Lemma posts_after id w w1 w2 l :
  posts id w w1 -> (w_tick w1 <= w_tick w2)%nat -> w_db w2 = w_db w1 -> w_log w2 = (w_log w1 ++ l)%list -> Forall no_post l ->
  posts id w w2.
Proof.
  intros (l1 & Hl1 & H) Ht Hdb Hl HP. exists (l1 ++ l)%list. split; [by rewrite Hl, Hl1, app_assoc|].
  destruct H as [H|(before & after & d & url & body & headers & t & -> & Hb & Ha & Hn & Hr & Htm & d' & Hd' & Hc)].
  - left. by apply Forall_app.
  - right. exists before, (after ++ l)%list, d, url, body, headers, t. rewrite Hdb.
    split_and!; try done; [by rewrite <- app_assoc|by apply Forall_app|lia|lia|by exists d'].
Qed.

Lemma settle_later id c : later (settle id c).
Proof. later. Qed.

Lemma run_posts id w r w' : db_ok (w_db w) -> run_delivery id w = (r, w') -> posts id w w'.
Proof.
  intros Hok H. unfold run_delivery, bind in H.
  destruct (get_session (claim_delivery id) w) as [[c|e] w1] eqn:Hc.
  - pose proof (logs_session _ _ (claim_no_post id) _ _ _ Hc) as (l1 & Hl1 & HP1).
    rewrite get_session_Ok in Hc. destruct c as [o|held url body headers].
    { injection H as _ <-. exists l1. by split; [|left]. }
    apply claim_attempt in Hc as (d & t & Hn & Hr & Ht & Hheld & Hid & Hcount); [|done].
    assert (Hlate : (w_tick w1 <= w_tick w')%nat)
      by (eapply (settle_later id (Attempt held url body headers)); exact H).
    destruct (settle_posts _ _ _ _ _ _ _ _ Hheld H) as [(l & Hl & HP) (d' & Hd' & Hn')].
    exists (l1 ++ HttpPost url body headers :: l)%list. split; [by rewrite Hl, Hl1, app_assoc|]. right.
    exists l1, l, d, url, body, headers, t. rewrite <- Hid, <- Hcount. split_and!; try done; [lia|lia|by exists d'].
  - pose proof (logs_session _ _ (claim_no_post id) _ _ _ Hc) as (l1 & Hl1 & HP1).
    injection H as _ <-. exists l1. by split; [|left].
Qed.

(** The [except] clauses of the task send nothing. *)
Lemma handled_posts retries id w w1 e r w' :
  posts id w w1 ->
  match match e with
        | HTTPError _ => Some (self_retry deliver_webhook_task [id] retries 5 (backoff retries) e)
        | RuntimeError _ => Some (
            let! _ := record_background_job "webhook_delivery" "retry" in
            self_retry deliver_webhook_task [id] retries 5 (backoff retries) e)
        | _ => None
        end with
  | Some m' => m' w1
  | None => (Err e, w1)
  end = (r, w') -> posts id w w'.
Proof.
  intros Hp H.
  assert (Hm : forall m : M unit, later m -> quiet m -> logs no_post m -> m w1 = (r, w') -> posts id w w').
  { intros m Ht Hq Hl Hrun. destruct (Hl _ _ _ Hrun) as (l & Hl2 & HP).
    exact (posts_after _ _ _ _ _ Hp (Ht _ _ _ Hrun) (Hq _ _ _ Hrun) Hl2 HP). }
  destruct e; try by injection H as _ <-.
  - eapply (Hm _ _ _ _ H). Unshelve.
    + later.
    + unfold record_background_job, hincrby, self_retry. quiet.
    + logs.
  - eapply (Hm _ _ _ _ H). Unshelve.
    + later.
    + unfold self_retry. quiet.
    + logs.
Qed.
End Posts.

(** C22: what the worker sends.  Whatever the outcome of a run of the delivery task, it makes at most
    one HTTP request, and only for a delivery that was neither delivered nor dead, of an active
    endpoint whose target passed validation; the request goes to the endpoint's URL, its body is the
    canonical JSON of the stored payload, its signature header is computed with the decrypted secret
    over that body at the current time, and the attempt is counted whether or not the rest of the run
    succeeds. *)
Theorem attempt_signed {E : Env} retries id w r w' :
  reachable w -> deliver_webhook retries id w = (r, w') -> posts id w w'.
Proof.
  intros [Hok _]%reachable_consistent H. unfold deliver_webhook, try_except in H.
  unfold bind at 1 in H. destruct (run_delivery id w) as [[o|e] w1] eqn:Hrun.
  - pose proof (run_posts _ _ _ _ Hok Hrun) as Hp.
    match type of H with match ?m w1 with _ => _ end = _ =>
      assert (Hm : quiet m) by (unfold record_webhook_delivery, record_background_job, hincrby; quiet);
      assert (Hl : logs no_post m) by logs; assert (Ht : later m) by later; destruct (m w1) as [[u|e] w2] eqn:H2 end;
    destruct (Hl _ _ _ H2) as (l & Hl2 & HP); pose proof (posts_after _ _ _ _ _ Hp (Ht _ _ _ H2) (Hm _ _ _ H2) Hl2 HP) as Hp2.
    + by injection H as _ <-.
    + eapply handled_posts; [exact Hp2|exact H].
  - eapply handled_posts; [by eapply run_posts|exact H].
Qed.

Lemma attempt_signed_witness :
  exists l before after d url body headers secret t,
    w_log (deliver_webhook 0 acme_job w_setup).2 = (w_log w_setup ++ l)%list /\
    l = (before ++ HttpPost url body headers :: after)%list /\ body = canonical_payload d.(dlv_payload) /\
    headers !! 1%nat =
      Some ("X-TenantFlow-Signature", signature_header secret body (clock t / 1000000)).
Proof.
  destruct (attempt_signed 0 acme_job w_setup (deliver_webhook 0 acme_job w_setup).1
    (deliver_webhook 0 acme_job w_setup).2 w_setup_reachable (surjective_pairing _)) as (l & Hl & Hp).
  destruct Hp as [Hp|(before & after & d & url & body & headers & t & Hl' & _ & _ & _ & (_ & e & secret & Hr) & _)].
  - exfalso. assert (Hx : existsb (fun e => match e with HttpPost _ _ _ => true | _ => false end)
      (drop (List.length (w_log w_setup)) (w_log (deliver_webhook 0 acme_job w_setup).2)) = true)
      by (vm_compute; reflexivity).
    rewrite Hl, drop_app_length in Hx. apply existsb_exists in Hx as (e & Hin & He).
    rewrite Forall_forall in Hp. apply list_elem_of_In, Hp in Hin. by destruct e.
  - destruct Hr as (_ & _ & _ & _ & _ & Hbody & Hh).
    exists l, before, after, d, url, body, headers, secret, t.
    split; [exact Hl|]. split; [exact Hl'|]. split; [exact Hbody|]. rewrite Hh. reflexivity.
Defined.

(** ** Exhaustion of the retries *)
Section Failing.
Context {E : Env}.

(** An update that keeps the identity of a stored delivery satisfies the constraints. *)
Lemma delivery_row_ok db d d' :
  db_ok db -> find TDelivery db d.(dlv_id) = Some d -> d'.(dlv_id) = d.(dlv_id) ->
  d'.(dlv_event_id) = d.(dlv_event_id) -> d'.(dlv_endpoint_id) = d.(dlv_endpoint_id) ->
  one_of delivery_states d'.(dlv_state) = true -> fits TDelivery d' = true ->
  row_ok TDelivery db d' = true.
Proof.
  intros Hok Hd Hid Hev Hep Hst Hfit. destruct (Hok _ _ _ Hd) as [_ (_ & Href & Hu)%row_ok_true].
  apply row_ok_true. cbn in *. rewrite Hid, Hev, Hep. split_and!; done.
Qed.

Lemma delivery_fits d d' :
  fits TDelivery d = true -> d'.(dlv_event_type) = d.(dlv_event_type) ->
  d'.(dlv_response_status) = d.(dlv_response_status) -> one_of delivery_states d'.(dlv_state) = true ->
  (0 <= d'.(dlv_attempt_count) <= 5)%Z -> fits TDelivery d' = true.
Proof.
  unfold fits. intros [[[H1 _]%andb_true_iff _]%andb_true_iff H4]%andb_true_iff Ht Hr Hst Ha.
  rewrite Ht, Hr, H1, H4, andb_true_r. apply andb_true_iff. split.
  - apply one_of_elem in Hst. unfold delivery_states in Hst. cbn.
    set_unfold in Hst. destruct_or!; rewrite Hst; done.
  - unfold int4. apply andb_true_iff. split; [apply Z.leb_le|apply Z.ltb_lt]; lia.
Qed.

(** [d'] continues the stored delivery [d]. *)
Definition continues (d d' : WebhookDelivery) : Prop :=
  d'.(dlv_id) = d.(dlv_id) /\ d'.(dlv_event_id) = d.(dlv_event_id) /\
  d'.(dlv_endpoint_id) = d.(dlv_endpoint_id) /\ d'.(dlv_event_type) = d.(dlv_event_type) /\
  d'.(dlv_response_status) = d.(dlv_response_status) /\
  one_of delivery_states d'.(dlv_state) = true /\ (0 <= d'.(dlv_attempt_count) <= 5)%Z.

Lemma update_delivery_run w d d' :
  db_ok (w_db w) -> find TDelivery (w_db w) d.(dlv_id) = Some d -> fits TDelivery d = true ->
  d <> d' -> continues d d' ->
  let r := touch TDelivery (clock (w_tick w)) d' in
  let w' := set_db (put TDelivery r (w_db w)) (ticked w) in
  flush_update TDelivery d d' w = (Ok r, w') /\ db_ok (w_db w') /\ fits TDelivery r = true /\
  find TDelivery (w_db w') r.(dlv_id) = Some r /\ w_db w' TEndpoint = w_db w TEndpoint.
Proof.
  intros Hok Hd Hfit Hne (Hid & Hev & Hep & Hty & Hrs & Hst & Ha) r w'.
  assert (Hfit' : fits TDelivery r = true) by by apply (delivery_fits d).
  assert (Hrow : row_ok TDelivery (w_db w) r = true) by by apply (delivery_row_ok _ d).
  split_and!; [|by apply db_ok_put|done|by apply find_put|by cbn; tables].
  apply flush_update_run; [done| |exact Hfit'|exact Hrow].
  apply has_true. exists d. cbn. by rewrite Hid.
Qed.

Context (id : string) (e : WebhookEndpoint) (secret : string).

(** The delivery [d] of the active endpoint [e], after [n] attempts, in the state [state]. *)
Definition delivery_at (n : Z) (state : string) (d : WebhookDelivery) (w : World) : Prop :=
  delivery_named id d w /\ db_ok (w_db w) /\ fits TDelivery d = true /\
  d.(dlv_state) = state /\ d.(dlv_attempt_count) = n /\
  d.(dlv_endpoint_id) = e.(ep_id) /\ find TEndpoint (w_db w) e.(ep_id) = Some e.

Lemma delivery_at_db n state d w w' : w_db w' = w_db w -> delivery_at n state d w -> delivery_at n state d w'.
Proof. unfold delivery_at, delivery_named. by intros ->. Qed.

(** The update of a delivery in a given situation leads to the situation of the new row. *)
Lemma delivery_at_update n state d d' w :
  delivery_at n state d w -> continues d d' ->
  exists r w', flush_update TDelivery d d' w = (Ok r, w') /\
    delivery_at d'.(dlv_attempt_count) d'.(dlv_state) r w'.
Proof.
  intros Hat Hc. pose proof Hat as ([Hp Hd] & Hok & Hfit & Hst & Hn & Hep & He).
  destruct (decide (d = d')) as [<-|Hne].
  { exists d, w. split; [|by rewrite Hst, Hn].
    unfold flush_update. by destruct (decide _). }
  destruct (update_delivery_run w d d' Hok Hd Hfit Hne Hc) as (Hf & Hok' & Hfit' & Hd' & HE).
  destruct Hc as (Hid & _ & Hep' & _). do 2 eexists. split; [exact Hf|].
  split; [split; [cbn; by rewrite Hid|exact Hd']|]. split; [exact Hok'|]. split; [exact Hfit'|].
  split; [done|]. split; [done|]. split; [cbn; by rewrite Hep'|by rewrite HE].
Qed.

Context (Hactive : ep_is_active e = true)
  (Htarget : forall w, exists w1, target_error (ep_url e) w = (Ok None, w1))
  (Hsecret : decrypt_signing_secret (ep_signing_secret_encrypted e) = Ok secret)
  (Hdown : forall t body headers, exists m, http_post t (ep_url e) body headers = HttpError m).

Lemma claim_run n state d w :
  delivery_at n state d w -> state ∈ ["pending"; "retrying"] -> (0 <= n < 5)%Z ->
  exists body headers w1 d1,
    claim_delivery id w = (Ok (Attempt d1 (ep_url e) body headers), w1) /\
    delivery_at (n + 1) state d1 w1.
Proof.
  intros Hat Hstate Hrange. pose proof Hat as ([Hp Hd] & Hok & Hfit & Hst & Hn & Hep & He).
  destruct (Htarget w) as [wt Ht]. pose proof (target_error_quiet _ _ _ _ Ht) as Hq.
  destruct (delivery_at_update n state d
    {| d with dlv_attempt_count := (d.(dlv_attempt_count) + 1)%Z |} (ticked wt))
    as (r & w1 & Hf & Hat1); [by apply (delivery_at_db _ _ _ w)| |].
  - split_and!; try done; cbn [dlv_attempt_count dlv_state]; [|lia..].
    apply one_of_elem. rewrite Hst. unfold delivery_states. set_solver.
  - do 2 eexists. exists w1, r. split; [|cbn in Hat1; by rewrite Hn, Hst in Hat1].
    unfold claim_delivery. rewrite (bind_run _ _ _ _ _ (parse_id_run _ _ w Hp)).
    rewrite (bind_run _ _ _ _ _ (claim_lookup _ _ Hok Hd)).
    replace (one_of ["delivered"; "dead"] (dlv_state d)) with false
      by (set_unfold in Hstate; destruct_or!; rewrite Hst, Hstate; done).
    rewrite (bind_run _ _ _ (Some e) w) by (unfold get; by rewrite Hep, He). rewrite Hactive.
    cbn [negb]. rewrite (bind_run _ _ _ _ _ Ht).
    rewrite (bind_run _ _ _ secret wt) by (unfold lift; by rewrite Hsecret). cbv zeta.
    rewrite (bind_run _ _ _ _ (ticked wt)) by reflexivity.
    by rewrite (bind_run _ _ _ _ _ Hf).
Qed.

(** After the [n]-th attempt failed. *)
Definition outcome_after (n : Z) : string * string :=
  if (5 <=? n)%Z then ("dead", "dead") else ("retry", "retrying").

Lemma fail_run n state d message w :
  delivery_at n state d w -> (0 <= n <= 5)%Z ->
  exists w1 d1,
    fail_delivery d id message w = (Ok (outcome_after n).1, w1) /\
    delivery_at n (outcome_after n).2 d1 w1.
Proof.
  intros Hat Hrange. pose proof Hat as ([Hp Hd] & Hok & Hfit & Hst & Hn & Hep & He).
  unfold fail_delivery. rewrite (bind_run _ _ _ _ _ (parse_id_run _ _ w Hp)).
  rewrite (bind_run _ _ _ (Some d) w) by (unfold get_for_update, get; by rewrite Hd). cbv zeta.
  rewrite Hn. unfold outcome_after. destruct (5 <=? n)%Z.
  - match goal with |- context [flush_held d ?x d] =>
      destruct (delivery_at_update n state d x w Hat) as (r & w1 & Hf & Hat1) end.
    { split_and!; try done; cbn; lia. }
    exists w1, r. rewrite (bind_run _ _ _ tt w1); [by cbn in Hat1|].
    rewrite flush_held_self by done. by rewrite (bind_run _ _ _ _ _ Hf).
  - rewrite (bind_run _ _ _ (clock (w_tick w)) (ticked w)) by reflexivity.
    match goal with |- context [flush_held d ?x d] =>
      destruct (delivery_at_update n state d x (ticked w)) as (r & w1 & Hf & Hat1) end.
    { by apply (delivery_at_db _ _ _ w). }
    { split_and!; try done; cbn; lia. }
    exists w1, r. rewrite (bind_run _ _ _ tt w1); [by cbn in Hat1|].
    rewrite flush_held_self by done. by rewrite (bind_run _ _ _ _ _ Hf).
Qed.

(** One failing run of the task. *)
Lemma failing_run n state d w retries :
  delivery_at n state d w -> state ∈ ["pending"; "retrying"] -> (0 <= n < 5)%Z ->
  exists d1, delivery_at (n + 1) (outcome_after (n + 1)).2 d1 (deliver_webhook retries id w).2.
Proof.
  intros Hat Hstate Hrange.
  destruct (claim_run _ _ _ _ Hat Hstate Hrange) as (body & headers & w1 & d1 & Hc & Hat1).
  destruct (Hdown (w_tick w1) body headers) as [m Hm].
  set (w2 := add_log (HttpPost (ep_url e) body headers) (ticked w1)).
  destruct (fail_run (n + 1) state d1 m w2) as (w3 & d2 & Hfail & Hat2);
    [by apply (delivery_at_db _ _ _ w1)|lia|].
  exists d2.
  assert (Hrun : exists r w4, run_delivery id w = (r, w4) /\ w_db w4 = w_db w3 /\
            (r = Ok "dead" \/ r = Err (HTTPError m))).
  { destruct (hincrby_run _WEBHOOK_HASH (outcome_after (n + 1)).1 w3)
      as (w4 & H4 & Hm4 & _).
    destruct (hincrby_run _BACKGROUND_HASH
                ("webhook_delivery" +:+ ":" +:+ (outcome_after (n + 1)).1) w4) as (w5 & H5 & Hm5 & _).
    exists (if (5 <=? n + 1)%Z then Ok "dead" else Err (HTTPError m)), w5.
    split_and!; [|congruence|by destruct (5 <=? n + 1)%Z; [left|right]].
    unfold run_delivery, get_session. rewrite (bind_run _ _ _ (Attempt d1 (ep_url e) body headers) w1)
      by (by rewrite Hc). cbn [settle].
    rewrite (bind_run _ _ _ (HttpError m) w2) by (unfold post, bind, read; by rewrite <- Hm).
    rewrite (bind_run _ _ _ (outcome_after (n + 1)).1 w3) by (unfold get_session; by rewrite Hfail).
    unfold record_webhook_delivery, record_background_job, outcome_after in *.
    destruct (5 <=? n + 1)%Z; cbn [fst snd] in *; cbn [String.eqb Ascii.eqb Bool.eqb];
      rewrite (bind_run _ _ _ _ _ H4), (bind_run _ _ _ _ _ H5); done. }
  destruct Hrun as (r & w4 & Hrun & Hdb & Hr). eapply delivery_at_db; [|exact Hat2].
  rewrite <- Hdb. unfold deliver_webhook.
  destruct Hr as [-> | ->].
  - erewrite try_except_db; [reflexivity| |].
    + rewrite (bind_run _ _ _ _ _ Hrun). reflexivity.
    + intros e0 m' He0. destruct e0; simplify_eq; unfold record_background_job, hincrby, self_retry; quiet.
  - erewrite try_except_db; [reflexivity| |].
    + by rewrite (bind_fail _ _ _ _ _ Hrun).
    + intros e0 m' He0. destruct e0; simplify_eq; unfold record_background_job, hincrby, self_retry; quiet.
Qed.

(** The jobs of one delivery, one after the other. *)
Definition run_jobs (retries : list Z) (w : World) : World :=
  foldl (fun w r => (deliver_webhook r id w).2) w retries.

Lemma failing_jobs retries n d state w :
  delivery_at n state d w -> state ∈ ["pending"; "retrying"] -> (0 <= n)%Z ->
  (n + Z.of_nat (List.length retries) = 5)%Z -> retries <> [] ->
  exists d', delivery_at 5 "dead" d' (run_jobs retries w).
Proof.
  revert n d state w. induction retries as [|r rs IH]; intros n d state w Hat Hst Hn Hlen Hne; [done|].
  cbn [List.length] in Hlen. destruct (failing_run n state d w r Hat Hst) as [d1 Hat1]; [lia|].
  cbn [run_jobs foldl]. destruct rs as [|r' rs].
  - cbn in Hlen. assert (n = 4)%Z as -> by lia. by exists d1.
  - apply (IH (n + 1)%Z d1 "retrying"); [|set_solver|lia|lia|done].
    replace (outcome_after (n + 1)).2 with "retrying" in Hat1; [exact Hat1|].
    unfold outcome_after. cbn [List.length] in Hlen. destruct (Z.leb_spec 5 (n + 1)); [lia|done].
Qed.
End Failing.

(** C24: retries end.  When every request to the endpoint fails, a delivery that has made [n]
    attempts, 0 <= n < 5, is dead with five attempts counted after 5 - n runs of its job, whatever
    the messages of the failures: the task neither gives up earlier nor retries for ever. *)
Theorem retries_exhausted {E : Env} id d e secret retries w :
  reachable w -> delivery_named id d w ->
  d.(dlv_state) ∈ ["pending"; "retrying"] -> (0 <= d.(dlv_attempt_count) < 5)%Z ->
  find TEndpoint (w_db w) d.(dlv_endpoint_id) = Some e -> ep_is_active e = true ->
  (forall w, exists w1, target_error (ep_url e) w = (Ok None, w1)) ->
  decrypt_signing_secret (ep_signing_secret_encrypted e) = Ok secret ->
  (forall t body headers, exists m, http_post t (ep_url e) body headers = HttpError m) ->
  (d.(dlv_attempt_count) + Z.of_nat (List.length retries) = 5)%Z ->
  exists d', delivery_named id d' (run_jobs id retries w) /\
    d'.(dlv_state) = "dead" /\ d'.(dlv_attempt_count) = 5%Z.
Proof.
  intros [Hok _]%reachable_consistent Hd Hst Hn He Hact Ht Hs Hdown Hlen.
  destruct (Hok _ _ _ He) as [Hid _]. cbn in Hid.
  destruct (Hok _ _ _ (proj2 Hd)) as [_ ([Hfit _] & _)%row_ok_true].
  destruct (failing_jobs id e secret Hact Ht Hs Hdown retries (dlv_attempt_count d) d (dlv_state d) w)
    as (d' & Hd' & _ & _ & Hst' & Hn' & _).
  - split_and!; try done; by rewrite Hid.
  - exact Hst.
  - lia.
  - exact Hlen.
  - intros ->. cbn in Hlen. lia.
  - by exists d'.
Qed.

Definition endpoint_of (id : string) (w : World) : WebhookEndpoint :=
  default (mkWebhookEndpoint 0 0 "" "" "" [] false 0 0 0)
    (find TEndpoint (w_db w) (dlv_endpoint_id (delivery_of id w))).

Lemma retries_exhausted_witness :
  exists d', delivery_named globex_job d' (run_jobs globex_job [0; 1; 2; 3; 4]%Z w_setup) /\
    d'.(dlv_state) = "dead" /\ d'.(dlv_attempt_count) = 5%Z.
Proof.
  set (e := endpoint_of globex_job w_setup).
  destruct (decrypt_signing_secret (ep_signing_secret_encrypted e)) as [secret|err] eqn:Hs;
    [|exfalso; vm_compute in Hs; discriminate].
  apply (retries_exhausted globex_job (delivery_of globex_job w_setup) e secret
           [0; 1; 2; 3; 4]%Z w_setup w_setup_reachable).
  - split; vm_compute; reflexivity.
  - vm_compute. constructor.
  - vm_compute. split; [discriminate|reflexivity].
  - vm_compute. reflexivity.
  - vm_compute. reflexivity.
  - intros w. exists w. reflexivity.
  - exact Hs.
  - intros t body headers. exists "connection refused".
    assert (Hurl : ep_url e = "https://down.globex.org") by (vm_compute; reflexivity).
    rewrite Hurl. reflexivity.
  - vm_compute. reflexivity.
Defined.

(** A late failure reopens a delivery.  The transaction that records a failed attempt decides on the
    object of its own claim: when a delivery was claimed while it was pending and another attempt
    has succeeded meanwhile, the delivered row becomes "retrying" again.  An object that was claimed
    "retrying" has no new state to write, and leaves it delivered. *)
Lemma late_failure held d message ts :
  held.(dlv_id) = d.(dlv_id) -> d.(dlv_state) = "delivered" ->
  held.(dlv_state) ∈ ["pending"; "retrying"] ->
  let new := {| held with dlv_last_error := Some message; dlv_state := "retrying";
                dlv_next_retry_at := Some ts |} in
  (set_changed held new d).(dlv_state) =
    if String.eqb held.(dlv_state) "pending" then "retrying" else "delivered".
Proof.
  intros Hid Hd Hst. cbn. rewrite Hd. unfold changed_column. set_unfold in Hst.
  destruct Hst as [-> | [-> | []]]; reflexivity.
Qed.
