(* ===== verification/Payments.v ===== *)
(** * Payments: Stripe events and subscriptions *)
From stdpp Require Import relations.
From S2P Require Import Prelude Text Json Schema Config TokenBucket Session Permissions Security.
From S2P Require Import Access AuditTrail Idempotency Events Projects Tasks Organizations Auth.
From S2P Require Import Webhooks Billing Files Email Metrics Worker Lifecycle Refinement RefineServices.
From S2P Require Import RefineWorker Api RefineApi Sample Tenancy Consistency Replay.
#[local] Open Scope string_scope.

Section Facts.
Context {E : Env}.

(** After an event was processed, or recognised as a duplicate, its marker is stored. *)
Lemma process_stripe_event_marker event b w w' :
  db_ok (w_db w) -> process_stripe_event event w = (Ok b, w') ->
  exists eid ety id r, item "id" event = Ok eid /\ item "type" event = Ok ety /\
    find TStripeEvent (w_db w') id = Some r /\ r.(sev_stripe_event_id) = py_str eid.
Proof.
  unfold process_stripe_event. intros Hok H.
  apply bind_Ok in H as (eid & w1 & [Heid ->]%lift_Ok & H).
  apply bind_Ok in H as (ety & w1 & [Hety ->]%lift_Ok & H).
  apply bind_Ok in H as (ts & w1 & [-> ->]%read_Ok & H).
  apply bind_Ok in H as (id & w1 & [-> ->]%read_Ok & H).
  apply bind_Ok in H as (inserted & w1 & Hins & H). cbn beta in H. exists eid, ety.
  apply insert_on_conflict_Ok in Hins as [(-> & -> & id & r & Hr & Hs)|(-> & _ & Hn & Hrow & -> & _)].
  { apply bind_Ok in H as (u & w1 & [= <- <-] & [-> ->]%ret_Ok). exists id, r.
    split_and!; try done. unfold same_stripe_event in Hs. by apply String.eqb_eq in Hs. }
  match type of H with context [set_db (put TStripeEvent ?r _) ?w1] =>
    set (marker := r) in *; set (w2 := set_db (put TStripeEvent marker (w_db w1)) w1) in * end.
  apply bind_Ok in H as (data & w3 & [_ ->]%lift_Ok & H).
  apply bind_Ok in H as (object & w3 & [_ ->]%lift_Ok & H).
  apply bind_Ok in H as (obj & w3 & [_ ->]%lift_Ok & H).
  apply bind_Ok in H as (org & w3 & Hres%resolve_organization_quiet & H). cbn beta in H.
  apply bind_Ok in H as (u & w4 & Hup & H). apply bind_Ok in H as (u2 & w5 & [= <- <-] & H).
  apply ret_Ok in H as [-> ->]. exists (sev_id marker), marker. split_and!; try done.
  cbn [w_db add_log].
  assert (Hsame : w_db w4 TStripeEvent = w_db w3 TStripeEvent).
  { destruct org as [org|]; [|by apply ret_Ok in Hup as [_ ->]].
    apply update_subscription_refines in Hup.
    - by apply (writes_frame _ _ _ _ TStripeEvent Hup); set_solver.
    - rewrite Hres. by apply db_ok_put. }
  rewrite Hsame, Hres. by apply find_put.
Qed.

(** An event whose marker is stored is only counted. *)
Lemma process_duplicate event eid ety id r w :
  item "id" event = Ok eid -> item "type" event = Ok ety ->
  find TStripeEvent (w_db w) id = Some r -> r.(sev_stripe_event_id) = py_str eid ->
  exists w', process_stripe_event event w = (Ok false, w') /\ w_db w' = w_db w /\
    w_log w' = (w_log w ++ [Inc STRIPE_WEBHOOK_EVENTS.(m_name) ["duplicate"]])%list.
Proof.
  intros Heid Hety Hr Hs.
  exists (add_log (Inc STRIPE_WEBHOOK_EVENTS.(m_name) ["duplicate"]) (ticked (ticked w))).
  split; [|done]. unfold process_stripe_event.
  rewrite (bind_run _ _ _ eid w) by (unfold lift; by rewrite Heid).
  rewrite (bind_run _ _ _ ety w) by (unfold lift; by rewrite Hety). cbv zeta.
  rewrite (bind_run _ _ _ (clock (w_tick w)) (ticked w)) by reflexivity.
  rewrite (bind_run _ _ _ (uuid4_at (w_tick (ticked w))) (ticked (ticked w))) by reflexivity.
  rewrite (bind_run _ _ _ None (ticked (ticked w))).
  - reflexivity.
  - eapply insert_on_conflict_exists; [exact Hr|].
    unfold same_stripe_event. cbn. by rewrite Hs, String.eqb_refl.
Qed.

(** Well-typed states and plans. *)
Lemma subscription_state_allowed s :
  one_of ["inactive"; "trialing"; "active"; "past_due"; "cancelled"] (subscription_state s) = true.
Proof.
  unfold subscription_state. destruct (list_to_map _ !! s) as [v|] eqn:H; [|done]. cbn [default].
  apply elem_of_list_to_map_2 in H. unfold ALLOWED_STRIPE_SUBSCRIPTION_STATES in H.
  set_unfold in H. destruct_or!; simplify_eq; done.
Qed.
End Facts.

(** The event has an "id", which is [name] as a string, and a "type". *)
Definition event_named (name : string) (event : json) : Prop :=
  exists eid ety, item "id" event = Ok eid /\ item "type" event = Ok ety /\ py_str eid = name.

(** The event that the signature vouches for at the time of the world. *)
Definition verified {E : Env} (w : World) (payload signature : string) : option json :=
  stripe_construct_event (clock w.(w_tick)) payload signature (stripe_webhook_secret settings).

(** C26: Stripe events are processed once.  After an event was answered with success, any later
    delivery of an event of the same id, whatever its payload and signature, leaves the database
    as it is in every world reached meanwhile: with a signature that verifies at that time it is
    acknowledged and counted as a duplicate, with one that does not, such as the old signature past
    Stripe's tolerance, it is answered 400. *)
Theorem stripe_event_once {E : Env} name payload signature event b w w1 w2 payload' signature' :
  reachable w -> verified w payload signature = Some event -> event_named name event ->
  serve (StripeWebhook payload (Some signature)) w = (Ok b, w1) -> rtc step w1 w2 ->
  (forall event', verified w2 payload' signature' = Some event' -> event_named name event') ->
  exists w3,
    serve (StripeWebhook payload' (Some signature')) w2 =
      (if verified w2 payload' signature' then Ok NoContent
       else Err (HTTPException 400 "Invalid Stripe webhook" []), w3) /\
    w_db w3 = w_db w2 /\
    w_log w3 = (w_log w2 ++ if verified w2 payload' signature'
      then [Inc STRIPE_WEBHOOK_EVENTS.(m_name) ["duplicate"]] else [])%list.
Proof.
  intros Hw Hv (eid & ety & Heid & _ & Hname) H Hs Hsame.
  pose proof (serve_reachable (StripeWebhook payload (Some signature)) w Hw) as Hw1. rewrite H in Hw1.
  apply reachable_consistent in Hw as [Hok _]. unfold serve in H. rewrite get_session_Ok in H.
  apply reply_with_Ok in H as (u & H & ->).
  apply stripe_webhook_Ok in H as (sg & ev & b & [= <-] & Hev & Hp).
  unfold verified in Hv. rewrite Hv in Hev. injection Hev as <-.
  apply process_stripe_event_marker in Hp as (eid1 & _ & id & r & Heid1 & _ & Hr & Hre); [|done].
  rewrite Heid in Heid1. injection Heid1 as <-. rewrite Hname in Hre.
  apply (steps_append_only w1 w2 TStripeEvent) in Hr;
    [|by apply reachable_consistent|done|repeat constructor].
  unfold serve, get_session. cbn [handle]. unfold no_content, reply_with.
  destruct (verified w2 payload' signature') as [event'|] eqn:Hv'.
  - destruct (Hsame event' eq_refl) as (eid' & ety' & Heid' & Hety' & Hname').
    destruct (process_duplicate event' eid' ety' id r (ticked w2) Heid' Hety' Hr ltac:(congruence))
      as (w3 & Hp & Hdb & Hlog).
    exists w3. split; [|by rewrite Hdb, Hlog].
    by rewrite (bind_run _ _ _ tt w3) by exact (stripe_webhook_run _ _ _ false _ _ Hv' Hp).
  - exists (ticked w2). rewrite app_nil_r. split; [|done].
    by rewrite (bind_fail _ _ _ _ _ (stripe_webhook_refused _ _ _ Hv')).
Qed.

(** The sample Stripe sends the event again an hour later, under a new signature. *)
Definition stripe_update (w : World) : request :=
  StripeWebhook (uuid_str acme) (Some (stamp_header (clock w.(w_tick) / 1000000))).
Definition w_paid : World := run [stripe_update w_setup] w_setup.

Lemma stripe_event_once_witness :
  stripe_update w_paid <> stripe_update w_setup /\
  (exists w3, serve (stripe_update w_paid) w_paid = (Ok NoContent, w3) /\ w_db w3 = w_db w_paid) /\
  exists w3, serve (stripe_update w_setup) w_paid =
    (Err (HTTPException 400 "Invalid Stripe webhook" []), w3) /\ w_db w3 = w_db w_paid.
Proof.
  set (event := sample_event ("evt:" +:+ uuid_str acme) (uuid_str acme)).
  assert (Hname : event_named ("evt:" +:+ uuid_str acme) event) by by do 2 eexists.
  assert (Hany : forall s e, verified w_paid (uuid_str acme) s = Some e -> e = event).
  { unfold verified. cbn. intros s e. destruct (sample_verify _ s); [by intros [= <-]|done]. }
  destruct (serve_run (stripe_update w_setup) w_setup ltac:(vm_compute; reflexivity)) as [b Hb].
  assert (Hv : verified w_setup (uuid_str acme) (stamp_header (clock w_setup.(w_tick) / 1000000)) = Some event)
    by (vm_compute; reflexivity).
  split; [vm_compute; discriminate|]. split.
  - destruct (stripe_event_once _ _ _ event b w_setup w_paid w_paid (uuid_str acme)
      (stamp_header (clock w_paid.(w_tick) / 1000000)) w_setup_reachable Hv Hname Hb (rtc_refl _ _))
      as (w3 & H & Hdb & _); [by intros e ->%Hany|].
    exists w3. split; [|exact Hdb]. refine (eq_trans H _).
    assert (Hx : bool_decide (is_Some (verified w_paid (uuid_str acme)
      (stamp_header (clock w_paid.(w_tick) / 1000000)))) = true) by (vm_compute; reflexivity).
    apply bool_decide_eq_true in Hx as [e ->]. reflexivity.
  - destruct (stripe_event_once _ _ _ event b w_setup w_paid w_paid (uuid_str acme)
      (stamp_header (clock w_setup.(w_tick) / 1000000)) w_setup_reachable Hv Hname Hb (rtc_refl _ _))
      as (w3 & H & Hdb & _); [by intros e ->%Hany|].
    exists w3. split; [|exact Hdb]. refine (eq_trans H _).
    assert (Hx : verified w_paid (uuid_str acme)
      (stamp_header (clock w_setup.(w_tick) / 1000000)) = None) by (vm_compute; reflexivity).
    rewrite Hx. reflexivity.
Defined.

Example paid_example :
  sub_plan <$> rows TSubscription (w_db w_paid) = ["pro"] /\
  sub_status <$> rows TSubscription (w_db w_paid) = ["active"].
Proof. vm_compute. done. Qed.

(** C27: subscription states.  Whatever an event contains, the state and plan it assigns are among
    those the check constraints of the table allow, the event moves no subscription to another
    organization, and the plan only changes to one whose configured Stripe price the event names. *)
Theorem stripe_event_well_typed {E : Env} event_type obj s s' :
  check_ok TSubscription s = true -> apply_stripe_event event_type obj s = Ok s' ->
  check_ok TSubscription s' = true /\ s'.(sub_organization_id) = s.(sub_organization_id) /\
  (s'.(sub_plan) = s.(sub_plan) \/
   exists price, event_price_id obj = Ok (JStr price) /\
     (s'.(sub_plan) = "pro" /\ price = settings.(stripe_price_pro) \/
      s'.(sub_plan) = "business" /\ price = settings.(stripe_price_business))).
Proof.
  intros Hc H. pose proof (apply_stripe_event_identity _ _ _ _ H) as [_ Ho].
  unfold check_ok in *. apply andb_true_iff in Hc as [Hplan Hstatus].
  unfold apply_stripe_event in H. destruct (String.eqb _ "checkout.session.completed").
  { unfold result_bind in H. destruct (_extract_customer_id obj); simplify_eq. cbn in *.
    rewrite Hplan. auto. }
  destruct (String.prefix _ _).
  2: { destruct (String.eqb _ "invoice.payment_failed"); simplify_eq; cbn in *; rewrite Hplan; auto. }
  unfold subscription_event, result_bind in H.
  destruct (str_or_none "id" obj); [|done]. destruct (_extract_customer_id obj); [|done].
  destruct (event_price_id obj) as [price|] eqn:Hprice; [|done].
  destruct (event_period_end _ _); [|done]. injection H as <-.
  cbn [sub_plan sub_status sub_organization_id] in Ho |- *.
  split; [apply andb_true_iff; split|split; [done|]].
  - destruct (bool_decide _); [done|]. by destruct (bool_decide _).
  - destruct (String.eqb _ _); [done|]. apply subscription_state_allowed.
  - destruct (decide (price = JStr (stripe_price_pro settings))) as [->|H1].
    + right. eexists. split; [reflexivity|]. left. by rewrite bool_decide_eq_true_2.
    + rewrite (bool_decide_eq_false_2 _ H1).
      destruct (decide (price = JStr (stripe_price_business settings))) as [->|H2].
      * right. eexists. split; [reflexivity|]. right. by rewrite bool_decide_eq_true_2.
      * left. by rewrite (bool_decide_eq_false_2 _ H2).
Qed.

Lemma stripe_event_well_typed_witness :
  exists s', apply_stripe_event "customer.subscription.updated"
      (JObj [("status", JStr "unpaid"); ("id", JStr "sub_9")])
      (mkSubscription 1 2 "free" "inactive" None None None 0 0) = Ok s' /\
    check_ok TSubscription s' = true.
Proof.
  set (s := mkSubscription 1 2 "free" "inactive" None None None 0 0).
  set (obj := JObj [("status", JStr "unpaid"); ("id", JStr "sub_9")]).
  destruct (apply_stripe_event "customer.subscription.updated" obj s) as [s'|e] eqn:H.
  - exists s'. split; [reflexivity|].
    apply (stripe_event_well_typed "customer.subscription.updated" obj s s' eq_refl H).
  - exfalso. vm_compute in H. discriminate.
Defined.
