(* ===== verification/Signatures.v ===== *)
(** * Signatures: the webhook signature header round trip

    [verify_signature], which the consumers of a webhook run, accepts exactly the headers that
    [create_signature] makes for the same body within the tolerance. *)
From S2P Require Import Prelude Text Json Schema Config TokenBucket Session Signing Sample.
From stdpp Require Import pretty.
#[local] Open Scope string_scope.

(** ** Decimal numerals *)
Lemma digit_val_char d : (d < 10)%N -> digit_val (pretty_N_char d) = Some d.
Proof.
  intros Hd. assert (H : (d = 0 \/ d = 1 \/ d = 2 \/ d = 3 \/ d = 4 \/ d = 5 \/ d = 6 \/
    d = 7 \/ d = 8 \/ d = 9)%N) by lia.
  repeat destruct H as [->|H]; subst; reflexivity.
Qed.

Lemma pretty_go_digits x ok s :
  (0 < x)%N -> dec_digits ok 0 (pretty_N_go x s) = dec_digits true x s.
Proof.
  revert s. induction (N.lt_wf_0 x) as [x _ IH]; intros s Hx.
  rewrite pretty_N_go_step by done.
  destruct (N.eq_0_gt_0_cases (x / 10)) as [Hz|Hq]; swap 1 2.
  - rewrite IH by (done || by apply div10_lt). cbn [dec_digits].
    rewrite digit_val_char by (by apply N.mod_lt). f_equal. symmetry. by apply N.Div0.div_mod.
  - rewrite Hz, pretty_N_go_0. cbn [dec_digits].
    rewrite digit_val_char by (by apply N.mod_lt). f_equal.
    rewrite (N.Div0.div_mod x 10) at 2. by rewrite Hz.
Qed.

Lemma pretty_N_literal (x : N) : dec_literal (pretty x) = Some x.
Proof.
  unfold pretty, pretty_N, dec_literal. case_decide as H; [by rewrite H|].
  rewrite pretty_go_digits by lia. done.
Qed.

Lemma digit_sign c :
  is_digit c -> Ascii.eqb c "-" = false /\ Ascii.eqb c "+" = false.
Proof.
  intros Hc.
  assert (H : negb (Ascii.eqb c "-") && negb (Ascii.eqb c "+") = true)
    by (revert c Hc; by apply (digit_forall (fun c => negb (Ascii.eqb c "-") && negb (Ascii.eqb c "+")))).
  by destruct (Ascii.eqb c "-"), (Ascii.eqb c "+").
Qed.

(** [int] reads back what [str] wrote. *)
Lemma int10_pretty (z : Z) : (0 <= z < 10 ^ 100)%Z -> int10 (pretty z) = Some z.
Proof.
  intros Hz. rewrite <- (Z2N.id z) in * by lia. set (x := Z.to_N z) in *. clearbody x. rewrite pretty_Z_of_N.
  pose proof (pretty_N_chars x) as Hc. unfold int10.
  assert (Hstrip : strip (pretty x) = pretty x).
  { apply strip_by_absent. eapply all_chars_impl; [|exact Hc]. intros c Hd.
    apply negb_true_iff. revert c Hd. apply digit_forall. reflexivity. }
  assert (Herase : erase "_" (pretty x) = pretty x).
  { apply erase_absent. eapply all_chars_impl; [|exact Hc]. intros c Hd ->.
    assert (H : negb (Ascii.eqb "_" "_") = true); [|done].
    revert Hd. apply (digit_forall (fun c => negb (Ascii.eqb c "_"))). reflexivity. }
  rewrite Hstrip, Herase.
  assert (Hlen : (String.length (pretty x) <= 100)%nat) by (apply pretty_N_length; lia).
  assert (Hcap : (String.length (pretty x) <= 4300)%nat) by lia. clear Hlen; rename Hcap into Hlen.
  apply Nat.ltb_ge in Hlen. rewrite Hlen.
  pose proof (pretty_N_literal x) as Hl.
  destruct (pretty x) as [|c s] eqn:Hp; [done|]. destruct Hc as [Hc _].
  destruct (digit_sign c Hc) as [Hm Hq]. by rewrite Hm, Hq, Hl.
Qed.

(** ** The parts of a header *)
Lemma split_char_absent c s : all_chars (not_char c) s -> split_char c s = (s, []).
Proof.
  induction s as [|a s IH]; [done|]. intros [Ha Hs]. cbn. rewrite (IH Hs).
  by destruct (Ascii.eqb_spec a c).
Qed.

Lemma split_char_app c s1 s2 :
  all_chars (not_char c) s1 ->
  split_char c (s1 +:+ String c s2) = (s1, Signing.split c s2).
Proof.
  induction s1 as [|a s1 IH].
  - intros _. rewrite str_app_nil_l. unfold Signing.split. cbn. rewrite Ascii.eqb_refl.
    by destruct (split_char c s2).
  - intros [Ha Hs]. rewrite str_app_cons. cbn. rewrite (IH Hs).
    by destruct (Ascii.eqb_spec a c).
Qed.

Lemma split_two c s1 s2 :
  all_chars (not_char c) s1 -> all_chars (not_char c) s2 ->
  Signing.split c (s1 +:+ String c s2) = [s1; s2].
Proof.
  intros H1 H2. unfold Signing.split at 1. rewrite split_char_app by done. unfold Signing.split.
  by rewrite split_char_absent.
Qed.

Lemma after_skip a p s1 s2 :
  all_chars (not_char a) s1 ->
  after (String a p) (s1 +:+ (String a p +:+ s2)) = Some s2.
Proof.
  intros H. assert (Hp : forall q s, drop_prefix q (q +:+ s) = Some s).
  { induction q as [|b q IH]; intros s; [by rewrite str_app_nil_l; destruct s|].
    rewrite str_app_cons. cbn. by rewrite Ascii.eqb_refl. }
  induction s1 as [|c s1 IH].
  - rewrite str_app_nil_l. pose proof (Hp (String a p) s2) as Hd.
    rewrite str_app_cons in Hd |- *. cbn [after]. by rewrite Hd.
  - destruct H as [Hc Hs]. rewrite (str_app_cons c). cbn [after].
    cbn [drop_prefix]. destruct (Ascii.eqb_spec a c) as [->|_]; [by destruct Hc|]. by apply IH.
Qed.

(** ** Verification *)
Section Signatures.
Context {E : Env}.

(** [hexdigest()] is written in the digits 0-9a-f (hashlib). *)
Definition hexdigest_law : Prop :=
  forall secret message, all_chars is_hex_char (hmac_sha256_hexdigest secret message).

(** What [verify_signature] compares with: [timestamp or int(time.time())]. *)
Definition signed_at (t : Z) (w : World) : Z :=
  if (t =? 0)%Z then (clock (S w.(w_tick)) / 1000000)%Z else t.

Definition now_seconds (w : World) : Z := (clock w.(w_tick) / 1000000)%Z.

Lemma pretty_chars (P : ascii -> Prop) (t : Z) :
  P "-"%char -> (forall c, is_digit c -> P c) -> all_chars P (pretty t).
Proof.
  intros Hm Hd. destruct t as [|p|p]; cbn.
  - split; [|done]. apply Hd. by exists 0%N.
  - eapply all_chars_impl; [exact Hd|apply pretty_N_chars].
  - split; [done|]. eapply all_chars_impl; [exact Hd|apply pretty_N_chars].
Qed.

Lemma pretty_no (a : ascii) (t : Z) : a ∈ ["v"; ","]%char -> all_chars (not_char a) (pretty t).
Proof.
  intros Ha. apply pretty_chars.
  - intros <-. set_solver.
  - intros c Hc ->.
    pose proof (digit_forall (fun c => negb (Ascii.eqb c "v") && negb (Ascii.eqb c ",")) eq_refl a Hc).
    apply elem_of_cons in Ha as [->|Ha]; [done|]. by apply list_elem_of_singleton in Ha as ->.
Qed.

Lemma header_digest secret payload t :
  after "v1=" (signature_header secret payload t) = Some (signed_digest secret payload t).
Proof.
  unfold signature_header.
  change ("t=" +:+ pretty t +:+ ",v1=" +:+ signed_digest secret payload t)
    with ("t=" +:+ (pretty t +:+ (("," +:+ "v1=") +:+ signed_digest secret payload t))).
  rewrite (str_app_assoc ","), <- !str_app_assoc. rewrite (str_app_assoc _ "v1=").
  apply after_skip. rewrite !all_chars_app. split_and!; [done|by apply pretty_no; set_solver|done].
Qed.

Lemma create_signature_run secret payload t w :
  exists w', create_signature secret payload (Some t) w =
    (Ok (signature_header secret payload (if (t =? 0)%Z then now_seconds w else t)), w').
Proof. unfold create_signature, now_seconds. destruct (t =? 0)%Z; by eexists. Qed.

(** The whole of [verify_signature] on a header that parses. *)
Lemma verify_signature_run secret payload header tol w t supplied :
  hexdigest_law -> parse_signature header = Some (t, supplied) -> is_ascii supplied = true ->
  (verify_signature secret payload header tol w).1 =
    Ok (negb (tol <? Z.abs (now_seconds w - t))%Z &&
        String.eqb (signed_digest secret payload (signed_at t w)) supplied).
Proof.
  intros Hhex Hp Ha. unfold verify_signature. rewrite Hp.
  rewrite (bind_run _ _ _ (now_seconds w) (ticked w)) by reflexivity.
  destruct (tol <? _)%Z; [done|].
  destruct (create_signature_run secret payload t (ticked w)) as [w' Hc].
  rewrite (bind_run _ _ _ _ w' Hc), header_digest.
  assert (is_ascii (signed_digest secret payload (signed_at t w)) = true) as Hs.
  { apply all_chars_forallb. eapply all_chars_impl; [|apply Hhex].
    by apply (hex_char_forall (fun c => (code c <? 128)%N)). }
  unfold signed_at, now_seconds in *. cbn [ticked w_tick] in *. by rewrite Hs, Ha.
Qed.

Lemma parse_header secret payload t :
  hexdigest_law -> (0 <= t < 10 ^ 100)%Z ->
  parse_signature (signature_header secret payload t) =
    Some (t, signed_digest secret payload t).
Proof.
  intros Hhex Ht. unfold parse_signature, signature_header.
  change ("t=" +:+ pretty t +:+ ",v1=" +:+ signed_digest secret payload t)
    with ("t=" +:+ (pretty t +:+ String "," ("v1=" +:+ signed_digest secret payload t))).
  rewrite <- str_app_assoc, split_two.
  - change (mapM (split_once "=") ["t=" +:+ pretty t; "v1=" +:+ signed_digest secret payload t])
      with (Some [("t", pretty t); ("v1", signed_digest secret payload t)]).
    cbn [mbind option_bind]. change (dict_get "t" _) with (Some (pretty t)).
    cbn [mbind option_bind]. by rewrite int10_pretty.
  - rewrite all_chars_app. split; [done|]. apply pretty_no. set_solver.
  - rewrite all_chars_app. split; [done|]. eapply all_chars_impl; [|apply Hhex].
    intros c Hc ->. pose proof (hex_char_forall (fun c => negb (Ascii.eqb c ",")) eq_refl _ Hc).
    done.
Qed.

(** C28: the header that signs a body is accepted for that body under the same secret, while the
    reader's clock is within the tolerance of the signing time, and refused outside it.  The
    assumption is that [hexdigest] writes hexadecimal digits; the bound on the time keeps its
    numeral far below the 4300 digits that [int] reads. *)
Theorem signature_round_trip secret payload t tol w :
  hexdigest_law -> (0 < t < 10 ^ 100)%Z ->
  (verify_signature secret payload (signature_header secret payload t) tol w).1 =
    Ok (Z.abs (now_seconds w - t) <=? tol)%Z.
Proof.
  intros Hhex Ht.
  rewrite (verify_signature_run _ _ _ _ _ t (signed_digest secret payload t)); [|done|..].
  - unfold signed_at. destruct (t =? 0)%Z eqn:Hz; [lia|]. rewrite String.eqb_refl, andb_true_r.
    by rewrite <- Z.leb_antisym.
  - apply parse_header; [done|lia].
  - apply all_chars_forallb. eapply all_chars_impl; [|apply Hhex].
    by apply (hex_char_forall (fun c => (code c <? 128)%N)).
Qed.

(** C29: a header is accepted only if it carries, besides a timestamp within the tolerance, the
    digest of exactly this body under exactly this secret at that timestamp; a digest that the
    digest function gives to no other body therefore authenticates the body.  (A timestamp of 0
    is read as absent and replaced by the current time.) *)
Theorem signature_authenticates secret payload header tol w w' :
  verify_signature secret payload header tol w = (Ok true, w') ->
  exists t, parse_signature header = Some (t, signed_digest secret payload (signed_at t w)) /\
    (Z.abs (now_seconds w - t) <= tol)%Z /\
    forall secret' payload',
      signed_digest secret payload (signed_at t w) <> signed_digest secret' payload' (signed_at t w) ->
      (verify_signature secret' payload' header tol w).1 <> Ok true.
Proof.
  assert (Hacc : forall secret payload, (verify_signature secret payload header tol w).1 = Ok true ->
    exists t, parse_signature header = Some (t, signed_digest secret payload (signed_at t w)) /\
      (Z.abs (now_seconds w - t) <= tol)%Z).
  { clear. intros secret payload. unfold verify_signature.
    destruct (parse_signature header) as [[t d]|]; [|done].
    rewrite (bind_run _ _ _ (now_seconds w) (ticked w)) by reflexivity.
    destruct (tol <? _)%Z eqn:Ht; [done|].
    destruct (create_signature_run secret payload t (ticked w)) as [w1 Hc].
    rewrite (bind_run _ _ _ _ w1 Hc), header_digest.
    destruct (is_ascii _ && is_ascii d); [|done]. intros [= Heq].
    apply String.eqb_eq in Heq as <-. exists t. split; [done|lia]. }
  intros H. destruct (Hacc secret payload) as (t & Hp & Ht); [by rewrite H|].
  exists t. split_and!; [done..|]. intros secret' payload' Hne Hok.
  destruct (Hacc _ _ Hok) as (t' & Hp' & _). rewrite Hp in Hp'. injection Hp' as <- Heq. done.
Qed.
End Signatures.

Lemma signature_round_trip_witness :
  (verify_signature "key" "{}" (signature_header "key" "{}" 1700000123) 300 w0).1 = Ok true /\
  (verify_signature "key" "{}" (signature_header "key" "{}" 1700000301) 300 w0).1 = Ok false.
Proof.
  assert (hexdigest_law) as Hhex by (intros ??; apply hex_fixed_hex).
  split; rewrite signature_round_trip; (done || lia || reflexivity).
Defined.

Lemma signature_authenticates_witness :
  (verify_signature "key" "{}" (signature_header "key" "{}" 1700000123) 300 w0).1 = Ok true /\
  (verify_signature "key" "{1}" (signature_header "key" "{}" 1700000123) 300 w0).1 <> Ok true.
Proof.
  assert (H : (verify_signature "key" "{}" (signature_header "key" "{}" 1700000123) 300 w0).1 = Ok true)
    by (vm_compute; reflexivity).
  split; [exact H|].
  destruct (verify_signature "key" "{}" _ 300 w0) as [r w'] eqn:Hv. cbn in H. subst r.
  destruct (signature_authenticates _ _ _ _ _ _ Hv) as (t & Hp & _ & Hno). apply Hno.
  assert (Ht : fst <$> parse_signature (signature_header "key" "{}" 1700000123) = Some t)
    by (rewrite Hp; reflexivity).
  vm_compute in Ht. injection Ht as <-. vm_compute. discriminate.
Defined.
