(* ===== verification/RateLimit.v ===== *)
(** * RateLimit: what the token bucket guarantees

    The bounds of the bucket hold for any rounding that is monotone and exact on the integers in
    use, the retry hint for any that has also the relative error of doubles; IEEE doubles (Doubles)
    are such a rounding.  The quota is a theorem about the script in exact arithmetic. *)
From Stdlib Require Import QArith Qround Qminmax Qpower Lqa.
From S2P Require Import Prelude Text Json Schema Config TokenBucket Doubles Session Auth.
#[local] Open Scope Q_scope.

(** The documented behaviour of rounding to doubles that the bounds rely on. *)
Record rounding (rnd : Q -> Q) (capacity : Z) : Prop := {
  rnd_mono x y : x <= y -> rnd x <= rnd y;
  rnd_exact n : (0 <= n <= capacity)%Z -> rnd (inject_Z n) == inject_Z n }.

(** The relative error of a result is at most 2^-53. *)
Definition relative_error (rnd : Q -> Q) : Prop :=
  forall x, 0 <= x -> - (x * 2 ^ (-53)) <= rnd x - x <= x * 2 ^ (-53).

Lemma rounding_double capacity : (capacity <= 2 ^ 53)%Z -> rounding double capacity.
Proof.
  intros Hc. split; [apply double_mono|]. intros n Hn. apply double_exact. lia.
Qed.

(** A bucket as the script leaves it. *)
Definition bucket_ok (capacity window : Z) (b : Bucket) : Prop :=
  0 <= b.(tokens) <= inject_Z capacity /\
  (b.(updated_at_ms) + window * 2000 <= b.(expires_at_ms))%Z.
Definition state_ok (capacity window : Z) (s : option Bucket) : Prop :=
  match s with Some b => bucket_ok capacity window b | None => True end.

(** Requests at the given times, one after the other: the final bucket and the number admitted. *)
Fixpoint run_bucket (rnd : Q -> Q) (capacity window : Z) (times : list Z) (s : option Bucket)
  : option Bucket * Z :=
  match times with
  | [] => (s, 0%Z)
  | t :: times =>
      let '(b, r) := rate_limit_lua rnd capacity window t s in
      let '(s', n) := run_bucket rnd capacity window times (Some b) in
      (s', (r.(reply_allowed) + n)%Z)
  end.

(** Times of a Redis clock that does not go back. *)
Fixpoint ascending (from : Z) (times : list Z) : Prop :=
  match times with [] => True | t :: times => (from <= t)%Z /\ ascending t times end.

Definition exact (x : Q) : Q := x.

(** ** The refill *)
Section Rounded.
Context (rnd : Q -> Q) (capacity window : Z).
Context (Hrnd : rounding rnd capacity) (Hc : (0 < capacity)%Z) (Hw : (0 < window)%Z).

Lemma rnd_nonneg x : 0 <= x -> 0 <= rnd x.
Proof.
  intros Hx. pose proof (rnd_exact _ _ Hrnd 0 ltac:(lia)) as H0. change (inject_Z 0) with 0 in H0.
  rewrite <- H0. by apply (rnd_mono _ _ Hrnd).
Qed.

Lemma refill_nonneg : 0 <= refill_per_ms rnd capacity (window * 1000).
Proof.
  apply rnd_nonneg. apply Qle_shift_div_l.
  - change 0 with (inject_Z 0). rewrite <- Zlt_Qlt. lia.
  - rewrite Qmult_0_l. change 0 with (inject_Z 0). rewrite <- Zle_Qle. lia.
Qed.

Lemma refilled_bounds t s :
  state_ok capacity window s ->
  0 <= refilled rnd capacity (window * 1000) t s <= inject_Z capacity.
Proof.
  intros Hs. unfold refilled.
  assert (Hst : exists tk u, match hmget t s with
      | Some b => (b.(tokens), b.(updated_at_ms)) | None => (inject_Z capacity, t) end = (tk, u)
      /\ 0 <= tk).
  { destruct (hmget t s) as [b|] eqn:Hh.
    - destruct s as [b'|]; [|done]. cbn in Hh. destruct (t <? _)%Z; [|done]. injection Hh as ->.
      do 2 eexists. split; [done|]. apply Hs.
    - do 2 eexists. split; [done|]. change 0 with (inject_Z 0). rewrite <- Zle_Qle. lia. }
  destruct Hst as (tk & u & -> & Htk). split; [|apply Q.le_min_l].
  apply Q.min_glb; [change 0 with (inject_Z 0); rewrite <- Zle_Qle; lia|].
  apply rnd_nonneg. rewrite <- (Qplus_0_l 0). apply Qplus_le_compat; [done|].
  apply rnd_nonneg. apply Qmult_le_0_compat; [|apply refill_nonneg].
  change 0 with (inject_Z 0). rewrite <- Zle_Qle. lia.
Qed.

(** The whole reply: what is admitted, and the bucket that is stored. *)
Lemma lua_reply t s b r :
  state_ok capacity window s -> rate_limit_lua rnd capacity window t s = (b, r) ->
  bucket_ok capacity window b /\ b.(updated_at_ms) = t /\
  (0 <= r.(reply_tokens) <= capacity)%Z /\
  ((r.(reply_allowed) = 1%Z /\ r.(reply_retry_after) = 0%Z /\
    1 <= refilled rnd capacity (window * 1000) t s) \/
   (r.(reply_allowed) = 0%Z /\ (0 <= r.(reply_retry_after))%Z /\ r.(reply_tokens) = 0%Z /\
    b.(tokens) = refilled rnd capacity (window * 1000) t s /\ b.(tokens) < 1)).
Proof.
  intros Hs H. unfold rate_limit_lua in H. pose proof (refilled_bounds t s Hs) as Hb.
  set (q := refilled rnd capacity (window * 1000) t s) in *. clearbody q.
  injection H as <- <-. cbn.
  assert (Hbok : forall tk e, 0 <= tk <= inject_Z capacity -> (t + window * 2000 <= e)%Z ->
    bucket_ok capacity window {| tokens := tk; updated_at_ms := t; expires_at_ms := e |})
    by (intros; by split).
  assert (Hfl : forall tk, 0 <= tk <= inject_Z capacity -> (0 <= Qfloor tk <= capacity)%Z).
  { intros tk [H0 H1]. apply Qfloor_resp_le in H0, H1. rewrite Qfloor_Z in H1. done. }
  assert (Hexp : (t + window * 2000 <= t + Z.max (window * 1000 * 2) 1000)%Z) by lia.
  destruct (Qle_bool 1 q) eqn:Hle.
  - apply Qle_bool_iff in Hle. assert (Ht : 0 <= rnd (q - 1) <= inject_Z capacity).
    { split; [apply rnd_nonneg; lra|].
      assert (He : rnd (inject_Z (capacity - 1)) == inject_Z (capacity - 1))
        by (apply (rnd_exact _ _ Hrnd); lia).
      apply (Qle_trans _ (inject_Z (capacity - 1))); [|rewrite <- Zle_Qle; lia].
      rewrite <- He. apply (rnd_mono _ _ Hrnd). unfold Zminus.
      rewrite inject_Z_plus, inject_Z_opp. change (inject_Z 1) with 1. lra. }
    split_and!; [by apply Hbok|done|apply Hfl..|]; try done. by left.
  - assert (Hlt : q < 1).
    { apply Qnot_le_lt. intros Hn. apply Qle_bool_iff in Hn. congruence. }
    split_and!; [by apply Hbok|done|apply Hfl..|]; try done. right. split_and!; try done.
    + assert (Hz : (Qceiling 0 <= Qceiling (rnd (rnd (rnd (1 - q) /
        refill_per_ms rnd capacity (window * 1000)) / 1000)))%Z); [|done].
      apply Qceiling_resp_le, rnd_nonneg. apply Qmult_le_0_compat; [|done].
      apply rnd_nonneg, Qmult_le_0_compat; [apply rnd_nonneg; lra|].
      apply Qinv_le_0_compat, refill_nonneg.
    + assert (Hf0 : (0 <= Qfloor q)%Z) by apply (Hfl q Hb).
      assert (inject_Z (Qfloor q) < inject_Z 1) as Hf1.
      { eapply Qle_lt_trans; [apply Qfloor_le|done]. }
      rewrite <- Zlt_Qlt in Hf1. lia.
Qed.
End Rounded.

(** ** The hint, for the errors of doubles *)
Section Hint.
Context (rnd : Q -> Q) (capacity window : Z).
Context (Hrnd : rounding rnd capacity) (Herr : relative_error rnd).
Context (Hc : (0 < capacity)%Z) (Hw : (0 < window)%Z) (Hw2 : (window * 1000 <= 2 ^ 50)%Z).

Abbreviation u := (2 ^ (-53)).
Abbreviation rate := (refill_per_ms rnd capacity (window * 1000)).

Lemma rnd_lower x : 0 <= x -> (1 - u) * x <= rnd x.
Proof. intros Hx. destruct (Herr x Hx). lra. Qed.

(** One millisecond refills far more than the rounding errors of the script lose. *)
Lemma rate_lower : 4 * u <= (1 - u) * rate.
Proof.
  assert (Hq : 2 ^ (-50) <= inject_Z capacity / inject_Z (window * 1000)).
  { apply Qle_shift_div_l; [change 0 with (inject_Z 0); rewrite <- Zlt_Qlt; lia|].
    apply (Qle_trans _ 1); [|change 1 with (inject_Z 1); rewrite <- Zle_Qle; lia].
    apply (Qle_trans _ (2 ^ (-50) * inject_Z (2 ^ 50))); [|by vm_compute].
    rewrite (Qmult_comm (2 ^ (-50))), (Qmult_comm (2 ^ (-50))).
    apply Qmult_le_compat_r; [by rewrite <- Zle_Qle|by vm_compute]. }
  assert (H0 : 0 <= 2 ^ (-50)) by by vm_compute.
  pose proof (rnd_lower _ (Qle_trans _ _ _ H0 Hq)) as Hr. fold rate in Hr.
  assert (Hu : 0 <= 1 - u) by by vm_compute.
  apply (Qle_trans _ ((1 - u) * ((1 - u) * 2 ^ (-50)))); [by vm_compute|].
  rewrite !(Qmult_comm (1 - u)). apply Qmult_le_compat_r; [|done].
  eapply Qle_trans; [|exact Hr]. rewrite (Qmult_comm (1 - u)). by apply Qmult_le_compat_r.
Qed.

Lemma rate_positive : 0 < rate.
Proof. pose proof rate_lower as H. assert (0 < 4 * u) by by vm_compute. assert (0 < 1 - u) by by vm_compute. nra. Qed.

(** The refill of the hinted seconds misses the whole token by the errors of four operations. *)
Lemma hint_refill t s b r :
  state_ok capacity window s -> rate_limit_lua rnd capacity window t s = (b, r) ->
  r.(reply_allowed) = 0%Z ->
  (1 - 3 * u) * (1 - b.(tokens)) <= inject_Z (1000 * r.(reply_retry_after)) * rate.
Proof.
  intros Hs H Ha. pose proof (refilled_bounds _ _ _ Hrnd Hc Hw t s Hs) as [Hx0 _].
  unfold rate_limit_lua in H. injection H as <- <-. cbn [reply_allowed reply_retry_after tokens] in *.
  destruct (Qle_bool 1 _) eqn:Hle; [done|]. pose proof rate_positive as Hpos.
  set (x := refilled rnd capacity (window * 1000) t s) in *. clearbody x.
  assert (Hx1 : x < 1) by (apply Qnot_le_lt; intros Hn%Qle_bool_iff; congruence).
  set (q := rate) in *. clearbody q. set (D := 1 - x) in *.
  assert (HD : 0 <= D) by (unfold D; lra). clearbody D.
  assert (Hu3 : 1 - 3 * u <= (1 - u) * (1 - u) * (1 - u)) by by vm_compute.
  assert (Hu : 0 <= 1 - u) by by vm_compute. pose proof rnd_lower as Hrl.
  set (c := 1 - u) in *. set (c3 := 1 - 3 * u) in *. clearbody c c3.
  pose proof (Hrl D HD) as H1. set (D1 := rnd D) in *. clearbody D1.
  assert (HD1 : 0 <= D1) by nra.
  pose proof (Hrl (D1 / q) ltac:(by apply Qle_shift_div_l; lra)) as H2.
  set (D2 := rnd (D1 / q)) in *. clearbody D2.
  assert (H2' : c * D1 <= D2 * q).
  { apply (Qmult_le_compat_r _ _ q) in H2; [|lra].
    assert (He : c * (D1 / q) * q == c * D1) by (field; lra). lra. }
  assert (HD2 : 0 <= D2) by nra.
  pose proof (Hrl (D2 / 1000) ltac:(by apply Qle_shift_div_l; lra)) as H3.
  pose proof (Qle_ceiling (rnd (D2 / 1000))) as Hceil.
  set (k := inject_Z (Qceiling (rnd (D2 / 1000)))) in *.
  assert (Hk : c * D2 <= 1000 * k).
  { assert (Hz : c * D2 == 1000 * (c * (D2 / 1000))) by field. lra. }
  rewrite inject_Z_mult. change (inject_Z 1000) with 1000. fold k.
  apply (Qle_trans _ (c * D2 * q)); [|by apply Qmult_le_compat_r; [|lra]].
  apply (Qle_trans _ (c * c * c * D)); [by apply Qmult_le_compat_r|]. nra.
Qed.

Lemma refilled_enough b t k :
  0 <= b.(tokens) < 1 -> (b.(updated_at_ms) + 1000 * k + 1 <= t)%Z ->
  (1 - 3 * u) * (1 - b.(tokens)) <= inject_Z (1000 * k) * rate ->
  1 <= refilled rnd capacity (window * 1000) t (Some b).
Proof.
  intros [Hx0 Hx1] Ht Hk.
  assert (Hcap : 1 <= inject_Z capacity) by (change 1 with (inject_Z 1); rewrite <- Zle_Qle; lia).
  assert (Hone : rnd 1 == 1) by (apply (rnd_exact _ _ Hrnd 1); lia).
  unfold refilled, hmget. destruct (t <? _)%Z; apply Q.min_glb; try done.
  - rewrite <- Hone. apply (rnd_mono _ _ Hrnd).
    pose proof rate_lower as Hr. pose proof rate_positive as Hpos. pose proof rnd_lower as Hrl.
    set (x := tokens b) in *. clearbody x. set (q := rate) in *. clearbody q.
    assert (He : inject_Z (1000 * k) * q + q <= inject_Z (Z.max 0 (t - updated_at_ms b)) * q).
    { rewrite <- (Qmult_1_l q) at 2. rewrite <- Qmult_plus_distr_l. change 1 with (inject_Z 1).
      rewrite <- inject_Z_plus. apply Qmult_le_compat_r; [rewrite <- Zle_Qle; lia|lra]. }
    set (e := inject_Z (Z.max 0 (t - updated_at_ms b)) * q) in *. clearbody e.
    set (f := inject_Z (1000 * k) * q) in *. clearbody f.
    assert (Hu : 0 <= u) by by vm_compute. assert (Hu1 : 0 <= 1 - u) by by vm_compute.
    assert (Hu3 : 0 <= 1 - 3 * u) by by vm_compute.
    set (v := u) in *. clearbody v.
    assert (0 <= (1 - 3 * v) * (1 - x)) by (apply Qmult_le_0_compat; lra).
    pose proof (Hrl e ltac:(lra)) as H1. set (p := rnd e) in *. clearbody p.
    assert (H2 : (1 - v) * ((1 - 3 * v) * (1 - x) + q) <= (1 - v) * e)
      by (rewrite !(Qmult_comm (1 - v)); apply Qmult_le_compat_r; lra).
    assert (H3 : 0 <= v * v * (1 - x)) by (repeat apply Qmult_le_0_compat; lra).
    assert (H4 : 0 <= v * x) by (apply Qmult_le_0_compat; lra).
    nra.
  - rewrite Z.sub_diag, Z.max_id. rewrite <- Hone. apply (rnd_mono _ _ Hrnd).
    assert (H0 : 0 <= rnd (inject_Z 0 * rate)).
    { apply (rnd_nonneg _ _ Hrnd Hc). change (inject_Z 0) with 0. rewrite Qmult_0_l. apply Qle_refl. }
    lra.
Qed.
End Hint.

(** ** Exact arithmetic *)
Section Exact.
Context (capacity window : Z) (Hc : (0 < capacity)%Z) (Hw : (0 < window)%Z).

Lemma rounding_exact : rounding exact capacity.
Proof. by split. Qed.

Abbreviation rate := (refill_per_ms exact capacity (window * 1000)).

Lemma capacity_pos : 1 <= inject_Z capacity.
Proof. change 1 with (inject_Z 1). rewrite <- Zle_Qle. lia. Qed.

Lemma rate_window : rate * inject_Z (window * 1000) == inject_Z capacity.
Proof.
  unfold refill_per_ms, exact. rewrite Qmult_comm. apply Qmult_div_r.
  intros H. apply (inject_Z_injective (window * 1000) 0) in H. lia.
Qed.

Lemma rate_pos : 0 < rate.
Proof.
  apply Qlt_shift_div_l.
  - change 0 with (inject_Z 0). rewrite <- Zlt_Qlt. lia.
  - rewrite Qmult_0_l. pose proof capacity_pos. lra.
Qed.

(** An expired bucket had refilled anyway: forgetting it grants no token. *)
Lemma refilled_le b t :
  bucket_ok capacity window b -> (b.(updated_at_ms) <= t)%Z ->
  refilled exact capacity (window * 1000) t (Some b) <=
    b.(tokens) + inject_Z (t - b.(updated_at_ms)) * rate.
Proof.
  intros [[Htk _] Hexp] Ht. unfold refilled, hmget. destruct (t <? _)%Z eqn:Hlt; unfold exact.
  - rewrite Z.max_r by lia. apply Q.le_min_r.
  - eapply Qle_trans; [apply Q.le_min_l|].
    assert (H2 : inject_Z (window * 1000) * rate <= inject_Z (t - updated_at_ms b) * rate).
    { apply Qmult_le_compat_r; [rewrite <- Zle_Qle; lia|]. apply Qlt_le_weak, rate_pos. }
    rewrite (Qmult_comm (inject_Z (window * 1000))), rate_window in H2. unfold exact in H2. lra.
Qed.

Lemma refilled_ge b t :
  (b.(updated_at_ms) <= t)%Z -> 1 <= b.(tokens) + inject_Z (t - b.(updated_at_ms)) * rate ->
  1 <= refilled exact capacity (window * 1000) t (Some b).
Proof.
  intros Ht H1. pose proof capacity_pos. unfold refilled, hmget. destruct (t <? _)%Z; unfold exact in *.
  - rewrite Z.max_r by lia. by apply Q.min_glb.
  - apply Q.min_glb; [done|]. rewrite Z.sub_diag, Z.max_id. change (inject_Z 0) with 0. lra.
Qed.

(** What a request takes out of the refilled bucket. *)
Lemma lua_balance t s b r :
  state_ok capacity window s -> rate_limit_lua exact capacity window t s = (b, r) ->
  inject_Z r.(reply_allowed) + b.(tokens) == refilled exact capacity (window * 1000) t s.
Proof.
  intros Hs H. unfold rate_limit_lua in H. injection H as <- <-. cbn.
  destruct (Qle_bool 1 _); cbn; unfold exact; [change (inject_Z 1) with 1|change (inject_Z 0) with 0]; lra.
Qed.

Lemma run_potential times b last :
  bucket_ok capacity window b -> ascending b.(updated_at_ms) times ->
  Forall (fun t => (t <= last)%Z) times -> (b.(updated_at_ms) <= last)%Z ->
  inject_Z (run_bucket exact capacity window times (Some b)).2 <=
    b.(tokens) + inject_Z (last - b.(updated_at_ms)) * rate.
Proof.
  revert b. induction times as [|t times IH]; intros b Hb Hasc Hlast Hu; cbn [run_bucket].
  - cbn. change (inject_Z 0) with 0. pose proof rate_pos.
    assert (0 <= inject_Z (last - updated_at_ms b) * rate).
    { apply Qmult_le_0_compat; [change 0 with (inject_Z 0); rewrite <- Zle_Qle; lia|].
      by apply Qlt_le_weak. }
    destruct Hb as [[]]. lra.
  - destruct Hasc as [Ht Hasc]. apply Forall_cons in Hlast as [Htl Hlast].
    destruct (rate_limit_lua exact capacity window t (Some b)) as [b' r] eqn:Hl.
    pose proof (lua_reply _ _ _ rounding_exact Hc Hw t (Some b) b' r Hb Hl) as (Hb' & Hu' & _).
    pose proof (lua_balance t (Some b) b' r Hb Hl) as Hbal.
    pose proof (refilled_le b t Hb Ht) as Href.
    specialize (IH b' Hb'). rewrite Hu' in IH. specialize (IH Hasc Hlast Htl).
    destruct (run_bucket _ _ _ times (Some b')) as [s' n]. cbn in *.
    rewrite inject_Z_plus.
    assert (Hsplit : inject_Z (last - updated_at_ms b) ==
      inject_Z (last - t) + inject_Z (t - updated_at_ms b))
      by (rewrite <- inject_Z_plus; f_equiv; lia).
    rewrite Hsplit, Qmult_plus_distr_l. lra.
Qed.
End Exact.

(** ** Properties *)

(** C30: the reply and the stored bucket stay in bounds for every rounding that is monotone and
    exact on the integers up to the capacity: between 0 and [capacity] tokens, a request is
    admitted exactly when a whole token is available, an admitted request is told to wait 0
    seconds and a refused one leaves the bucket with less than one token. *)
Theorem bucket_bounds rnd capacity window t s b r :
  rounding rnd capacity -> (0 < capacity)%Z -> (0 < window)%Z -> state_ok capacity window s ->
  rate_limit_lua rnd capacity window t s = (b, r) ->
  state_ok capacity window (Some b) /\ (0 <= r.(reply_tokens) <= capacity)%Z /\
  (r.(reply_allowed) = 1%Z <-> 1 <= refilled rnd capacity (window * 1000) t s) /\
  ((r.(reply_allowed) = 1%Z /\ r.(reply_retry_after) = 0%Z) \/
   (r.(reply_allowed) = 0%Z /\ (0 <= r.(reply_retry_after))%Z /\ r.(reply_tokens) = 0%Z)).
Proof.
  intros Hr Hc Hw Hs H. destruct (lua_reply _ _ _ Hr Hc Hw _ _ _ _ Hs H)
    as (Hb & _ & Ht & [(Ha & Hre & H1)|(Ha & Hre & H0 & Htk & Hlt)]); split_and!; try done; try tauto.
  rewrite Ha, <- Htk. split; [done|]. intros ?. lra.
Qed.

Lemma bucket_bounds_witness :
  exists b r, rate_limit_lua double 10 60 1000 None = (b, r) /\ reply_allowed r = 1%Z /\
    (0 <= r.(reply_tokens) <= 10)%Z.
Proof.
  destruct (rate_limit_lua double 10 60 1000 None) as [b r] eqn:H. exists b, r.
  destruct (bucket_bounds double 10 60 1000 None b r (rounding_double 10 ltac:(done)) eq_refl eq_refl I H)
    as (_ & Ht & Ha & _).
  split; [reflexivity|]. split; [|exact Ht]. apply Ha. vm_compute. discriminate.
Defined.

(** C31: the quota.  In exact arithmetic, whatever bucket is stored, requests on one key within
    [d] milliseconds of a clock that does not go back are admitted at most [capacity] times plus
    the refill of [d] milliseconds at [capacity] per window; an expired key grants nothing more. *)
Theorem bucket_quota capacity window times s from d :
  (0 < capacity)%Z -> (0 < window)%Z -> state_ok capacity window s -> (0 <= d)%Z ->
  ascending from times -> Forall (fun t => (t <= from + d)%Z) times ->
  ((run_bucket exact capacity window times s).2 * (window * 1000)
     <= capacity * (window * 1000 + d))%Z.
Proof.
  intros Hc Hw Hs Hd Hasc Hlast. destruct times as [|t times]; cbn [run_bucket]; [cbn; nia|].
  destruct Hasc as [Ht Hasc]. apply Forall_cons in Hlast as [Htl Hlast].
  destruct (rate_limit_lua exact capacity window t s) as [b r] eqn:Hl.
  pose proof (lua_reply _ _ _ (rounding_exact capacity) Hc Hw t s b r Hs Hl) as (Hb & Hu & _).
  pose proof (lua_balance capacity window t s b r Hs Hl) as Hbal.
  pose proof (refilled_bounds _ _ _ (rounding_exact capacity) Hc Hw t s Hs) as [_ Hcap].
  pose proof (run_potential capacity window Hc Hw times b (from + d)%Z Hb) as Hrun.
  rewrite Hu in Hrun. specialize (Hrun Hasc Hlast Htl).
  destruct (run_bucket exact capacity window times (Some b)) as [s' n]. cbn in *.
  pose proof (rate_window capacity window Hw) as Hrate.
  pose proof (rate_pos capacity window Hc Hw) as Hpos.
  set (q := refill_per_ms exact capacity (window * 1000)) in *. clearbody q.
  assert (Hd' : inject_Z (from + d - t) * q <= inject_Z d * q).
  { apply Qmult_le_compat_r; [rewrite <- Zle_Qle; lia|by apply Qlt_le_weak]. }
  assert (Hn : inject_Z (reply_allowed r + n) <= inject_Z capacity + inject_Z d * q)
    by (rewrite inject_Z_plus; lra).
  apply (Qmult_le_compat_r _ _ (inject_Z (window * 1000))) in Hn;
    [|change 0 with (inject_Z 0); rewrite <- Zle_Qle; lia].
  rewrite Qmult_plus_distr_l, <- Qmult_assoc, Hrate, <- !inject_Z_mult, <- inject_Z_plus,
    <- Zle_Qle in Hn. lia.
Qed.

(** The login limit: ten attempts per minute; twelve requests within one second. *)
Lemma bucket_quota_witness :
  (run_bucket exact 10 60 (repeat 5000%Z 12) None).2 = 10%Z /\
  ((run_bucket exact 10 60 (repeat 5000%Z 12) None).2 * 60000 <= 10 * (60000 + 1000))%Z.
Proof.
  split; [vm_compute; reflexivity|].
  apply (bucket_quota 10 60 (repeat 5000%Z 12) None 5000 1000); try done; try lia.
  repeat (constructor; [lia|]). constructor.
Defined.

(** C32: the retry hint is sufficient up to one millisecond.  For every rounding that is monotone,
    exact on the integers up to the capacity and of relative error at most 2^-53, as doubles are, and
    every window of at most 2^50 milliseconds: a client that was refused and waits longer, if only by a
    millisecond, than the returned number of seconds, while nobody else uses the key, is admitted. *)
Theorem retry_after_sufficient rnd capacity window t s b r t' :
  rounding rnd capacity -> relative_error rnd ->
  (0 < capacity)%Z -> (0 < window)%Z -> (window * 1000 <= 2 ^ 50)%Z -> state_ok capacity window s ->
  rate_limit_lua rnd capacity window t s = (b, r) -> r.(reply_allowed) = 0%Z ->
  (t + 1000 * r.(reply_retry_after) < t')%Z ->
  (rate_limit_lua rnd capacity window t' (Some b)).2.(reply_allowed) = 1%Z.
Proof.
  intros Hrnd Herr Hc Hw Hw2 Hs H Ha Ht'.
  destruct (lua_reply _ _ _ Hrnd Hc Hw t s b r Hs H)
    as (Hb & Hu & _ & [(? & _)|(_ & Hk & _ & _ & Hlt)]); [congruence|].
  pose proof (hint_refill _ _ _ Hrnd Herr Hc Hw Hw2 _ _ _ _ Hs H Ha) as Hwait.
  destruct (rate_limit_lua rnd capacity window t' (Some b)) as [b' r'] eqn:H'. cbn.
  destruct (lua_reply _ _ _ Hrnd Hc Hw t' (Some b) b' r' Hb H')
    as (_ & _ & _ & [(? & _)|(_ & _ & _ & Htk' & Hlt')]); [done|].
  exfalso. rewrite Htk' in Hlt'. apply (Qlt_not_le _ _ Hlt').
  apply (refilled_enough _ _ _ Hrnd Herr Hc Hw Hw2 b t' r.(reply_retry_after)); [split; [apply Hb|done]|lia|done].
Qed.

(** Requests under the login limit; the last one is refused and told to wait 5 seconds. *)
Definition login_attempts : list Z := [0; 39; 73; 107; 187; 203; 541; 678; 926; 958; 999]%Z.
Definition before_refusal : option Bucket := (run_bucket double 10 60 login_attempts None).1.

Lemma retry_after_sufficient_witness :
  exists b r, rate_limit_lua double 10 60 1000 before_refusal = (b, r) /\
    r.(reply_allowed) = 0%Z /\ r.(reply_retry_after) = 5%Z /\
    (rate_limit_lua double 10 60 6001 (Some b)).2.(reply_allowed) = 1%Z.
Proof.
  assert (Hs : state_ok 10 60 before_refusal) by (vm_compute; repeat split; discriminate).
  destruct (rate_limit_lua double 10 60 1000 before_refusal) as [b r] eqn:H. exists b, r.
  assert (Hr : r.(reply_allowed) = 0%Z /\ r.(reply_retry_after) = 5%Z)
    by (vm_compute in H; injection H as <- <-; split; reflexivity).
  destruct Hr as [Ha Hk]. split_and!; [reflexivity|exact Ha|exact Hk|].
  apply (retry_after_sufficient double 10 60 1000 before_refusal b r 6001 (rounding_double 10 ltac:(done))
           double_error eq_refl eq_refl ltac:(done) Hs H Ha). rewrite Hk. reflexivity.
Defined.

(** The millisecond is needed: at the time of the hint itself that client is refused. *)
Lemma hint_too_short :
  let '(b, r) := rate_limit_lua double 10 60 1000 before_refusal in
  r.(reply_retry_after) = 5%Z /\
  (rate_limit_lua double 10 60 (1000 + 1000 * 5) (Some b)).2.(reply_allowed) = 0%Z.
Proof. vm_compute. done. Qed.

(** In exact arithmetic it is not. *)
Lemma retry_after_exact capacity window t s b r t' :
  (0 < capacity)%Z -> (0 < window)%Z -> state_ok capacity window s ->
  rate_limit_lua exact capacity window t s = (b, r) -> r.(reply_allowed) = 0%Z ->
  (t + 1000 * r.(reply_retry_after) <= t')%Z ->
  (rate_limit_lua exact capacity window t' (Some b)).2.(reply_allowed) = 1%Z.
Proof.
  intros Hc Hw Hs H Ha Ht'. pose proof (lua_reply _ _ _ (rounding_exact capacity) Hc Hw t s b r Hs H)
    as (Hb & Hu & _ & [(? & _)|(_ & Hk & _ & Htk & Hlt)]); [congruence|].
  assert (Hwait : 1 - tokens b <= inject_Z (1000 * reply_retry_after r) *
                    refill_per_ms exact capacity (window * 1000)).
  { rewrite Htk. unfold rate_limit_lua in H. injection H as <- <-. cbn in *.
    pose proof (rate_pos capacity window Hc Hw) as Hpos.
    destruct (Qle_bool 1 _) eqn:Hle; [done|].
    set (x := refilled exact capacity (window * 1000) t s) in *. clearbody x.
    set (q := refill_per_ms exact capacity (window * 1000)) in *. clearbody q. unfold exact in *.
    pose proof (Qle_ceiling ((1 - x) / q / 1000)) as Hceil.
    apply (Qmult_le_compat_r _ _ (1000 * q)) in Hceil; [|lra].
    rewrite inject_Z_mult. change (inject_Z 1000) with 1000.
    assert (He : (1 - x) / q / 1000 * (1000 * q) == 1 - x) by (field; lra). lra. }
  destruct (rate_limit_lua exact capacity window t' (Some b)) as [b' r'] eqn:H'. cbn.
  pose proof (lua_reply _ _ _ (rounding_exact capacity) Hc Hw t' (Some b) b' r' Hb H')
    as (_ & _ & _ & [(? & _)|(_ & _ & _ & Htk' & Hlt')]); [done|].
  exfalso. pose proof (refilled_ge capacity window Hc b t' ltac:(lia)) as Hge.
  assert (inject_Z (1000 * reply_retry_after r) * refill_per_ms exact capacity (window * 1000) <=
    inject_Z (t' - updated_at_ms b) * refill_per_ms exact capacity (window * 1000)).
  { apply Qmult_le_compat_r; [rewrite <- Zle_Qle; lia|]. by apply Qlt_le_weak, rate_pos. }
  specialize (Hge ltac:(lra)). rewrite Htk' in Hlt'. lra.
Qed.
