(* ===== verification/Login.v ===== *)
(** * Login: what the rate-limited password login guarantees *)
From stdpp Require Import relations.
From S2P Require Import Prelude Text Json Schema Config TokenBucket Session Metrics Permissions Security.
From S2P Require Import Access Auth Lifecycle Refinement RefineServices Api RefineApi Sample.
#[local] Open Scope string_scope.

Section Login.
Context {E : Env}.

(** The script's run on the login bucket of a client. *)
Definition login_bucket (client : option string) (w : World) : Bucket * LuaReply :=
  rate_limit_lua float_round 10 60 (clock (S w.(w_tick)) / 1000)%Z
    (w.(w_redis) !! login_key (default "unknown" client)).

(** The world after the attempt was counted. *)
Definition counted (client : option string) (w : World) : World :=
  mkWorld w.(w_db)
    (<[login_key (default "unknown" client) := (login_bucket client w).1]> w.(w_redis))
    w.(w_log) (S (S w.(w_tick))).

(** PyJWT: a signed access token decodes, under the secret, issuer and audience it was made with,
    to its subject and type until the second it expires. *)
Definition jwt_law : Prop := forall c secret sub now,
  c.(claim_type) = Some "access" -> c.(claim_sub) = Some sub ->
  (c.(claim_iat) <= now)%Z -> (now < c.(claim_exp) / 1000000 * 1000000)%Z ->
  exists payload, jwt_decode now (jwt_encode c secret) secret c.(claim_iss) c.(claim_aud) = Some payload /\
    payload.(claim_sub) = Some sub /\ payload.(claim_type) = Some "access".

(** The requests that try a password: POST /auth/login with an address that validates to [username],
    POST /auth/token with any [username]. *)
Definition login_attempt (client : option string) (username password : string) (r : request) : Prop :=
  r = OAuthToken client username password \/
  exists email, validate_email email = Some username /\ r = Login client email password.

Lemma login_attempt_handle client username password r w :
  login_attempt client username password r ->
  handle r w = reply_with Tokens (_issue_login_tokens client username password) w.
Proof. intros [->|(email & He & ->)]; [done|]. cbn [handle]. unfold reply_with, login. by rewrite He. Qed.

Lemma check_login_rate client w :
  redis_up w.(w_tick) = true ->
  check_rate_limit (login_key (default "unknown" client)) 10 60 w =
    (Ok {| allowed := negb ((login_bucket client w).2.(reply_allowed) =? 0)%Z;
           remaining := Z.max 0 (login_bucket client w).2.(reply_tokens);
           retry_after := Z.max 0 (login_bucket client w).2.(reply_retry_after) |},
     counted client w).
Proof.
  intros Hup. unfold check_rate_limit, redis_eval, redis. cbn [Z.leb Z.compare orb].
  rewrite (bind_run _ _ _ (login_bucket client w).2 (counted client w)); [done|].
  rewrite (bind_run _ _ _ true (ticked w)) by (unfold read, ticked; by rewrite Hup).
  rewrite (bind_run _ _ _ (clock (S (w_tick w))) (ticked (ticked w))) by reflexivity.
  unfold counted, login_bucket. cbn [w_redis ticked].
  by destruct (rate_limit_lua _ _ _ _ _).
Qed.

Lemma check_rate_limit_frame key limit window r w w' :
  check_rate_limit key limit window w = (Ok r, w') ->
  w_db w' = w_db w /\ (w_tick w <= w_tick w')%nat.
Proof.
  unfold check_rate_limit, redis_eval, redis. intros H. inv_ok. cbn in *.
  simplify_eq. cbn. split; [done|lia].
Qed.

(** What an attempt does once it is counted. *)
Definition after_count (client : option string) (username password : string) (reply : LuaReply)
  : M TokenPair :=
  if (reply.(reply_allowed) =? 0)%Z
  then let! _u := log (Inc RATE_LIMIT_REJECTIONS.(m_name) ["login_ip"]) in
       raise (HTTPException 429 "Too many login attempts" [("Retry-After",
         pretty.pretty (Z.max 0 reply.(reply_retry_after)))])
  else let! user := authenticate username password in issue_token_pair user None.

Lemma login_run client username password r w :
  redis_up w.(w_tick) = true -> login_attempt client username password r ->
  serve r w = get_session (reply_with Tokens (fun w =>
    after_count client username password (login_bucket client w).2 (counted client w))) w.
Proof.
  intros Hup Hr. unfold serve, get_session. rewrite (login_attempt_handle _ _ _ _ _ Hr).
  assert (Hrun : _issue_login_tokens client username password w =
    after_count client username password (login_bucket client w).2 (counted client w)).
  { unfold _issue_login_tokens. rewrite (bind_run _ _ _ _ _ (check_login_rate client w Hup)).
    cbn [allowed retry_after]. unfold after_count. by destruct (reply_allowed _ =? 0)%Z. }
  unfold reply_with, bind. by rewrite Hrun.
Qed.

(** Every field of the new token, and the claims of the access token. *)
Lemma issue_token_pair_fields user pair w w' :
  issue_token_pair user None w = (Ok pair, w') ->
  exists t issued,
    t.(rt_user_id) = user.(user_id) /\
    t.(rt_token_hash) = token_fingerprint pair.(tp_refresh_token) /\
    t.(rt_revoked_at) = None /\
    t.(rt_expires_at) = (t.(rt_created_at) + days settings.(refresh_token_days))%Z /\
    find TRefreshToken (w_db w) t.(rt_id) = None /\
    w_db w' = put TRefreshToken t (w_db w) /\
    (w.(w_tick) <= issued < w'.(w_tick))%nat /\
    exists jti, pair.(tp_access_token) = jwt_encode {|
      claim_sub := Some (uuid_str user.(user_id)); claim_type := Some "access";
      claim_iat := clock issued;
      claim_exp := (clock issued + minutes settings.(access_token_minutes))%Z;
      claim_jti := jti; claim_iss := settings.(jwt_issuer); claim_aud := settings.(jwt_audience) |}
      settings.(jwt_secret).
Proof.
  unfold issue_token_pair, create_access_token, new_refresh_token. intros H. inv_ok.
  match goal with H : fits _ ?t = true |- _ => exists t, (4 + w_tick w)%nat end.
  cbn in *. split_and!; try done; try lia. by eexists.
Qed.

Lemma authenticate_Ok email password user w w' :
  authenticate email password w = (Ok user, w') ->
  w' = w /\ (exists id, find TUser (w_db w) id = Some user) /\
  user.(user_email) = lower email /\ user.(user_is_active) = true /\
  argon2_verify user.(user_password_hash) password = true.
Proof.
  unfold authenticate, verify_password. intros H. inv_ok. destruct_and!. bool_to_prop.
  split_and!; try done. by apply String.eqb_eq.
Qed.

(** The account does not exist or the password is wrong. *)
Definition bad_credentials (email password : string) (db : Db) : Prop :=
  forall id user, find TUser db id = Some user -> user.(user_email) = lower email ->
    argon2_verify user.(user_password_hash) password = false.

Lemma authenticate_bad email password w :
  bad_credentials email password (w_db w) ->
  authenticate email password w = (Err (AuthenticationError "Invalid email or password"), w).
Proof.
  intros Hbad. unfold authenticate, verify_password.
  destruct (scalar TUser (fun u => String.eqb u.(user_email) (lower email)) w) as [[[u|]|e] w1] eqn:Hs.
  - apply scalar_Ok in Hs as Hs'. destruct Hs' as [-> [Hp [id Hid]]].
    rewrite (bind_run _ _ _ _ _ Hs). apply String.eqb_eq in Hp. by rewrite (Hbad id u Hid Hp).
  - apply scalar_Ok in Hs as Hs'. destruct Hs' as [-> _]. by rewrite (bind_run _ _ _ _ _ Hs).
  - unfold scalar in Hs. done.
Qed.
End Login.

(** ** Properties *)

(** A malformed address is refused before the limiter, and not counted. *)
Lemma malformed_login {E : Env} client email password w :
  validate_email email = None ->
  serve (Login client email password) w = (Err RequestValidationError, w).
Proof.
  intros He. unfold serve, get_session. cbn [handle]. unfold reply_with, login. rewrite He.
  by destruct w.
Qed.

(** C33: the login limit holds before anything else, at both endpoints that take a password: POST
    /auth/login with a well-formed address and POST /auth/token with any user name.  When the bucket of
    the client's address is empty, the attempt is answered 429 with the seconds to wait; the
    credentials are not looked at (the outcome is the same for all of them), only the attempt is
    counted, and the database is untouched.  When Redis cannot be reached, the attempt fails without
    a look at the credentials as well. *)
Theorem login_throttled {E : Env} client username password r w :
  login_attempt client username password r ->
  (redis_up w.(w_tick) = true -> (login_bucket client w).2.(reply_allowed) = 0%Z ->
   serve r w =
     (Err (HTTPException 429 "Too many login attempts" [("Retry-After",
        pretty.pretty (Z.max 0 (login_bucket client w).2.(reply_retry_after)))]),
      add_log (Inc RATE_LIMIT_REJECTIONS.(m_name) ["login_ip"]) (counted client w))) /\
  (redis_up w.(w_tick) = false -> serve r w = (Err RedisError, ticked w)).
Proof.
  intros Hr. split.
  - intros Hup Ha. rewrite (login_run _ _ _ _ _ Hup Hr).
    unfold get_session, reply_with, after_count. unfold bind at 1. by rewrite Ha.
  - intros Hdown. unfold serve, get_session. rewrite (login_attempt_handle _ _ _ _ _ Hr).
    unfold reply_with, _issue_login_tokens, check_rate_limit, redis_eval, redis, bind, read.
    cbn [Z.leb Z.compare orb]. rewrite Hdown. reflexivity.
Qed.

(** Ten attempts of the client at one instant. *)
Definition w_tired : World :=
  {| w_setup with w_redis := {["ratelimit:login:10.0.0.1" :=
       mkBucket (QArith_base.inject_Z 0) (clock (S w_setup.(w_tick)) / 1000) (clock (S w_setup.(w_tick)) / 1000 + 120000)]} |}.

Lemma login_throttled_witness :
  Forall (fun r => (serve r w_tired).1 =
      Err (HTTPException 429 "Too many login attempts" [("Retry-After", "6")]))
    [Login (Some "10.0.0.1") alice "correct horse"; OAuthToken (Some "10.0.0.1") alice "guess"].
Proof.
  constructor; [|constructor; [|constructor]].
  - rewrite (proj1 (login_throttled (Some "10.0.0.1") alice "correct horse" _ w_tired
               ltac:(right; exists alice; split; reflexivity))); vm_compute; reflexivity.
  - rewrite (proj1 (login_throttled (Some "10.0.0.1") alice "guess" _ w_tired
               ltac:(left; reflexivity))); vm_compute; reflexivity.
Defined.

(** C34: logins do not reveal which accounts exist.  While the client is within its limit, an
    attempt for an unknown address and an attempt with a wrong password have the same answer and
    leave the same world. *)
Theorem login_reveals_nothing {E : Env} client email email' password w :
  redis_up w.(w_tick) = true -> validate_email email = Some email' ->
  (login_bucket client w).2.(reply_allowed) <> 0%Z ->
  bad_credentials email' password (w_db w) ->
  serve (Login client email password) w =
    (Err (AuthenticationError "Invalid email or password"), counted client w).
Proof.
  intros Hup He Ha Hbad.
  rewrite (login_run client email' password _ w Hup (or_intror (ex_intro _ email (conj He eq_refl)))).
  apply Z.eqb_neq in Ha. unfold get_session, reply_with, after_count. unfold bind at 1. rewrite Ha.
  unfold bind at 1. rewrite (authenticate_bad _ _ (counted client w) Hbad).
  reflexivity.
Qed.

Lemma login_reveals_nothing_witness :
  serve (Login None "nobody@x" "guess") w0 =
    (Err (AuthenticationError "Invalid email or password"), counted None w0).
Proof.
  apply (login_reveals_nothing None "nobody@x" "nobody@x" "guess" w0); try reflexivity.
  - vm_compute. discriminate.
  - intros id user H. discriminate.
Defined.

(** What a login gives.  A successful login names an active account whose stored hash
    verifies the password; it stores one unrevoked refresh token, as its fingerprint, for that
    account with the configured life time and changes no other row; and the access token it
    returns authenticates that account until the second it expires (as PyJWT decodes what it
    encodes; identifiers are 128 bits wide). *)
Theorem login_issues_tokens {E : Env} client email password b w w' :
  reachable w -> serve (Login client email password) w = (Ok b, w') ->
  exists pair user t issued,
    b = Tokens pair /\
    find TUser (w_db w) user.(user_id) = Some user /\ user.(user_is_active) = true /\
    lower <$> validate_email email = Some user.(user_email) /\
    argon2_verify user.(user_password_hash) password = true /\
    find TRefreshToken (w_db w) t.(rt_id) = None /\ w_db w' = put TRefreshToken t (w_db w) /\
    t.(rt_user_id) = user.(user_id) /\
    t.(rt_token_hash) = token_fingerprint pair.(tp_refresh_token) /\ t.(rt_revoked_at) = None /\
    t.(rt_expires_at) = (t.(rt_created_at) + days settings.(refresh_token_days))%Z /\
    (w.(w_tick) <= issued < w'.(w_tick))%nat /\
    (jwt_law -> (user.(user_id) < 2 ^ 128)%N -> forall now, (clock issued <= now)%Z ->
       (now < (clock issued + minutes settings.(access_token_minutes)) / 1000000 * 1000000)%Z ->
       decode_claims now pair.(tp_access_token) = Ok user.(user_id)).
Proof.
  intros [Hok _]%reachable_consistent H. unfold serve in H. rewrite get_session_Ok in H.
  apply reply_with_Ok in H as (pair & H & ->). unfold login in H.
  destruct (validate_email email) as [email'|] eqn:He; [|by apply raise_Ok in H].
  unfold _issue_login_tokens in H. apply bind_Ok in H as (r & w1 & Hrate & H).
  apply check_rate_limit_frame in Hrate as [Hdb1 Htick].
  destruct (negb _).
  { apply bind_Ok in H as (? & ? & _ & H). by apply raise_Ok in H. }
  apply bind_Ok in H as (user & w2 & Ha & H).
  apply authenticate_Ok in Ha as (-> & [id Hu] & Hemail & Hact & Hpw).
  apply issue_token_pair_fields in H
    as (t & issued & Ht & Hth & Hr & Hexp & Hn & Hdb' & Hi & jti & Hjwt).
  rewrite Hdb1 in *. destruct (Hok _ _ _ Hu) as [Hid _]. cbn in Hid. subst id.
  exists pair, user, t, issued. cbn [fmap option_fmap option_map]. rewrite Hemail.
  split_and!; try done; try lia. intros Hlaw Hbits now Hlo Hhi.
  match type of Hjwt with _ = jwt_encode ?c ?k =>
    destruct (Hlaw c k _ now eq_refl eq_refl Hlo Hhi) as (p & Hd & Hsub & Hty) end.
  unfold decode_claims. rewrite Hjwt. cbn in Hd |- *. rewrite Hd, Hty, Hsub.
  by rewrite bool_decide_eq_true_2, uuid_parse_str by done.
Qed.

Lemma login_issues_tokens_witness :
  exists pair user w' now,
    serve (Login (Some "10.0.0.1") alice "correct horse") w_setup = (Ok (Tokens pair), w') /\
    find TUser (w_db w_setup) user.(user_id) = Some user /\ user.(user_email) = alice /\
    decode_claims now pair.(tp_access_token) = Ok user.(user_id).
Proof.
  destruct (serve_run (Login (Some "10.0.0.1") alice "correct horse") w_setup
    ltac:(vm_compute; reflexivity)) as [b Hb].
  destruct (login_issues_tokens _ _ _ _ _ _ w_setup_reachable Hb)
    as (pair & user & t & issued & -> & Hu & Hact & Hemail & _ & _ & _ & _ & _ & _ & _ & _ & Hdec).
  assert (Hlaw : jwt_law).
  { intros c secret sub now Hty Hsub _ _. destruct c as [s ty ? ? ? ? ?]. cbn in *. subst.
    eexists. split; [reflexivity|]. split; reflexivity. }
  exists pair, user. eexists. exists (clock issued). split; [exact Hb|]. split; [exact Hu|]. split.
  - cbn in Hemail. injection Hemail as Hemail. by rewrite <- Hemail.
  - apply (Hdec Hlaw); [|lia|].
    { apply N.ltb_lt. refine (rows_forallb TUser _ (fun u => u.(user_id) <? 2 ^ 128)%N _ _ _ Hu).
      vm_compute. reflexivity. }
    change (minutes (access_token_minutes settings)) with 900000000%Z.
    generalize (clock issued). intros x. pose proof (Z.mod_pos_bound (x + 900000000) 1000000).
    pose proof (Z.div_mod (x + 900000000) 1000000). lia.
Defined.
