(* ===== verification/Targets.v ===== *)
(** * Targets: where webhooks may be sent

    With private targets disallowed, as production demands, endpoints are registered only for
    public addresses, and the worker posts only to public addresses. *)
From stdpp Require Import relations.
From S2P Require Import Prelude Text Json Schema Config TokenBucket Session Permissions Security.
From S2P Require Import Access AuditTrail Idempotency Events Projects Tasks Organizations Auth.
From S2P Require Import Signing Webhooks Billing Files Email Metrics Worker Lifecycle Refinement RefineServices.
From S2P Require Import RefineWorker Api RefineApi Logs Sample Tenancy.
#[local] Open Scope string_scope.

Section Targets.
Context {E : Env}.

(** The URL names a global address, or a host that resolved to global addresses only. *)
Definition public_target (url : string) : Prop :=
  exists host, url_hostname url = Some host /\ host <> "" /\
    (ip_is_global host = Some true \/
     ip_is_global host = None /\
     exists t port addresses, getaddrinfo t host port = Some addresses /\ addresses <> [] /\
       forall a, a ∈ addresses -> ip_is_global a = Some true).

Definition posts_public (e : effect) : Prop :=
  match e with HttpPost url _ _ => public_target url | _ => True end.

Lemma any_private_false l :
  any_private l = Ok false -> forall a, a ∈ l -> ip_is_global a = Some true.
Proof.
  induction l as [|b l IH]; cbn; [set_solver|]. intros H a. rewrite elem_of_cons.
  destruct (ip_is_global b) as [[]|] eqn:Hb; [|done..]. intros [->|Ha]; [done|by apply IH].
Qed.

(** What a passed validation established. *)
Lemma validated_public url w u w' :
  webhook_allow_private_targets settings = false ->
  validate_webhook_target url w = (Ok u, w') -> public_target url.
Proof.
  intros Hp H. unfold validate_webhook_target in H. rewrite Hp in H.
  destruct (url_hostname url) as [host|] eqn:Hh; [|by apply raise_Ok in H].
  assert (Hne : host <> "") by (intros ->; by apply raise_Ok in H).
  assert (H' : match ip_is_global host with
    | Some false => raise (ValueError "Webhook target must resolve to a public IP address")
    | Some true => ret tt | None => validate_resolved host url end w = (Ok u, w'))
    by (destruct host; [done|exact H]).
  exists host. split_and!; try done. destruct (ip_is_global host) as [[]|] eqn:Hg; [by left|by apply raise_Ok in H'|].
  right. split; [done|]. unfold validate_resolved in H'.
  apply bind_Ok in H' as (port & w1 & [_ ->]%lift_Ok & H'). cbv zeta in H'.
  apply bind_Ok in H' as (addrs & w1 & [-> ->]%read_Ok & H'). cbv zeta in H'.
  match type of H' with match getaddrinfo ?t ?h ?p with _ => _ end _ = _ =>
    destruct (getaddrinfo t h p) as [l|] eqn:Hl; [|by apply raise_Ok in H'] end.
  do 2 eexists. exists l. split; [exact Hl|].
  destruct (remove_dups l) as [|a0 l0] eqn:Hd; [by apply raise_Ok in H'|].
  apply bind_Ok in H' as (private & w1 & [Hpr ->]%lift_Ok & H').
  destruct private; [by apply raise_Ok in H'|]. rewrite <- Hd in Hpr.
  split; [by intros ->|]. intros a Ha. apply (any_private_false _ Hpr). by rewrite elem_of_remove_dups.
Qed.

End Targets.

Section Posts.
Context {E : Env}.

Lemma claim_logs id : logs posts_public (claim_delivery id).
Proof. logs. Qed.

(** A claimed attempt has a validated target. *)
Lemma claim_public id d url body headers w w' :
  webhook_allow_private_targets settings = false ->
  claim_delivery id w = (Ok (Attempt d url body headers), w') -> public_target url.
Proof.
  intros Hpriv H. unfold claim_delivery in H.
  apply bind_Ok in H as (u & w1 & _ & H). apply bind_Ok in H as ([d0|] & w2 & _ & H);
    [|by apply raise_Ok in H].
  destruct (one_of _ _); [by apply ret_Ok in H as [? _]|].
  apply bind_Ok in H as ([e|] & w3 & _ & H); [|by apply mark_dead_Attempt in H].
  destruct (negb _); [by apply mark_dead_Attempt in H|].
  apply bind_Ok in H as ([msg|] & w4 & Ht & H); [by apply mark_dead_Attempt in H|].
  assert (Hv : exists w0 u w5, validate_webhook_target (ep_url e) w0 = (Ok u, w5)).
  { apply try_except_Ok in Ht as [(v & w5 & Hv & _)%bind_Ok|(e0 & w5 & m' & _ & Hh & Hm)];
      [by eauto|]. by destruct e0; simplify_eq. }
  destruct Hv as (w0 & v & w5 & Hv).
  apply bind_Ok in H as (secret & w6 & _ & H). apply bind_Ok in H as (sg & w7 & _ & H).
  apply bind_Ok in H as (d' & w8 & _ & [Hatt _]%ret_Ok). injection Hatt as _ -> _ _.
  by eapply validated_public.
Qed.

Lemma settle_logs id d url body headers :
  public_target url -> logs posts_public (settle id (Attempt d url body headers)).
Proof.
  intros Hurl. cbn [settle]. apply logs_bind; [|intros; logs].
  unfold post. apply logs_bind; [logs|intros]. apply logs_bind; [by apply logs_log|intros; logs].
Qed.

Lemma deliver_logs retries id :
  webhook_allow_private_targets settings = false -> logs posts_public (deliver_webhook retries id).
Proof.
  intros Hpriv. unfold deliver_webhook, run_delivery. apply logs_try; [|intros [] ? ?; simplify_eq; logs].
  apply logs_bind; [apply logs_bind|intros; logs].
  - apply logs_session, claim_logs.
  - intros [o|d url body headers] w w' Hc; [cbn [settle]; logs|]. rewrite get_session_Ok in Hc.
    by apply settle_logs, (claim_public _ _ _ _ _ _ _ Hpriv Hc).
Qed.
End Posts.

(** What the service stores and returns. *)
Section Registration.
Context {E : Env}.

Lemma endpoint_created org uid payload ep secret w w' :
  create_webhook_endpoint org uid payload w = (Ok (ep, secret), w') ->
  ep.(ep_url) = payload.(wc_url) /\ find TEndpoint (w_db w) ep.(ep_id) = None /\
  w_db w' = put TEndpoint ep (w_db w) /\ ep.(ep_organization_id) = org /\
  ep.(ep_is_active) = true /\ ep.(ep_events) = sorted_set payload.(wc_events) /\
  (forall e, e ∈ payload.(wc_events) -> e ∈ SUPPORTED_EVENTS) /\
  ep.(ep_signing_secret_hash) = sha256_hexdigest (utf8 secret) /\
  (exists t, ep.(ep_signing_secret_encrypted) = fernet_encrypt _fernet t secret) /\
  (webhook_allow_private_targets settings = false -> public_target payload.(wc_url)).
Proof.
  unfold create_webhook_endpoint. cbv zeta. intros H.
  destruct (unknown_events _) eqn:Hun; [|by apply raise_Ok in H].
  apply bind_Ok in H as (u & w1 & Hv & H). pose proof (validate_webhook_target_quiet _ _ _ _ Hv) as Hq.
  inv_ok. apply ret_Ok in H as [[= -> ->] ->]. cbn in *. rewrite Hq in *. split_and!; try done.
  - intros e. by apply known_events.
  - by eexists.
  - intros Hpriv. by eapply validated_public.
Qed.
End Registration.

(** ** Properties *)

(** C35: no request forgery by the worker.  While private targets are disallowed, every HTTP
    request that a run of the delivery task makes, whatever its outcome, goes to a URL whose host
    is a global address or resolved only to global addresses when it was checked. *)
Theorem outbound_targets_public {E : Env} retries id w r w' :
  webhook_allow_private_targets settings = false ->
  deliver_webhook retries id w = (r, w') ->
  exists l, w_log w' = (w_log w ++ l)%list /\
    forall url body headers, HttpPost url body headers ∈ l -> public_target url.
Proof.
  intros Hpriv H. destruct (deliver_logs retries id Hpriv w r w' H) as (l & Hl & HP).
  exists l. split; [done|]. intros url body headers Hin. rewrite Forall_forall in HP. by apply HP in Hin.
Qed.

(** The sample system under the production rule. *)
Definition strict_env : Env :=
  {| sample_env with settings := {| sample_settings with webhook_allow_private_targets := false |} |}.

Lemma outbound_targets_public_witness :
  exists l, w_log (deliver_webhook (E := strict_env) 0 acme_job w_setup).2 = (w_log w_setup ++ l)%list /\
    existsb (fun e => match e with HttpPost _ _ _ => true | _ => false end)
      (drop (List.length (w_log w_setup)) (w_log (deliver_webhook (E := strict_env) 0 acme_job w_setup).2)) = true /\
    forall url body headers, HttpPost url body headers ∈ l -> public_target (E := strict_env) url.
Proof.
  destruct (outbound_targets_public (E := strict_env) 0 acme_job w_setup
    (deliver_webhook (E := strict_env) 0 acme_job w_setup).1
    (deliver_webhook (E := strict_env) 0 acme_job w_setup).2 eq_refl (surjective_pairing _))
    as (l & Hl & HP).
  exists l. split; [exact Hl|]. split; [vm_compute; reflexivity|exact HP].
Defined.

(** Registration of an endpoint.  A successful registration stores one active endpoint of the
    organization for the validated URL with the requested events, each supported and listed once;
    the secret it returns is stored only as its fingerprint and encrypted, and the worker will
    decrypt the same secret (Fernet decrypts what it encrypts); without private targets the URL
    was checked to be public. *)
Theorem webhook_registered {E : Env} token org body b w w' :
  serve (Tenant token org (CreateWebhook body)) w = (Ok b, w') ->
  exists ep secret,
    b = WebhookReply (mkWebhookResponse ep.(ep_id) ep.(ep_url) ep.(ep_events) true (Some secret)) /\
    find TEndpoint (w_db w) ep.(ep_id) = None /\ find TEndpoint (w_db w') ep.(ep_id) = Some ep /\
    ep.(ep_organization_id) = org /\ ep.(ep_is_active) = true /\
    any_http_url body.(wc_url) = Some ep.(ep_url) /\
    NoDup ep.(ep_events) /\ (forall e, e ∈ ep.(ep_events) <-> e ∈ body.(wc_events)) /\
    (forall e, e ∈ ep.(ep_events) -> e ∈ SUPPORTED_EVENTS) /\
    ep.(ep_signing_secret_hash) = sha256_hexdigest (utf8 secret) /\
    ((forall k t s, fernet_decrypt k (fernet_encrypt k t s) = Some s) ->
       decrypt_signing_secret ep.(ep_signing_secret_encrypted) = Ok secret) /\
    (webhook_allow_private_targets settings = false -> public_target ep.(ep_url)).
Proof.
  intros H%serve_tenant_Ok. cbn [handle_tenant] in H. apply reply_with_Ok in H as (resp & H & ->).
  unfold create_webhook in H. apply bind_Ok in H as (c & w1 & Hc & H).
  apply require_permission_quiet in Hc. unfold WebhookCreate_validate in H.
  destruct (any_http_url (wc_url body)) as [url|] eqn:Hurl; [|by apply raise_Ok in H].
  cbn [mbind option_bind] in H. destruct (_ && _); [|by apply raise_Ok in H].
  apply bind_Ok in H as ([ep secret] & w2 & Hcr & [-> ->]%ret_Ok).
  apply try_except_Ok in Hcr as [Hcr|(e & w3 & m' & _ & Hh & Hm)];
    [|destruct e; simplify_eq; by apply raise_Ok in Hm].
  apply bind_Ok in Hcr as ([ep' secret'] & w3 & Hcr & Ha).
  apply bind_Ok in Ha as (log & w4 & Haud & [Heq ->]%ret_Ok). injection Heq as -> ->.
  apply record_audit_Ok in Haud as (_ & _ & _ & _ & _ & _ & _ & Hdb & _).
  apply endpoint_created in Hcr as (Hu & Hn & Hd & Ho & Hact & Hev & Hsup & Hhash & Henc & Hpub).
  cbn [wc_url wc_events fst snd] in *. exists ep', secret'. rewrite Hc in *.
  split_and!; try done.
  - by rewrite Hact.
  - rewrite Hdb, put_ne, Hd by done. by apply find_put.
  - by rewrite Hu.
  - rewrite Hev. apply sorted_set_NoDup.
  - intros e. by rewrite Hev, sorted_set_elem.
  - intros e He. apply Hsup. by rewrite Hev, sorted_set_elem in He.
  - intros Hlaw. destruct Henc as [t Ht]. unfold decrypt_signing_secret. by rewrite Ht, Hlaw.
  - by rewrite Hu.
Qed.

Definition hook_request : tenant_request :=
  CreateWebhook (mkWebhookCreate "https://audit.acme.org" ["task.created"; "project.created"; "task.created"]).

Lemma webhook_registered_witness :
  exists ep secret w',
    serve (E := strict_env) (Tenant alice_token acme hook_request) w_setup = (Ok (WebhookReply
      (mkWebhookResponse ep.(ep_id) ep.(ep_url) ep.(ep_events) true (Some secret))), w') /\
    decrypt_signing_secret (E := strict_env) ep.(ep_signing_secret_encrypted) = Ok secret /\
    public_target (E := strict_env) ep.(ep_url) /\
    find TEndpoint (w_db w') ep.(ep_id) = Some ep.
Proof.
  assert (Hok : is_ok (serve (E := strict_env) (Tenant alice_token acme hook_request) w_setup).1 = true)
    by (vm_compute; reflexivity).
  destruct (serve (E := strict_env) (Tenant alice_token acme hook_request) w_setup) as [[b|e] w'] eqn:H;
    [|discriminate].
  destruct (webhook_registered (E := strict_env) alice_token acme _ b w_setup w' H)
    as (ep & secret & -> & _ & Hf & _ & _ & _ & _ & _ & _ & _ & Hdec & Hpub).
  exists ep, secret, w'. split; [reflexivity|]. split; [|split; [|exact Hf]].
  - apply Hdec. intros k t s. reflexivity.
  - apply Hpub. reflexivity.
Defined.
