(* ===== verification/Monitoring.v ===== *)
(** * Monitoring: /metrics shows every outcome the worker recorded

    The scrape only sets the gauges of a fixed list of labels.  No request and no task ever counts
    anything else in Redis, so nothing is counted and not shown. *)
From stdpp Require Import relations.
From S2P Require Import Prelude Text Json Schema Config TokenBucket Session Permissions Security.
From S2P Require Import Access AuditTrail Idempotency Events Projects Tasks Organizations Auth.
From S2P Require Import Webhooks Billing Files Email Metrics Worker Main Api Routing Http Logs Sample.
#[local] Open Scope string_scope.

(** The field of a hash is the label of a gauge. *)
Definition exported (key field : string) : Prop :=
  key = _BACKGROUND_HASH /\
    (exists job outcome, (job, outcome) ∈ _BACKGROUND_LABELS /\ field = job +:+ ":" +:+ outcome) \/
  key = _WEBHOOK_HASH /\ field ∈ _WEBHOOK_LABELS.

Definition exported_effect (e : effect) : Prop :=
  match e with
  | Hincrby key field => exported key field
  | Inc name labels => accepts Counter name labels
  | Observe name labels _ => accepts Histogram name labels
  | _ => True
  end.

(** How often an outcome was recorded. *)
Definition is_increment (key field : string) (e : effect) : bool :=
  match e with Hincrby k f => String.eqb k key && String.eqb f field | _ => false end.
Definition recorded (key field : string) (l : list effect) : Z :=
  Z.of_nat (List.length (filter (fun e => is_increment key field e = true) l)).

(** ** The hashes *)
Lemma increment_lookup key field l hash :
  default 0%Z (foldl (increment key) hash l !! field) =
  (default 0 (hash !! field) + recorded key field l)%Z.
Proof.
  revert hash. induction l as [|e l IH]; intros hash; cbn [foldl]; [unfold recorded; cbn; lia|].
  rewrite IH. unfold recorded. rewrite filter_cons.
  destruct e; cbn [increment is_increment]; try (rewrite decide_False by done; lia).
  destruct (String.eqb_spec key0 key) as [->|]; cbn [andb]; [|rewrite decide_False by done; lia].
  destruct (String.eqb_spec field0 field) as [->|].
  - rewrite decide_True, lookup_insert_eq by done. cbn [default List.length]. unfold id. lia.
  - rewrite decide_False, lookup_insert_ne by done. lia.
Qed.

(** Every label of the list is set. *)
Lemma set_all_lookup `{Countable K} (f : K -> Z) (labels : list K) (g : gmap K Z) k :
  k ∈ labels -> foldl (fun g k => <[k := f k]> g) g labels !! k = Some (f k).
Proof.
  intros Hk. assert (Hg : k ∈ labels \/ g !! k = Some (f k)) by by left. clear Hk. revert g Hg.
  induction labels as [|k' labels IH]; intros g Hg; cbn [foldl].
  - destruct Hg as [[]%not_elem_of_nil|Hg]; exact Hg.
  - apply IH. destruct (decide (k' = k)) as [->|Hne].
    + right. by rewrite lookup_insert_eq.
    + rewrite lookup_insert_ne by done. destruct Hg as [[->|Hg]%elem_of_cons|Hg]; tauto.
Qed.

Lemma set_background_lookup background gauge job outcome :
  (job, outcome) ∈ _BACKGROUND_LABELS ->
  set_background background gauge !! (job, outcome) =
    Some (default 0%Z (background !! (job +:+ ":" +:+ outcome))).
Proof.
  intros H. apply (set_all_lookup (fun '(j, o) => default 0%Z (background !! (j +:+ ":" +:+ o))) _ gauge) in H.
  rewrite <- H. reflexivity.
Qed.

Lemma set_webhook_lookup webhook gauge outcome :
  outcome ∈ _WEBHOOK_LABELS ->
  set_webhook webhook gauge !! outcome = Some (default 0%Z (webhook !! outcome)).
Proof. apply (set_all_lookup (fun o => default 0%Z (webhook !! o))). Qed.

(** ** What is counted *)
Section Counted.
Context {E : Env}.

Lemma job_exported job outcome :
  (job, outcome) ∈ _BACKGROUND_LABELS -> logs exported_effect (record_background_job job outcome).
Proof.
  intros H. unfold record_background_job, hincrby. apply logs_bind; [logs|]. intros up w w' _.
  destruct up; [|logs]. apply logs_log. left. eauto.
Qed.

Lemma delivery_exported outcome :
  outcome ∈ _WEBHOOK_LABELS -> logs exported_effect (record_webhook_delivery outcome).
Proof.
  intros H. unfold record_webhook_delivery, hincrby. apply logs_bind; [logs|]. intros up w w' _.
  destruct up; [|logs]. apply logs_log. by right.
Qed.
End Counted.

#[local] Hint Extern 1 (_ ∈ _) => apply (bool_decide_unpack _); vm_compute; exact I : logs.
Lemma login_counted : exported_effect (Inc RATE_LIMIT_REJECTIONS.(m_name) ["login_ip"]).
Proof. exists RATE_LIMIT_REJECTIONS. split_and!; [set_solver|done..]. Qed.
Lemma stripe_counted outcome : exported_effect (Inc STRIPE_WEBHOOK_EVENTS.(m_name) [outcome]).
Proof. exists STRIPE_WEBHOOK_EVENTS. split_and!; [set_solver|done..]. Qed.
#[local] Hint Resolve login_counted stripe_counted : logs.
#[local] Hint Resolve job_exported delivery_exported : logs.

Section Monitored.
Context {E : Env}.

Lemma serve_exported r : logs exported_effect (serve r).
Proof. unfold serve. destruct r; cbn [handle]; [..|destruct r|]; cbn [handle_tenant]; logs. Qed.

Lemma invitation_outcome id token w outcome w' :
  run_invitation id token w = (Ok outcome, w') -> outcome = "success" \/ outcome = "skipped".
Proof.
  unfold run_invitation. intros H. apply bind_Ok in H as (? & ? & _ & H).
  apply bind_Ok in H as ([i|] & ? & _ & H); [|by apply raise_Ok in H].
  destruct (negb _); [apply ret_Ok in H as [-> _]; by right|].
  apply bind_Ok in H as ([o|] & ? & _ & H); [|apply ret_Ok in H as [-> _]; by right].
  apply bind_Ok in H as (? & ? & _ & [-> _]%ret_Ok). by left.
Qed.

Lemma invitation_exported retries id token : logs exported_effect (send_invitation retries id token).
Proof.
  unfold send_invitation. apply logs_try; [|intros [] ? ?; simplify_eq; logs].
  apply logs_bind; [logs|]. intros outcome w w' [-> | ->]%invitation_outcome; logs.
Qed.

Lemma failure_outcome d id message w outcome w' :
  fail_delivery d id message w = (Ok outcome, w') -> outcome ∈ ["skipped"; "dead"; "retry"].
Proof.
  unfold fail_delivery. intros H. apply bind_Ok in H as (? & ? & _ & H).
  apply bind_Ok in H as ([stored|] & ? & _ & H); [|apply ret_Ok in H as [-> _]; set_solver].
  cbv zeta in H. destruct (5 <=? _)%Z.
  - apply bind_Ok in H as (? & ? & _ & [-> _]%ret_Ok). set_solver.
  - apply bind_Ok in H as (? & ? & _ & H). apply bind_Ok in H as (? & ? & _ & [-> _]%ret_Ok). set_solver.
Qed.

Lemma delivery_task_exported retries id : logs exported_effect (deliver_webhook retries id).
Proof.
  unfold deliver_webhook, run_delivery. apply logs_try; [|intros [] ? ?; simplify_eq; logs].
  apply logs_bind; [|intros; logs]. apply logs_bind; [logs|]. intros [o|d url body headers] ? ? _; cbn [settle]; [logs|].
  apply logs_bind; [logs|]. intros [status|message] ? ? _; [logs|].
  apply logs_bind; [logs|]. intros outcome w1 w1'. rewrite get_session_Ok. intros Ho%failure_outcome.
  repeat (apply elem_of_cons in Ho as [->|Ho]; [cbn [String.eqb Ascii.eqb Bool.eqb]; logs|]).
  by apply elem_of_nil in Ho.
Qed.

Lemma cleanup_exported retries : logs exported_effect (cleanup_task retries).
Proof. unfold cleanup_task. logs. Qed.

Lemma step_exported w w' :
  step w w' -> exists l, w_log w' = (w_log w ++ l)%list /\ Forall exported_effect l.
Proof.
  intros []; [eapply serve_exported|eapply invitation_exported|eapply delivery_task_exported
    |eapply cleanup_exported]; apply surjective_pairing.
Qed.

Lemma log_exported w0 w : w_log w0 = [] -> rtc step w0 w -> Forall exported_effect (w_log w).
Proof.
  intros H0 H. assert (Forall exported_effect (w_log w0)) as Hl by (rewrite H0; constructor).
  clear H0. induction H as [|w1 w2 w3 (l & Hw & HP)%step_exported _ IH]; [done|].
  apply IH. rewrite Hw. by apply Forall_app.
Qed.
End Monitored.

(** ** Property *)

(** C25: nothing the worker counts is lost.  Whatever requests and tasks ran since the counters were
    empty, a scrape that reaches Redis sets the gauge of every label to the number of times that
    outcome was recorded; every outcome that was recorded has a label, and every increment of a counter
    names a declared counter with as many label values as it has labels. *)
Theorem worker_outcomes_exported {E : Env} generate_latest content_type w0 w gauges :
  w_log w0 = [] -> rtc step w0 w ->
  redis_up (w_tick w) = true -> redis_up (S (w_tick w)) = true ->
  exists g w',
    metrics generate_latest content_type gauges w =
      (Ok (g, mkHttpResponse 200 (TextBody (generate_latest (w_log w) g))
                [("Content-Type", content_type)]), w') /\
    w_db w' = w_db w /\ w_log w' = w_log w /\
    (forall job outcome, (job, outcome) ∈ _BACKGROUND_LABELS ->
       g.(BACKGROUND_JOB_OUTCOMES) !! (job, outcome) =
         Some (recorded _BACKGROUND_HASH (job +:+ ":" +:+ outcome) (w_log w))) /\
    (forall outcome, outcome ∈ _WEBHOOK_LABELS ->
       g.(WEBHOOK_DELIVERY_OUTCOMES) !! outcome = Some (recorded _WEBHOOK_HASH outcome (w_log w))) /\
    (forall key field, Hincrby key field ∈ w_log w -> exported key field) /\
    (forall name labels, Inc name labels ∈ w_log w -> accepts Counter name labels).
Proof.
  intros H0 Hs Hup1 Hup2. pose proof (log_exported _ _ H0 Hs) as Hl.
  eexists _, _. split; [|split; [|split; [|split; [|split; [|split]]]]].
  - unfold metrics, refresh_distributed_metrics, hgetall, redis, try_except, bind, read, ret.
    rewrite Hup1. cbn [w_tick w_log]. rewrite Hup2. reflexivity.
  - done.
  - done.
  - intros job outcome Hk. cbn [BACKGROUND_JOB_OUTCOMES]. rewrite set_background_lookup by done.
    by rewrite increment_lookup.
  - intros outcome Hk. cbn [WEBHOOK_DELIVERY_OUTCOMES]. rewrite set_webhook_lookup by done.
    by rewrite increment_lookup.
  - intros key field Hin. rewrite Forall_forall in Hl. exact (Hl _ Hin).
  - intros name labels Hin. rewrite Forall_forall in Hl. exact (Hl _ Hin).
Qed.

Lemma worker_outcomes_exported_witness :
  exists g response w',
    metrics (fun _ _ => "...") "text/plain" (mkGauges ∅ ∅) w_delivered = (Ok (g, response), w') /\
    g.(WEBHOOK_DELIVERY_OUTCOMES) !! "delivered" = Some 1%Z.
Proof.
  destruct (worker_outcomes_exported (fun _ _ => "...") "text/plain" w0 w_delivered (mkGauges ∅ ∅) eq_refl w_delivered_steps
              eq_refl eq_refl) as (g & w' & Hr & _ & _ & _ & Hg & _).
  exists g. eexists _, w'. split; [exact Hr|]. etrans; [apply Hg, list_elem_of_here|].
  vm_compute. reflexivity.
Defined.
