(* ===== verification/Boundaries.v ===== *)
(** * Boundaries: the canonical request, uploads, the production settings and the log *)
From stdpp Require Import relations.
From S2P Require Import Prelude Text Json JsonLoads JsonRoundTrip Dates Schema Config TokenBucket Session Permissions Security.
From S2P Require Import Access AuditTrail Idempotency Events Projects Tasks Organizations Auth.
From S2P Require Import Webhooks Billing Files Email Metrics Worker Lifecycle Refinement RefineServices.
From S2P Require Import Api Logging RefineApi Sample Tenancy.
#[local] Open Scope string_scope.

(** ** Payloads that Python compares equal *)

(** Dictionaries with the same items in another order, at any depth. *)
Inductive same_json : json -> json -> Prop :=
  | same_refl j : same_json j j
  | same_trans j1 j2 j3 : same_json j1 j2 -> same_json j2 j3 -> same_json j1 j3
  | same_order kvs kvs' : NoDup kvs.*1 -> kvs ≡ₚ kvs' -> same_json (JObj kvs) (JObj kvs')
  | same_element l1 j j' l2 : same_json j j' ->
      same_json (JArr (l1 ++ j :: l2)) (JArr (l1 ++ j' :: l2))
  | same_member kvs1 k j j' kvs2 : same_json j j' ->
      same_json (JObj (kvs1 ++ (k, j) :: kvs2)) (JObj (kvs1 ++ (k, j') :: kvs2)).

Lemma same_sort_keys a b : same_json a b -> sort_keys a = sort_keys b.
Proof.
  induction 1 as [j|? ? ? _ IH1 _ IH2|kvs kvs' Hnd Hp|l1 j j' l2 _ IH|kvs1 k j j' kvs2 _ IH].
  - done.
  - congruence.
  - cbn. f_equal. apply merge_sort_keys_perm; [|by apply Permutation_map].
    replace ((map (fun kv => (kv.1, sort_keys kv.2)) kvs).*1) with (kvs.*1); [done|].
    clear. induction kvs as [|[k v] l IH]; [done|]. cbn. by f_equal.
  - cbn [sort_keys]. rewrite !map_app. cbn [map]. by rewrite IH.
  - cbn [sort_keys]. rewrite !map_app. cbn [map fst snd]. by rewrite IH.
Qed.

Lemma same_json_sym a b : same_json a b -> same_json b a.
Proof.
  induction 1 as [j|? ? ? _ IH1 _ IH2|kvs kvs' Hnd Hp|l1 j j' l2 _ IH|kvs1 k j j' kvs2 _ IH].
  - apply same_refl.
  - by eapply same_trans.
  - apply same_order; [by rewrite <- Hp|done].
  - by apply same_element.
  - by apply same_member.
Qed.

(** Elements and members may be replaced one by one. *)
Lemma same_elements l l' l0 : Forall2 same_json l l' -> same_json (JArr (l0 ++ l)) (JArr (l0 ++ l')).
Proof.
  intros H. revert l0. induction H as [|x y l l' Hx _ IH]; intros l0; [apply same_refl|].
  apply (same_trans _ (JArr (l0 ++ y :: l))); [by apply same_element|].
  specialize (IH (l0 ++ [y])%list). by rewrite <- !app_assoc in IH.
Qed.

Lemma same_members kvs kvs' l0 :
  Forall2 (fun p q => p.1 = q.1 /\ same_json p.2 q.2) kvs kvs' ->
  same_json (JObj (l0 ++ kvs)) (JObj (l0 ++ kvs')).
Proof.
  intros H. revert l0. induction H as [|[k x] [k' y] l l' [Hk Hx] _ IH]; intros l0; [apply same_refl|].
  cbn in Hk, Hx. subst k'. apply (same_trans _ (JObj (l0 ++ (k, y) :: l))); [by apply same_member|].
  specialize (IH (l0 ++ [(k, y)])%list). by rewrite <- !app_assoc in IH.
Qed.

Lemma sort_keys_fst (kvs : list (string * json)) :
  (map (fun kv => (kv.1, sort_keys kv.2)) kvs).*1 = kvs.*1.
Proof. induction kvs as [|[k v] l IH]; [done|]. cbn. by f_equal. Qed.

Lemma same_sorted j : readable 0 j = true -> same_json j (sort_keys j).
Proof.
  induction j as [| | | |l IH|kvs IH] using json_rect'; intros Hj; try apply same_refl; cbn [sort_keys].
  - apply (same_elements _ _ []). cbn [readable] in Hj. rewrite forallb_forall in Hj.
    induction IH as [|x l Hx _ IHl]; cbn [map]; constructor.
    + apply Hx, Hj. by left.
    + apply IHl. intros y Hy. apply Hj. by right.
  - cbn [readable] in Hj. apply andb_true_iff in Hj as [Hd%bool_decide_eq_true Hj].
    apply (same_trans _ (JObj (map (fun kv => (kv.1, sort_keys kv.2)) kvs))).
    + apply (same_members _ _ []). clear Hd. rewrite forallb_forall in Hj.
      induction IH as [|[k x] l Hx _ IHl]; cbn [map]; constructor.
      * split; [done|]. apply Hx, (Hj (k, x)). by left.
      * apply IHl. intros y Hy. apply Hj. by right.
    + apply same_order; [by rewrite sort_keys_fst|]. by rewrite merge_sort_Permutation.
Qed.

Lemma sort_keys_readable j : readable 0 j = true -> readable 0 (sort_keys j) = true.
Proof.
  induction j as [| | | |l IH|kvs IH] using json_rect'; try done; cbn [readable sort_keys]; intros Hj.
  - rewrite forallb_forall in *. intros x Hx. apply in_map_iff in Hx as (y & <- & Hy).
    rewrite Forall_forall in IH. apply IH; [by apply list_elem_of_In|]. by apply Hj.
  - apply andb_true_iff in Hj as [Hd%bool_decide_eq_true Hj]. apply andb_true_iff. split.
    + apply bool_decide_eq_true. rewrite merge_sort_Permutation. by rewrite sort_keys_fst.
    + rewrite forallb_forall in *. intros x Hx.
      apply list_elem_of_In in Hx. rewrite merge_sort_Permutation in Hx.
      apply list_elem_of_In, in_map_iff in Hx as (y & <- & Hy). cbn [snd].
      rewrite Forall_forall in IH. apply (IH y); [by apply list_elem_of_In|]. by apply Hj.
Qed.

(** ** Object keys *)
Lemma after_last_dot_length s r : after_last_dot s = Some r -> (String.length r < String.length s)%nat.
Proof.
  revert r. induction s as [|c s IH]; intros r; cbn; [done|].
  destruct (after_last_dot s) as [r'|]; [intros [= <-]; specialize (IH r' eq_refl); lia|].
  destruct (c =? ".")%char; [intros [= <-]; lia|done].
Qed.

(** A non-empty suffix of at most ten letters and digits. *)
Definition suffix_ok (s : string) : bool :=
  negb (String.eqb s "") && forallb is_alnum (list_ascii_of_string s) && (String.length s <=? 10)%nat.

Lemma safe_suffix_ok filename : suffix_ok (safe_suffix filename) = true.
Proof.
  unfold safe_suffix. cbv zeta. set (s := match after_last_dot filename with Some s => lower s | None => "bin" end).
  destruct (negb (negb (String.eqb s "") && forallb is_alnum (list_ascii_of_string s))
    || (10 <? String.length s)%nat) eqn:H; [reflexivity|].
  apply orb_false_iff in H as [H1 H2]. unfold suffix_ok. apply negb_false_iff in H1. rewrite H1.
  apply Nat.ltb_ge in H2. by apply Nat.leb_le.
Qed.

Lemma object_key_length org id filename :
  (String.length (object_key org id filename) <= 98)%nat.
Proof.
  unfold object_key. rewrite !str_app_length, !uuid_str_length.
  pose proof (safe_suffix_ok filename) as H. unfold suffix_ok in H.
  apply andb_true_iff in H as [_ H%Nat.leb_le]. cbn [String.length]. lia.
Qed.

(** ** Properties *)

(** C36: the canonical form is exact.  For payloads that are dictionaries, with distinct keys at
    every depth, the bytes that are hashed and the webhook body that is signed are the same if and
    only if the payloads differ at most in the order of dictionary items: a retry with reordered
    fields is replayed, and no two different payloads share their canonical bytes. *)
Theorem canonical_form_exact a b :
  readable 0 a = true -> readable 0 b = true ->
  (canonical_bytes a = canonical_bytes b <-> same_json a b) /\
  (canonical_payload a = canonical_payload b <-> same_json a b).
Proof.
  intros Ha Hb.
  assert (Hinj : forall ea, utf8 (dumps ea (sort_keys a)) = utf8 (dumps ea (sort_keys b)) <-> same_json a b).
  { intros ea. split; [|by intros ->%same_sort_keys].
    intros H%utf8_dumps_inj; [|by apply sort_keys_readable..].
    apply (same_trans _ (sort_keys a)); [by apply same_sorted|]. rewrite H.
    by apply same_json_sym, same_sorted. }
  split; apply Hinj.
Qed.

Lemma canonical_form_exact_witness :
  canonical_bytes (JObj [("name", JStr "Acme"); ("slug", JStr "acme")]) =
  canonical_bytes (JObj [("slug", JStr "acme"); ("name", JStr "Acme")]).
Proof.
  apply (canonical_form_exact (JObj [("name", JStr "Acme"); ("slug", JStr "acme")])
           (JObj [("slug", JStr "acme"); ("name", JStr "Acme")])); [reflexivity..|].
  apply same_order; [|apply perm_swap]. cbn. repeat (constructor; [set_solver|]). constructor.
Defined.

(** Uploads.  A successful upload request stores one attachment of the organization, with an
    accepted type and at most 20 MiB, under exactly one parent, a project or a task of the same
    organization; the object key, which the returned URL signs for 900 seconds, lies under the
    organization's prefix, ends in a short alphanumeric suffix and fits its column. *)
Theorem upload_created {E : Env} token org payload b w w' :
  reachable w -> serve (Tenant token org (CreateUpload payload)) w = (Ok b, w') ->
  exists a id,
    b = UploadReply (mkPresignUploadResponse a.(att_id) a.(att_object_key)
          (presign_put a.(att_object_key) payload.(pr_content_type) 900) 900) /\
    find TAttachment (w_db w) a.(att_id) = None /\
    w_db w' = put TAttachment a (w_db w) /\ a.(att_organization_id) = org /\
    one_of ALLOWED_CONTENT_TYPES a.(att_content_type) = true /\
    (0 < a.(att_size_bytes) <= 20 * 1024 * 1024)%Z /\
    ((exists pid, a.(att_project_id) = Some pid /\ a.(att_task_id) = None /\
        project_of (w_db w) org pid = true) \/
     (exists tid, a.(att_task_id) = Some tid /\ a.(att_project_id) = None /\
        task_of (w_db w) org tid = true)) /\
    a.(att_object_key) = "organizations/" +:+ uuid_str org +:+ "/" +:+ uuid_str id +:+ "."
      +:+ safe_suffix payload.(pr_filename) /\
    suffix_ok (safe_suffix payload.(pr_filename)) = true /\
    (String.length a.(att_object_key) <= 98)%nat.
Proof.
  intros [Hok _]%reachable_consistent H%serve_tenant_Ok. cbn [handle_tenant] in H.
  apply reply_with_Ok in H as (resp & H & ->). unfold create_upload in H.
  apply bind_Ok in H as (c & w1 & Hc & H). apply require_permission_quiet in Hc.
  destruct (PresignUploadRequest_ok payload) eqn:Hval; cbn [negb] in H; [|by apply raise_Ok in H].
  apply bind_Ok in H as (u1 & w2 & Hv & H).
  apply try_except_Ok in Hv as [[Hv ->]%lift_Ok|(e & w3 & m' & _ & Hh & Hm)];
    [|destruct e; simplify_eq; by apply raise_Ok in Hm].
  apply bind_Ok in H as (u2 & w2 & Hp & H). apply require_project_quiet in Hp.
  apply bind_Ok in H as (u3 & w3 & Ht & H). apply require_task_quiet in Ht.
  unfold build_object_key in H. inv_ok. cbn in *. rewrite Ht, Hp, Hc in *.
  match goal with H : row_ok TAttachment _ ?r = true |- _ =>
    exists r, (uuid4_at (w_tick w3)); apply row_ok_true in H as ([_ Hck] & Hrefs & _) end.
  cbn in Hck, Hrefs |- *. unfold validate_upload in Hv. destruct (one_of _ _) eqn:Hty; [|done].
  cbn [negb] in Hv. destruct (_ || _) eqn:Hsz; [done|]. apply orb_false_iff in Hsz as [Hs1 Hs2].
  apply Z.leb_gt in Hs1. apply Z.ltb_ge in Hs2.
  split_and!; try done; try apply safe_suffix_ok; try apply object_key_length.
  apply andb_true_iff in Hck as [Hck _]. do 3 apply andb_true_iff in Hrefs as [Hrefs ?].
  destruct (pr_project_id payload) as [pid|], (pr_task_id payload) as [tid|]; try done;
    cbn in *; [left|right]; by eexists.
Qed.

Definition report_upload : tenant_request := CreateUpload
  (mkPresignUploadRequest "Q3 report.PDF" "application/pdf" 1048576
     (Some (the_project "Rocket" w_setup)) None).

Lemma upload_created_witness :
  exists a w', serve (Tenant alice_token acme report_upload) w_setup = (Ok (UploadReply
      (mkPresignUploadResponse a.(att_id) a.(att_object_key)
        (presign_put a.(att_object_key) "application/pdf" 900) 900)), w') /\
    w_db w' = put TAttachment a (w_db w_setup) /\ safe_suffix "Q3 report.PDF" = "pdf".
Proof.
  destruct (serve_run (Tenant alice_token acme report_upload) w_setup ltac:(vm_compute; reflexivity))
    as [b Hb].
  destruct (upload_created _ _ _ _ _ _ w_setup_reachable Hb) as (a & id & -> & _ & Hdb & _).
  exists a. eexists. split; [exact Hb|]. split; [exact Hdb|vm_compute; reflexivity].
Defined.

(** The production settings.  The process starts in production exactly when both secrets have
    at least 32 characters, are not the documented placeholders and differ from each other, and
    private webhook targets are disallowed; elsewhere it always starts. *)
Theorem runtime_secrets_enforced s :
  is_ok (validate_runtime_secrets s) = true <->
  (s.(app_env) = "production" ->
     (32 <= String.length s.(jwt_secret))%nat /\ (s.(jwt_secret) ∉ unsafe_jwt_values) /\
     (32 <= String.length s.(webhook_encryption_key))%nat /\
     (s.(webhook_encryption_key) ∉ unsafe_webhook_values) /\
     s.(jwt_secret) <> s.(webhook_encryption_key) /\
     s.(webhook_allow_private_targets) = false).
Proof.
  unfold validate_runtime_secrets, is_production. destruct (String.eqb_spec s.(app_env) "production") as [e|];
    cbn [negb]; [|by cbn].
  assert (Hin : forall l x, existsb (String.eqb x) l = true <-> x ∈ l) by (intros; apply one_of_elem).
  destruct (_ || _) eqn:H1.
  { split; [done|]. intros H. destruct (H e) as (Hl & Hn & _). apply orb_true_iff in H1
      as [Hlt%Nat.ltb_lt|Hx%Hin]; [lia|done]. }
  apply orb_false_iff in H1 as [Hl1%Nat.ltb_ge Hn1%not_true_iff_false]. rewrite Hin in Hn1.
  destruct (_ || _) eqn:H2.
  { split; [done|]. intros H. destruct (H e) as (_ & _ & Hl & Hn & _). apply orb_true_iff in H2
      as [Hlt%Nat.ltb_lt|Hx%Hin]; [lia|done]. }
  apply orb_false_iff in H2 as [Hl2%Nat.ltb_ge Hn2%not_true_iff_false]. rewrite Hin in Hn2.
  destruct (String.eqb_spec s.(jwt_secret) s.(webhook_encryption_key)) as [Heq|].
  { split; [done|]. intros H. destruct (H e) as (_ & _ & _ & _ & Hne & _). done. }
  destruct s.(webhook_allow_private_targets); cbn; [|done].
  split; [done|]. intros H. by destruct (H e) as (_ & _ & _ & _ & _ & Hp).
Qed.

(** The development defaults are refused in production. *)
Lemma runtime_secrets_enforced_witness :
  is_ok (validate_runtime_secrets {| default_settings with app_env := "production" |}) <> true.
Proof.
  intros H. apply (runtime_secrets_enforced {| default_settings with app_env := "production" |}) in H;
    [|reflexivity].
  destruct H as (_ & Hno & _). apply Hno. cbn. left.
Defined.

(** ** Log lines *)

(** C38: log lines are faithful and cannot be forged.  Whatever the message, the path and the request
    identifier contain, a formatted record has no line break or other control character, and
    [json.loads] reads back exactly the time, the level, the logger, the message and the values of
    the fields that the record has. *)
Theorem log_line_faithful {E : Env} {float} (float_repr : float -> string) m record w :
  json_numbers float_repr m ->
  (forall field n, record.(attributes) field = Some (Int n) -> int_fits m n = true) ->
  exists line d, format float_repr record w = (Ok line, ticked w) /\
    all_chars printable line /\ loads m (points (utf8 line)) = Some (VObj d) /\
    lookup_key "timestamp" d = Some (VStr (isoformat (clock (w_tick w)))) /\
    lookup_key "level" d = Some (VStr record.(levelname)) /\
    lookup_key "logger" d = Some (VStr record.(name)) /\
    lookup_key "message" d = Some (VStr record.(getMessage)) /\
    forall field, field ∈ log_fields ->
      lookup_key field d = attribute_value float_repr <$> record.(attributes) field.
Proof.
  intros Hf Hints.
  destruct (payload_fields float_repr m (clock (w_tick w)) record Hints) as (Hfit & Hd & Hl).
  eexists _, _. split; [reflexivity|]. split; [by eapply payload_printable|].
  split; [by apply loads_line|]. by split_and!.
Qed.

Definition sample_float (f : QArith_base.Q) : string := "12.5".
Lemma sample_floats : json_numbers sample_float 4300.
Proof.
  constructor; intros f; [by repeat split|reflexivity|]. intros t Ht.
  change (points (sample_float f)) with [49; 50; 46; 53]%N. unfold match_number.
  cbn [app]. change (49 =? code "-")%N with false. cbv iota.
  change (int_part (49 :: 50 :: 46 :: 53 :: t)%N) with (Some ([49; 50]%N, (46 :: 53 :: t)%N)).
  cbv iota beta. change (frac_part (46 :: 53 :: t)%N) with
    (match span_digits ([53]%N ++ t)%list with ([], _) => ([], (46 :: 53 :: t)%N) | (d, r) => (46%N :: d, r) end).
  rewrite span_digits_app by (done || by repeat constructor). rewrite stops_exp by done. reflexivity.
Qed.

(** A request for a path that holds a line break and a quote. *)
Definition forged_path : string := "/x" +:+ String (ascii_of_nat 10) (dquote +:+ ", ").
Definition forged_fields : list (string * extra) :=
  [("request_id", LogStr "req-1"); ("method", LogStr "GET"); ("path", LogStr forged_path);
   ("status", LogInt 404); ("duration_ms", LogFloat (QArith_base.Qmake 25 2))].
Lemma log_line_faithful_witness :
  exists line d,
    format sample_float (log_record "INFO" "tenantflow.http" "request_complete" forged_fields) w0 =
      (Ok line, ticked w0) /\
    all_chars printable line /\ loads 4300 (points (utf8 line)) = Some (VObj d) /\
    lookup_key "path" d = Some (VStr forged_path).
Proof.
  destruct (log_line_faithful sample_float 4300
    (log_record "INFO" "tenantflow.http" "request_complete" forged_fields) w0 sample_floats)
    as (line & d & Hl & Hp & Hd & _ & _ & _ & _ & Hf).
  - apply log_record_ints. by repeat constructor.
  - exists line, d. split_and!; [done..|]. rewrite Hf; [reflexivity|]. cbn. set_solver.
Defined.
