(* ===== verification/Responses.v ===== *)
(** * Responses: what every client of the HTTP application can rely on *)
From stdpp Require Import pretty.
From S2P Require Import Prelude Text Json Dates Schema Config TokenBucket Session Pagination.
From S2P Require Import Permissions Security Access Projects Tasks Organizations Auth Webhooks.
From S2P Require Import Billing Files Metrics Main Api Routing Http Sample Boundaries.
#[local] Open Scope string_scope.

(** ** Health checks *)

(** Ready means that both servers answered. *)
Lemma readiness_exact {E : Env} w :
  exists status checks w',
    readiness w = (Ok (mkHttpResponse status (JsonBody (JObj
      [("status", JStr (if (status =? 200)%Z then "ok" else "degraded")); ("checks", checks)])) []), w') /\
    w_db w' = w_db w /\ w_log w' = w_log w /\
    (status = 200 \/ status = 503)%Z /\
    (status = 200%Z <-> database_up (w_tick w) = true /\ redis_up (S (w_tick w)) = true).
Proof.
  unfold readiness, bind, read, ret. cbn [w_tick w_db w_log].
  exists (if database_up (w_tick w) && redis_up (S (w_tick w)) then 200 else 503)%Z.
  destruct (database_up _), (redis_up _); eexists _, _; split_and!; try reflexivity; try naive_solver.
Qed.

(** A path that no route fits is answered without the error envelope, and counted under one label,
    so that clients cannot make up label values. *)
Lemma unmatched_answer {E : Env} cors_headers documentation answer method path candidate w :
  keeps_headers cors_headers ->
  exists rid response w' duration_ms seconds,
    respond_unmatched cors_headers documentation answer method path candidate w = (Ok response, w') /\
    request_id_ok rid = true /\ response.(hr_status) = answer.(hr_status) /\
    response.(hr_body) = answer.(hr_body) /\
    ("X-Request-ID", rid) ∈ response.(hr_headers) /\
    (forall k, k ∈ security_header_names -> has_header k response.(hr_headers)) /\
    w_db w' = w_db w /\
    w_log w' = (w_log w ++
      [request_record rid (mkIncoming method path candidate None) answer.(hr_status) duration_ms;
       Inc HTTP_REQUESTS.(m_name) [method; "unmatched"; pretty answer.(hr_status)];
       Observe HTTP_DURATION.(m_name) [method; "unmatched"] seconds])%list.
Proof.
  intros Hc. destruct (normalize_request_id_run candidate w) as (rid & wn & Hn & Hdb & _ & Hlog & Hok & _).
  unfold respond_unmatched, application. rewrite (bind_run _ _ _ _ _ Hn).
  unfold server_error_middleware, app, add_middleware.
  cbn [foldr user_middleware dispatch_middleware in_route in_method].
  unfold cors_middleware, metrics_middleware, request_context_middleware,
    security_headers_middleware, exception_middleware, try_except, bind, ret, log, read.
  exists rid. eexists _, _, _, _. split_and!; try done.
  - by apply final_request_id.
  - by apply final_security.
  - cbn [w_log add_log ticked app]. rewrite <- !app_assoc. by rewrite Hlog.
Qed.

(** ** Startup *)

(** A process that starts in production has secrets of its own, sends no traceback to a client and
    delivers no webhook to a private address. *)
Lemma production_started s documentation :
  lifespan s = Ok tt -> is_production s = true ->
  (app s documentation).(debug) = false /\ s.(webhook_allow_private_targets) = false /\
  s.(jwt_secret) <> default_settings.(jwt_secret) /\ s.(jwt_secret) <> s.(webhook_encryption_key).
Proof.
  unfold lifespan. intros H Hp. assert (Hok : is_ok (validate_runtime_secrets s) = true) by (by rewrite H).
  apply runtime_secrets_enforced in Hok; [|by apply String.eqb_eq].
  destruct Hok as (_ & Hj & _ & _ & Hne & Ht). split_and!; [|done| |done].
  - cbn. rewrite Hp. apply andb_false_r.
  - intros Hd. apply Hj. rewrite Hd. left.
Qed.

(** C37: every request is answered.  Whatever the request, the application returns a response under
    a well-formed request identifier, the client's own when it is one.  A success has the status of
    its route; an exception with a handler has that handler's error response; both carry the
    identifier and the security headers and are logged, counted and timed once, under their route.
    Any other exception is answered with a bare 500, INTERNAL_ERROR outside of debug mode and never
    a traceback in production, without a header and uncounted. *)
Theorem http_boundary {E : Env} cors_headers documentation candidate errors r w :
  keeps_headers cors_headers ->
  exists rid w1 response w',
    request_id_ok rid = true /\ (forall c, candidate = Some c -> request_id_ok c = true -> rid = c) /\
    w_db w1 = w_db w /\ w_redis w1 = w_redis w /\ w_log w1 = w_log w /\
    respond cors_headers documentation candidate errors r w = (Ok response, w') /\
    w_db w' = w_db (serve r w1).2 /\
    let route := route r in
    let status := response.(hr_status) in
    let recorded := w_log (serve r w1).2 in
    let counted handler :=
      ("X-Request-ID", rid) ∈ response.(hr_headers) /\
      (forall k, k ∈ security_header_names -> has_header k response.(hr_headers)) /\
      (is_production settings = true -> has_header "Strict-Transport-Security" response.(hr_headers)) /\
      exists duration_ms seconds, w_log w' = (recorded ++ handler ++
        [request_record rid (mkIncoming route.1 (url r) candidate (Some route)) status duration_ms;
         Inc HTTP_REQUESTS.(m_name) [route.1; route.2; pretty status];
         Observe HTTP_DURATION.(m_name) [route.1; route.2] seconds])%list in
    match (serve r w1).1 with
    | Ok b => status = success_status r /\ response.(hr_body) = ReplyBody b /\ counted []
    | Err e =>
        let answer := error_response (Some rid) errors e in
        if has_handler e then
          status = answer.(status_code) /\ response.(hr_body) = JsonBody answer.(content) /\
          counted (match e with IntegrityError => [conflict_record rid] | _ => [] end)
        else
          status = 500%Z /\ response.(hr_headers) = [] /\
          if app_debug settings && negb (is_production settings)
          then response.(hr_body) = Traceback e /\ w_log w' = recorded
          else response.(hr_body) = JsonBody answer.(content) /\
               w_log w' = (recorded ++ [unhandled_record])%list
    end.
Proof.
  intros Hc. destruct (normalize_request_id_run candidate w) as (rid & wn & Hn & Hdb & Hredis & Hlog & Hok & Hown).
  exists rid, (ticked (ticked wn)). unfold respond, application. rewrite (bind_run _ _ _ _ _ Hn).
  unfold app, add_middleware. cbn [foldr user_middleware debug dispatch_middleware in_route in_method].
  unfold server_error_middleware, cors_middleware, metrics_middleware, request_context_middleware,
    security_headers_middleware, exception_middleware, endpoint, try_except, bind, ret, log, read.
  fold (ticked wn). fold (ticked (ticked wn)).
  destruct (serve r _) as [[b|e] w2]; cbn [fst snd].
  2: destruct (has_handler e) eqn:He; [destruct e; try discriminate He|destruct (_ && _) eqn:Hd].
  all: eexists _, _; split_and!; try done.
  all: try first [by apply final_request_id|by apply final_security|by apply final_transport].
  all: first [by destruct e|eexists _, _].
  all: cbn [w_log add_log ticked app]; by rewrite <- !app_assoc.
Qed.

(** Headers of CORSMiddleware for a request with an Origin. *)
Definition sample_cors (o : CorsOptions) (hs : list (string * string)) : list (string * string) :=
  (hs ++ [("access-control-allow-credentials", "true"); ("vary", "Origin")])%list.

(** A Stripe event with a forged signature. *)
Lemma http_boundary_witness :
  exists response w',
    respond sample_cors [] (Some "req-1") JNull (StripeWebhook "evt" (Some "forged")) w_setup = (Ok response, w') /\
    response.(hr_status) = 400%Z /\ ("X-Request-ID", "req-1") ∈ response.(hr_headers).
Proof.
  destruct (http_boundary sample_cors [] (Some "req-1") JNull (StripeWebhook "evt" (Some "forged")) w_setup)
    as (rid & w1 & response & w' & _ & Hown & _ & _ & _ & Hr & _ & H).
  { intros o hs kv Hin _. unfold sample_cors. set_solver. }
  exists response, w'. split; [exact Hr|].
  assert (Hs : exists detail, (serve (StripeWebhook "evt" (Some "forged")) w1).1 = Err (HTTPException 400 detail []))
    by (eexists _; reflexivity).
  destruct Hs as (detail & Hs). cbv zeta in H. rewrite Hs in H. cbn [has_handler] in H.
  destruct H as (Hst & _ & Hid & _). rewrite (Hown "req-1" eq_refl eq_refl) in Hid. by split.
Defined.
