(* ===== verification/Concurrency.v ===== *)
(** * Concurrency: single-use tokens and idempotency keys under overlapping requests

    The programs of the endpoints, their place in the schemes of Races and KeyRaces, and what follows
    for any interleaving of their statements. *)
From stdpp Require Import relations.
From S2P Require Import Prelude Text Json Schema Config TokenBucket Session Permissions Security.
From S2P Require Import Access AuditTrail Idempotency Events Projects Tasks Organizations Auth.
From S2P Require Import Webhooks Billing Files Email Metrics Worker Lifecycle Refinement RefineServices.
From S2P Require Import RefineWorker Api RefineApi Sample Tenancy Consistency Replay Credentials.
From S2P Require Import Transactions Races KeyRaces.
#[local] Open Scope string_scope.

Section Programs.
Context {E : Env}.

(** [decode_access_token] catches only errors of its own computation. *)
Definition checked_claims (ts : datetime) (token : string) : result uuid :=
  match decode_claims ts token with
  | Err PyJWTError | Err (KeyError _) | Err (ValueError _) =>
      Err (AuthenticationError "Invalid or expired access token")
  | r => r
  end.

Lemma decode_run token w :
  run (Stmt (Read clock) (fun ts => Done (checked_claims ts token))) w = decode_access_token token w.
Proof.
  unfold decode_access_token. apply bind_ext; [done|]. intros ts w'. unfold try_except. cbn [run].
  unfold checked_claims, lift. by destruct (decode_claims ts token) as [|[]].
Qed.
#[export] Instance reify_decode token : Reified (decode_access_token token).
Proof. exact (reified _ _ (decode_run token)). Defined.

(** The requests as programs of their statements. *)
Definition refresh_session (raw_token : string) : prog reply :=
  prog_of (reply_with Tokens (refresh raw_token)).
Definition logout_session (raw_token : string) : prog reply :=
  prog_of (no_content (logout raw_token)).
Definition acceptance_session (token raw_token : string) : prog reply :=
  prog_of (reply_with MembershipReply (accept_member_invitation token raw_token)).

Lemma refresh_alone raw w : run (refresh_session raw) w = handle (Refresh raw) w.
Proof. apply run_prog_of. Qed.
Lemma logout_alone raw w : run (logout_session raw) w = handle (Logout raw) w.
Proof. apply run_prog_of. Qed.
Lemma acceptance_alone token raw w :
  run (acceptance_session token raw) w = handle (AcceptInvitation token raw) w.
Proof. apply run_prog_of. Qed.
End Programs.

(** Steps over statements that do not update the table. *)
Ltac pass :=
  repeat (eval_prog; first
    [ exact I
    | apply holding_stmt; [reflexivity|intros ? _]
    | apply failing_stmt; [reflexivity|intros ? _]
    | apply harmless_stmt; [reflexivity|intros ? _]
    | apply seeking_stmt; [reflexivity|reflexivity|intros ? _] ]).
Ltac branch :=
  cbn [pbind];
  repeat match goal with
  | |- context [pbind (prog_of (ret ?a)) ?f] => change (pbind (prog_of (ret a)) f) with (f a)
  end; cbv beta;
  match goal with
  | |- context [prog_of (match ?x with _ => _ end)] => destruct x eqn:?
  | |- context [prog_of (bind (match ?x with _ => _ end) _)] => destruct x eqn:?
  end.

Ltac avoid := repeat (eval_prog; first [exact I|split; [discriminate|intros ? _]]); try (eval_prog; cbn).

(** ** Refresh tokens *)
Section Refresh.
Context {E : Env} (raw_token : string) (id : uuid).

Definition presented (r : RefreshToken) : bool := String.eqb r.(rt_token_hash) (token_fingerprint raw_token).
Definition unrevoked (r : RefreshToken) : bool := negb (bool_decide (is_Some r.(rt_revoked_at))).

Lemma presented_unique (r r' : row TRefreshToken) :
  presented r = true -> presented r' = true -> row_id TRefreshToken r <> row_id TRefreshToken r' ->
  conflict TRefreshToken r r' = true.
Proof.
  unfold presented. rewrite !String.eqb_eq. intros H H' _. cbn. rewrite H, H'. apply String.eqb_refl.
Qed.

Lemma refresh_seeks : seeking TRefreshToken id presented unrevoked (refresh_session raw_token).
Proof.
  eval_prog. apply seeking_lock; [done| |pass].
  intros r Hp Hid. destruct (unrevoked r) eqn:Hf; pass.
  - do 3 (branch; pass). apply holding_update; [|done|done].
    intros Heq. rewrite Heq in Hf. discriminate Hf.
  - branch; pass. exfalso. unfold unrevoked in Hf. unfold token_usable in Heqb0.
    by destruct (bool_decide (is_Some (rt_revoked_at r))).
Qed.

Lemma logout_harmless : harmless TRefreshToken id presented unrevoked (logout_session raw_token).
Proof.
  eval_prog. intros found (w & w' & _ & [_ H]%scalar_Ok). split; [intros r; by rewrite key_write_none|].
  pass. branch; pass. destruct H as [Hp _]. branch; pass.
  eval_prog. intros r' Hr'. split; [|pass]. by apply (spends_update _ _ _ _ _ _ _ Hr').
Qed.

End Refresh.

(** ** Invitations *)
Section Acceptance.
Context {E : Env} (raw_token : string) (id : uuid).

Definition addressed (i : Invitation) : bool :=
  String.eqb i.(inv_token_hash) (token_fingerprint raw_token).
Definition pending (i : Invitation) : bool := String.eqb i.(inv_status) "pending".

Lemma addressed_unique (r r' : row TInvitation) :
  addressed r = true -> addressed r' = true -> row_id TInvitation r <> row_id TInvitation r' ->
  conflict TInvitation r r' = true.
Proof.
  unfold addressed. rewrite !String.eqb_eq. intros H H' _. cbn. rewrite H, H', String.eqb_refl.
  done.
Qed.

Lemma acceptance_seeks token : seeking TInvitation id addressed pending (acceptance_session token raw_token).
Proof.
  pass. destruct (checked_claims _ token) as [uid|]; pass. do 3 (branch; pass).
  apply seeking_lock; [done| |pass]. intros i Hp Hid. unfold pending.
  destruct (String.eqb (inv_status i) "pending") eqn:Hf; pass.
  assert (Huse : forall used (status : string) (k : row TInvitation -> prog reply),
    String.eqb status "pending" = false ->
    (forall r, holding TInvitation id addressed pending true (k r)) ->
    holding TInvitation id addressed pending used
      (Stmt (Update TInvitation i {| i with inv_status := status |}) k)).
  { intros used status k Hs Hk. apply holding_update; [|done|exact Hk].
    intros Heq. rewrite Heq in Hf. cbn in Hf. congruence. }
  branch; [eval_prog; apply Huse; [done|intros; pass]|]. do 2 (branch; pass).
  all: eval_prog; apply Huse; [done|intros; pass].
  all: cbn; by repeat case_match.
Qed.
End Acceptance.

(** ** Idempotency keys *)

(** The reply is what a stored body validates to. *)
Definition answers {R} (validate : json -> result R) (reply_of : R -> reply) (body : json) (a : reply) :=
  exists r, validate body = Ok r /\ a = reply_of r.

Section Keys.
Context {E : Env}.

(** An access token of the account, while it is valid. *)
Definition identifies (token : string) (uid : uuid) : Prop :=
  forall ts u, decode_claims ts token = Ok u -> u = uid.

Lemma checked_claims_Ok ts token u : checked_claims ts token = Ok u -> decode_claims ts token = Ok u.
Proof. unfold checked_claims. by destruct (decode_claims ts token) as [|[]]. Qed.

Lemma possible_read {A} (f : nat -> A) a : possible (Read f) a -> exists t, a = f t.
Proof. intros (w & w' & _ & [-> _]%read_Ok). by eexists. Qed.

Lemma found_id uid (user : row TUser) : possible (Get TUser uid) (Some user) -> user_id user = uid.
Proof. intros (w & w' & Hk & [Hf _]%get_Ok). exact (Hk TUser _ _ (eq_sym Hf)). Qed.
End Keys.

(** Up to the end of [get_current_user]. *)
Ltac sign_in Hid :=
  eval_prog; first [apply beginning_read|apply unrelated_other]; [done|]; intros ts;
  destruct (checked_claims ts _) as [u|] eqn:Hc; [|done];
  apply checked_claims_Ok, Hid in Hc as ->; eval_prog; split; [done|]; intros [user|] Hu; [|done];
  lazymatch goal with |- _ -> _ => intros _ | _ => idtac end;
  apply found_id in Hu as <-; cbn [pbind]; destruct (user_is_active user); [|done]; cbn [pbind].

(** Over a [lift]. *)
Ltac granted :=
  repeat match goal with
  | |- context [pbind (prog_of (ret ?a)) ?f] => change (pbind (prog_of (ret a)) f) with (f a)
  end; cbv beta;
  match goal with |- context [prog_of (bind (lift ?r) ?f)] =>
    let a := fresh "a" in destruct r as [a|] eqn:?;
    [change (prog_of (bind (lift (Ok a)) f)) with (prog_of (f a)); cbv beta|]
  end; cbn [pbind].

Section Endpoints.
Context {E : Env}.

Definition creation_session (token key : string) (payload : OrganizationCreate) : prog reply :=
  prog_of (reply_with OrganizationReply (create token key payload)).

Lemma creation_alone token key payload w :
  Transactions.run (creation_session token key payload) w = handle (CreateOrganization token key payload) w.
Proof. apply run_prog_of. Qed.

Lemma creation_work user payload :
  (forall t, uuid4_at t < 2 ^ 128)%N ->
  avoids (fun r => (or_id r < 2 ^ 128)%N) (prog_of (
    let! o := create_organization user payload in
    ret (mkOrganizationResponse o.(org_id) o.(org_name) o.(org_slug) "owner"))).
Proof.
  intros Huuid. avoid. branch; [avoid|]. eval_prog. split; [done|]. intros id [t ->]%possible_read.
  avoid. apply Huuid.
Qed.

Lemma creation_begins token uid key payload :
  (forall t, uuid4_at t < 2 ^ 128)%N -> identifies token uid ->
  beginning (organization_create_scope uid) key (answers OrganizationResponse_validate OrganizationReply)
    (canonical_request_hash (OrganizationCreate_dump payload)) (creation_session token key payload).
Proof.
  intros Huuid Hid. sign_in Hid. branch; [done|].
  eapply idempotent_begins; [exact (creation_work user payload Huuid)| |].
  - intros r Hr. exists r. split; [by apply organization_round_trip|done].
  - intros body r Hr. by exists r.
Qed.

Lemma creation_unrelated scope key token uid key' payload :
  (forall t, uuid4_at t < 2 ^ 128)%N -> identifies token uid ->
  organization_create_scope uid <> scope \/ key' <> key ->
  unrelated scope key None (creation_session token key' payload).
Proof.
  intros Huuid Hid Hne. sign_in Hid. branch; [done|].
  eapply idempotent_unrelated; [exact Hne|exact (creation_work user payload Huuid)].
Qed.

Definition checkout_session (org : uuid) (key token : string) (body : CheckoutRequest) : prog reply :=
  prog_of (reply_with CheckoutReply (checkout token org key body)).

Lemma checkout_alone token org key body w :
  Transactions.run (checkout_session org key token body) w = handle (Tenant token org (Checkout key body)) w.
Proof. apply run_prog_of. Qed.

(** The payload after the validation. *)
Definition checkout_hash (body : CheckoutRequest) : string :=
  canonical_request_hash (CheckoutRequest_dump (default body (CheckoutRequest_validate body))).

Lemma checkout_work org key plan success cancel :
  avoids (fun _ => True) (prog_of (
    let! s := create_billing_checkout org plan success cancel key in
    ret (mkCheckoutResponse s.1 s.2))).
Proof.
  unfold create_billing_checkout. cbv zeta.
  branch; [avoid|].
  generalize (if String.eqb plan "pro" then stripe_price_pro settings else stripe_price_business settings).
  intros price.
  branch; [avoid|]. avoid. branch; avoid.
  all: match goal with |- context [lift ?r] => destruct r as [answer|]; [|done] end.
  all: cbn; by destruct (non_empty answer.2).
Qed.

Lemma checkout_begins org token uid key body :
  identifies token uid ->
  beginning (checkout_scope org uid) key (answers CheckoutResponse_validate CheckoutReply)
    (checkout_hash body) (checkout_session org key token body).
Proof.
  intros Hid. sign_in Hid.
  eval_prog. apply beginning_read; [done|]. intros ms. branch; [|done].
  cbn [pbind]. do 2 (granted; [|done]).
  cbn [pbind]. unfold checkout_hash. branch; [|done]. branch; [|done]. cbn [default].
  eapply idempotent_begins; [apply checkout_work| |].
  - intros r' _. exists r'. split; [by apply checkout_round_trip|done].
  - intros b r' Hr'. by exists r'.
Qed.
Lemma checkout_unrelated scope key org token uid key' body :
  identifies token uid -> checkout_scope org uid <> scope \/ key' <> key ->
  unrelated scope key None (checkout_session org key' token body).
Proof.
  intros Hid Hne. sign_in Hid.
  eval_prog. apply unrelated_other; [done|]. intros ms. branch; [|done].
  cbn [pbind]. do 2 (granted; [|done]). do 2 (branch; [|done]).
  eapply idempotent_unrelated; [exact Hne|apply checkout_work].
Qed.
End Endpoints.

(** Requests under one key, among others. *)
Lemma overlapping {E : Env} {T R} scope key (session : T -> prog reply) (validate : json -> result R)
    reply_of (hash : T -> string) requests others w S i j x y a b ws ws' :
  db_ok (w_db w) ->
  (forall r, r ∈ requests ->
     beginning scope key (answers validate reply_of) (hash r) (session r)) ->
  Forall (unrelated scope key None) others ->
  rtc sys_step (start w ((session <$> requests) ++ others)) S ->
  requests !! i = Some x -> requests !! j = Some y ->
  S.(sys_sessions) !! i = Some (Ended (Ok a) ws) -> S.(sys_sessions) !! j = Some (Ended (Ok b) ws') ->
  hash x = hash y /\ a = b /\ (~ nothing ws -> ~ nothing ws' -> i = j).
Proof.
  intros Hok Hb Ho HS Hx Hy Hxi Hxj.
  assert (Hps : forall n q, ((session <$> requests) ++ others)%list !! n = Some q ->
    match hash <$> requests !! n with
    | Some h => beginning scope key (answers validate reply_of) h q
    | None => unrelated scope key None q
    end).
  { intros n q [Hq|[Hn Hq]]%lookup_app_Some.
    - apply list_lookup_fmap_Some in Hq as (r & -> & Hr). rewrite Hr. cbn.
      by eapply Hb, list_elem_of_lookup_2.
    - rewrite length_fmap in Hn. rewrite lookup_ge_None_2 by done. cbn.
      rewrite Forall_forall in Ho. by eapply Ho, list_elem_of_lookup_2. }
  destruct (one_answer scope key (answers validate reply_of) (fun i => hash <$> requests !! i) w _ S
    Hok Hps HS i j a b ws ws' (hash x) (hash y) Hxi Hxj)
    as (Hh & (body & (r & Hr & ->) & (r' & Hr' & ->)) & Hone); [by rewrite Hx|by rewrite Hy|].
  split_and!; [done|congruence|exact Hone].
Qed.

(** A refresh writes no idempotency record. *)
Lemma refresh_avoids {E : Env} raw_token : avoids (fun _ => True) (refresh_session raw_token).
Proof.
  repeat first [eval_prog; first [exact I|split; [discriminate|intros ? _]]|branch].
Qed.

(** *** Schedules *)

(** Session, and how many steps it takes. *)
Definition turns (l : list (nat * nat)) : list nat := l ≫= fun t => replicate t.2 t.1.
Definition succeeds {A} (S : system A) (i : nat) : bool :=
  match S.(sys_sessions) !! i with Some (Ended (Ok _) _) => true | _ => false end.

Lemma succeeds_true {A} (S : system A) i :
  succeeds S i = true -> exists a ws, S.(sys_sessions) !! i = Some (Ended (Ok a) ws).
Proof.
  unfold succeeds. destruct (S.(sys_sessions) !! i) as [[|[a|] ws]|]; try done. by exists a, ws.
Qed.

Lemma scheduled {E : Env} {A} order (S0 : system A) (ok : list nat) :
  (match schedule order S0 with Some T => forallb (succeeds T) ok | None => false end) = true ->
  exists S, rtc sys_step S0 S /\
    forall i, i ∈ ok -> exists a ws, S.(sys_sessions) !! i = Some (Ended (Ok a) ws).
Proof.
  destruct (schedule order S0) as [S|] eqn:HS; [|done]. rewrite forallb_forall. intros H.
  exists S. split; [by eapply schedule_steps|]. intros i Hi. apply succeeds_true, H.
  by apply list_elem_of_In.
Qed.

(** ** Properties *)

(** Refreshes with the refresh token, and logouts. *)
Definition token_session {E : Env} (raw_token : string) (refreshes : bool) : prog reply :=
  if refreshes then refresh_session raw_token else logout_session raw_token.

(** C16: a refresh token buys one new pair of tokens, also when requests overlap.  Any number of
    refreshes and logouts with the same token, their statements interleaved in any order and some
    of them lost on the way: at most one refresh succeeds. *)
Theorem refresh_race {E : Env} raw_token id (old : RefreshToken) w kinds S i j a b ws ws' :
  reachable w -> find TRefreshToken (w_db w) id = Some old ->
  old.(rt_token_hash) = token_fingerprint raw_token ->
  rtc sys_step (start w (token_session raw_token <$> kinds)) S ->
  kinds !! i = Some true -> kinds !! j = Some true ->
  S.(sys_sessions) !! i = Some (Ended (Ok a) ws) -> S.(sys_sessions) !! j = Some (Ended (Ok b) ws') ->
  i = j.
Proof.
  intros [Hok _]%reachable_consistent Hold Hhash HS Hi Hj Hxi Hxj.
  eapply (single_use TRefreshToken id (presented raw_token) unrevoked (presented_unique raw_token)
    (fun i => default false (kinds !! i)) w _ S);
    [by apply db_ok_keyed| | |exact HS|exact Hxi|exact Hxj|by rewrite Hi|by rewrite Hj|done|done].
  - eapply db_ok_key; [apply presented_unique|done|exact Hold|]. unfold presented.
    rewrite Hhash. apply String.eqb_refl.
  - intros n q Hq. rewrite list_lookup_fmap in Hq. destruct (kinds !! n) as [[]|]; [..|done];
      injection Hq as <-; [apply refresh_seeks|apply logout_harmless].
Qed.

Definition refreshes : list (prog reply) := token_session alice_refresh <$> [true; true; false].
Lemma refresh_race_witness :
  exists S a ws,
    rtc sys_step (start w_login refreshes) S /\
    S.(sys_sessions) !! 0%nat = Some (Ended (Ok a) ws) /\
    forall b ws', S.(sys_sessions) !! 1%nat <> Some (Ended (Ok b) ws').
Proof.
  destruct (row_exists (E := sample_env) TRefreshToken (presented (E := sample_env) alice_refresh) w_login
              ltac:(vm_compute; reflexivity)) as (id & old & Hold & Hp%String.eqb_eq).
  destruct (scheduled (E := sample_env) (turns [(0, 11); (1, 3); (2, 2)])
              (start w_login refreshes) [0%nat]
              ltac:(vm_compute; reflexivity)) as (S & HS & H0).
  destruct (H0 0%nat (list_elem_of_here _ _)) as (a & ws & Ha). exists S, a, ws. split_and!; [done..|].
  intros b ws' Hb.
  discriminate (refresh_race alice_refresh id old w_login [true; true; false] S 0 1 a b ws ws'
    (run_reachable_from _ _ w_setup_reachable) Hold Hp HS eq_refl eq_refl Ha Hb).
Defined.

(** C14: an invitation is accepted once, also when acceptances of it overlap, by whatever accounts
    and in whatever interleaving. *)
Theorem acceptance_race {E : Env} raw_token id (old : Invitation) w tokens S i j a b ws ws' :
  reachable w -> find TInvitation (w_db w) id = Some old ->
  old.(inv_token_hash) = token_fingerprint raw_token ->
  rtc sys_step (start w ((fun token => acceptance_session token raw_token) <$> tokens)) S ->
  S.(sys_sessions) !! i = Some (Ended (Ok a) ws) -> S.(sys_sessions) !! j = Some (Ended (Ok b) ws') ->
  i = j.
Proof.
  intros [Hok _]%reachable_consistent Hold Hhash HS Hxi Hxj.
  eapply (single_use TInvitation id (addressed raw_token) pending (addressed_unique raw_token)
    (fun _ => true) w _ S);
    [by apply db_ok_keyed| | |exact HS|exact Hxi|exact Hxj|done..].
  - eapply db_ok_key; [apply addressed_unique|done|exact Hold|]. unfold addressed.
    rewrite Hhash. apply String.eqb_refl.
  - intros n q Hq. rewrite list_lookup_fmap in Hq. destruct (tokens !! n) as [token|]; [|done].
    injection Hq as <-. apply acceptance_seeks.
Qed.

Definition acceptances : list (prog reply) :=
  (fun token => acceptance_session token (invitation_token w_setup)) <$>
  [carol_token; carol_token; bob_token].
Lemma acceptance_race_witness :
  exists S a ws,
    rtc sys_step (start w_setup acceptances) S /\
    S.(sys_sessions) !! 0%nat = Some (Ended (Ok a) ws) /\
    forall b ws', S.(sys_sessions) !! 1%nat <> Some (Ended (Ok b) ws').
Proof.
  destruct (row_exists (E := sample_env) TInvitation
              (addressed (E := sample_env) (invitation_token w_setup)) w_setup
              ltac:(vm_compute; reflexivity)) as (id & old & Hold & Hp%String.eqb_eq).
  destruct (scheduled (E := sample_env) (turns [(0, 7); (1, 2); (2, 2); (0, 7); (1, 2)])
              (start w_setup acceptances) [0%nat]
              ltac:(vm_compute; reflexivity)) as (S & HS & H0).
  destruct (H0 0%nat (list_elem_of_here _ _)) as (a & ws & Ha). exists S, a, ws. split_and!; [done..|].
  intros b ws' Hb.
  discriminate (acceptance_race _ id old w_setup _ S 0 1 a b ws ws' w_setup_reachable Hold Hp HS Ha Hb).
Defined.

(** C11: overlapping creations of organizations under one idempotency key have one effect.  Any
    number of requests of an account under the key, interleaved with each other and with sessions
    that write no idempotency records or records of other keys: the successful ones had payloads of
    one hash and get the same reply, and at most one of them committed any row. *)
Theorem creation_race {E : Env} uid key requests others w S i j x y a b ws ws' :
  (forall t, uuid4_at t < 2 ^ 128)%N -> reachable w ->
  (forall token payload, (token, payload) ∈ requests -> identifies token uid) ->
  Forall (unrelated (organization_create_scope uid) key None) others ->
  rtc sys_step (start w (((fun r => creation_session r.1 key r.2) <$> requests) ++ others)) S ->
  requests !! i = Some x -> requests !! j = Some y ->
  S.(sys_sessions) !! i = Some (Ended (Ok a) ws) -> S.(sys_sessions) !! j = Some (Ended (Ok b) ws') ->
  canonical_request_hash (OrganizationCreate_dump x.2) =
    canonical_request_hash (OrganizationCreate_dump y.2) /\
  a = b /\ (~ nothing ws -> ~ nothing ws' -> i = j).
Proof.
  intros Huuid [Hok _]%reachable_consistent Hid Hothers HS Hx Hy Hxi Hxj.
  eapply (overlapping (organization_create_scope uid) key
    (fun r => creation_session r.1 key r.2) OrganizationResponse_validate OrganizationReply
    (fun r => canonical_request_hash (OrganizationCreate_dump r.2)));
    [done| |exact Hothers|exact HS|exact Hx|exact Hy|exact Hxi|exact Hxj].
  intros [token payload] Hr. apply creation_begins; [done|by eapply Hid].
Qed.

Lemma sample_identified token uid : decode_claims 0 token = Ok uid -> identifies token uid.
Proof.
  intros H0 ts u H. enough (Ok u = Ok uid :> result uuid) by congruence. rewrite <- H, <- H0.
  unfold decode_claims. cbn [jwt_decode sample_env]. by destruct (drop_prefix "jwt." token).
Qed.

Lemma alice_identified : identifies alice_token (find_user alice w_users).(user_id).
Proof. apply sample_identified. vm_compute. reflexivity. Qed.

(** The second request is under way before the first commits; Bob uses the same key. *)
Definition bystanders : list (prog reply) :=
  [refresh_session alice_refresh;
   creation_session bob_token "key-race-1" (mkOrganizationCreate "Hooli" "hooli")].
Lemma bystanders_unrelated :
  Forall (unrelated (organization_create_scope (find_user alice w_users).(user_id)) "key-race-1" None)
    bystanders.
Proof.
  repeat apply Forall_cons_2; [by eapply avoids_unrelated, refresh_avoids| |by apply Forall_nil].
  eapply creation_unrelated; [exact sample_uuid| |].
  - apply (sample_identified _ (find_user bob w_users).(user_id)). vm_compute. reflexivity.
  - left. vm_compute. discriminate.
Qed.
Definition creation_request := (alice_token, mkOrganizationCreate "Initech" "initech").
Definition creations : list (prog reply) :=
  ((fun r => creation_session r.1 "key-race-1" r.2) <$> [creation_request; creation_request]) ++
  bystanders.
Lemma creation_race_witness :
  exists S a b ws ws',
    rtc sys_step (start w_login creations) S /\
    S.(sys_sessions) !! 0%nat = Some (Ended (Ok a) ws) /\
    S.(sys_sessions) !! 1%nat = Some (Ended (Ok b) ws') /\ a = b.
Proof.
  destruct (scheduled (E := sample_env) (turns [(3, 7); (0, 5); (1, 4); (2, 11); (0, 15); (1, 3); (3, 13)])
              (start w_login creations) [0; 1]%nat
              ltac:(vm_compute; reflexivity)) as (S & HS & H0).
  destruct (H0 0%nat ltac:(set_solver)) as (a & ws & Ha).
  destruct (H0 1%nat ltac:(set_solver)) as (b & ws' & Hb).
  exists S, a, b, ws, ws'. split_and!; [done..|].
  apply (creation_race (user_id (find_user alice w_users)) "key-race-1" [creation_request; creation_request]
    bystanders w_login S 0 1 creation_request creation_request a b ws ws' sample_uuid
    (run_reachable_from _ _ w_setup_reachable)); [|exact bystanders_unrelated|done..].
  intros token payload Hin. rewrite !elem_of_cons, elem_of_nil in Hin.
  destruct Hin as [[= -> _]|[[= -> _]|[]]]; apply alice_identified.
Defined.

(** Overlapping checkouts of an organization under one idempotency key. *)
Theorem checkout_race {E : Env} org uid key requests others w S i j x y a b ws ws' :
  reachable w ->
  (forall token body, (token, body) ∈ requests -> identifies token uid) ->
  Forall (unrelated (checkout_scope org uid) key None) others ->
  rtc sys_step (start w (((fun r => checkout_session org key r.1 r.2) <$> requests) ++ others)) S ->
  requests !! i = Some x -> requests !! j = Some y ->
  S.(sys_sessions) !! i = Some (Ended (Ok a) ws) -> S.(sys_sessions) !! j = Some (Ended (Ok b) ws') ->
  checkout_hash x.2 = checkout_hash y.2 /\
  a = b /\ (~ nothing ws -> ~ nothing ws' -> i = j).
Proof.
  intros [Hok _]%reachable_consistent Hid Hothers HS Hx Hy Hxi Hxj.
  eapply (overlapping (checkout_scope org uid) key
    (fun r => checkout_session org key r.1 r.2) CheckoutResponse_validate CheckoutReply
    (fun r => checkout_hash r.2));
    [done| |exact Hothers|exact HS|exact Hx|exact Hy|exact Hxi|exact Hxj].
  intros [token body] Hr. by eapply checkout_begins, Hid.
Qed.

Definition checkout_request :=
  (alice_token, mkCheckoutRequest "pro" "https://acme.org/ok" "https://acme.org/no").
Definition checkouts : list (prog reply) :=
  ((fun r => checkout_session acme "key-race-1" r.1 r.2) <$> [checkout_request; checkout_request]) ++
  [refresh_session alice_refresh].
Lemma checkout_race_witness :
  exists S a b ws ws',
    rtc sys_step (start w_login checkouts) S /\
    S.(sys_sessions) !! 0%nat = Some (Ended (Ok a) ws) /\
    S.(sys_sessions) !! 1%nat = Some (Ended (Ok b) ws') /\ a = b.
Proof.
  destruct (scheduled (E := sample_env) (turns [(0, 7); (1, 5); (2, 11); (0, 9); (1, 3)])
              (start w_login checkouts) [0; 1]%nat
              ltac:(vm_compute; reflexivity)) as (S & HS & H0).
  destruct (H0 0%nat ltac:(set_solver)) as (a & ws & Ha).
  destruct (H0 1%nat ltac:(set_solver)) as (b & ws' & Hb).
  exists S, a, b, ws, ws'. split_and!; [done..|].
  apply (checkout_race acme (user_id (find_user alice w_users)) "key-race-1"
    [checkout_request; checkout_request] [refresh_session alice_refresh] w_login S 0 1 checkout_request checkout_request a b ws ws'
    (run_reachable_from _ _ w_setup_reachable));
    [|by eapply Forall_singleton, avoids_unrelated, refresh_avoids|done..].
  intros token payload Hin. rewrite !elem_of_cons, elem_of_nil in Hin.
  destruct Hin as [[= -> _]|[[= -> _]|[]]]; apply alice_identified.
Defined.
