(* ===== verification/DeliveryRaces.v ===== *)
(** * DeliveryRaces: overlapping runs of one delivery task

    Celery delivers a task at least once, so that several workers may run the same delivery at the
    same time.  Each run consists of transactions that lock the delivery before they change it
    (Locked): they act one after the other, no attempt is lost, and attempt_count is the number of
    attempts that were made.  The lock does not refresh the object of the claim, though: a
    settlement decides on the attempt count that its own run claimed, and sends only the columns it
    changed. *)
From stdpp Require Import relations.
From S2P Require Import Prelude Text Json Schema Config TokenBucket Session Permissions Security.
From S2P Require Import Access AuditTrail Idempotency Events Projects Tasks Organizations Auth.
From S2P Require Import Signing Webhooks Billing Files Email Metrics Worker Lifecycle Refinement.
From S2P Require Import RefineServices RefineWorker Api RefineApi Sample Tenancy Consistency.
From S2P Require Import Transactions Races Locked Concurrency.
#[local] Open Scope string_scope.

(** ** Plain reads, and [try] around them *)
Section Try.
Context {E : Env} {A : Type}.

Definition plain_read {B} (s : stmt B) : bool :=
  match s with Read _ | Emit _ | Select _ _ | Get _ _ => true | _ => false end.

(** Neither locks nor writes a row; only the program itself raises. *)
Fixpoint calm (q : prog A) : Prop :=
  match q with
  | Done _ => True
  | Stmt s k => plain_read s = true /\ forall b, calm (k b)
  end.

Fixpoint ptry (q : prog A) (h : exn -> option (prog A)) : prog A :=
  match q with
  | Done (Err e) => default (Done (Err e)) (h e)
  | Done (Ok a) => Done (Ok a)
  | Stmt s k => Stmt s (fun b => ptry (k b) h)
  end.

Lemma plain_read_Ok {B} (s : stmt B) w : plain_read s = true -> exists b w', exec s w = (Ok b, w').
Proof. destruct s; intros [=]; cbn; by eexists _, _. Qed.

Lemma run_ptry q h (handler : exn -> option (M A)) w :
  calm q -> (forall e w, run (default (Done (Err e)) (h e)) w = default (raise e) (handler e) w) ->
  run (ptry q h) w = try_except (run q) handler w.
Proof.
  intros Hq Hh. revert w. induction q as [[a|e]|B s k IH]; intros w.
  - done.
  - cbn [ptry]. rewrite Hh. unfold try_except. cbn [run lift]. by destruct (handler e).
  - destruct Hq as [Hs Hk]. cbn [ptry run]. destruct (plain_read_Ok s w Hs) as (b & w' & He).
    unfold try_except, bind. rewrite He. rewrite IH by done. reflexivity.
Qed.
End Try.

Lemma calm_pbind {A B} (q : prog A) (f : A -> prog B) :
  calm q -> (forall a, calm (f a)) -> calm (pbind q f).
Proof.
  intros Hq Hf. induction q as [[a|e]|C s k IH]; [apply Hf|done|]. destruct Hq as [Hs Hk].
  split; [done|]. intros b. by apply IH.
Qed.

Lemma calm_ptry {A} (q : prog A) h :
  calm q -> (forall e q', h e = Some q' -> calm q') -> calm (ptry q h).
Proof.
  intros Hq Hh. induction q as [[a|e]|C s k IH]; [done| |].
  - cbn [ptry]. destruct (h e) as [q'|] eqn:He; [by eapply Hh|done].
  - destruct Hq as [Hs Hk]. split; [done|]. intros b. by apply IH.
Qed.

Lemma locked_calm {E : Env} {A B C} t id (commits : C -> row t -> row t -> Prop) r0 r
    (q : prog A) (f : A -> prog B) (g : B -> prog C) :
  calm q -> (forall a, locked t id commits r0 r (pbind (f a) g)) ->
  locked t id commits r0 r (pbind (pbind q f) g).
Proof.
  intros Hq Hf. induction q as [[a|e]|D s k IH]; [apply Hf|exact I|]. destruct Hq as [Hs Hk].
  cbn [pbind]. apply locked_stmt; [by destruct s|]. intros b _. by apply IH.
Qed.

Lemma unlocked_calm {E : Env} {A B C} t id (commits : C -> row t -> row t -> Prop)
    (q : prog A) (f : A -> prog B) (g : B -> prog C) :
  calm q -> (forall a, unlocked t id commits (pbind (f a) g)) ->
  unlocked t id commits (pbind (pbind q f) g).
Proof.
  intros Hq Hf. induction q as [[a|e]|D s k IH]; [apply Hf|exact I|]. destruct Hq as [Hs Hk].
  cbn [pbind]. apply unlocked_stmt; [by destruct s..|]. intros b _. by apply IH.
Qed.

Ltac calm :=
  repeat match goal with
  | |- calm (prog_of (bind ?m ?f)) => apply calm_pbind; [|intros ?]
  | |- calm (prog_of (match ?x with _ => _ end)) => destruct x
  | |- calm (prog_of _) => eval_prog; first [exact I|split; [reflexivity|intros ?]]
  | |- calm _ => first [exact I|split; [reflexivity|intros ?]]
  end.

Section Programs.
Context {E : Env}.

Definition checked_target (url : string) : M (option string) := do! validate_webhook_target url in ret None.

Lemma checked_target_calm url : calm (prog_of (checked_target url)).
Proof. unfold checked_target, validate_webhook_target, validate_resolved. calm. Qed.

Definition target_handler (e : exn) : option (prog (option string)) :=
  match e with ValueError message => Some (Done (Ok (Some message))) | _ => None end.

Lemma target_error_run url w :
  run (ptry (prog_of (checked_target url)) target_handler) w = target_error url w.
Proof.
  unfold target_error. fold (checked_target url). erewrite run_ptry; [|apply checked_target_calm|].
  - unfold try_except. by rewrite run_prog_of.
  - by intros [] ?.
Qed.
#[export] Instance reify_target_error url : Reified (target_error url).
Proof. exact (reified _ _ (target_error_run url)). Defined.

(** The flush of a settlement. *)
Definition flush_prog (held new stored : WebhookDelivery) : prog unit :=
  if decide (held = new) then Done (Ok tt)
  else Stmt (Update TDelivery held (set_changed held new stored)) (fun _ => Done (Ok tt)).

#[export] Instance reify_flush_held held new stored : Reified (flush_held held new stored) | 0.
Proof.
  refine (reified _ (flush_prog held new stored) _). intros w. unfold flush_prog, flush_held.
  by case_decide.
Defined.

(** How a transaction ends: those of the task, the request to retry, any other. *)
Inductive delivery_end :=
  | Claimed (c : claim)
  | Failed (held : WebhookDelivery) (outcome : string)
  | Succeeded (held : WebhookDelivery)
  | Retried
  | Elsewhere.

(** The three transactions of [run_delivery]; those that settle the attempt keep the object [held]
    of the claim. *)
Definition claim_session (delivery_id : string) : prog delivery_end :=
  prog_of (let! c := claim_delivery delivery_id in ret (Claimed c)).
Definition fail_session (held : WebhookDelivery) (delivery_id message : string)
  : prog delivery_end :=
  prog_of (let! outcome := fail_delivery held delivery_id message in ret (Failed held outcome)).
Definition succeed_session (held : WebhookDelivery) (delivery_id : string) (status_code : Z)
  : prog delivery_end :=
  prog_of (do! succeed_delivery held delivery_id status_code in ret (Succeeded held)).

(** The endpoint that retries a delivery by hand. *)
Definition retry_session (token : string) (organization_id id : uuid) : prog delivery_end :=
  prog_of (do! retry_delivery token organization_id id in ret Retried).

Lemma claim_alone delivery_id w :
  Transactions.run (claim_session delivery_id) w = (let! c := claim_delivery delivery_id in ret (Claimed c)) w.
Proof. apply run_prog_of. Qed.
End Programs.

(** ** What they do to the delivery *)
Definition settled (d : WebhookDelivery) : bool := one_of ["delivered"; "dead"] d.(dlv_state).

(** Whatever a settlement leaves alone. *)
Definition same_job (d d' : WebhookDelivery) : Prop :=
  (d'.(dlv_id), d'.(dlv_event_id), d'.(dlv_endpoint_id), d'.(dlv_event_type), d'.(dlv_payload),
     d'.(dlv_attempt_count)) =
  (d.(dlv_id), d.(dlv_event_id), d.(dlv_endpoint_id), d.(dlv_event_type), d.(dlv_payload),
     d.(dlv_attempt_count)).

(** What the transaction [a] makes of the delivery [d].  A claim counts an attempt, and the run keeps
    the row as it commits it, or stops the delivery.  A settlement decides on the count of its own
    claim, retries until the fifth, and writes a state only when it is not the one it holds. *)
Definition acts (a : delivery_end) (d d' : WebhookDelivery) : Prop :=
  match a with
  | Claimed (Attempt held _ _ _) =>
      settled d = false /\ d' = held /\
      exists ts, held = touch TDelivery ts {| d with dlv_attempt_count := (d.(dlv_attempt_count) + 1)%Z |}
  | Claimed (Outcome outcome) =>
      same_job d d' /\
      (outcome = "skipped" /\ settled d = true /\ d' = d \/
       outcome = "dead" /\ settled d = false /\ d'.(dlv_state) = "dead")
  | Failed held outcome =>
      same_job d d' /\ d'.(dlv_response_status) = d.(dlv_response_status) /\
      let (name, state) := if (5 <=? held.(dlv_attempt_count))%Z then ("dead", "dead") else ("retry", "retrying") in
      outcome = name /\ d'.(dlv_state) = changed_column held.(dlv_state) state d.(dlv_state)
  | Succeeded held =>
      same_job d d' /\ d'.(dlv_state) = changed_column held.(dlv_state) "delivered" d.(dlv_state)
  | Retried =>
      same_job d d' /\ d.(dlv_state) <> "delivered" /\ d'.(dlv_state) = "retrying"
  | Elsewhere => d' = d
  end.

(** The UPDATE of a settlement is never empty when an attribute was assigned. *)
Lemma column_unset {A} `{EqDecision A} (held new current : A) :
  held = changed_column held new current -> held = new.
Proof. unfold changed_column. by case_decide. Qed.

Lemma column_same {A} `{EqDecision A} (held current : A) : changed_column held held current = current.
Proof. unfold changed_column. by case_decide. Qed.

Lemma set_changed_new held new stored :
  new.(dlv_id) = held.(dlv_id) -> held <> new -> held <> set_changed held new stored.
Proof.
  intros Hid Hne Heq. apply Hne. destruct held, new. unfold set_changed in Heq. cbn in *.
  injection Heq as _ ?%column_unset ?%column_unset ?%column_unset ?%column_unset ?%column_unset
    ?%column_unset ?%column_unset ?%column_unset ?%column_unset ?%column_unset ?%column_unset.
  by subst.
Qed.

Section Unlocked.
Context {E : Env} (delivery_id : string) (id : uuid).
Hypothesis Hid : parse_id delivery_id = Ok id.

Ltac pass_locked :=
  repeat first
    [ match goal with up : bool |- locked _ _ _ _ _ (pbind _ _) => destruct up end
    | eval_prog; first
      [ apply locked_stmt; [reflexivity|intros ? _]
      | apply unlocked_stmt; [reflexivity|reflexivity|intros ? _] ] ].

(** The flush of a settlement, in a program [F]. *)
Lemma flush_held_locked (F : prog unit -> prog delivery_end) held new stored :
  (forall B (s : stmt B) k, F (Stmt s k) = Stmt s (fun b => F (k b))) ->
  row_id TDelivery stored = id -> new.(dlv_id) = held.(dlv_id) ->
  (held = new -> locked TDelivery id acts stored stored (F (Done (Ok tt)))) ->
  (forall ts, locked TDelivery id acts stored (touch TDelivery ts (set_changed held new stored))
                (F (Done (Ok tt)))) ->
  locked TDelivery id acts stored stored (F (flush_prog held new stored)).
Proof.
  intros HF Hs Hi He Hn. unfold flush_prog. case_decide as Heq; [by apply He|]. rewrite HF.
  apply locked_update; [exact Hs| |].
  - intros Heq'. by apply (set_changed_new _ _ stored) in Heq.
  - intros ts _. apply Hn.
Qed.

Lemma succeed_unlocked held status_code :
  unlocked TDelivery id acts (succeed_session held delivery_id status_code).
Proof.
  unfold succeed_session, succeed_delivery. rewrite Hid. eval_prog. apply unlocked_get. intros r Hr.
  apply (flush_held_locked (fun q => pbind q (fun _ => Done (Ok (Succeeded held)))) held
           {| held with dlv_state := "delivered"; dlv_response_status := Some status_code;
              dlv_last_error := None; dlv_next_retry_at := None |} r); [done|exact Hr|done|intros Heq|intros ts].
  all: unfold acts, same_job; cbn; rewrite ?column_same; split_and!; try done.
  apply (f_equal dlv_state) in Heq. cbn in Heq. by rewrite Heq, column_same.
Qed.

Lemma fail_unlocked held message :
  unlocked TDelivery id acts (fail_session held delivery_id message).
Proof.
  unfold fail_session, fail_delivery. rewrite Hid. eval_prog. apply unlocked_get. intros r Hr.
  branch; pass_locked.
  - apply (flush_held_locked (fun q => pbind (pbind q (fun _ => Done (Ok "dead")))
              (fun o => Done (Ok (Failed held o)))) held
             {| held with dlv_last_error := Some (substring 0 2000 message); dlv_state := "dead" |} r);
      [done|exact Hr|done|intros Heq|intros ts].
    all: unfold acts, same_job; cbn; rewrite ?Heqb, ?column_same; split_and!; try done.
    apply (f_equal dlv_state) in Heq. cbn in Heq. by rewrite Heq, column_same.
  - match goal with ts : Z |- _ =>
      apply (flush_held_locked (fun q => pbind (pbind q (fun _ => Done (Ok "retry")))
                (fun o => Done (Ok (Failed held o)))) held
               {| held with dlv_last_error := Some (substring 0 2000 message); dlv_state := "retrying";
                  dlv_next_retry_at := Some (ts + seconds (2 ^ held.(dlv_attempt_count) * 5))%Z |} r) end;
      [done|exact Hr|done|intros Heq|intros ts].
    all: unfold acts, same_job; cbn; rewrite ?Heqb, ?column_same; split_and!; try done.
    apply (f_equal dlv_state) in Heq. cbn in Heq. by rewrite Heq, column_same.
Qed.

(** [mark_dead] on the way out. *)
Lemma mark_dead_locked d error :
  row_id TDelivery d = id -> settled d = false ->
  locked TDelivery id acts d d
    (pbind (prog_of (mark_dead d error)) (fun c => prog_of (ret (Claimed c)))).
Proof.
  intros Hd Hs. pass_locked.
  all: apply locked_update; [exact Hd| |].
  all: intros; eval_prog; split; [done|].
  all: right; split_and!; try done.
  all: match goal with H : ?x = _ |- dlv_state ?x = _ => exact (f_equal dlv_state H) end.
Qed.

Lemma target_error_calm url : calm (prog_of (target_error url)).
Proof. apply calm_ptry; [apply checked_target_calm|]. by intros [] q' [= <-]. Qed.

Lemma claim_unlocked : unlocked TDelivery id acts (claim_session delivery_id).
Proof.
  unfold claim_session, claim_delivery. rewrite Hid. eval_prog.
  apply unlocked_select; [by intros r Hr%N.eqb_eq| |eval_prog; exact I]. intros d Hd.
  branch.
  { eval_prog. split; [done|]. left. split_and!; [done|exact Heqb|done]. }
  pass_locked. branch; [|by apply mark_dead_locked]. branch; [by apply mark_dead_locked|].
  apply locked_calm; [apply target_error_calm|]. intros error. branch; [by apply mark_dead_locked|].
  destruct (decrypt_signing_secret _) as [secret|e]; pass_locked; [|exact I].
  apply locked_update; [exact Hd| |].
  - intros Heq. exfalso. apply (f_equal dlv_attempt_count) in Heq. cbn in Heq. lia.
  - intros ts _. eval_prog. split; [done|]. split; [done|by exists ts].
Qed.

Lemma permission_calm p token org : calm (prog_of (require_permission p token org)).
Proof. unfold require_permission, get_organization_context, get_current_user. calm. Qed.

Lemma retry_unlocked token org : unlocked TDelivery id acts (retry_session token org id).
Proof.
  unfold retry_session, retry_delivery, lock_delivery.
  apply unlocked_calm; [apply permission_calm|]. intros context. cbv beta. eval_prog.
  apply unlocked_stmt; [reflexivity|reflexivity|]. intros endpoints _.
  eval_prog. apply unlocked_select; [by intros r [Hr%N.eqb_eq _]%andb_true_iff| |eval_prog; exact I].
  intros d Hd. pass_locked. branch; [eval_prog; exact I|]. branch; [eval_prog; exact I|].
  pass_locked. apply String.eqb_neq in Heqb1. apply locked_update; [exact Hd| |].
  all: intros; fold @pbind; pass_locked.
  all: eval_prog; first [exact I|split_and!; try done].
  all: match goal with H : ?x = _ |- dlv_state ?x = _ => exact (f_equal dlv_state H) end.
Qed.
End Unlocked.

(** ** Property *)
Inductive transaction :=
  | Claim
  | Fail_ (held : WebhookDelivery) (message : string)
  | Succeed_ (held : WebhookDelivery) (status_code : Z)
  | Retry_ (token : string) (organization_id : uuid).

Definition transaction_session {E : Env} (delivery_id : string) (id : uuid) (x : transaction) : prog delivery_end :=
  match x with
  | Claim => claim_session delivery_id
  | Fail_ held message => fail_session held delivery_id message
  | Succeed_ held status_code => succeed_session held delivery_id status_code
  | Retry_ token organization_id => retry_session token organization_id id
  end.

Definition is_attempt (a : delivery_end) : bool :=
  match a with Claimed (Attempt _ _ _ _) => true | _ => false end.

Lemma acts_count a d d' :
  acts a d d' -> d'.(dlv_attempt_count) = (d.(dlv_attempt_count) + if is_attempt a then 1 else 0)%Z.
Proof.
  destruct a as [[o|held url body hs]|held o|held| |]; cbn [acts is_attempt]; unfold same_job.
  - intros [[=] _]. lia.
  - intros (_ & -> & ts & ->). reflexivity.
  - intros [[=] _]. lia.
  - intros [[=] _]. lia.
  - intros [[=] _]. lia.
  - intros ->. lia.
Qed.

Lemma chain_count d0 (history : list (nat * delivery_end)) d :
  chain TDelivery acts d0 history d ->
  dlv_attempt_count d =
    (dlv_attempt_count d0 + Z.of_nat (List.length (filter (fun a => is_attempt a = true) history.*2)))%Z.
Proof.
  induction 1 as [d|d l d1 i a d2 _ IH Ha]; [cbn; lia|].
  rewrite fmap_app, filter_app, length_app. rewrite (acts_count _ _ _ Ha), IH. cbn [fmap list_fmap snd].
  destruct (is_attempt a) eqn:Hi.
  - rewrite filter_cons_True by done. cbn [List.length filter list_filter]. lia.
  - rewrite filter_cons_False by (rewrite Hi; discriminate). cbn [List.length filter list_filter]. lia.
Qed.

(** C23: overlapping runs of a delivery lose no attempt.  Any number of claims, settlements and
    retries by hand of one delivery, with sessions that leave it alone, interleaved in any order and
    some of them lost on the way: the delivery is what the committed transactions make of it one
    after the other, in the order of their commits, and attempt_count has grown by exactly the number
    of attempts claimed.  A settlement works with the object of its claim, which may be any: it
    decides dead or retry on the count of that object, which an attempt claimed since does not change,
    and its UPDATE leaves the columns that it did not change, attempt_count among them. *)
Theorem delivery_race {E : Env} delivery_id id d0 w transactions others S :
  reachable w -> parse_id delivery_id = Ok id -> find TDelivery (w_db w) id = Some d0 ->
  Forall (unlocked TDelivery id acts) others ->
  rtc sys_step (start w ((transaction_session delivery_id id <$> transactions) ++ others)) S ->
  exists history d,
    find TDelivery (w_db S.(sys_world)) id = Some d /\ chain TDelivery acts d0 history d /\
    NoDup history.*1 /\
    (forall i a, (i, a) ∈ history <-> exists ws, S.(sys_sessions) !! i = Some (Ended (Ok a) ws)) /\
    d.(dlv_attempt_count) = (d0.(dlv_attempt_count) +
      Z.of_nat (List.length (filter (fun a => is_attempt a = true) history.*2)))%Z.
Proof.
  intros [Hok _]%reachable_consistent Hid Hd Ho HS.
  assert (Hps : Forall (unlocked TDelivery id acts) ((transaction_session delivery_id id <$> transactions) ++ others)).
  { apply Forall_app. split; [|done]. apply Forall_map, Forall_forall. intros x _.
    destruct x;
      [by apply claim_unlocked|by apply fail_unlocked|by apply succeed_unlocked|by apply retry_unlocked]. }
  destruct (serialized TDelivery id acts w _ S d0 (db_ok_keyed _ Hok) Hd Hps HS)
    as (history & d & Hf & Hc & Hn & Hh).
  exists history, d. split_and!; [done..|by apply chain_count].
Qed.

(** Two claims, a failure, a retry by the owner, a success, and a session that reads all deliveries in
    between. *)
Definition acme_delivery : uuid := default 0%N (uuid_parse acme_job).
Definition held_after (n : Z) : WebhookDelivery :=
  let d := delivery_of acme_job w_setup in {| d with dlv_attempt_count := n |}.
Definition overlapping_runs : list transaction :=
  [Claim; Claim; Succeed_ (held_after 2) 200; Fail_ (held_after 1) "timed out";
   Retry_ alice_token acme].
Definition reader : prog delivery_end := Stmt (Select TDelivery (fun _ => true)) (fun _ => Done (Ok Elsewhere)).

Definition runs : list (prog delivery_end) :=
  ((transaction_session acme_job acme_delivery <$> overlapping_runs) ++ [reader])%list.

Lemma delivery_race_witness :
  exists S d0 history d,
    rtc sys_step (start w_setup runs) S /\
    find TDelivery (w_db S.(sys_world)) acme_delivery = Some d /\ chain TDelivery acts d0 history d /\
    (forall i, i ∈ [0; 1; 2; 3; 4; 5]%nat -> exists a, (i, a) ∈ history) /\
    d.(dlv_attempt_count) = (d0.(dlv_attempt_count) +
      Z.of_nat (List.length (filter (fun a => is_attempt a = true) history.*2)))%Z.
Proof.
  destruct (scheduled (E := sample_env)
              (turns [(0, 3); (4, 4); (5, 2); (0, 2); (1, 5); (3, 4); (4, 9); (2, 3)])
              (start w_setup runs) [0; 1; 2; 3; 4; 5]%nat ltac:(vm_compute; reflexivity)) as (S & HS & H0).
  destruct (row_exists (E := sample_env) TDelivery (fun d => N.eqb d.(dlv_id) acme_delivery) w_setup
              ltac:(vm_compute; reflexivity)) as (id & d0 & Hd & Hid%N.eqb_eq).
  assert (Hk : dlv_id d0 = id).
  { apply (db_ok_keyed (w_db w_setup)) in Hd; [done|]. by destruct (reachable_consistent _ w_setup_reachable). }
  rewrite Hid in Hk. subst id.
  destruct (delivery_race acme_job acme_delivery d0 w_setup overlapping_runs [reader] S w_setup_reachable
              ltac:(vm_compute; reflexivity) Hd)
    as (history & d & Hf & Hc & _ & Hh & Hcount).
  - apply Forall_singleton. apply unlocked_stmt; [done|done|]. by intros l _ r.
  - exact HS.
  - exists S, d0, history, d. split_and!; [exact HS|exact Hf|exact Hc| |exact Hcount].
    intros i Hi. destruct (H0 i Hi) as (a & ws & Ha). exists a. apply Hh. by exists ws.
Defined.
